(** * The memory manager of my_os (kernel/memory.c), embedded in Rocq.

    The C functions of kernel/memory.c are transcribed one by one as
    functions over an explicit machine state.  32-bit unsigned values are
    integers of [Z] with the wrap-around written out ([wrap32]); the
    functions that may stop the kernel in ASSERT or PANIC run in a small
    state-and-halt monad [M].  Diagnostic printing (put_str, put_int) has
    no effect on the state and is left out. *)

From Stdlib Require Import ZArith Lia Bool.
From stdpp Require Import base list.

Local Open Scope Z_scope.

(** ** Machine integers and constants *)

Definition wrap32 (x : Z) : Z := x mod 2 ^ 32.
Definition wrap16 (x : Z) : Z := x mod 2 ^ 16.

(** Modelled from the spec: PG_SIZE and DESC_CNT are macros of memory.h
    and global.h, which are not part of the sources at hand; the spec
    fixes the page size at 4096 bytes and the number of size classes at
    seven. *)
Definition PG_SIZE : Z := 4096.
Definition DESC_CNT : Z := 7.

(** Modelled from the spec: the paging flags of memory.h (present,
    read-write, user), with their x86 bit positions. *)
Definition PG_P_1 : Z := 1.
Definition PG_RW_W : Z := 2.
Definition PG_US_U : Z := 4.

(** Modelled from the spec: DIV_ROUND_UP is a macro of global.h; the
    spec reads it as the ceiling of the quotient, here computed on
    unsigned 32-bit operands as C does. *)
Definition DIV_ROUND_UP (x step : Z) : Z := wrap32 (x + step - 1) / step.

Definition MEM_BITMAP_BASE : Z := 0xc009a000.
Definition K_HEAP_START : Z := 0xc0100000.

(** [struct arena] holds a pointer, a bool and a 32-bit counter: twelve
    bytes on the 32-bit target, whatever the width of bool. *)
Definition sizeof_arena : Z := 12.

(** ** Data *)

(** [enum pool_flags]: PF_KERNEL = 1, PF_USER = 2. *)
Inductive pool_flags := PF_KERNEL | PF_USER.

Definition pool_flags_eqb (a b : pool_flags) : bool :=
  match a, b with
  | PF_KERNEL, PF_KERNEL | PF_USER, PF_USER => true
  | _, _ => false
  end.

(** [struct bitmap]: the bits live behind a pointer in C; here they are
    kept with the length, one [bool] per bit, bit 0 first. *)
Record bitmap := mk_bitmap {
  btmp_bytes_len : Z;
  bits : list bool
}.

(** [struct pool].  The lock is the count of acquisitions that the
    running thread has not released yet. *)
Record pool := mk_pool {
  pool_bitmap : bitmap;
  phy_addr_start : Z;
  pool_size : Z;
  lock : nat
}.

Record virtual_addr := mk_virtual_addr {
  vaddr_bitmap : bitmap;
  vaddr_start : Z
}.

(** [struct mem_block_desc]; the intrusive free list is the list of the
    addresses of the blocks linked on it, head first. *)
Record mem_block_desc := mk_mem_block_desc {
  block_size : Z;
  blocks_per_arena : Z;
  free_list : list Z
}.

(** The two descriptor arrays a [struct mem_block_desc *] can point
    into: the kernel's [k_block_descs] and the running task's
    [u_blcok_desc]; a pointer to a descriptor is an array and an index. *)
Inductive desc_array := K_BLOCK_DESCS | U_BLOCK_DESC.
Definition desc_ptr : Type := desc_array * nat.

(** [struct arena]; [desc = None] is the null pointer. *)
Record arena := mk_arena {
  desc : option desc_ptr;
  large : bool;
  cnt : Z
}.

(** The fields of [struct task_struct] the memory manager reads. *)
Record task_struct := mk_task_struct {
  pgdir : Z;
  userprog_vaddr : virtual_addr;
  u_blcok_desc : list mem_block_desc
}.

(** A byte of the heap as memory.c leaves it: a plain byte, or byte
    [off] of a [struct arena] stored there, whose fields [arenas] holds
    (which bytes make up a pointer or a bool is for the compiler and the
    linker to say). *)
Inductive memval := Byte (b : Z) | HeaderByte (off : Z).
Coercion Byte : Z >-> memval.

(** The machine state: the globals of memory.c, the running thread, and
    three views of memory: [ptmem], the 32-bit words of the page
    directory and page tables as seen through the recursive mapping at
    0xffc00000; [arenas], the arena header at each address; [vmem], the
    bytes of the heap as memset and the stores to the arena headers
    leave them (the links of the free lists, which live in the free
    blocks, are kept in [free_list]).  [intr] is the interrupt flag. *)
Record state := mk_state {
  kernel_pool : pool;
  user_pool : pool;
  kernel_vaddr : virtual_addr;
  k_block_descs : list mem_block_desc;
  cur : task_struct;
  ptmem : Z -> Z;
  arenas : Z -> arena;
  vmem : Z -> memval;
  intr : bool
}.

Definition set_kernel_pool (p : pool) (st : state) : state :=
  mk_state p (user_pool st) (kernel_vaddr st) (k_block_descs st) (cur st)
           (ptmem st) (arenas st) (vmem st) (intr st).
Definition set_user_pool (p : pool) (st : state) : state :=
  mk_state (kernel_pool st) p (kernel_vaddr st) (k_block_descs st) (cur st)
           (ptmem st) (arenas st) (vmem st) (intr st).
Definition set_kernel_vaddr (v : virtual_addr) (st : state) : state :=
  mk_state (kernel_pool st) (user_pool st) v (k_block_descs st) (cur st)
           (ptmem st) (arenas st) (vmem st) (intr st).
Definition set_k_block_descs (d : list mem_block_desc) (st : state) : state :=
  mk_state (kernel_pool st) (user_pool st) (kernel_vaddr st) d (cur st)
           (ptmem st) (arenas st) (vmem st) (intr st).
Definition set_cur (t : task_struct) (st : state) : state :=
  mk_state (kernel_pool st) (user_pool st) (kernel_vaddr st) (k_block_descs st) t
           (ptmem st) (arenas st) (vmem st) (intr st).
Definition set_ptmem (m : Z -> Z) (st : state) : state :=
  mk_state (kernel_pool st) (user_pool st) (kernel_vaddr st) (k_block_descs st)
           (cur st) m (arenas st) (vmem st) (intr st).
Definition set_arenas (m : Z -> arena) (st : state) : state :=
  mk_state (kernel_pool st) (user_pool st) (kernel_vaddr st) (k_block_descs st)
           (cur st) (ptmem st) m (vmem st) (intr st).
Definition set_vmem (m : Z -> memval) (st : state) : state :=
  mk_state (kernel_pool st) (user_pool st) (kernel_vaddr st) (k_block_descs st)
           (cur st) (ptmem st) (arenas st) m (intr st).
Definition set_intr (b : bool) (st : state) : state :=
  mk_state (kernel_pool st) (user_pool st) (kernel_vaddr st) (k_block_descs st)
           (cur st) (ptmem st) (arenas st) (vmem st) b.

Definition set_pool_bitmap (b : bitmap) (p : pool) : pool :=
  mk_pool b (phy_addr_start p) (pool_size p) (lock p).
Definition set_lock (l : nat) (p : pool) : pool :=
  mk_pool (pool_bitmap p) (phy_addr_start p) (pool_size p) l.
Definition set_vaddr_bitmap (b : bitmap) (v : virtual_addr) : virtual_addr :=
  mk_virtual_addr b (vaddr_start v).
Definition set_userprog_vaddr (v : virtual_addr) (t : task_struct) : task_struct :=
  mk_task_struct (pgdir t) v (u_blcok_desc t).
Definition set_u_blcok_desc (d : list mem_block_desc) (t : task_struct) : task_struct :=
  mk_task_struct (pgdir t) (userprog_vaddr t) d.
Definition set_free_list (l : list Z) (d : mem_block_desc) : mem_block_desc :=
  mk_mem_block_desc (block_size d) (blocks_per_arena d) l.
Definition set_cnt (c : Z) (a : arena) : arena :=
  mk_arena (desc a) (large a) c.

(** A [struct pool *] is one of the two global pools. *)
Inductive pool_id := KERNEL_POOL | USER_POOL.

Definition get_pool (m_pool : pool_id) (st : state) : pool :=
  match m_pool with
  | KERNEL_POOL => kernel_pool st
  | USER_POOL => user_pool st
  end.

Definition set_pool (m_pool : pool_id) (p : pool) (st : state) : state :=
  match m_pool with
  | KERNEL_POOL => set_kernel_pool p st
  | USER_POOL => set_user_pool p st
  end.

(** [pf & PF_KERNEL ? &kernel_pool : &user_pool] *)
Definition pool_of (pf : pool_flags) : pool_id :=
  match pf with
  | PF_KERNEL => KERNEL_POOL
  | PF_USER => USER_POOL
  end.

(** The virtual pool [vaddr_get] and [vaddr_remove] work on. *)
Definition get_vaddr (pf : pool_flags) (st : state) : virtual_addr :=
  match pf with
  | PF_KERNEL => kernel_vaddr st
  | PF_USER => userprog_vaddr (cur st)
  end.

Definition set_vaddr (pf : pool_flags) (v : virtual_addr) (st : state) : state :=
  match pf with
  | PF_KERNEL => set_kernel_vaddr v st
  | PF_USER => set_cur (set_userprog_vaddr v (cur st)) st
  end.

Definition get_descs (da : desc_array) (st : state) : list mem_block_desc :=
  match da with
  | K_BLOCK_DESCS => k_block_descs st
  | U_BLOCK_DESC => u_blcok_desc (cur st)
  end.

Definition set_descs (da : desc_array) (d : list mem_block_desc) (st : state) : state :=
  match da with
  | K_BLOCK_DESCS => set_k_block_descs d st
  | U_BLOCK_DESC => set_cur (set_u_blcok_desc d (cur st)) st
  end.

(** ** The state-and-halt monad *)

(** A call either returns a value and a state, or stops the kernel in
    ASSERT or PANIC (or in a memory access the C code leaves undefined). *)
Inductive outcome (A : Type) :=
| Ret (a : A) (st : state)
| Halt.
Arguments Ret {A} a st.
Arguments Halt {A}.

Definition M (A : Type) : Type := state -> outcome A.

Definition ret {A} (a : A) : M A := fun st => Ret a st.
Definition bind {A B} (m : M A) (k : A -> M B) : M B :=
  fun st => match m st with
            | Ret a st' => k a st'
            | Halt => Halt
            end.
Definition PANIC {A} : M A := fun _ => Halt.
Definition ASSERT (c : bool) : M unit := fun st => if c then Ret tt st else Halt.
Definition get : M state := fun st => Ret st st.
Definition modify (f : state -> state) : M unit := fun st => Ret tt (f st).

Notation "x <~ m ;; k" := (bind m (fun x => k))
  (at level 100, m at next level, right associativity).
Notation "m ;;; k" := (bind m (fun _ => k))
  (at level 100, right associativity).

(** ** The primitives memory.c builds on *)

Module Bitmap.

(** Modelled from the spec: bitmap_init, bitmap_set and bitmap_scan are
    functions of lib/kernel/bitmap.c, which is not part of the sources at
    hand.  The spec gives them as the bitmap primitive that scans for a
    run of clear bits and sets or clears a bit; its scenario S2 (the first
    page handed out is the first page of the pool) makes the scan return
    the lowest run. *)
Definition bitmap_init (btmp : bitmap) : bitmap :=
  mk_bitmap (btmp_bytes_len btmp)
            (replicate (Z.to_nat (btmp_bytes_len btmp * 8)) false).

(** Modelled from the spec: sets bit [bit_idx] to [value].  The C code
    writes outside the bitmap when the index is past its end; here such a
    write is dropped. *)
Definition bitmap_set (btmp : bitmap) (bit_idx : Z) (value : bool) : bitmap :=
  mk_bitmap (btmp_bytes_len btmp) (<[Z.to_nat bit_idx := value]> (bits btmp)).

(** [run_clear l n]: the first [n] bits of [l] exist and are clear. *)
Fixpoint run_clear (l : list bool) (n : nat) : bool :=
  match n with
  | O => true
  | S n' => match l with
            | false :: l' => run_clear l' n'
            | _ => false
            end
  end.

Fixpoint scan_from (l : list bool) (n : nat) (idx : Z) : Z :=
  match l with
  | [] => -1
  | _ :: l' => if run_clear l n then idx else scan_from l' n (idx + 1)
  end.

(** Modelled from the spec: the index of the first run of [cnt] clear
    bits, or -1 when there is none. *)
Definition bitmap_scan (btmp : bitmap) (cnt : Z) : Z :=
  scan_from (bits btmp) (Z.to_nat cnt) 0.

End Bitmap.
Export Bitmap.

Module KList.

(** Modelled from the spec: the intrusive list of lib/kernel/list.c (not
    part of the sources at hand), with the operations the spec names:
    append at the tail, pop from the head, empty, find, and the unlinking
    of an element.  An element is linked on a list at most once. *)
Definition list_empty (plist : list Z) : bool :=
  match plist with [] => true | _ => false end.

Definition list_append (plist : list Z) (elem : Z) : list Z := plist ++ [elem].

Definition elem_find (plist : list Z) (obj_elem : Z) : bool :=
  existsb (Z.eqb obj_elem) plist.

Definition list_remove (plist : list Z) (pelem : Z) : list Z :=
  filter (fun x => x <> pelem) plist.

End KList.
Export KList.

(** Modelled from the spec: lock_acquire and lock_release of
    thread/sync.c (not part of the sources at hand), as seen by the one
    running thread: acquiring counts up, releasing counts down. *)
Definition locked (m_pool : pool_id) (st : state) : state :=
  set_pool m_pool (set_lock (S (lock (get_pool m_pool st))) (get_pool m_pool st)) st.

Definition unlocked (m_pool : pool_id) (st : state) : state :=
  set_pool m_pool (set_lock (Nat.pred (lock (get_pool m_pool st))) (get_pool m_pool st)) st.

Definition lock_acquire (m_pool : pool_id) : M unit := modify (locked m_pool).

Definition lock_release (m_pool : pool_id) : M unit := modify (unlocked m_pool).

(** Modelled from the spec: intr_disable and intr_set_status of
    kernel/interrupt.c (not part of the sources at hand): the first turns
    interrupts off and returns the state they were in, the second sets it. *)
Definition intr_disable : M bool :=
  fun st => Ret (intr st) (set_intr false st).

Definition intr_set_status (status : bool) : M unit :=
  modify (set_intr status).

Definition zero_arena : arena := mk_arena None false 0.

(** memset(dst, 0, size) on the heap: the bytes of the range become zero,
    and so does every arena header that starts in it. *)
Definition zeroed (dst size : Z) (st : state) : state :=
  set_vmem (fun x => if (dst <=? x) && (x <? dst + size) then 0 else vmem st x)
    (set_arenas (fun x => if (dst <=? x) && (x <? dst + size) then zero_arena else arenas st x)
       st).

Definition memset0 (dst size : Z) : M unit := modify (zeroed dst size).

(** memset(dst, 0, size) on a page table: its words become zero. *)
Definition memset0_pt (dst size : Z) : M unit :=
  modify (fun st =>
    set_ptmem (fun x => if (dst <=? x) && (x <? dst + size) then 0 else ptmem st x) st).

(** [*p = w] for a page-directory or page-table entry. *)
Definition store_pt (p w : Z) : M unit :=
  modify (fun st => set_ptmem (fun x => if x =? p then w else ptmem st x) st).

(** ** kernel/memory.c *)

Definition PDE_IDX (addr : Z) : Z := Z.shiftr (Z.land addr 0xffc00000) 22.
Definition PTE_IDX (addr : Z) : Z := Z.shiftr (Z.land addr 0x003ff000) 12.

Definition pte_ptr (vaddr : Z) : Z :=
  wrap32 (0xffc00000 + Z.shiftr (Z.land vaddr 0xffc00000) 10 + PTE_IDX vaddr * 4).

Definition pde_ptr (vaddr : Z) : Z :=
  wrap32 (0xfffff000 + PDE_IDX vaddr * 4).

(** [while (cnt < pg_cnt) bitmap_set(btmp, bit_idx_start + cnt++, value);]
    with [n] iterations left. *)
Fixpoint bitmap_set_run (btmp : bitmap) (bit_idx_start c : Z) (n : nat) (value : bool) : bitmap :=
  match n with
  | O => btmp
  | S n' => bitmap_set_run (bitmap_set btmp (wrap32 (bit_idx_start + c)) value)
                           bit_idx_start (wrap32 (c + 1)) n' value
  end.

(** The null pointer is the address 0. *)
Definition NULL : Z := 0.

Definition vaddr_get (pf : pool_flags) (pg_cnt : Z) : M Z :=
  st <~ get ;;
  match pf with
  | PF_KERNEL =>
      let bit_idx_start := bitmap_scan (vaddr_bitmap (kernel_vaddr st)) pg_cnt in
      if bit_idx_start =? -1 then ret NULL
      else
        modify (set_kernel_vaddr
                  (set_vaddr_bitmap
                     (bitmap_set_run (vaddr_bitmap (kernel_vaddr st)) bit_idx_start 0
                                     (Z.to_nat pg_cnt) true)
                     (kernel_vaddr st))) ;;;
        ret (wrap32 (vaddr_start (kernel_vaddr st) + bit_idx_start * PG_SIZE))
  | PF_USER =>
      let bit_idx_start := bitmap_scan (vaddr_bitmap (userprog_vaddr (cur st))) pg_cnt in
      if bit_idx_start =? -1 then ret NULL
      else
        modify (set_cur
                  (set_userprog_vaddr
                     (set_vaddr_bitmap
                        (bitmap_set_run (vaddr_bitmap (userprog_vaddr (cur st))) bit_idx_start 0
                                        (Z.to_nat pg_cnt) true)
                        (userprog_vaddr (cur st)))
                     (cur st))) ;;;
        let vs := wrap32 (vaddr_start (userprog_vaddr (cur st)) + bit_idx_start * PG_SIZE) in
        ASSERT (vs <? 0xc0000000 - PG_SIZE) ;;;
        ret vs
  end.

Definition palloc (m_pool : pool_id) : M Z :=
  st <~ get ;;
  let bit_idx := bitmap_scan (pool_bitmap (get_pool m_pool st)) 1 in
  if bit_idx =? -1 then ret NULL
  else
    modify (set_pool m_pool
              (set_pool_bitmap (bitmap_set (pool_bitmap (get_pool m_pool st)) bit_idx true)
                               (get_pool m_pool st))) ;;;
    ret (wrap32 (bit_idx * PG_SIZE + phy_addr_start (get_pool m_pool st))).

(** [w & 0x00000001] is not zero. *)
Definition present (w : Z) : bool := negb (Z.land w 1 =? 0).

Definition page_table_add (vaddr page_phyaddr : Z) : M unit :=
  let pde := pde_ptr vaddr in
  let pte := pte_ptr vaddr in
  st <~ get ;;
  if present (ptmem st pde) then
    ASSERT (negb (present (ptmem st pte))) ;;;
    if negb (present (ptmem st pte)) then
      store_pt pte (Z.lor (Z.lor (Z.lor page_phyaddr PG_US_U) PG_RW_W) PG_P_1)
    else PANIC
  else
    pde_phyaddr <~ palloc KERNEL_POOL ;;
    store_pt pde (Z.lor (Z.lor (Z.lor pde_phyaddr PG_US_U) PG_RW_W) PG_P_1) ;;;
    memset0_pt (Z.land pte 0xfffff000) PG_SIZE ;;;
    st' <~ get ;;
    ASSERT (negb (present (ptmem st' pte))) ;;;
    store_pt pte (Z.lor (Z.lor (Z.lor page_phyaddr PG_US_U) PG_RW_W) PG_P_1).

(** The loop of malloc_page, with [n] pages left to map; it answers
    [false] when palloc fails (malloc_page then returns NULL, rolling
    nothing back). *)
Fixpoint malloc_page_loop (mem_pool : pool_id) (vaddr : Z) (n : nat) : M bool :=
  match n with
  | O => ret true
  | S n' =>
      page_phyaddr <~ palloc mem_pool ;;
      if page_phyaddr =? NULL then ret false
      else
        page_table_add vaddr page_phyaddr ;;;
        malloc_page_loop mem_pool (wrap32 (vaddr + PG_SIZE)) n'
  end.

Definition malloc_page (pf : pool_flags) (pg_cnt : Z) : M Z :=
  ASSERT ((0 <? pg_cnt) && (pg_cnt <? 3840)) ;;;
  vaddr_start <~ vaddr_get pf pg_cnt ;;
  if vaddr_start =? NULL then ret NULL
  else
    ok <~ malloc_page_loop (pool_of pf) vaddr_start (Z.to_nat pg_cnt) ;;
    if ok : bool then ret vaddr_start else ret NULL.

Definition get_kernel_pages (pg_cnt : Z) : M Z :=
  lock_acquire KERNEL_POOL ;;;
  vaddr <~ malloc_page PF_KERNEL pg_cnt ;;
  (if vaddr =? NULL then ret tt else memset0 vaddr (wrap32 (pg_cnt * PG_SIZE))) ;;;
  lock_release KERNEL_POOL ;;;
  ret vaddr.

Definition get_user_pages (pg_cnt : Z) : M Z :=
  lock_acquire USER_POOL ;;;
  vaddr <~ malloc_page PF_USER pg_cnt ;;
  (if vaddr =? NULL then ret tt else memset0 vaddr (wrap32 (pg_cnt * PG_SIZE))) ;;;
  lock_release USER_POOL ;;;
  ret vaddr.

Definition get_a_page (pf : pool_flags) (vaddr : Z) : M Z :=
  let mem_pool := pool_of pf in
  lock_acquire mem_pool ;;;
  st <~ get ;;
  (if negb (pgdir (cur st) =? NULL) && pool_flags_eqb pf PF_USER then
     let bit_idx := wrap32 (vaddr - vaddr_start (userprog_vaddr (cur st))) / PG_SIZE in
     ASSERT (0 <? bit_idx) ;;;
     modify (set_cur (set_userprog_vaddr
                        (set_vaddr_bitmap
                           (bitmap_set (vaddr_bitmap (userprog_vaddr (cur st))) bit_idx true)
                           (userprog_vaddr (cur st)))
                        (cur st)))
   else if (pgdir (cur st) =? NULL) && pool_flags_eqb pf PF_KERNEL then
     let bit_idx := wrap32 (vaddr - vaddr_start (kernel_vaddr st)) / PG_SIZE in
     ASSERT (0 <? bit_idx) ;;;
     modify (set_kernel_vaddr
               (set_vaddr_bitmap
                  (bitmap_set (vaddr_bitmap (kernel_vaddr st)) bit_idx true)
                  (kernel_vaddr st)))
   else PANIC) ;;;
  page_phyaddr <~ palloc mem_pool ;;
  if page_phyaddr =? NULL then ret NULL
  else
    page_table_add vaddr page_phyaddr ;;;
    lock_release mem_pool ;;;
    ret vaddr.

Definition get_a_page_without_opvaddrbitmap (pf : pool_flags) (vaddr : Z) : M Z :=
  let mem_pool := pool_of pf in
  lock_acquire mem_pool ;;;
  page_phyaddr <~ palloc mem_pool ;;
  if page_phyaddr =? NULL then
    lock_release mem_pool ;;;
    ret NULL
  else
    page_table_add vaddr page_phyaddr ;;;
    lock_release mem_pool ;;;
    ret vaddr.

Definition addr_v2p (st : state) (vaddr : Z) : Z :=
  wrap32 (Z.land (ptmem st (pte_ptr vaddr)) 0xfffff000 + Z.land vaddr 0x00000fff).

(** Modelled from the spec: lock_init of thread/sync.c (not part of the
    sources at hand) leaves the lock free. *)
Definition lock_init (p : pool) : pool := set_lock O p.

Definition mem_pool_init (all_mem : Z) (st : state) : state :=
  let page_table_size := wrap32 (PG_SIZE * 256) in
  let used_mem := wrap32 (page_table_size + 0x100000) in
  let free_mem := wrap32 (all_mem - used_mem) in
  let all_free_pages := wrap16 (free_mem / PG_SIZE) in
  let kernel_free_pages := wrap16 (all_free_pages / 2) in
  let user_free_pages := wrap16 (all_free_pages - kernel_free_pages) in
  let kbm_length := kernel_free_pages / 8 in
  let ubm_length := user_free_pages / 8 in
  let kp_start := used_mem in
  let up_start := wrap32 (kp_start + kernel_free_pages * PG_SIZE) in
  let kp := mk_pool (bitmap_init (mk_bitmap kbm_length (bits (pool_bitmap (kernel_pool st)))))
                    kp_start (wrap32 (kernel_free_pages * PG_SIZE))
                    (lock (kernel_pool st)) in
  let up := mk_pool (bitmap_init (mk_bitmap ubm_length (bits (pool_bitmap (user_pool st)))))
                    up_start (wrap32 (user_free_pages * PG_SIZE))
                    (lock (user_pool st)) in
  let kv := mk_virtual_addr
              (bitmap_init (mk_bitmap kbm_length (bits (vaddr_bitmap (kernel_vaddr st)))))
              K_HEAP_START in
  set_kernel_vaddr kv (set_user_pool (lock_init up) (set_kernel_pool (lock_init kp) st)).

(** The loop of block_desc_init, with [n] descriptors left to fill. *)
Fixpoint block_desc_init_loop (n : nat) (desc_idx : nat) (bsize : Z)
    (desc_array : list mem_block_desc) : list mem_block_desc :=
  match n with
  | O => desc_array
  | S n' =>
      block_desc_init_loop n' (S desc_idx) (wrap16 (bsize * 2))
        (<[desc_idx := mk_mem_block_desc bsize ((PG_SIZE - sizeof_arena) / bsize) []]>
           desc_array)
  end.

Definition block_desc_init (desc_array : list mem_block_desc) : list mem_block_desc :=
  block_desc_init_loop (Z.to_nat DESC_CNT) 0 16 desc_array.

(** [mem_bytes_total] is the word the boot loader left at 0xb00. *)
Definition mem_init (mem_bytes_total : Z) (st : state) : state :=
  let st1 := mem_pool_init mem_bytes_total st in
  set_k_block_descs (block_desc_init (k_block_descs st1)) st1.

(** [*dp] for a descriptor pointer; an index outside the array is an
    access the C code leaves undefined, and halts here. *)
Definition read_desc (dp : desc_ptr) : M mem_block_desc :=
  st <~ get ;;
  match get_descs (fst dp) st !! snd dp with
  | Some d => ret d
  | None => PANIC
  end.

(** The state with one descriptor replaced. *)
Definition set_desc (da : desc_array) (i : nat) (d : mem_block_desc) (st : state) : state :=
  set_descs da (<[i := d]> (get_descs da st)) st.

Definition write_desc (dp : desc_ptr) (d : mem_block_desc) : M unit :=
  modify (set_desc (fst dp) (snd dp) d).

(** [a->desc], followed; a null [desc] cannot be followed and halts. *)
Definition arena_desc (a : Z) : M desc_ptr :=
  st <~ get ;;
  match desc (arenas st a) with
  | Some dp => ret dp
  | None => PANIC
  end.

(** The state with the header of one arena replaced: a store to
    [a->desc], [a->large] or [a->cnt] lands in the [sizeof_arena] bytes
    at [a]. *)
Definition with_arena (a : Z) (h : arena) (st : state) : state :=
  set_vmem (fun x => if (a <=? x) && (x <? a + sizeof_arena) then HeaderByte (x - a)
                     else vmem st x)
    (set_arenas (fun x => if x =? a then h else arenas st x) st).

Definition write_arena (a : Z) (h : arena) : M unit := modify (with_arena a h).

Definition arena2block (a idx : Z) : M Z :=
  dp <~ arena_desc a ;;
  d <~ read_desc dp ;;
  ret (wrap32 (a + sizeof_arena + idx * block_size d)).

Definition block2arena (b : Z) : Z := Z.land b 0xfffff000.

(** The loop that picks the size class, with [n] descriptors left to
    try; it stops at DESC_CNT when none is large enough. *)
Fixpoint find_desc (descs : list mem_block_desc) (size : Z) (desc_idx n : nat) : nat :=
  match n with
  | O => desc_idx
  | S n' =>
      match descs !! desc_idx with
      | Some d => if size <=? block_size d then desc_idx
                  else find_desc descs size (S desc_idx) n'
      | None => desc_idx
      end
  end.

(** The loop that carves a new arena into blocks and links them on the
    free list, with [n] blocks left. *)
Fixpoint arena_fill (a block_idx : Z) (n : nat) : M unit :=
  match n with
  | O => ret tt
  | S n' =>
      b <~ arena2block a block_idx ;;
      dp <~ arena_desc a ;;
      d <~ read_desc dp ;;
      ASSERT (negb (elem_find (free_list d) b)) ;;;
      write_desc dp (set_free_list (list_append (free_list d) b) d) ;;;
      arena_fill a (wrap32 (block_idx + 1)) n'
  end.

(** The end of the small path of sys_malloc: pop a block, clear it,
    count it out of its arena.  Popping from an empty list is an access
    the C code leaves undefined, and halts here. *)
Definition sys_malloc_take (dp : desc_ptr) (mem_pool : pool_id) : M Z :=
  d <~ read_desc dp ;;
  match free_list d with
  | [] => PANIC
  | b :: rest =>
      write_desc dp (set_free_list rest d) ;;;
      memset0 b (block_size d) ;;;
      let a := block2arena b in
      st <~ get ;;
      write_arena a (set_cnt (wrap32 (cnt (arenas st a) - 1)) (arenas st a)) ;;;
      lock_release mem_pool ;;;
      ret b
  end.

(** The large path of sys_malloc: whole pages behind an arena header. *)
Definition sys_malloc_large (PF : pool_flags) (mem_pool : pool_id) (size : Z) : M Z :=
  let page_cnt := DIV_ROUND_UP (wrap32 (size + sizeof_arena)) PG_SIZE in
  a <~ malloc_page PF page_cnt ;;
  if negb (a =? NULL) then
    memset0 a (wrap32 (page_cnt * PG_SIZE)) ;;;
    write_arena a (mk_arena None true page_cnt) ;;;
    lock_release mem_pool ;;;
    ret (wrap32 (a + sizeof_arena))
  else
    lock_release mem_pool ;;;
    ret NULL.

(** The small path of sys_malloc: a block of the fitting size class. *)
Definition sys_malloc_small (PF : pool_flags) (mem_pool : pool_id) (descs : desc_array)
    (size : Z) : M Z :=
  st <~ get ;;
  let desc_idx := find_desc (get_descs descs st) size 0 (Z.to_nat DESC_CNT) in
  d <~ read_desc (descs, desc_idx) ;;
  if list_empty (free_list d) then
    a <~ malloc_page PF 1 ;;
    if a =? NULL then
      lock_release mem_pool ;;;
      ret NULL
    else
      memset0 a PG_SIZE ;;;
      write_arena a (mk_arena (Some (descs, desc_idx)) false (blocks_per_arena d)) ;;;
      old_status <~ intr_disable ;;
      arena_fill a 0 (Z.to_nat (blocks_per_arena d)) ;;;
      intr_set_status old_status ;;;
      sys_malloc_take (descs, desc_idx) mem_pool
  else
    sys_malloc_take (descs, desc_idx) mem_pool.

(** sys_malloc once PF, pool_size, mem_pool and descs are chosen. *)
Definition sys_malloc_in (PF : pool_flags) (psize : Z) (mem_pool : pool_id)
    (descs : desc_array) (size : Z) : M Z :=
  if negb ((0 <? size) && (size <? psize)) then ret NULL
  else
    lock_acquire mem_pool ;;;
    if 1024 <? size then sys_malloc_large PF mem_pool size
    else sys_malloc_small PF mem_pool descs size.

Definition sys_malloc (size : Z) : M Z :=
  st <~ get ;;
  if pgdir (cur st) =? NULL
  then sys_malloc_in PF_KERNEL (pool_size (kernel_pool st)) KERNEL_POOL K_BLOCK_DESCS size
  else sys_malloc_in PF_USER (pool_size (user_pool st)) USER_POOL U_BLOCK_DESC size.

Definition pfree (pg_phy_addr : Z) : M unit :=
  st <~ get ;;
  if phy_addr_start (user_pool st) <=? pg_phy_addr then
    let bit_idx := wrap32 (pg_phy_addr - phy_addr_start (user_pool st)) / PG_SIZE in
    modify (set_user_pool (set_pool_bitmap (bitmap_set (pool_bitmap (user_pool st)) bit_idx false)
                                           (user_pool st)))
  else
    let bit_idx := wrap32 (pg_phy_addr - phy_addr_start (kernel_pool st)) / PG_SIZE in
    modify (set_kernel_pool (set_pool_bitmap (bitmap_set (pool_bitmap (kernel_pool st)) bit_idx false)
                                             (kernel_pool st))).

(** [*pte &= ~PG_P_1]; the TLB flush that follows changes no state. *)
Definition page_table_pte_remove (vaddr : Z) : M unit :=
  st <~ get ;;
  store_pt (pte_ptr vaddr) (Z.land (ptmem st (pte_ptr vaddr)) 0xfffffffe).

Definition vaddr_remove (pf : pool_flags) (_vaddr pg_cnt : Z) : M unit :=
  st <~ get ;;
  match pf with
  | PF_KERNEL =>
      let bit_idx_start := wrap32 (_vaddr - vaddr_start (kernel_vaddr st)) / PG_SIZE in
      modify (set_kernel_vaddr
                (set_vaddr_bitmap
                   (bitmap_set_run (vaddr_bitmap (kernel_vaddr st)) bit_idx_start 0
                                   (Z.to_nat pg_cnt) false)
                   (kernel_vaddr st)))
  | PF_USER =>
      let bit_idx_start := wrap32 (_vaddr - vaddr_start (userprog_vaddr (cur st))) / PG_SIZE in
      modify (set_cur
                (set_userprog_vaddr
                   (set_vaddr_bitmap
                      (bitmap_set_run (vaddr_bitmap (userprog_vaddr (cur st))) bit_idx_start 0
                                      (Z.to_nat pg_cnt) false)
                      (userprog_vaddr (cur st)))
                   (cur st)))
  end.

(** The two loops of mfree_page, with [n] pages left; [user] tells which
    of the two it is, and so which assertion guards each frame. *)
Fixpoint mfree_page_loop (user : bool) (vaddr : Z) (n : nat) : M unit :=
  match n with
  | O => ret tt
  | S n' =>
      let vaddr := wrap32 (vaddr + PG_SIZE) in
      st <~ get ;;
      let pg_phy_addr := addr_v2p st vaddr in
      ASSERT (if user
              then (pg_phy_addr mod PG_SIZE =? 0)
                   && (phy_addr_start (user_pool st) <=? pg_phy_addr)
              else (pg_phy_addr mod PG_SIZE =? 0)
                   && (phy_addr_start (kernel_pool st) <=? pg_phy_addr)
                   && (pg_phy_addr <? phy_addr_start (user_pool st))) ;;;
      pfree pg_phy_addr ;;;
      page_table_pte_remove vaddr ;;;
      mfree_page_loop user vaddr n'
  end.

Definition mfree_page (pf : pool_flags) (_vaddr pg_cnt : Z) : M unit :=
  ASSERT ((1 <=? pg_cnt) && (_vaddr mod PG_SIZE =? 0)) ;;;
  st <~ get ;;
  let pg_phy_addr := addr_v2p st _vaddr in
  ASSERT ((pg_phy_addr mod PG_SIZE =? 0) && (0x102000 <=? pg_phy_addr)) ;;;
  if phy_addr_start (user_pool st) <=? pg_phy_addr then
    mfree_page_loop true (wrap32 (_vaddr - PG_SIZE)) (Z.to_nat pg_cnt) ;;;
    vaddr_remove pf _vaddr pg_cnt
  else
    mfree_page_loop false (wrap32 (_vaddr - PG_SIZE)) (Z.to_nat pg_cnt) ;;;
    vaddr_remove pf _vaddr pg_cnt.

(** The loop of sys_free that unlinks every block of a free arena, with
    [n] blocks left. *)
Fixpoint arena_unlink (a block_idx : Z) (n : nat) : M unit :=
  match n with
  | O => ret tt
  | S n' =>
      b <~ arena2block a block_idx ;;
      dp <~ arena_desc a ;;
      d <~ read_desc dp ;;
      ASSERT (elem_find (free_list d) b) ;;;
      write_desc dp (set_free_list (list_remove (free_list d) b) d) ;;;
      arena_unlink a (wrap32 (block_idx + 1)) n'
  end.

(** sys_free once PF and mem_pool are chosen. *)
Definition sys_free_in (PF : pool_flags) (mem_pool : pool_id) (ptr : Z) : M unit :=
  lock_acquire mem_pool ;;;
  let b := ptr in
  let a := block2arena b in
  st <~ get ;;
  (match desc (arenas st a), large (arenas st a) with
   | None, true => mfree_page PF a (cnt (arenas st a))
   | _, _ =>
       dp <~ arena_desc a ;;
       d <~ read_desc dp ;;
       write_desc dp (set_free_list (list_append (free_list d) b) d) ;;;
       write_arena a (set_cnt (wrap32 (cnt (arenas st a) + 1)) (arenas st a)) ;;;
       if wrap32 (cnt (arenas st a) + 1) =? blocks_per_arena d then
         arena_unlink a 0 (Z.to_nat (blocks_per_arena d)) ;;;
         mfree_page PF a 1
       else ret tt
   end) ;;;
  lock_release mem_pool.

Definition sys_free (ptr : Z) : M unit :=
  ASSERT (negb (ptr =? NULL)) ;;;
  if negb (ptr =? NULL) then
    st <~ get ;;
    if pgdir (cur st) =? NULL then
      ASSERT (K_HEAP_START <=? ptr) ;;;
      sys_free_in PF_KERNEL KERNEL_POOL ptr
    else
      sys_free_in PF_USER USER_POOL ptr
  else ret tt.

Definition free_a_phy_page (pg_phy_addr : Z) : M unit :=
  st <~ get ;;
  if phy_addr_start (user_pool st) <=? pg_phy_addr then
    let bit_idx := wrap32 (pg_phy_addr - phy_addr_start (user_pool st)) / PG_SIZE in
    modify (set_user_pool (set_pool_bitmap (bitmap_set (pool_bitmap (user_pool st)) bit_idx false)
                                           (user_pool st)))
  else
    let bit_idx := wrap32 (pg_phy_addr - phy_addr_start (kernel_pool st)) / PG_SIZE in
    modify (set_kernel_pool (set_pool_bitmap (bitmap_set (pool_bitmap (kernel_pool st)) bit_idx false)
                                             (kernel_pool st))).

(** * Example states *)

(** The page directory as the loader leaves it, seen through the
    recursive mapping: the entries 768 to 1022, which cover the kernel's
    gigabyte, point to page tables that exist; no page of the heap is
    mapped yet. *)
Definition boot_ptmem (x : Z) : Z :=
  if (0xfffffc00 <=? x) && (x <? 0xfffffffc) && (x mod 4 =? 0)
  then 0x101007 + (x - 0xfffffc00) / 4 * PG_SIZE
  else 0.

Definition empty_bitmap : bitmap := mk_bitmap 0 [].

(** The state mem_init starts from: nothing initialised, the main kernel
    thread (no page directory of its own) running. *)
Definition boot_state : state :=
  mk_state (mk_pool empty_bitmap 0 0 0) (mk_pool empty_bitmap 0 0 0)
           (mk_virtual_addr empty_bitmap 0)
           (replicate 7 (mk_mem_block_desc 0 0 []))
           (mk_task_struct NULL (mk_virtual_addr empty_bitmap 0) [])
           boot_ptmem (fun _ => zero_arena) (fun _ => 0) true.

(** A machine with 32 MiB, initialised. *)
Definition state_32M : state := mem_init 0x02000000 boot_state.

(** What a call leaves behind, when it returns. *)
Definition final_state {A} (o : outcome A) : option state :=
  match o with
  | Ret _ st => Some st
  | Halt => None
  end.

Definition returned {A} (o : outcome A) : option A :=
  match o with
  | Ret a _ => Some a
  | Halt => None
  end.

(** * Machine arithmetic *)

Lemma wrap32_small x : 0 <= x < 2 ^ 32 -> wrap32 x = x.
Proof. intros H. unfold wrap32. apply Z.mod_small. exact H. Qed.

Lemma wrap16_small x : 0 <= x < 2 ^ 16 -> wrap16 x = x.
Proof. intros H. unfold wrap16. apply Z.mod_small. exact H. Qed.

Lemma wrap32_range x : 0 <= wrap32 x < 2 ^ 32.
Proof. unfold wrap32. apply Z.mod_pos_bound. lia. Qed.

Lemma wrap16_range x : 0 <= wrap16 x < 2 ^ 16.
Proof. unfold wrap16. apply Z.mod_pos_bound. lia. Qed.

(** * mem_init: the split of physical memory *)

Section MemInit.

Variable all_mem : Z.
Variable st : state.

(** The 16-bit count of free pages mem_pool_init works with. *)
Definition all_free_pages16 : Z := wrap16 (wrap32 (all_mem - 0x200000) / PG_SIZE).

Lemma mem_pool_init_kernel_size :
  pool_size (kernel_pool (mem_pool_init all_mem st))
  = all_free_pages16 / 2 * PG_SIZE.
Proof.
  change (pool_size (kernel_pool (mem_pool_init all_mem st)))
    with (wrap32 (wrap16 (all_free_pages16 / 2) * PG_SIZE)).
  pose proof (wrap16_range (wrap32 (all_mem - 0x200000) / PG_SIZE)) as Hn.
  fold all_free_pages16 in Hn.
  assert (0 <= all_free_pages16 / 2 < 2 ^ 15) as Hk.
  { split; [apply Z.div_pos; lia | apply Z.div_lt_upper_bound; lia]. }
  rewrite wrap16_small by lia.
  apply wrap32_small. unfold PG_SIZE. lia.
Qed.

Lemma mem_pool_init_user_size :
  pool_size (user_pool (mem_pool_init all_mem st))
  = (all_free_pages16 - all_free_pages16 / 2) * PG_SIZE.
Proof.
  change (pool_size (user_pool (mem_pool_init all_mem st)))
    with (wrap32 (wrap16 (all_free_pages16 - wrap16 (all_free_pages16 / 2)) * PG_SIZE)).
  pose proof (wrap16_range (wrap32 (all_mem - 0x200000) / PG_SIZE)) as Hn.
  fold all_free_pages16 in Hn.
  assert (0 <= all_free_pages16 / 2 <= all_free_pages16) as Hk.
  { split; [apply Z.div_pos; lia | apply Z.div_le_upper_bound; lia]. }
  rewrite (wrap16_small (all_free_pages16 / 2)) by lia.
  rewrite wrap16_small by lia.
  apply wrap32_small. unfold PG_SIZE. lia.
Qed.

Lemma mem_pool_init_kernel_start :
  phy_addr_start (kernel_pool (mem_pool_init all_mem st)) = 0x200000.
Proof. reflexivity. Qed.

Lemma mem_pool_init_user_start :
  phy_addr_start (user_pool (mem_pool_init all_mem st))
  = 0x200000 + all_free_pages16 / 2 * PG_SIZE.
Proof.
  change (phy_addr_start (user_pool (mem_pool_init all_mem st)))
    with (wrap32 (0x200000 + wrap16 (all_free_pages16 / 2) * PG_SIZE)).
  pose proof (wrap16_range (wrap32 (all_mem - 0x200000) / PG_SIZE)) as Hn.
  fold all_free_pages16 in Hn.
  assert (0 <= all_free_pages16 / 2 < 2 ^ 15) as Hk.
  { split; [apply Z.div_pos; lia | apply Z.div_lt_upper_bound; lia]. }
  rewrite wrap16_small by lia.
  apply wrap32_small. unfold PG_SIZE. lia.
Qed.

Lemma mem_init_pools :
  kernel_pool (mem_init all_mem st) = kernel_pool (mem_pool_init all_mem st)
  /\ user_pool (mem_init all_mem st) = user_pool (mem_pool_init all_mem st).
Proof. split; reflexivity. Qed.

End MemInit.

(** C3, as the code has it: mem_init gives the kernel pool the half of
    the free frames rounded down and the user pool the rest, so when the
    count is odd the extra frame belongs to the user pool, and the user
    pool is never the smaller of the two. *)
Theorem mem_init_split (all_mem : Z) (st : state) :
  let n := all_free_pages16 all_mem in
  let s := mem_init all_mem st in
  pool_size (kernel_pool s) = n / 2 * PG_SIZE
  /\ pool_size (user_pool s) = (n - n / 2) * PG_SIZE
  /\ pool_size (kernel_pool s) <= pool_size (user_pool s)
  /\ pool_size (user_pool s) <= pool_size (kernel_pool s) + PG_SIZE
  /\ (n mod 2 = 1 -> pool_size (user_pool s) = pool_size (kernel_pool s) + PG_SIZE).
Proof.
  intros n s. subst s.
  destruct (mem_init_pools all_mem st) as [-> ->].
  rewrite mem_pool_init_kernel_size, mem_pool_init_user_size.
  fold n. unfold PG_SIZE.
  pose proof (Z.div_mod n 2 ltac:(lia)) as Hdm.
  pose proof (Z.mod_pos_bound n 2 ltac:(lia)) as Hm.
  repeat split; try lia.
Qed.

(** C3, as the claim has it, fails: with three free frames the kernel
    pool gets one and the user pool two. *)
Lemma mem_init_odd_frame_to_user :
  pool_size (kernel_pool (mem_init 0x203000 boot_state)) = 4096
  /\ pool_size (user_pool (mem_init 0x203000 boot_state)) = 8192
  /\ ~ (pool_size (kernel_pool (mem_init 0x203000 boot_state))
        >= pool_size (user_pool (mem_init 0x203000 boot_state))).
Proof. vm_compute. repeat split; congruence. Qed.

(** C9: the counts of free pages are 16-bit, so on a machine whose free
    region holds 65536 frames or more the pools are laid out from the
    count reduced modulo 2^16, and cover fewer frames than there are. *)
Theorem mem_pool_init_16bit_counts (all_mem : Z) (st : state)
    (Hrange : 0 <= all_mem < 2 ^ 32)
    (Hbig : 65536 <= (all_mem - 0x200000) / PG_SIZE) :
  let pages := (all_mem - 0x200000) / PG_SIZE in
  let n := pages mod 2 ^ 16 in
  let s := mem_pool_init all_mem st in
  pool_size (kernel_pool s) = n / 2 * PG_SIZE
  /\ pool_size (user_pool s) = (n - n / 2) * PG_SIZE
  /\ phy_addr_start (kernel_pool s) = 0x200000
  /\ phy_addr_start (user_pool s) = 0x200000 + n / 2 * PG_SIZE
  /\ pool_size (kernel_pool s) + pool_size (user_pool s) < pages * PG_SIZE.
Proof.
  intros pages n s. subst s.
  assert (0x200000 <= all_mem) as Hlo.
  { unfold PG_SIZE in Hbig.
    destruct (Z_lt_le_dec all_mem 0x200000) as [Hlt|]; [|assumption].
    assert ((all_mem - 0x200000) / 4096 < 0) by (apply Z.div_lt_upper_bound; lia).
    lia. }
  assert (all_free_pages16 all_mem = n) as Hn.
  { unfold all_free_pages16. rewrite wrap32_small by lia. reflexivity. }
  rewrite mem_pool_init_kernel_size, mem_pool_init_user_size,
    mem_pool_init_kernel_start, mem_pool_init_user_start, Hn.
  pose proof (Z.mod_pos_bound pages (2 ^ 16) ltac:(lia)) as Hb. fold n in Hb.
  unfold PG_SIZE in *. fold pages in Hbig.
  repeat split; try reflexivity. lia.
Qed.

Lemma mem_pool_init_16bit_counts_512M :
  (0 <= 0x20000000 < 2 ^ 32)
  /\ 65536 <= (0x20000000 - 0x200000) / PG_SIZE
  /\ pool_size (kernel_pool (mem_pool_init 0x20000000 boot_state)) = 32512 * PG_SIZE
  /\ pool_size (user_pool (mem_pool_init 0x20000000 boot_state)) = 32512 * PG_SIZE.
Proof.
  assert (0 <= 0x20000000 < 2 ^ 32) as H1 by lia.
  assert (65536 <= (0x20000000 - 0x200000) / PG_SIZE) as H2 by (vm_compute; congruence).
  split; [exact H1|]. split; [exact H2|].
  destruct (mem_pool_init_16bit_counts 0x20000000 boot_state H1 H2) as (Hk & Hu & _).
  split; [rewrite Hk | rewrite Hu]; reflexivity.
Defined.

(** * The page-count assertion of malloc_page *)

(** The pool_size sys_malloc compares the request with. *)
Definition caller_pool_size (st : state) : Z :=
  if pgdir (cur st) =? NULL then pool_size (kernel_pool st) else pool_size (user_pool st).

Lemma malloc_page_halts pf pg_cnt st :
  pg_cnt = 0 \/ 3840 <= pg_cnt -> malloc_page pf pg_cnt st = Halt.
Proof.
  intros H. unfold malloc_page, bind, ASSERT.
  replace ((0 <? pg_cnt) && (pg_cnt <? 3840)) with false; [reflexivity|].
  symmetry. apply andb_false_iff. destruct H as [-> | H]; [left; reflexivity|].
  right. apply Z.ltb_ge. exact H.
Qed.

Lemma malloc_page_returns pf pg_cnt st a st' :
  malloc_page pf pg_cnt st = Ret a st' -> 0 < pg_cnt < 3840.
Proof.
  intros H.
  destruct (Z_lt_le_dec 0 pg_cnt) as [H0|H0]; [destruct (Z_lt_le_dec pg_cnt 3840) as [H1|H1]|].
  - lia.
  - rewrite malloc_page_halts in H by (right; exact H1). discriminate.
  - unfold malloc_page, bind, ASSERT in H.
    replace (0 <? pg_cnt) with false in H by (symmetry; apply Z.ltb_ge; exact H0).
    discriminate.
Qed.

(** C10: malloc_page asserts 0 < pg_cnt < 3840, so a request for no page
    or for 3840 pages or more halts the kernel, in malloc_page itself, in
    get_kernel_pages and get_user_pages, and in a sys_malloc whose large
    path asks for that many pages. *)
Theorem malloc_page_count_assert (pf : pool_flags) (pg_cnt : Z) (st : state)
    (H : pg_cnt = 0 \/ 3840 <= pg_cnt) :
  malloc_page pf pg_cnt st = Halt
  /\ get_kernel_pages pg_cnt st = Halt
  /\ get_user_pages pg_cnt st = Halt
  /\ (forall size, 1024 < size -> size < caller_pool_size st ->
        DIV_ROUND_UP (wrap32 (size + sizeof_arena)) PG_SIZE = pg_cnt ->
        sys_malloc size st = Halt).
Proof.
  split; [apply malloc_page_halts; exact H|].
  split; [unfold get_kernel_pages, bind, lock_acquire, modify;
          rewrite malloc_page_halts by exact H; reflexivity|].
  split; [unfold get_user_pages, bind, lock_acquire, modify;
          rewrite malloc_page_halts by exact H; reflexivity|].
  intros size Hbig Hfit Hcnt.
  unfold caller_pool_size in Hfit. revert Hfit.
  unfold sys_malloc, bind, get.
  destruct (pgdir (cur st) =? NULL); intros Hfit; unfold sys_malloc_in.
  all: rewrite (proj2 (Z.ltb_lt 0 size)) by lia.
  all: rewrite (proj2 (Z.ltb_lt _ _) Hfit), (proj2 (Z.ltb_lt _ _) Hbig).
  all: cbn [andb negb]; unfold bind, lock_acquire, modify, sys_malloc_large, bind.
  all: rewrite Hcnt, malloc_page_halts by exact H; reflexivity.
Qed.

Lemma malloc_page_count_assert_3840 :
  (3840 = 0 \/ 3840 <= 3840)
  /\ malloc_page PF_KERNEL 3840 state_32M = Halt
  /\ get_kernel_pages 3840 state_32M = Halt
  /\ get_user_pages 3840 state_32M = Halt
  /\ sys_malloc (3840 * 4096 - 12) state_32M = Halt.
Proof.
  assert (3840 = 0 \/ 3840 <= 3840) as H by (right; lia).
  split; [exact H|].
  destruct (malloc_page_count_assert PF_KERNEL 3840 state_32M H) as (H1 & H2 & H3 & H4).
  split; [exact H1|]. split; [exact H2|]. split; [exact H3|].
  apply H4; vm_compute; reflexivity.
Defined.

(** * The size check of sys_malloc *)

(** C4, as the code has it: a request of size 0, or of the pool size or
    more, returns null and leaves the whole state as it was.  The
    converse does not hold: a size in range can give null as well. *)
Theorem sys_malloc_rejects (size : Z) (st : state)
    (H : size = 0 \/ caller_pool_size st <= size) :
  sys_malloc size st = Ret NULL st.
Proof.
  unfold caller_pool_size in H. revert H.
  unfold sys_malloc, bind, get.
  destruct (pgdir (cur st) =? NULL); intros H; unfold sys_malloc_in.
  all: assert (forall p, (size = 0 \/ p <= size) -> (0 <? size) && (size <? p) = false) as Hc.
  all: try (intros p Hp; apply andb_false_iff; destruct Hp as [-> | Hp];
            [left; reflexivity | right; apply Z.ltb_ge; exact Hp]).
  all: rewrite Hc by exact H; reflexivity.
Qed.

Lemma sys_malloc_rejects_pool_size :
  (15728640 = 0 \/ caller_pool_size state_32M <= 15728640)
  /\ sys_malloc 15728640 state_32M = Ret NULL state_32M.
Proof.
  assert (15728640 = 0 \/ caller_pool_size state_32M <= 15728640) as H
    by (right; vm_compute; congruence).
  split; [exact H|]. exact (sys_malloc_rejects 15728640 state_32M H).
Defined.

(** A small machine (eight frames for the kernel) whose kernel pool has
    been handed out entirely by one call of get_kernel_pages. *)
Definition state_64K : state := mem_init 0x210000 boot_state.

Definition state_full : state :=
  match get_kernel_pages 8 state_64K with
  | Ret _ st => st
  | Halt => state_64K
  end.

(** C4, as the claim has it, fails: on a machine whose eight kernel
    frames are all in use and whose free lists are empty, a request of
    16 bytes, within the size range, returns null as well. *)
Lemma sys_malloc_null_in_range :
  0 < 16 < caller_pool_size state_full
  /\ returned (sys_malloc 16 state_full) = Some NULL
  /\ ~ (16 = 0 \/ caller_pool_size state_full <= 16).
Proof.
  assert (caller_pool_size state_full = 32768) as -> by (vm_compute; reflexivity).
  split; [lia|]. split; [vm_compute; reflexivity | lia].
Qed.

(** * The lock of get_a_page *)

(** C2: when palloc fails, get_a_page returns null with the lock of the
    pool still held, where get_a_page_without_opvaddrbitmap, on the same
    input, releases it. *)
Theorem get_a_page_keeps_lock_on_failure :
  lock (kernel_pool state_full) = 0%nat
  /\ match get_a_page PF_KERNEL 0xc0101000 state_full with
     | Ret p st' => p = NULL /\ lock (kernel_pool st') = 1%nat
     | Halt => False
     end
  /\ match get_a_page_without_opvaddrbitmap PF_KERNEL 0xc0101000 state_full with
     | Ret p st' => p = NULL /\ lock (kernel_pool st') = 0%nat
     | Halt => False
     end.
Proof. vm_compute. repeat split; reflexivity. Qed.

(** * The assertion of vaddr_get on user addresses *)

(** C7, as the code has it: when the scan of the user bitmap finds a
    run, vaddr_get halts exactly when the base address of the run is not
    below 0xc0000000 - PG_SIZE; the length of the run plays no part. *)
Theorem vaddr_get_user_assert (st : state) (pg_cnt : Z)
    (Hscan : bitmap_scan (vaddr_bitmap (userprog_vaddr (cur st))) pg_cnt <> -1) :
  let base := wrap32 (vaddr_start (userprog_vaddr (cur st))
                      + bitmap_scan (vaddr_bitmap (userprog_vaddr (cur st))) pg_cnt * PG_SIZE) in
  (base < 0xc0000000 - PG_SIZE -> exists st', vaddr_get PF_USER pg_cnt st = Ret base st')
  /\ (0xc0000000 - PG_SIZE <= base -> vaddr_get PF_USER pg_cnt st = Halt).
Proof.
  intros base. unfold vaddr_get, bind, get.
  rewrite (proj2 (Z.eqb_neq _ _) Hscan).
  unfold modify, ASSERT, ret. fold base. split; intros Hb.
  - replace (base <? 0xc0000000 - PG_SIZE) with true by (symmetry; apply Z.ltb_lt; exact Hb).
    eexists. reflexivity.
  - replace (base <? 0xc0000000 - PG_SIZE) with false by (symmetry; apply Z.ltb_ge; exact Hb).
    reflexivity.
Qed.

(** A user process whose virtual pool is the sixteen pages below
    0xc0000000, all free. *)
Definition state_user_top : state :=
  set_cur (mk_task_struct 0x00100000
             (mk_virtual_addr (bitmap_init (mk_bitmap 2 [])) 0xbfff0000)
             (block_desc_init (replicate 7 (mk_mem_block_desc 0 0 []))))
          state_32M.

Lemma vaddr_get_user_assert_top :
  bitmap_scan (vaddr_bitmap (userprog_vaddr (cur state_user_top))) 15 <> -1
  /\ (exists st', vaddr_get PF_USER 15 state_user_top = Ret 0xbfff0000 st').
Proof.
  assert (bitmap_scan (vaddr_bitmap (userprog_vaddr (cur state_user_top))) 15 <> -1) as H
    by (vm_compute; congruence).
  split; [exact H|].
  destruct (vaddr_get_user_assert state_user_top 15 H) as [Hok _].
  apply Hok. vm_compute. reflexivity.
Defined.

(** C7, as the claim has it, fails: sixteen pages from 0xbfff0000 reach
    0xc0000000, past the bound, and vaddr_get hands them out. *)
Lemma vaddr_get_user_range_unchecked :
  returned (vaddr_get PF_USER 16 state_user_top) = Some 0xbfff0000
  /\ ~ (0xbfff0000 + 16 * PG_SIZE <= 0xc0000000 - PG_SIZE).
Proof. split; [vm_compute; reflexivity | unfold PG_SIZE; lia]. Qed.

(** * Bitmaps *)

(** [set_all js v l]: the bits of [l] at the indices [js] set to [v]. *)
Definition set_all (js : list nat) (v : bool) (l : list bool) : list bool :=
  foldl (fun acc j => <[j := v]> acc) l js.

Lemma set_all_cons j js v l : set_all (j :: js) v l = set_all js v (<[j := v]> l).
Proof. reflexivity. Qed.

Lemma set_all_length js v l : length (set_all js v l) = length l.
Proof.
  revert l. induction js as [|j js IH]; intros l; [reflexivity|].
  rewrite set_all_cons, IH. apply length_insert.
Qed.

Lemma set_all_lookup_notin js v l (i : nat) :
  i ∉ js -> set_all js v l !! i = l !! i.
Proof.
  revert l. induction js as [|j js IH]; intros l Hi; [reflexivity|].
  rewrite set_all_cons, IH.
  - apply list_lookup_insert_ne. intros ->. apply Hi. left.
  - intros Hin. apply Hi. right. exact Hin.
Qed.

Lemma set_all_lookup_in js v l (i : nat) :
  i ∈ js -> (i < length l)%nat -> set_all js v l !! i = Some v.
Proof.
  revert l. induction js as [|j js IH]; intros l Hi Hlen.
  - inversion Hi.
  - rewrite set_all_cons.
    destruct (decide (i ∈ js)) as [Hin|Hnin].
    + apply IH; [exact Hin|]. rewrite length_insert. exact Hlen.
    + rewrite set_all_lookup_notin by exact Hnin.
      assert (i = j) as -> by (inversion Hi; subst; [reflexivity | contradiction]).
      apply list_lookup_insert_eq. exact Hlen.
Qed.

Lemma set_all_undo js l :
  (forall j, j ∈ js -> l !! j = Some false) ->
  set_all js false (set_all js true l) = l.
Proof.
  intros Hclear. apply list_eq. intros i.
  destruct (decide (i ∈ js)) as [Hin|Hnin].
  - rewrite set_all_lookup_in.
    + symmetry. apply Hclear. exact Hin.
    + exact Hin.
    + rewrite set_all_length. apply lookup_lt_is_Some. rewrite Hclear by exact Hin. eauto.
  - rewrite !set_all_lookup_notin by exact Hnin. reflexivity.
Qed.

Lemma run_clear_lookup l n :
  run_clear l n = true -> forall k, (k < n)%nat -> l !! k = Some false.
Proof.
  revert l. induction n as [|n IH]; intros l H k Hk; [lia|].
  destruct l as [|[] l]; try discriminate.
  destruct k as [|k]; [reflexivity|].
  cbn. apply IH; [exact H | lia].
Qed.

Lemma scan_from_sound l n idx :
  scan_from l n idx <> -1 -> 0 <= idx ->
  exists i : nat, scan_from l n idx = idx + Z.of_nat i
    /\ forall k, (k < n)%nat -> l !! (i + k)%nat = Some false.
Proof.
  revert idx. induction l as [|b l IH]; intros idx Hr Hidx; [cbn in Hr; congruence|].
  cbn [scan_from] in *.
  destruct (run_clear (b :: l) n) eqn:Hrun.
  - exists 0%nat. split; [lia|]. intros k Hk. cbn [Nat.add].
    eapply run_clear_lookup; eauto.
  - destruct (IH (idx + 1) Hr ltac:(lia)) as (i & Hi & Hclr).
    exists (S i). split; [lia|]. intros k Hk. cbn. apply Hclr. exact Hk.
Qed.

Lemma bitmap_set_run_spec n btmp idx c v :
  0 <= idx -> 0 <= c -> idx + c + Z.of_nat n < 2 ^ 32 ->
  bitmap_set_run btmp idx c n v
  = mk_bitmap (btmp_bytes_len btmp) (set_all (seq (Z.to_nat (idx + c)) n) v (bits btmp)).
Proof.
  revert btmp c. induction n as [|n IH]; intros btmp c Hidx Hc Hlt.
  - cbn. destruct btmp; reflexivity.
  - cbn [bitmap_set_run seq]. rewrite set_all_cons.
    rewrite !wrap32_small by lia.
    rewrite IH by lia. unfold bitmap_set. cbn [btmp_bytes_len bits].
    replace (Z.to_nat (idx + (c + 1))) with (S (Z.to_nat (idx + c))) by lia.
    reflexivity.
Qed.

(** * Bit masks as arithmetic *)

Lemma land_shifted_ones v lo k :
  0 <= lo -> 0 <= k ->
  Z.land v (Z.shiftl (Z.ones k) lo) = 2 ^ lo * ((v / 2 ^ lo) mod 2 ^ k).
Proof.
  intros Hlo Hk.
  rewrite <- Z.shiftr_div_pow2, <- Z.land_ones, Z.mul_comm, <- Z.shiftl_mul_pow2 by assumption.
  apply Z.bits_inj'. intros n Hn.
  rewrite Z.land_spec, !Z.shiftl_spec, Z.land_spec by assumption.
  destruct (Z_lt_le_dec n lo) as [Hlt|Hge].
  - rewrite !(Z.testbit_neg_r _ (n - lo)) by lia. apply andb_false_r.
  - rewrite Z.shiftr_spec by lia. replace (n - lo + lo) with n by lia. reflexivity.
Qed.

Lemma land_page_mask v : 0 <= v < 2 ^ 32 -> Z.land v 0xfffff000 = PG_SIZE * (v / PG_SIZE).
Proof.
  intros Hv. change 0xfffff000 with (Z.shiftl (Z.ones 20) 12).
  rewrite land_shifted_ones by lia. change (2 ^ 12) with PG_SIZE.
  rewrite Z.mod_small; [reflexivity|].
  split; [apply Z.div_pos; unfold PG_SIZE; lia|].
  apply Z.div_lt_upper_bound; unfold PG_SIZE; lia.
Qed.

Lemma land_offset_mask v : 0 <= v -> Z.land v 0x00000fff = v mod PG_SIZE.
Proof. intros Hv. change 0x00000fff with (Z.ones 12). apply Z.land_ones. lia. Qed.

Lemma pte_ptr_eq v : 0 <= v < 2 ^ 32 -> pte_ptr v = 0xffc00000 + 4 * (v / PG_SIZE).
Proof.
  intros Hv. unfold pte_ptr, PTE_IDX.
  change 0xffc00000 with (Z.shiftl (Z.ones 10) 22) at 2.
  change 0x003ff000 with (Z.shiftl (Z.ones 10) 12).
  rewrite !land_shifted_ones by lia.
  rewrite !Z.shiftr_div_pow2 by lia.
  unfold PG_SIZE.
  change (2 ^ 22) with 4194304. change (2 ^ 12) with 4096. change (2 ^ 10) with 1024.
  rewrite (Z.mod_small (v / 4194304)).
  2:{ split; [apply Z.div_pos; lia | apply Z.div_lt_upper_bound; lia]. }
  assert (v / 4194304 = v / 4096 / 1024) as Hd by (rewrite Z.div_div; [reflexivity | lia | lia]).
  pose proof (Z.div_mod (v / 4096) 1024 ltac:(lia)) as Hdm.
  pose proof (Z.mod_pos_bound (v / 4096) 1024 ltac:(lia)) as Hm.
  assert (0 <= v / 4096 < 1048576) as Hq by (split; [apply Z.div_pos; lia | apply Z.div_lt_upper_bound; lia]).
  replace (4194304 * (v / 4194304) / 1024) with (4096 * (v / 4194304)).
  2:{ apply Z.div_unique_exact; lia. }
  replace (4096 * (v / 4096 mod 1024) / 4096) with (v / 4096 mod 1024).
  2:{ apply Z.div_unique_exact; lia. }
  rewrite wrap32_small; lia.
Qed.

Lemma pde_ptr_eq v : 0 <= v < 2 ^ 32 -> pde_ptr v = 0xfffff000 + 4 * (v / 2 ^ 22).
Proof.
  intros Hv. unfold pde_ptr, PDE_IDX.
  change 0xffc00000 with (Z.shiftl (Z.ones 10) 22).
  rewrite land_shifted_ones by lia.
  rewrite Z.shiftr_div_pow2 by lia.
  change (2 ^ 22) with 4194304. change (2 ^ 10) with 1024.
  assert (0 <= v / 4194304 < 1024) as Hq by (split; [apply Z.div_pos; lia | apply Z.div_lt_upper_bound; lia]).
  rewrite (Z.mod_small (v / 4194304)) by exact Hq.
  replace (4194304 * (v / 4194304) / 4194304) with (v / 4194304).
  2:{ apply Z.div_unique_exact; lia. }
  rewrite wrap32_small; lia.
Qed.

(** The entry written by page_table_add: the frame plus the three flags. *)
Definition pte_of (page_phyaddr : Z) : Z :=
  Z.lor (Z.lor (Z.lor page_phyaddr PG_US_U) PG_RW_W) PG_P_1.

Lemma pte_of_aligned p : 0 <= p -> p mod PG_SIZE = 0 -> pte_of p = p + 7.
Proof.
  intros Hp Hal. unfold pte_of, PG_US_U, PG_RW_W, PG_P_1.
  rewrite <- !Z.lor_assoc. change (Z.lor 4 (Z.lor 2 1)) with 7.
  symmetry. apply Z.add_nocarry_lor.
  change 7 with (Z.ones 3). rewrite Z.land_ones by lia.
  unfold PG_SIZE in Hal. change (2 ^ 3) with 8.
  pose proof (Z.div_mod p 4096 ltac:(lia)) as Hdm.
  rewrite Hal in Hdm.
  replace p with ((512 * (p / 4096)) * 8) by lia.
  apply Z.mod_mul. lia.
Qed.

Lemma present_spec w : present w = Z.odd w.
Proof.
  unfold present. change 1 with (Z.ones 1). rewrite Z.land_ones by lia.
  change (2 ^ 1) with 2. rewrite Zmod_odd. destruct (Z.odd w); reflexivity.
Qed.

Lemma present_pte_of p : 0 <= p -> p mod PG_SIZE = 0 -> present (pte_of p) = true.
Proof.
  intros Hp Hal. rewrite pte_of_aligned, present_spec by assumption.
  unfold PG_SIZE in Hal.
  pose proof (Z.div_mod p 4096 ltac:(lia)) as Hdm. rewrite Hal in Hdm.
  replace (p + 7) with (1 + 2 * (2048 * (p / 4096) + 3)) by lia.
  rewrite Z.odd_add_mul_2. reflexivity.
Qed.

(** The frame an entry points to: [w & 0xfffff000]. *)
Definition frame_of (w : Z) : Z := Z.land w 0xfffff000.

Lemma frame_of_pte_of p : 0 <= p < 2 ^ 32 -> p mod PG_SIZE = 0 -> frame_of (pte_of p) = p.
Proof.
  intros Hp Hal. unfold frame_of. rewrite pte_of_aligned by lia.
  unfold PG_SIZE in Hal.
  pose proof (Z.div_mod p 4096 ltac:(lia)) as Hdm. rewrite Hal in Hdm.
  rewrite land_page_mask by lia. unfold PG_SIZE.
  replace ((p + 7) / 4096) with (p / 4096); [lia|].
  apply Z.div_unique with (r := 7); lia.
Qed.

Lemma frame_of_clear_present w : frame_of (Z.land w 0xfffffffe) = frame_of w.
Proof.
  unfold frame_of. rewrite <- Z.land_assoc. reflexivity.
Qed.

(** * Reasoning about calls *)

Lemma bind_Ret {A B} (m : M A) (k : A -> M B) st b st' :
  bind m k st = Ret b st' -> exists a st1, m st = Ret a st1 /\ k a st1 = Ret b st'.
Proof.
  unfold bind. destruct (m st) as [a st1|]; [|discriminate].
  intros H. exists a, st1. split; [reflexivity | exact H].
Qed.

Lemma ASSERT_Ret c st u st' : ASSERT c st = Ret u st' -> c = true /\ st' = st.
Proof. unfold ASSERT. destruct c; [|discriminate]. intros [= _ <-]. split; reflexivity. Qed.

(** [respects R m]: a call of [m] that returns takes a state to one
    related to it by [R]. *)
Definition respects {A} (R : relation state) (m : M A) : Prop :=
  forall st a st', m st = Ret a st' -> R st st'.

Section Respects.

Context (R : relation state) `{!PreOrder R}.

Lemma respects_ret {A} (a : A) : respects R (ret a).
Proof. intros st a' st' [= _ <-]. reflexivity. Qed.

Lemma respects_PANIC {A} : respects R (@PANIC A).
Proof. intros st a st' H. discriminate. Qed.

Lemma respects_ASSERT c : respects R (ASSERT c).
Proof. intros st a st' H. apply ASSERT_Ret in H as [_ ->]. reflexivity. Qed.

Lemma respects_get : respects R get.
Proof. intros st a st' [= _ <-]. reflexivity. Qed.

Lemma respects_modify f : (forall st, R st (f st)) -> respects R (modify f).
Proof. intros Hf st a st' [= _ <-]. apply Hf. Qed.

Lemma respects_bind {A B} (m : M A) (k : A -> M B) :
  respects R m -> (forall a, respects R (k a)) -> respects R (bind m k).
Proof.
  intros Hm Hk st b st' H. apply bind_Ret in H as (a & st1 & H1 & H2).
  transitivity st1; [eapply Hm | eapply Hk]; eassumption.
Qed.

End Respects.

Lemma respects_weaken {A} (R R' : relation state) (m : M A) :
  (forall st st', R st st' -> R' st st') -> respects R m -> respects R' m.
Proof. intros HR Hm st a st' H. apply HR. eapply Hm. exact H. Qed.

(** The part of the state the page-level functions write: the bits of
    the four bitmaps and the page tables. *)
Definition page_upd (kb ub kv uv : list bool) (pt : Z -> Z) (st : state) : state :=
  mk_state
    (mk_pool (mk_bitmap (btmp_bytes_len (pool_bitmap (kernel_pool st))) kb)
             (phy_addr_start (kernel_pool st)) (pool_size (kernel_pool st))
             (lock (kernel_pool st)))
    (mk_pool (mk_bitmap (btmp_bytes_len (pool_bitmap (user_pool st))) ub)
             (phy_addr_start (user_pool st)) (pool_size (user_pool st))
             (lock (user_pool st)))
    (mk_virtual_addr (mk_bitmap (btmp_bytes_len (vaddr_bitmap (kernel_vaddr st))) kv)
                     (vaddr_start (kernel_vaddr st)))
    (k_block_descs st)
    (mk_task_struct (pgdir (cur st))
       (mk_virtual_addr (mk_bitmap (btmp_bytes_len (vaddr_bitmap (userprog_vaddr (cur st)))) uv)
                        (vaddr_start (userprog_vaddr (cur st))))
       (u_blcok_desc (cur st)))
    pt (arenas st) (vmem st) (intr st).

Lemma page_upd_id st :
  page_upd (bits (pool_bitmap (kernel_pool st))) (bits (pool_bitmap (user_pool st)))
           (bits (vaddr_bitmap (kernel_vaddr st)))
           (bits (vaddr_bitmap (userprog_vaddr (cur st)))) (ptmem st) st = st.
Proof.
  destruct st as [[[? ?] ? ? ?] [[? ?] ? ? ?] [[? ?] ?] ? [? [[? ?] ?] ?] ? ? ? ?].
  reflexivity.
Qed.

(** [phys_rel]: only the physical bitmaps and the page tables differ. *)
Definition phys_rel (st st' : state) : Prop :=
  exists kb ub pt,
    st' = page_upd kb ub (bits (vaddr_bitmap (kernel_vaddr st)))
                   (bits (vaddr_bitmap (userprog_vaddr (cur st)))) pt st.

(** [page_rel]: only the four bitmaps and the page tables differ. *)
Definition page_rel (st st' : state) : Prop :=
  exists kb ub kv uv pt, st' = page_upd kb ub kv uv pt st.

#[global] Instance phys_rel_preorder : PreOrder phys_rel.
Proof.
  split.
  - intros st. exists (bits (pool_bitmap (kernel_pool st))), (bits (pool_bitmap (user_pool st))),
      (ptmem st). symmetry. apply page_upd_id.
  - intros s1 s2 s3 (kb & ub & pt & ->) (kb' & ub' & pt' & ->).
    exists kb', ub', pt'. reflexivity.
Qed.

#[global] Instance page_rel_preorder : PreOrder page_rel.
Proof.
  split.
  - intros st. exists (bits (pool_bitmap (kernel_pool st))), (bits (pool_bitmap (user_pool st))),
      (bits (vaddr_bitmap (kernel_vaddr st))), (bits (vaddr_bitmap (userprog_vaddr (cur st)))),
      (ptmem st). symmetry. apply page_upd_id.
  - intros s1 s2 s3 (kb & ub & kv & uv & pt & ->) (kb' & ub' & kv' & uv' & pt' & ->).
    exists kb', ub', kv', uv', pt'. reflexivity.
Qed.

Lemma phys_rel_page_rel st st' : phys_rel st st' -> page_rel st st'.
Proof. intros (kb & ub & pt & ->). repeat eexists. Qed.

(** Tactics: [state_cases] opens a state into its fields, [rel_done]
    closes a goal [phys_rel] or [page_rel] between explicit states. *)
Ltac state_cases st :=
  destruct st as [[[? ?] ? ? ?] [[? ?] ? ? ?] [[? ?] ?] ? [? [[? ?] ?] ?] ? ? ? ?].

Ltac rel_done := repeat eexists; reflexivity.

Lemma palloc_phys_rel m_pool : respects phys_rel (palloc m_pool).
Proof.
  intros st a st' H. unfold palloc, bind, get, modify, ret in H.
  destruct (_ =? -1); injection H as _ <-; [reflexivity|].
  state_cases st. destruct m_pool; rel_done.
Qed.

Lemma store_pt_phys_rel p w : respects phys_rel (store_pt p w).
Proof. intros st a st' [= _ <-]. state_cases st. rel_done. Qed.

Lemma memset0_pt_phys_rel p n : respects phys_rel (memset0_pt p n).
Proof. intros st a st' [= _ <-]. state_cases st. rel_done. Qed.

Ltac respects_step :=
  match goal with
  | |- respects _ (bind _ _) => apply respects_bind; [typeclasses eauto | | intro]
  | |- respects _ (ret _) => apply respects_ret; typeclasses eauto
  | |- respects _ get => apply respects_get; typeclasses eauto
  | |- respects _ PANIC => apply respects_PANIC
  | |- respects _ (ASSERT _) => apply respects_ASSERT; typeclasses eauto
  | |- respects _ (if ?b then _ else _) => destruct b
  | |- respects _ (match ?x with _ => _ end) => destruct x
  end.

Lemma page_table_add_phys_rel vaddr p : respects phys_rel (page_table_add vaddr p).
Proof.
  unfold page_table_add.
  repeat first [respects_step | apply store_pt_phys_rel | apply memset0_pt_phys_rel
                | apply palloc_phys_rel].
Qed.

Lemma malloc_page_loop_phys_rel m_pool vaddr n : respects phys_rel (malloc_page_loop m_pool vaddr n).
Proof.
  revert vaddr. induction n as [|n IH]; intros vaddr; cbn [malloc_page_loop].
  - apply respects_ret. typeclasses eauto.
  - repeat first [respects_step | apply palloc_phys_rel | apply page_table_add_phys_rel | apply IH].
Qed.

Lemma bitmap_set_run_len n btmp idx c v :
  bitmap_set_run btmp idx c n v
  = mk_bitmap (btmp_bytes_len btmp) (bits (bitmap_set_run btmp idx c n v)).
Proof.
  revert btmp c. induction n as [|n IH]; intros btmp c; cbn [bitmap_set_run].
  - destruct btmp; reflexivity.
  - rewrite IH at 1. reflexivity.
Qed.

Lemma vaddr_get_page_rel pf n : respects page_rel (vaddr_get pf n).
Proof.
  intros st a st' H. unfold vaddr_get, bind, get, modify, ret, ASSERT in H.
  rewrite (bitmap_set_run_len _ (vaddr_bitmap (kernel_vaddr st))) in H.
  rewrite (bitmap_set_run_len _ (vaddr_bitmap (userprog_vaddr (cur st)))) in H.
  destruct pf; destruct (_ =? -1); try destruct (_ <? _); try discriminate;
    injection H as _ <-; try reflexivity; state_cases st; rel_done.
Qed.

Lemma malloc_page_page_rel pf n : respects page_rel (malloc_page pf n).
Proof.
  unfold malloc_page.
  repeat first [respects_step | apply vaddr_get_page_rel
                | eapply respects_weaken; [apply phys_rel_page_rel | apply malloc_page_loop_phys_rel]].
Qed.

Lemma pfree_phys_rel p : respects phys_rel (pfree p).
Proof.
  intros st a st' H. unfold pfree, bind, get, modify in H.
  destruct (_ <=? _); injection H as _ <-; state_cases st; rel_done.
Qed.

Lemma page_table_pte_remove_phys_rel v : respects phys_rel (page_table_pte_remove v).
Proof.
  unfold page_table_pte_remove.
  repeat first [respects_step | apply store_pt_phys_rel].
Qed.

Lemma mfree_page_loop_phys_rel user vaddr n : respects phys_rel (mfree_page_loop user vaddr n).
Proof.
  revert vaddr. induction n as [|n IH]; intros vaddr; cbn [mfree_page_loop].
  - apply respects_ret. typeclasses eauto.
  - cbv zeta.
    repeat first [apply IH | respects_step | apply pfree_phys_rel
                  | apply page_table_pte_remove_phys_rel].
Qed.

Lemma vaddr_remove_page_rel pf v n : respects page_rel (vaddr_remove pf v n).
Proof.
  intros st a st' H. unfold vaddr_remove, bind, get, modify in H.
  rewrite (bitmap_set_run_len _ (vaddr_bitmap (kernel_vaddr st))) in H.
  rewrite (bitmap_set_run_len _ (vaddr_bitmap (userprog_vaddr (cur st)))) in H.
  destruct pf; injection H as _ <-; state_cases st; rel_done.
Qed.

Lemma mfree_page_page_rel pf v n : respects page_rel (mfree_page pf v n).
Proof.
  unfold mfree_page.
  repeat first [respects_step | apply vaddr_remove_page_rel
                | eapply respects_weaken; [apply phys_rel_page_rel | apply mfree_page_loop_phys_rel]].
Qed.

(** What [page_rel] leaves alone. *)
Lemma page_rel_frame st st' :
  page_rel st st' ->
  k_block_descs st' = k_block_descs st
  /\ u_blcok_desc (cur st') = u_blcok_desc (cur st)
  /\ arenas st' = arenas st
  /\ vmem st' = vmem st
  /\ intr st' = intr st
  /\ pgdir (cur st') = pgdir (cur st)
  /\ lock (kernel_pool st') = lock (kernel_pool st)
  /\ lock (user_pool st') = lock (user_pool st)
  /\ phy_addr_start (kernel_pool st') = phy_addr_start (kernel_pool st)
  /\ phy_addr_start (user_pool st') = phy_addr_start (user_pool st)
  /\ pool_size (kernel_pool st') = pool_size (kernel_pool st)
  /\ pool_size (user_pool st') = pool_size (user_pool st)
  /\ vaddr_start (kernel_vaddr st') = vaddr_start (kernel_vaddr st)
  /\ vaddr_start (userprog_vaddr (cur st')) = vaddr_start (userprog_vaddr (cur st)).
Proof. intros (kb & ub & kv & uv & pt & ->). repeat split. Qed.

Lemma page_rel_descs st st' da : page_rel st st' -> get_descs da st' = get_descs da st.
Proof. intros (kb & ub & kv & uv & pt & ->). destruct da; reflexivity. Qed.

(** What [phys_rel] leaves alone besides: the virtual bitmaps. *)
Lemma phys_rel_vaddr st st' pf : phys_rel st st' -> get_vaddr pf st' = get_vaddr pf st.
Proof. intros (kb & ub & pt & ->). state_cases st. destruct pf; reflexivity. Qed.

(** * The page-level functions, step by step *)

(** The bits of a physical pool and of a virtual pool. *)
Definition pbits (m_pool : pool_id) (st : state) : list bool :=
  bits (pool_bitmap (get_pool m_pool st)).
Definition vbits (pf : pool_flags) (st : state) : list bool :=
  bits (vaddr_bitmap (get_vaddr pf st)).

(** The state with the bits of one pool, or the page tables, replaced. *)
Definition set_pbits (m_pool : pool_id) (l : list bool) (st : state) : state :=
  match m_pool with
  | KERNEL_POOL => page_upd l (pbits USER_POOL st) (vbits PF_KERNEL st) (vbits PF_USER st)
                            (ptmem st) st
  | USER_POOL => page_upd (pbits KERNEL_POOL st) l (vbits PF_KERNEL st) (vbits PF_USER st)
                          (ptmem st) st
  end.

Definition set_vbits (pf : pool_flags) (l : list bool) (st : state) : state :=
  match pf with
  | PF_KERNEL => page_upd (pbits KERNEL_POOL st) (pbits USER_POOL st) l (vbits PF_USER st)
                          (ptmem st) st
  | PF_USER => page_upd (pbits KERNEL_POOL st) (pbits USER_POOL st) (vbits PF_KERNEL st) l
                        (ptmem st) st
  end.

Definition set_pt (pt : Z -> Z) (st : state) : state :=
  page_upd (pbits KERNEL_POOL st) (pbits USER_POOL st) (vbits PF_KERNEL st) (vbits PF_USER st)
           pt st.

Lemma set_pool_bitmap_set m_pool st j v :
  set_pool m_pool (set_pool_bitmap (bitmap_set (pool_bitmap (get_pool m_pool st)) j v)
                                   (get_pool m_pool st)) st
  = set_pbits m_pool (<[Z.to_nat j := v]> (pbits m_pool st)) st.
Proof. state_cases st. destruct m_pool; reflexivity. Qed.

Lemma set_ptmem_set_pt pt st : set_ptmem pt st = set_pt pt st.
Proof. state_cases st. reflexivity. Qed.

(** palloc: either the pool is full, or the lowest clear bit is set and
    its frame returned. *)
Lemma palloc_Ret m_pool st p st' :
  palloc m_pool st = Ret p st' ->
  (p = NULL /\ st' = st)
  \/ exists j : nat,
       pbits m_pool st !! j = Some false
       /\ p = wrap32 (Z.of_nat j * PG_SIZE + phy_addr_start (get_pool m_pool st))
       /\ st' = set_pbits m_pool (<[j := true]> (pbits m_pool st)) st.
Proof.
  unfold palloc, bind, get, modify, ret. intros H.
  destruct (_ =? -1) eqn:Hscan.
  - left. injection H as <- <-. split; reflexivity.
  - right. apply Z.eqb_neq in Hscan. unfold bitmap_scan in *.
    destruct (scan_from_sound _ _ 0 Hscan ltac:(lia)) as (i & Hi & Hclr).
    rewrite Hi in H. injection H as <- <-.
    exists i. split; [|split].
    + specialize (Hclr 0%nat ltac:(cbn; lia)). rewrite Nat.add_0_r in Hclr. exact Hclr.
    + reflexivity.
    + rewrite set_pool_bitmap_set. change (0 + Z.of_nat i) with (Z.of_nat i).
      rewrite Nat2Z.id. reflexivity.
Qed.

(** page_table_add under a page table that exists: the entry is written,
    and it was not present before. *)
Lemma page_table_add_Ret vaddr p st u st' :
  present (ptmem st (pde_ptr vaddr)) = true ->
  page_table_add vaddr p st = Ret u st' ->
  present (ptmem st (pte_ptr vaddr)) = false
  /\ st' = set_pt (fun x => if x =? pte_ptr vaddr then pte_of p else ptmem st x) st.
Proof.
  intros Hpde. unfold page_table_add, bind, get. rewrite Hpde.
  unfold ASSERT. destruct (present (ptmem st (pte_ptr vaddr))); cbn [negb]; [discriminate|].
  unfold store_pt, modify. intros H. injection H as _ <-.
  split; [reflexivity|]. apply set_ptmem_set_pt.
Qed.

Lemma pte_ptr_page v (k : nat) :
  0 <= v -> v + Z.of_nat k * PG_SIZE < 2 ^ 32 ->
  pte_ptr (v + Z.of_nat k * PG_SIZE) = pte_ptr v + 4 * Z.of_nat k.
Proof.
  intros Hv Hk. unfold PG_SIZE in *. rewrite !pte_ptr_eq by lia.
  unfold PG_SIZE. rewrite Z.div_add by lia. lia.
Qed.

Lemma pte_ptr_range v : 0 <= v < 0xffc00000 -> 0xffc00000 <= pte_ptr v < 0xfffff000.
Proof.
  intros Hv. rewrite pte_ptr_eq by lia. unfold PG_SIZE.
  assert (0 <= v / 4096 < 0xffc00) by (split; [apply Z.div_pos; lia | apply Z.div_lt_upper_bound; lia]).
  lia.
Qed.

Lemma pde_ptr_range v : 0 <= v < 2 ^ 32 -> 0xfffff000 <= pde_ptr v.
Proof.
  intros Hv. rewrite pde_ptr_eq by lia.
  assert (0 <= v / 2 ^ 22) by (apply Z.div_pos; lia). lia.
Qed.

Lemma set_pt_set_pbits_id m_pool st :
  set_pt (ptmem st) (set_pbits m_pool (pbits m_pool st) st) = st.
Proof. state_cases st. destruct m_pool; reflexivity. Qed.

Lemma malloc_page_loop_spec m_pool n : forall v st st',
  0 <= v -> v + Z.of_nat n * PG_SIZE <= 0xffc00000 ->
  (forall k : nat, (k < n)%nat ->
     present (ptmem st (pde_ptr (v + Z.of_nat k * PG_SIZE))) = true) ->
  malloc_page_loop m_pool v n st = Ret true st' ->
  exists (js : list nat) (pt : Z -> Z),
    length js = n /\ NoDup js
    /\ (forall j, j ∈ js -> pbits m_pool st !! j = Some false)
    /\ st' = set_pt pt (set_pbits m_pool (set_all js true (pbits m_pool st)) st)
    /\ (forall k j : nat, js !! k = Some j ->
          pt (pte_ptr (v + Z.of_nat k * PG_SIZE))
          = pte_of (wrap32 (Z.of_nat j * PG_SIZE + phy_addr_start (get_pool m_pool st))))
    /\ (forall x, (forall k : nat, (k < n)%nat -> x <> pte_ptr (v + Z.of_nat k * PG_SIZE)) ->
          pt x = ptmem st x).
Proof.
  induction n as [|n IH]; intros v st st' Hv Htop Hpde H.
  - injection H as <-. exists [], (ptmem st).
    split; [reflexivity|]. split; [constructor|].
    split; [intros j Hj; inversion Hj|].
    split; [symmetry; apply set_pt_set_pbits_id|].
    split; [intros k j Hk; discriminate | reflexivity].
  - cbn [malloc_page_loop] in H.
    apply bind_Ret in H as (p & st1 & Hp & H).
    apply palloc_Ret in Hp as [[-> ->] | (j0 & Hj0 & Hpv & ->)]; [discriminate|].
    destruct (p =? NULL); [discriminate|].
    apply bind_Ret in H as (u & st2 & Hadd & H).
    apply page_table_add_Ret in Hadd as [_ ->].
    2:{ replace (ptmem (set_pbits m_pool (<[j0:=true]> (pbits m_pool st)) st)) with (ptmem st)
          by (destruct m_pool; reflexivity).
        specialize (Hpde 0%nat ltac:(lia)). rewrite Z.add_0_r in Hpde. exact Hpde. }
    unfold PG_SIZE in Htop.
    rewrite wrap32_small in H by (unfold PG_SIZE; lia).
    apply IH in H as (js & pt & Hlen & Hnd & Hclr & -> & Hpt & Hout).
    + exists (j0 :: js), pt.
      assert (forall j, j ∈ js -> j <> j0 /\ pbits m_pool st !! j = Some false) as Hjs.
      { intros j Hj. specialize (Hclr j Hj).
        replace (pbits m_pool (set_pt _ _)) with (<[j0:=true]> (pbits m_pool st)) in Hclr
          by (destruct m_pool; reflexivity).
        destruct (decide (j = j0)) as [->|Hne].
        - rewrite list_lookup_insert_eq in Hclr; [discriminate|].
          apply lookup_lt_is_Some. eauto.
        - rewrite list_lookup_insert_ne in Hclr by congruence. split; assumption. }
      split; [cbn; lia|].
      split; [constructor; [intros Hin; apply Hjs in Hin as [Hne _]; congruence | exact Hnd]|].
      split; [intros j Hj; apply elem_of_cons in Hj as [-> | Hj]; [exact Hj0 | apply Hjs, Hj]|].
      split; [destruct m_pool; reflexivity|].
      split.
      * intros k j Hk. destruct k as [|k].
        -- injection Hk as <-. rewrite Z.add_0_r, Hout.
           ++ cbn. rewrite Z.eqb_refl. rewrite Hpv. destruct m_pool; reflexivity.
           ++ intros k Hk. unfold PG_SIZE.
              replace (v + 4096 + Z.of_nat k * 4096) with (v + Z.of_nat (S k) * 4096) by lia.
              change 4096 with PG_SIZE.
              rewrite pte_ptr_page by (unfold PG_SIZE; lia). lia.
        -- cbn in Hk. specialize (Hpt k j Hk).
           replace (v + Z.of_nat (S k) * PG_SIZE) with (v + PG_SIZE + Z.of_nat k * PG_SIZE) by lia.
           rewrite Hpt. destruct m_pool; reflexivity.
      * intros x Hx. rewrite Hout.
        -- cbn. specialize (Hx 0%nat ltac:(lia)). rewrite Z.add_0_r in Hx.
           apply Z.eqb_neq in Hx. rewrite Hx. destruct m_pool; reflexivity.
        -- intros k Hk. specialize (Hx (S k) ltac:(lia)).
           replace (v + PG_SIZE + Z.of_nat k * PG_SIZE) with (v + Z.of_nat (S k) * PG_SIZE) by lia.
           exact Hx.
    + unfold PG_SIZE. lia.
    + unfold PG_SIZE. lia.
    + intros k Hk. specialize (Hpde (S k) ltac:(lia)).
      replace (v + PG_SIZE + Z.of_nat k * PG_SIZE) with (v + Z.of_nat (S k) * PG_SIZE) by lia.
      cbn.
      assert (0xfffff000 <= pde_ptr (v + Z.of_nat (S k) * PG_SIZE)) as Hlo
        by (apply pde_ptr_range; unfold PG_SIZE; lia).
      assert (pte_ptr v < 0xfffff000) as Hhi by (apply pte_ptr_range; lia).
      replace (pde_ptr (v + Z.of_nat (S k) * PG_SIZE) =? pte_ptr v) with false
        by (symmetry; apply Z.eqb_neq; lia).
      destruct m_pool; exact Hpde.
Qed.

(** ** The layout the proofs rely on *)

(** The physical pools as mem_pool_init lays them out: the kernel pool
    above the reserved low memory, the user pool above the kernel pool,
    both page-aligned and inside the 32-bit address space. *)
Record pools_ok (st : state) : Prop := {
  kstart_lo : 0x102000 <= phy_addr_start (kernel_pool st);
  kstart_al : phy_addr_start (kernel_pool st) mod PG_SIZE = 0;
  kpool_top : phy_addr_start (kernel_pool st)
              + PG_SIZE * Z.of_nat (length (pbits KERNEL_POOL st))
              <= phy_addr_start (user_pool st);
  ustart_al : phy_addr_start (user_pool st) mod PG_SIZE = 0;
  upool_top : phy_addr_start (user_pool st)
              + PG_SIZE * Z.of_nat (length (pbits USER_POOL st)) <= 2 ^ 32
}.

(** The lowest address of the heap of a domain. *)
Definition heap_lo (pf : pool_flags) : Z :=
  match pf with
  | PF_KERNEL => K_HEAP_START
  | PF_USER => 0
  end.

(** The virtual pool of a domain: page-aligned, below the window of the
    page tables, and under page tables that all exist. *)
Record vaddr_ok (pf : pool_flags) (st : state) : Prop := {
  vstart_lo : heap_lo pf <= vaddr_start (get_vaddr pf st);
  vstart_al : vaddr_start (get_vaddr pf st) mod PG_SIZE = 0;
  vpool_top : vaddr_start (get_vaddr pf st)
              + PG_SIZE * Z.of_nat (length (vbits pf st)) <= 0xffc00000;
  pde_ok : forall i : nat, (i < length (vbits pf st))%nat ->
           present (ptmem st (pde_ptr (vaddr_start (get_vaddr pf st) + Z.of_nat i * PG_SIZE)))
           = true
}.

Lemma pools_ok_set m_pool l pt st :
  pools_ok st -> length l = length (pbits m_pool st) ->
  pools_ok (set_pt pt (set_pbits m_pool l st)).
Proof.
  intros [H1 H2 H3 H4 H5] Hl.
  destruct m_pool; split; cbn; try assumption; unfold pbits in *; cbn in *;
    rewrite ?Hl; assumption.
Qed.

Definition pool_of_branch (user : bool) : pool_id :=
  if user then USER_POOL else KERNEL_POOL.

Lemma pfree_spec (user : bool) (j : nat) st :
  pools_ok st ->
  (j < length (pbits (pool_of_branch user) st))%nat ->
  pfree (phy_addr_start (get_pool (pool_of_branch user) st) + Z.of_nat j * PG_SIZE) st
  = Ret tt (set_pbits (pool_of_branch user) (<[j := false]> (pbits (pool_of_branch user) st)) st).
Proof.
  intros [H1 H2 H3 H4 H5] Hj. unfold pfree, bind, get, modify, PG_SIZE in *.
  destruct user; cbn [pool_of_branch get_pool] in *.
  - rewrite (proj2 (Z.leb_le _ _)) by lia.
    replace (_ + Z.of_nat j * 4096 - _) with (Z.of_nat j * 4096) by lia.
    rewrite wrap32_small by lia. rewrite Z.div_mul by lia.
    pose proof (set_pool_bitmap_set USER_POOL st (Z.of_nat j) false) as E.
    rewrite Nat2Z.id in E. exact (f_equal (Ret tt) E).
  - rewrite (proj2 (Z.leb_gt _ _)) by lia.
    replace (_ + Z.of_nat j * 4096 - _) with (Z.of_nat j * 4096) by lia.
    rewrite wrap32_small by lia. rewrite Z.div_mul by lia.
    pose proof (set_pool_bitmap_set KERNEL_POOL st (Z.of_nat j) false) as E.
    rewrite Nat2Z.id in E. exact (f_equal (Ret tt) E).
Qed.

Lemma addr_v2p_aligned st a :
  0 <= a < 2 ^ 32 -> a mod PG_SIZE = 0 ->
  0 <= frame_of (ptmem st (pte_ptr a)) < 2 ^ 32 ->
  addr_v2p st a = frame_of (ptmem st (pte_ptr a)).
Proof.
  intros Ha Hal Hf. unfold addr_v2p. fold (frame_of (ptmem st (pte_ptr a))).
  rewrite land_offset_mask, Hal, Z.add_0_r by lia. apply wrap32_small. exact Hf.
Qed.

Lemma mfree_page_loop_spec (user : bool) n : forall a (js : list nat) st,
  let mp := pool_of_branch user in
  pools_ok st -> length js = n ->
  PG_SIZE <= a -> a mod PG_SIZE = 0 -> a + Z.of_nat n * PG_SIZE <= 2 ^ 32 ->
  (forall k j : nat, js !! k = Some j ->
     (j < length (pbits mp st))%nat
     /\ frame_of (ptmem st (pte_ptr (a + Z.of_nat k * PG_SIZE)))
        = phy_addr_start (get_pool mp st) + Z.of_nat j * PG_SIZE) ->
  exists pt,
    mfree_page_loop user (a - PG_SIZE) n st
    = Ret tt (set_pt pt (set_pbits mp (set_all js false (pbits mp st)) st))
    /\ forall x, frame_of (pt x) = frame_of (ptmem st x).
Proof.
  induction n as [|n IH]; intros a js st mp Hok Hlen Ha Hal Htop Hfr.
  - destruct js; [|discriminate]. exists (ptmem st). split; [|reflexivity].
    cbn. unfold ret. f_equal. symmetry. apply set_pt_set_pbits_id.
  - destruct js as [|j0 js]; [discriminate|]. injection Hlen as Hlen.
    destruct (Hfr 0%nat j0 eq_refl) as [Hj0 Hf0]. rewrite Z.add_0_r in Hf0.
    cbn [mfree_page_loop]. cbv zeta.
    replace (a - PG_SIZE + PG_SIZE) with a by lia.
    assert (Hok' := Hok). destruct Hok' as [H1 H2 H3 H4 H5].
    unfold PG_SIZE in *.
    rewrite (wrap32_small a) by lia.
    unfold bind at 1. unfold get at 1.
    assert (0 <= phy_addr_start (get_pool mp st) + Z.of_nat j0 * 4096 < 2 ^ 32) as Hrange.
    { subst mp. destruct user; cbn [pool_of_branch get_pool] in *; lia. }
    rewrite addr_v2p_aligned by (unfold PG_SIZE; rewrite ?Hf0; lia).
    rewrite Hf0.
    replace (if user then _ else _) with true.
    2:{ symmetry. subst mp. destruct user; cbn [pool_of_branch get_pool] in *.
        - apply andb_true_iff. split; [apply Z.eqb_eq | apply Z.leb_le; lia].
          rewrite Z.mod_add by lia. exact H4.
        - apply andb_true_iff. split; [apply andb_true_iff; split|].
          + apply Z.eqb_eq. rewrite Z.mod_add by lia. exact H2.
          + apply Z.leb_le. lia.
          + apply Z.ltb_lt. lia. }
    unfold bind at 1. cbn [ASSERT].
    unfold bind at 1. change 4096 with PG_SIZE. subst mp.
    rewrite pfree_spec by assumption.
    unfold bind at 1. unfold page_table_pte_remove at 1, bind at 1, get at 1, store_pt, modify.
    rewrite set_ptmem_set_pt.
    match goal with |- context [mfree_page_loop user a n ?s] => set (st2 := s) end.
    destruct (IH (a + PG_SIZE) js st2) as (pt & Hrun & Hpt).
    + subst st2. apply pools_ok_set; [exact Hok | apply length_insert].
    + exact Hlen.
    + unfold PG_SIZE in *. lia.
    + unfold PG_SIZE in *. replace (a + 4096) with (a + 1 * 4096) by lia.
      rewrite Z.mod_add by lia. exact Hal.
    + unfold PG_SIZE in *. lia.
    + intros k j Hk. destruct (Hfr (S k) j Hk) as [Hj Hf]. unfold PG_SIZE in *.
      replace (a + 4096 + Z.of_nat k * 4096) with (a + Z.of_nat (S k) * 4096) by lia.
      split.
      * subst st2. destruct user; cbn; unfold pbits in *; cbn in *;
          rewrite length_insert; exact Hj.
      * transitivity (frame_of (ptmem st (pte_ptr (a + Z.of_nat (S k) * 4096)))).
        -- subst st2. destruct user; cbn;
             (destruct (_ =? _) eqn:E; [apply Z.eqb_eq in E; rewrite E; apply frame_of_clear_present
                                       | reflexivity]).
        -- rewrite Hf. subst st2. destruct user; reflexivity.
    + unfold PG_SIZE in *. replace (a + 4096 - 4096) with a in Hrun by lia.
      exists pt. split.
      * rewrite Hrun. f_equal. subst st2. destruct user; reflexivity.
      * intros x. rewrite Hpt. subst st2. destruct user; cbn;
          (destruct (_ =? _) eqn:E; [apply Z.eqb_eq in E; rewrite E; apply frame_of_clear_present
                                    | reflexivity]).
Qed.

Lemma set_vaddr_bitmap_bits pf st l :
  set_vaddr pf (set_vaddr_bitmap (mk_bitmap (btmp_bytes_len (vaddr_bitmap (get_vaddr pf st))) l)
                                 (get_vaddr pf st)) st
  = set_vbits pf l st.
Proof. state_cases st. destruct pf; reflexivity. Qed.

(** vaddr_get, when it returns a run: the run was clear, it is now set,
    and its first page is the address returned. *)
Lemma vaddr_get_Ret pf pg_cnt st a st' :
  0 < pg_cnt ->
  Z.of_nat (length (vbits pf st)) < 2 ^ 32 ->
  vaddr_get pf pg_cnt st = Ret a st' -> a <> NULL ->
  exists idx : nat,
    (idx + Z.to_nat pg_cnt <= length (vbits pf st))%nat
    /\ (forall k, (k < Z.to_nat pg_cnt)%nat -> vbits pf st !! (idx + k)%nat = Some false)
    /\ a = wrap32 (vaddr_start (get_vaddr pf st) + Z.of_nat idx * PG_SIZE)
    /\ st' = set_vbits pf (set_all (seq idx (Z.to_nat pg_cnt)) true (vbits pf st)) st.
Proof.
  intros Hcnt Hlen H Ha.
  assert (forall btmp, bits btmp = vbits pf st -> bitmap_scan btmp pg_cnt <> -1 ->
            exists idx : nat, bitmap_scan btmp pg_cnt = Z.of_nat idx
              /\ (idx + Z.to_nat pg_cnt <= length (vbits pf st))%nat
              /\ (forall k, (k < Z.to_nat pg_cnt)%nat -> vbits pf st !! (idx + k)%nat = Some false)
              /\ bitmap_set_run btmp (Z.of_nat idx) 0 (Z.to_nat pg_cnt) true
                 = mk_bitmap (btmp_bytes_len btmp)
                             (set_all (seq idx (Z.to_nat pg_cnt)) true (vbits pf st))) as Hscan.
  { intros btmp Hb Hne. unfold bitmap_scan in *. rewrite Hb in *.
    destruct (scan_from_sound _ _ 0 Hne ltac:(lia)) as (i & Hi & Hclr).
    exists i. split; [rewrite Hi; lia|].
    assert (i + Z.to_nat pg_cnt <= length (vbits pf st))%nat as Hfit.
    { specialize (Hclr (Z.to_nat pg_cnt - 1)%nat ltac:(lia)).
      apply lookup_lt_Some in Hclr. lia. }
    split; [exact Hfit|]. split; [exact Hclr|].
    rewrite bitmap_set_run_spec by lia. rewrite Hb, Z.add_0_r, Nat2Z.id. reflexivity. }
  unfold vaddr_get, bind, get in H.
  destruct pf.
  - destruct (_ =? -1) eqn:E; [injection H as <- _; congruence|].
    apply Z.eqb_neq in E.
    destruct (Hscan (vaddr_bitmap (kernel_vaddr st)) eq_refl E)
      as (idx & Hidx & Hfit & Hclr & Hrun).
    rewrite Hidx, Hrun in H. unfold modify, ret in H. injection H as <- <-.
    exists idx. repeat split; try assumption.
    exact (set_vaddr_bitmap_bits PF_KERNEL st _).
  - destruct (_ =? -1) eqn:E; [injection H as <- _; congruence|].
    apply Z.eqb_neq in E.
    destruct (Hscan (vaddr_bitmap (userprog_vaddr (cur st))) eq_refl E)
      as (idx & Hidx & Hfit & Hclr & Hrun).
    rewrite Hidx, Hrun in H. unfold modify, ret, ASSERT in H.
    destruct (_ <? _); [|discriminate]. injection H as <- <-.
    exists idx. repeat split; try assumption.
    exact (set_vaddr_bitmap_bits PF_USER st _).
Qed.

Lemma vaddr_ok_set_vbits pf l st :
  vaddr_ok pf st -> length l = length (vbits pf st) -> vaddr_ok pf (set_vbits pf l st).
Proof.
  intros [H1 H2 H3 H4] Hl.
  destruct pf; split; cbn; unfold vbits in *; cbn in *; rewrite ?Hl; assumption.
Qed.

(** malloc_page, when it returns pages, under page tables that exist. *)
Lemma malloc_page_spec pf pg_cnt st a st' :
  vaddr_ok pf st ->
  malloc_page pf pg_cnt st = Ret a st' -> a <> NULL ->
  exists (idx : nat) (js : list nat) (pt : Z -> Z),
    0 < pg_cnt < 3840
    /\ (idx + Z.to_nat pg_cnt <= length (vbits pf st))%nat
    /\ (forall k, (k < Z.to_nat pg_cnt)%nat -> vbits pf st !! (idx + k)%nat = Some false)
    /\ a = vaddr_start (get_vaddr pf st) + Z.of_nat idx * PG_SIZE
    /\ length js = Z.to_nat pg_cnt /\ NoDup js
    /\ (forall j, j ∈ js -> pbits (pool_of pf) st !! j = Some false)
    /\ st' = set_pt pt
               (set_pbits (pool_of pf) (set_all js true (pbits (pool_of pf) st))
                  (set_vbits pf (set_all (seq idx (Z.to_nat pg_cnt)) true (vbits pf st)) st))
    /\ (forall k j : nat, js !! k = Some j ->
          pt (pte_ptr (a + Z.of_nat k * PG_SIZE))
          = pte_of (wrap32 (Z.of_nat j * PG_SIZE + phy_addr_start (get_pool (pool_of pf) st)))).
Proof.
  intros Hok H Ha.
  pose proof (malloc_page_returns _ _ _ _ _ H) as Hcnt.
  assert (Hok' := Hok). destruct Hok' as [Hlo Hal Htop Hpde].
  assert (0 <= vaddr_start (get_vaddr pf st)) as Hlo0.
  { destruct pf; cbn [heap_lo] in Hlo; unfold K_HEAP_START in Hlo; lia. }
  unfold malloc_page in H.
  apply bind_Ret in H as (u & st0 & Hassert & H).
  apply ASSERT_Ret in Hassert as [_ ->].
  apply bind_Ret in H as (v & st1 & Hget & H).
  destruct (v =? NULL) eqn:Ev; [injection H as <- _; congruence|].
  apply Z.eqb_neq in Ev.
  unfold PG_SIZE in *.
  apply vaddr_get_Ret in Hget as (idx & Hfit & Hclr & Hv & ->); [|lia|lia|exact Ev].
  rewrite wrap32_small in Hv by (unfold PG_SIZE; lia).
  apply bind_Ret in H as (ok & st2 & Hloop & H).
  destruct ok; [|injection H as <- _; congruence]. injection H as <- <-.
  apply malloc_page_loop_spec in Hloop as (js & pt & Hlen & Hnd & Hjs & -> & Hpt & _).
  - exists idx, js, pt.
    split; [exact Hcnt|]. split; [exact Hfit|]. split; [exact Hclr|].
    split; [exact Hv|]. split; [exact Hlen|]. split; [exact Hnd|].
    split; [intros j Hj; specialize (Hjs j Hj); destruct pf; exact Hjs|].
    split; [destruct pf; reflexivity|].
    intros k j Hk. specialize (Hpt k j Hk). unfold PG_SIZE in *.
    rewrite Hpt. destruct pf; reflexivity.
  - unfold PG_SIZE in Hv. lia.
  - unfold PG_SIZE in *. lia.
  - intros k Hk. specialize (Hpde (idx + k)%nat ltac:(lia)).
    rewrite Hv. unfold PG_SIZE in *.
    replace (vaddr_start (get_vaddr pf st) + Z.of_nat idx * 4096 + Z.of_nat k * 4096)
      with (vaddr_start (get_vaddr pf st) + Z.of_nat (idx + k) * 4096) by lia.
    destruct pf; exact Hpde.
Qed.

Lemma vaddr_remove_spec pf (idx : nat) pg_cnt st :
  0 <= pg_cnt ->
  Z.of_nat idx + pg_cnt < 2 ^ 20 ->
  vaddr_remove pf (vaddr_start (get_vaddr pf st) + Z.of_nat idx * PG_SIZE) pg_cnt st
  = Ret tt (set_vbits pf (set_all (seq idx (Z.to_nat pg_cnt)) false (vbits pf st)) st).
Proof.
  intros Hcnt Hidx. unfold vaddr_remove, bind, get, modify.
  assert (forall s, wrap32 (s + Z.of_nat idx * PG_SIZE - s) / PG_SIZE = Z.of_nat idx) as Hbit.
  { intros s. replace (s + Z.of_nat idx * PG_SIZE - s) with (Z.of_nat idx * PG_SIZE) by lia.
    unfold PG_SIZE. rewrite wrap32_small by lia. apply Z.div_mul. lia. }
  destruct pf; cbn [get_vaddr]; rewrite Hbit, bitmap_set_run_spec by lia;
    rewrite Z.add_0_r, Nat2Z.id; f_equal.
  - exact (set_vaddr_bitmap_bits PF_KERNEL st _).
  - exact (set_vaddr_bitmap_bits PF_USER st _).
Qed.

Definition user_branch (pf : pool_flags) : bool :=
  match pf with
  | PF_KERNEL => false
  | PF_USER => true
  end.

(** mfree_page on pages that are mapped to frames of the pool of their
    domain: the frames and the pages are given back. *)
Lemma mfree_page_spec pf (idx : nat) (js : list nat) pg_cnt st :
  let a := vaddr_start (get_vaddr pf st) + Z.of_nat idx * PG_SIZE in
  pools_ok st ->
  1 <= pg_cnt -> length js = Z.to_nat pg_cnt ->
  PG_SIZE <= a -> vaddr_start (get_vaddr pf st) mod PG_SIZE = 0 ->
  Z.of_nat idx + pg_cnt < 2 ^ 20 ->
  a + pg_cnt * PG_SIZE <= 2 ^ 32 ->
  (forall k j : nat, js !! k = Some j ->
     (j < length (pbits (pool_of pf) st))%nat
     /\ frame_of (ptmem st (pte_ptr (a + Z.of_nat k * PG_SIZE)))
        = phy_addr_start (get_pool (pool_of pf) st) + Z.of_nat j * PG_SIZE) ->
  exists pt,
    mfree_page pf a pg_cnt st
    = Ret tt (set_vbits pf (set_all (seq idx (Z.to_nat pg_cnt)) false (vbits pf st))
                (set_pt pt (set_pbits (pool_of pf) (set_all js false (pbits (pool_of pf) st)) st)))
    /\ forall x, frame_of (pt x) = frame_of (ptmem st x).
Proof.
  intros a Hok Hcnt Hlen Ha Hal Hidx Htop Hfr.
  assert (a mod PG_SIZE = 0) as Haal.
  { subst a. rewrite Z.mod_add by (unfold PG_SIZE; lia). exact Hal. }
  assert (pool_of pf = pool_of_branch (user_branch pf)) as Hmp by (destruct pf; reflexivity).
  destruct js as [|j0 js0] eqn:Ejs; [cbn in Hlen; lia|]. rewrite <- Ejs in *.
  assert (js !! 0%nat = Some j0) as H0 by (rewrite Ejs; reflexivity).
  destruct (Hfr 0%nat j0 H0) as [Hj0 Hf0]. rewrite Z.add_0_r in Hf0.
  assert (Hok' := Hok). destruct Hok' as [H1 H2 H3 H4 H5].
  destruct (mfree_page_loop_spec (user_branch pf) (Z.to_nat pg_cnt) a js st)
    as (pt & Hloop & Hpt); try assumption.
  { rewrite Z2Nat.id by lia. exact Htop. }
  { rewrite <- Hmp. exact Hfr. }
  exists pt. split; [|exact Hpt].
  unfold mfree_page.
  unfold bind at 1. unfold ASSERT at 1.
  rewrite (proj2 (Z.leb_le 1 pg_cnt) Hcnt), (proj2 (Z.eqb_eq _ 0) Haal). cbn [andb].
  unfold bind at 1. unfold get at 1.
  unfold PG_SIZE in *.
  assert (0 <= phy_addr_start (get_pool (pool_of pf) st) + Z.of_nat j0 * 4096 < 2 ^ 32) as Hrange.
  { destruct pf; cbn [pool_of get_pool] in *; lia. }
  rewrite addr_v2p_aligned by (unfold PG_SIZE; rewrite ?Hf0; lia).
  rewrite Hf0.
  unfold bind at 1. unfold ASSERT at 1.
  replace ((_ mod 4096 =? 0) && (0x102000 <=? _)) with true.
  2:{ symmetry. apply andb_true_iff. split; [apply Z.eqb_eq | apply Z.leb_le].
      - rewrite Z.mod_add by lia. destruct pf; assumption.
      - destruct pf; cbn [pool_of get_pool] in *; lia. }
  replace (phy_addr_start (user_pool st) <=? _) with (user_branch pf).
  2:{ symmetry. destruct pf; cbn [pool_of get_pool user_branch] in *;
        [apply Z.leb_gt | apply Z.leb_le]; lia. }
  rewrite wrap32_small by lia.
  assert (forall m : M unit,
            m st = Ret tt (set_pt pt (set_pbits (pool_of pf)
                                        (set_all js false (pbits (pool_of pf) st)) st)) ->
            bind m (fun _ => vaddr_remove pf a pg_cnt) st
            = Ret tt (set_vbits pf (set_all (seq idx (Z.to_nat pg_cnt)) false (vbits pf st))
                        (set_pt pt (set_pbits (pool_of pf)
                                      (set_all js false (pbits (pool_of pf) st)) st)))) as Hfin.
  { intros m Hm. unfold bind. rewrite Hm.
    pose proof (vaddr_remove_spec pf idx pg_cnt
                  (set_pt pt (set_pbits (pool_of pf) (set_all js false (pbits (pool_of pf) st)) st))
                  ltac:(lia) Hidx) as Hrm.
    replace (vaddr_start (get_vaddr pf (set_pt _ _))) with (vaddr_start (get_vaddr pf st)) in Hrm
      by (destruct pf; reflexivity).
    replace (vbits pf (set_pt _ _)) with (vbits pf st) in Hrm by (destruct pf; reflexivity).
    exact Hrm. }
  clear Hmp Hfr Hj0 Hf0 Hrange.
  destruct pf; cbn [user_branch] in *; apply Hfin; exact Hloop.
Qed.

(** * The heap-level functions *)

(** The part of the state the heap-level functions write: the locks,
    the descriptors, the arena headers, the bytes of the heap and the
    interrupt flag. *)
Definition heap_upd (kl ul : nat) (kd ud : list mem_block_desc)
    (ar : Z -> arena) (vm : Z -> memval) (it : bool) (st : state) : state :=
  mk_state
    (mk_pool (pool_bitmap (kernel_pool st)) (phy_addr_start (kernel_pool st))
             (pool_size (kernel_pool st)) kl)
    (mk_pool (pool_bitmap (user_pool st)) (phy_addr_start (user_pool st))
             (pool_size (user_pool st)) ul)
    (kernel_vaddr st) kd
    (mk_task_struct (pgdir (cur st)) (userprog_vaddr (cur st)) ud)
    (ptmem st) ar vm it.

Definition heap_rel (st st' : state) : Prop :=
  exists kl ul kd ud ar vm it, st' = heap_upd kl ul kd ud ar vm it st.

Lemma heap_upd_id st :
  heap_upd (lock (kernel_pool st)) (lock (user_pool st)) (k_block_descs st)
           (u_blcok_desc (cur st)) (arenas st) (vmem st) (intr st) st = st.
Proof. state_cases st. reflexivity. Qed.

#[global] Instance heap_rel_preorder : PreOrder heap_rel.
Proof.
  split.
  - intros st. repeat eexists. symmetry. apply heap_upd_id.
  - intros s1 s2 s3 (kl & ul & kd & ud & ar & vm & it & ->)
      (kl' & ul' & kd' & ud' & ar' & vm' & it' & ->).
    exists kl', ul', kd', ud', ar', vm', it'. reflexivity.
Qed.

Lemma heap_rel_pools_ok st st' : heap_rel st st' -> pools_ok st -> pools_ok st'.
Proof.
  intros (kl & ul & kd & ud & ar & vm & it & ->) [H1 H2 H3 H4 H5].
  split; assumption.
Qed.

Lemma heap_rel_vaddr_ok pf st st' : heap_rel st st' -> vaddr_ok pf st -> vaddr_ok pf st'.
Proof.
  intros (kl & ul & kd & ud & ar & vm & it & ->) [H1 H2 H3 H4].
  destruct pf; split; assumption.
Qed.

(** The four bitmaps. *)
Definition bitmaps (st : state) : bitmap * bitmap * bitmap * bitmap :=
  (pool_bitmap (kernel_pool st), pool_bitmap (user_pool st),
   vaddr_bitmap (kernel_vaddr st), vaddr_bitmap (userprog_vaddr (cur st))).

Lemma heap_rel_bitmaps st st' : heap_rel st st' -> bitmaps st' = bitmaps st.
Proof. intros (kl & ul & kd & ud & ar & vm & it & ->). reflexivity. Qed.

Lemma heap_rel_ptmem st st' : heap_rel st st' -> ptmem st' = ptmem st.
Proof. intros (kl & ul & kd & ud & ar & vm & it & ->). reflexivity. Qed.

Lemma heap_rel_pgdir st st' : heap_rel st st' -> pgdir (cur st') = pgdir (cur st).
Proof. intros (kl & ul & kd & ud & ar & vm & it & ->). reflexivity. Qed.

(** The state with the four bitmaps of [st0] put back. *)
Definition restore_bitmaps (st0 : state) (pt : Z -> Z) (st : state) : state :=
  page_upd (pbits KERNEL_POOL st0) (pbits USER_POOL st0)
           (vbits PF_KERNEL st0) (vbits PF_USER st0) pt st.

Lemma restore_bitmaps_bitmaps st0 pt st1 st :
  page_rel st0 st1 -> heap_rel st1 st ->
  bitmaps (restore_bitmaps st0 pt st) = bitmaps st0.
Proof.
  intros (kb & ub & kv & uv & pt' & ->) (kl & ul & kd & ud & ar & vm & it & ->).
  state_cases st0. reflexivity.
Qed.

(** Pages handed out by malloc_page and given back by mfree_page, with
    only heap-level writes in between: the four bitmaps are as before. *)
Lemma page_roundtrip pf pg_cnt st a st1 sx :
  pools_ok st -> vaddr_ok pf st ->
  malloc_page pf pg_cnt st = Ret a st1 -> a <> NULL -> heap_rel st1 sx ->
  exists pt, mfree_page pf a pg_cnt sx = Ret tt (restore_bitmaps st pt sx).
Proof.
  intros Hpools Hvaddr Hmalloc Ha Hheap.
  destruct (malloc_page_spec _ _ _ _ _ Hvaddr Hmalloc Ha)
    as (idx & js & pt0 & Hcnt & Hfit & Hclr & Haddr & Hlen & Hnd & Hjs & -> & Hpt).
  destruct Hheap as (kl & ul & kd & ud & ar & vm & it & ->).
  assert (Hp := Hpools). destruct Hp as [P1 P2 P3 P4 P5].
  assert (Hv := Hvaddr). destruct Hv as [V1 V2 V3 V4].
  assert (0 <= vaddr_start (get_vaddr pf st)) as V0.
  { destruct pf; cbn [heap_lo] in V1; unfold K_HEAP_START in V1; lia. }
  set (sx := heap_upd _ _ _ _ _ _ _ _).
  assert (vaddr_start (get_vaddr pf sx) = vaddr_start (get_vaddr pf st)) as Evs
    by (destruct pf; reflexivity).
  assert (pbits (pool_of pf) sx = set_all js true (pbits (pool_of pf) st)) as Epb
    by (destruct pf; reflexivity).
  assert (vbits pf sx = set_all (seq idx (Z.to_nat pg_cnt)) true (vbits pf st)) as Evb
    by (destruct pf; reflexivity).
  assert (phy_addr_start (get_pool (pool_of pf) sx) = phy_addr_start (get_pool (pool_of pf) st))
    as Eps by (destruct pf; reflexivity).
  assert (forall j, j ∈ js -> (j < length (pbits (pool_of pf) st))%nat) as Hjlt.
  { intros j Hj. eapply lookup_lt_Some. apply Hjs. exact Hj. }
  unfold PG_SIZE in *.
  destruct (mfree_page_spec pf idx js pg_cnt sx) as (pt & Hfree & _).
  - subst sx. eapply heap_rel_pools_ok; [eexists _, _, _, _, _, _, _; reflexivity|].
    apply pools_ok_set.
    + destruct pf; split; assumption.
    + rewrite set_all_length. destruct pf; reflexivity.
  - lia.
  - exact Hlen.
  - rewrite Evs. unfold PG_SIZE.
    assert (a mod 4096 = 0) as Hal by (rewrite Haddr, Z.mod_add by lia; exact V2).
    pose proof (Z.div_mod a 4096 ltac:(lia)) as Hdm.
    assert (0 <= a) by lia.
    assert (0 <= a / 4096) by (apply Z.div_pos; lia).
    unfold NULL in Ha. lia.
  - rewrite Evs. exact V2.
  - lia.
  - rewrite Evs. unfold PG_SIZE. lia.
  - intros k j Hk. rewrite Evs, Epb, Eps, set_all_length.
    assert (j ∈ js) as Hj by (eapply list_elem_of_lookup_2; exact Hk).
    split; [apply Hjlt; exact Hj|].
    replace (ptmem sx) with pt0 by (subst sx; destruct pf; reflexivity).
    unfold PG_SIZE. rewrite <- Haddr, (Hpt k j Hk).
    specialize (Hjlt j Hj).
    assert (0 <= Z.of_nat j * 4096 + phy_addr_start (get_pool (pool_of pf) st) < 2 ^ 32) as Hr.
    { destruct pf; cbn [pool_of get_pool] in *; lia. }
    rewrite wrap32_small by exact Hr.
    rewrite frame_of_pte_of; [lia | exact Hr |].
    unfold PG_SIZE. rewrite Z.add_comm, Z.mod_add by lia.
    destruct pf; assumption.
  - exists pt. unfold PG_SIZE in Hfree. rewrite Evs, <- Haddr in Hfree. rewrite Hfree. f_equal.
    rewrite Epb, Evb, (set_all_undo js) by exact Hjs.
    rewrite set_all_undo.
    + subst sx. unfold restore_bitmaps. destruct pf; reflexivity.
    + intros j Hj. apply list_elem_of_In, in_seq in Hj.
      replace j with (idx + (j - idx))%nat by lia. apply Hclr. lia.
Qed.

Lemma modify_Ret f st u st' : modify f st = Ret u st' -> st' = f st.
Proof. intros H. injection H as _ <-. reflexivity. Qed.

Lemma get_Ret st a st' : get st = Ret a st' -> a = st /\ st' = st.
Proof. intros H. injection H as <- <-. split; reflexivity. Qed.

Lemma ret_Ret {A} (x : A) st a st' : ret x st = Ret a st' -> a = x /\ st' = st.
Proof. intros H. injection H as <- <-. split; reflexivity. Qed.

Lemma bind_eq {A B} (m : M A) (k : A -> M B) st a st1 :
  m st = Ret a st1 -> bind m k st = k a st1.
Proof. intros H. unfold bind. rewrite H. reflexivity. Qed.

Lemma set_descs_id da st : set_descs da (get_descs da st) st = st.
Proof. state_cases st. destruct da; reflexivity. Qed.

Lemma set_desc_id da i d st : get_descs da st !! i = Some d -> set_desc da i d st = st.
Proof. intros H. unfold set_desc. rewrite list_insert_id by exact H. apply set_descs_id. Qed.

Lemma set_desc_set_desc da i d d' st :
  set_desc da i d' (set_desc da i d st) = set_desc da i d' st.
Proof. unfold set_desc. destruct da; cbn; rewrite list_insert_insert_eq; reflexivity. Qed.

Lemma get_descs_set_desc da i d st :
  get_descs da (set_desc da i d st) = <[i := d]> (get_descs da st).
Proof. destruct da; reflexivity. Qed.

Lemma arenas_set_desc da i d st : arenas (set_desc da i d st) = arenas st.
Proof. destruct da; reflexivity. Qed.

Lemma set_free_list_id d : set_free_list (free_list d) d = d.
Proof. destruct d; reflexivity. Qed.

Lemma read_desc_eq da i d st :
  get_descs da st !! i = Some d -> read_desc (da, i) st = Ret d st.
Proof. intros H. unfold read_desc, bind, get. cbn [fst snd]. rewrite H. reflexivity. Qed.

Lemma read_desc_Ret dp st d st' :
  read_desc dp st = Ret d st' -> get_descs (fst dp) st !! snd dp = Some d /\ st' = st.
Proof.
  unfold read_desc, bind, get. destruct (_ !! _); [|discriminate].
  intros H. injection H as <- <-. split; reflexivity.
Qed.

Lemma arena_desc_eq a dp st : desc (arenas st a) = Some dp -> arena_desc a st = Ret dp st.
Proof. intros H. unfold arena_desc, bind, get. rewrite H. reflexivity. Qed.

Lemma arena2block_eq a idx da i d st :
  desc (arenas st a) = Some (da, i) -> get_descs da st !! i = Some d ->
  arena2block a idx st = Ret (wrap32 (a + sizeof_arena + idx * block_size d)) st.
Proof.
  intros Ha Hd. unfold arena2block.
  rewrite (bind_eq _ _ _ _ _ (arena_desc_eq _ _ _ Ha)).
  rewrite (bind_eq _ _ _ _ _ (read_desc_eq _ _ _ _ Hd)). reflexivity.
Qed.

(** The blocks arena_fill links and arena_unlink unlinks, in order. *)
Fixpoint arena_blocks (a bsize block_idx : Z) (n : nat) : list Z :=
  match n with
  | O => []
  | S n' => wrap32 (a + sizeof_arena + block_idx * bsize)
            :: arena_blocks a bsize (wrap32 (block_idx + 1)) n'
  end.

(** arena_fill, when it returns, has appended the blocks of the arena to
    the free list of its descriptor, and written nothing else. *)
Lemma arena_fill_spec a da i n : forall block_idx d st st',
  desc (arenas st a) = Some (da, i) ->
  get_descs da st !! i = Some d ->
  arena_fill a block_idx n st = Ret tt st' ->
  st' = set_desc da i
          (set_free_list (free_list d ++ arena_blocks a (block_size d) block_idx n) d) st.
Proof.
  induction n as [|n IH]; intros block_idx d st st' Ha Hd H.
  - injection H as <-. cbn [arena_blocks]. rewrite app_nil_r, set_free_list_id.
    symmetry. apply set_desc_id. exact Hd.
  - cbn [arena_fill arena_blocks] in H.
    rewrite (bind_eq _ _ _ _ _ (arena2block_eq _ block_idx _ _ _ _ Ha Hd)) in H.
    rewrite (bind_eq _ _ _ _ _ (arena_desc_eq _ _ _ Ha)) in H.
    rewrite (bind_eq _ _ _ _ _ (read_desc_eq _ _ _ _ Hd)) in H.
    apply bind_Ret in H as (u & s & Hassert & H). apply ASSERT_Ret in Hassert as [_ ->].
    apply bind_Ret in H as (u' & s & Hw & H). apply modify_Ret in Hw. subst s.
    cbn [fst snd] in H.
    apply IH with (d := set_free_list (list_append (free_list d)
            (wrap32 (a + sizeof_arena + block_idx * block_size d))) d) in H.
    + rewrite H, set_desc_set_desc. unfold list_append. cbn [free_list block_size set_free_list].
      rewrite <- app_assoc. reflexivity.
    + rewrite arenas_set_desc. exact Ha.
    + rewrite get_descs_set_desc. apply list_lookup_insert_eq.
      apply lookup_lt_is_Some. eauto.
Qed.

Lemma elem_find_true plist x : x ∈ plist -> elem_find plist x = true.
Proof.
  intros H. unfold elem_find. apply existsb_exists. exists x.
  split; [apply list_elem_of_In; exact H | apply Z.eqb_refl].
Qed.

Lemma list_remove_elem plist pelem x : x ∈ list_remove plist pelem <-> x ∈ plist /\ x <> pelem.
Proof. unfold list_remove. rewrite list_elem_of_filter. tauto. Qed.

(** arena_unlink on a free list that holds exactly the blocks of the
    arena: every assertion passes, and the list ends empty. *)
Lemma arena_unlink_spec a da i n : forall block_idx d st,
  desc (arenas st a) = Some (da, i) ->
  get_descs da st !! i = Some d ->
  NoDup (arena_blocks a (block_size d) block_idx n) ->
  (forall x, x ∈ free_list d <-> x ∈ arena_blocks a (block_size d) block_idx n) ->
  arena_unlink a block_idx n st = Ret tt (set_desc da i (set_free_list [] d) st).
Proof.
  induction n as [|n IH]; intros block_idx d st Ha Hd Hnd Hmem.
  - cbn [arena_blocks] in Hmem.
    assert (free_list d = []) as Hnil.
    { destruct (free_list d) as [|x l]; [reflexivity|].
      exfalso. eapply not_elem_of_nil. apply Hmem. left. }
    rewrite <- Hnil, set_free_list_id, set_desc_id by exact Hd. reflexivity.
  - cbn [arena_unlink arena_blocks] in *.
    set (b := wrap32 (a + sizeof_arena + block_idx * block_size d)) in *.
    rewrite (bind_eq _ _ _ _ _ (arena2block_eq _ block_idx _ _ _ _ Ha Hd)).
    rewrite (bind_eq _ _ _ _ _ (arena_desc_eq _ _ _ Ha)).
    rewrite (bind_eq _ _ _ _ _ (read_desc_eq _ _ _ _ Hd)).
    fold b. rewrite elem_find_true by (apply Hmem; left).
    unfold bind at 1. cbn [ASSERT]. unfold bind at 1, write_desc, modify. cbn [fst snd].
    apply NoDup_cons in Hnd as [Hb Hnd].
    rewrite (IH _ (set_free_list (list_remove (free_list d) b) d)).
    + rewrite set_desc_set_desc. reflexivity.
    + rewrite arenas_set_desc. exact Ha.
    + rewrite get_descs_set_desc. apply list_lookup_insert_eq.
      apply lookup_lt_is_Some. eauto.
    + exact Hnd.
    + intros x. cbn [free_list block_size set_free_list].
      rewrite list_remove_elem, Hmem, elem_of_cons. split.
      * intros [[-> | Hx] Hne]; [congruence | exact Hx].
      * intros Hx. split; [right; exact Hx | intros ->; contradiction].
Qed.

(** * The assertions of mfree_page *)

Lemma addr_v2p_frame st st' :
  (forall x, frame_of (ptmem st' x) = frame_of (ptmem st x)) ->
  forall v, addr_v2p st' v = addr_v2p st v.
Proof.
  intros H v. unfold addr_v2p. fold (frame_of (ptmem st' (pte_ptr v))).
  rewrite H. reflexivity.
Qed.

(** One turn of the loop of mfree_page leaves the pool bounds and the
    frame of every entry as they were. *)
Lemma mfree_turn_frame p v st u s1 u' st' :
  pfree p st = Ret u s1 -> page_table_pte_remove v s1 = Ret u' st' ->
  phy_addr_start (kernel_pool st') = phy_addr_start (kernel_pool st)
  /\ phy_addr_start (user_pool st') = phy_addr_start (user_pool st)
  /\ forall x, frame_of (ptmem st' x) = frame_of (ptmem st x).
Proof.
  unfold pfree, page_table_pte_remove, store_pt, bind, get, modify.
  destruct (_ <=? _); intros H H'; injection H as _ <-; injection H' as _ <-; cbn.
  all: repeat split; intros x; destruct (x =? pte_ptr v) eqn:E; try reflexivity.
  all: apply Z.eqb_eq in E; subst x; apply frame_of_clear_present.
Qed.

(** The lower bound each loop of mfree_page asserts of a frame. *)
Definition branch_bound (user : bool) (st : state) : Z :=
  if user then phy_addr_start (user_pool st) else phy_addr_start (kernel_pool st).

Lemma mfree_page_loop_Ret user n : forall v st u st',
  mfree_page_loop user v n st = Ret u st' ->
  forall k : nat, (k < n)%nat ->
    branch_bound user st <= addr_v2p st (wrap32 (v + (Z.of_nat k + 1) * PG_SIZE)).
Proof.
  induction n as [|n IH]; intros v st u st' H k Hk; [lia|].
  cbn [mfree_page_loop] in H. cbv zeta in H.
  apply bind_Ret in H as (s0 & s & Hget & H). apply get_Ret in Hget as [-> ->].
  apply bind_Ret in H as (u1 & s & Hassert & H). apply ASSERT_Ret in Hassert as [Hc ->].
  apply bind_Ret in H as (u2 & s2 & Hpfree & H).
  apply bind_Ret in H as (u3 & s3 & Hrem & H).
  destruct (mfree_turn_frame _ _ _ _ _ _ _ Hpfree Hrem) as (Ek & Eu & Ef).
  destruct k as [|k].
  - cbn [Z.of_nat]. rewrite Z.mul_1_l.
    unfold branch_bound. destruct user.
    + apply andb_true_iff in Hc as [_ Hc]. apply Z.leb_le in Hc. exact Hc.
    + apply andb_true_iff in Hc as [Hc _]. apply andb_true_iff in Hc as [_ Hc].
      apply Z.leb_le in Hc. exact Hc.
  - specialize (IH _ _ _ _ H k ltac:(lia)).
    rewrite (addr_v2p_frame _ _ Ef) in IH.
    replace (branch_bound user s3) with (branch_bound user st) in IH
      by (unfold branch_bound; destruct user; congruence).
    replace (wrap32 (v + (Z.of_nat (S k) + 1) * PG_SIZE))
      with (wrap32 (wrap32 (v + PG_SIZE) + (Z.of_nat k + 1) * PG_SIZE)); [exact IH|].
    unfold wrap32. rewrite Zplus_mod_idemp_l. f_equal. lia.
Qed.

(** mfree_page returns only when the count and the address pass the
    first assertion and every frame lies above the reserved memory. *)
Lemma mfree_page_Ret pf vaddr pg_cnt st u st' :
  0x102000 <= phy_addr_start (kernel_pool st) <= phy_addr_start (user_pool st) ->
  mfree_page pf vaddr pg_cnt st = Ret u st' ->
  1 <= pg_cnt /\ vaddr mod PG_SIZE = 0
  /\ forall k, 0 <= k < pg_cnt -> 0x102000 <= addr_v2p st (wrap32 (vaddr + k * PG_SIZE)).
Proof.
  intros Hlay H. unfold mfree_page in H.
  apply bind_Ret in H as (u1 & s & Hassert & H). apply ASSERT_Ret in Hassert as [Hc ->].
  apply andb_true_iff in Hc as [Hcnt Hal]. apply Z.leb_le in Hcnt. apply Z.eqb_eq in Hal.
  split; [exact Hcnt|]. split; [exact Hal|].
  apply bind_Ret in H as (s0 & s & Hget & H). apply get_Ret in Hget as [-> ->].
  apply bind_Ret in H as (u2 & s & Hassert & H). apply ASSERT_Ret in Hassert as [_ ->].
  assert (forall user u' s', mfree_page_loop user (wrap32 (vaddr - PG_SIZE)) (Z.to_nat pg_cnt) st
                             = Ret u' s' ->
          forall k, 0 <= k < pg_cnt -> 0x102000 <= addr_v2p st (wrap32 (vaddr + k * PG_SIZE)))
    as Hloop.
  { intros user u' s' Hl k Hk.
    pose proof (mfree_page_loop_Ret _ _ _ _ _ _ Hl (Z.to_nat k) ltac:(lia)) as Hb.
    rewrite Z2Nat.id in Hb by lia.
    replace (wrap32 (wrap32 (vaddr - PG_SIZE) + (k + 1) * PG_SIZE))
      with (wrap32 (vaddr + k * PG_SIZE)) in Hb
      by (unfold wrap32; rewrite Zplus_mod_idemp_l; f_equal; lia).
    unfold branch_bound in Hb. destruct user; lia. }
  destruct (_ <=? _); apply bind_Ret in H as (u3 & s3 & Hl & _); eapply Hloop; exact Hl.
Qed.

(** C8: mfree_page halts the kernel when the count is below one, when
    the address is not page-aligned, and when any of the frames it is to
    free lies below 0x102000; the low 1 MiB and the 2 KiB that follow it
    lie below that bound. *)
Theorem mfree_page_asserts (pf : pool_flags) (vaddr pg_cnt : Z) (st : state)
    (Hlayout : 0x102000 <= phy_addr_start (kernel_pool st) <= phy_addr_start (user_pool st))
    (Hbad : pg_cnt < 1 \/ vaddr mod PG_SIZE <> 0
            \/ exists k, 0 <= k < pg_cnt
                         /\ addr_v2p st (wrap32 (vaddr + k * PG_SIZE)) < 0x102000) :
  mfree_page pf vaddr pg_cnt st = Halt.
Proof.
  destruct (mfree_page pf vaddr pg_cnt st) as [u st'|] eqn:E; [exfalso|reflexivity].
  destruct (mfree_page_Ret _ _ _ _ _ _ Hlayout E) as (Hcnt & Hal & Hfr).
  destruct Hbad as [Hbad | [Hbad | (k & Hk & Hbad)]]; [lia | contradiction |].
  specialize (Hfr k Hk). lia.
Qed.

Lemma mfree_page_asserts_low_frame :
  (0x102000 <= phy_addr_start (kernel_pool state_32M) <= phy_addr_start (user_pool state_32M))
  /\ addr_v2p state_32M (wrap32 (0xc0000000 + 0 * PG_SIZE)) < 0x100000 + 2048
  /\ mfree_page PF_KERNEL 0xc0000000 1 state_32M = Halt.
Proof.
  assert (0x102000 <= phy_addr_start (kernel_pool state_32M)
          <= phy_addr_start (user_pool state_32M)) as Hl
    by (split; vm_compute; congruence).
  assert (addr_v2p state_32M (wrap32 (0xc0000000 + 0 * PG_SIZE)) < 0x100000 + 2048) as Hf
    by (vm_compute; reflexivity).
  split; [exact Hl|]. split; [exact Hf|].
  apply mfree_page_asserts; [exact Hl|].
  right. right. exists 0. split; [lia|]. lia.
Defined.

(** * sys_malloc, path by path *)

(** The domain sys_malloc and sys_free take from the running thread. *)
Definition caller_pf (st : state) : pool_flags :=
  if pgdir (cur st) =? NULL then PF_KERNEL else PF_USER.

Definition descs_of (pf : pool_flags) : desc_array :=
  match pf with
  | PF_KERNEL => K_BLOCK_DESCS
  | PF_USER => U_BLOCK_DESC
  end.

Lemma sys_malloc_eq size st :
  sys_malloc size st
  = sys_malloc_in (caller_pf st) (caller_pool_size st) (pool_of (caller_pf st))
                  (descs_of (caller_pf st)) size st.
Proof.
  unfold sys_malloc, caller_pf, caller_pool_size, bind, get.
  destruct (pgdir (cur st) =? NULL); reflexivity.
Qed.

Lemma sys_malloc_in_Ret pf psize mp da size st p st1 :
  sys_malloc_in pf psize mp da size st = Ret p st1 -> p <> NULL ->
  0 < size < psize
  /\ (if 1024 <? size
      then sys_malloc_large pf mp size (locked mp st) = Ret p st1
      else sys_malloc_small pf mp da size (locked mp st) = Ret p st1).
Proof.
  unfold sys_malloc_in. intros H Hp.
  destruct ((0 <? size) && (size <? psize)) eqn:E; cbn [negb] in H.
  - apply andb_true_iff in E as [E1 E2]. apply Z.ltb_lt in E1, E2.
    split; [lia|]. unfold bind, lock_acquire, modify in H.
    destruct (1024 <? size); exact H.
  - injection H as <- _. congruence.
Qed.

Lemma sys_malloc_large_Ret pf mp size st p st1 :
  sys_malloc_large pf mp size st = Ret p st1 -> p <> NULL ->
  let n := DIV_ROUND_UP (wrap32 (size + sizeof_arena)) PG_SIZE in
  exists a s1,
    malloc_page pf n st = Ret a s1 /\ a <> NULL
    /\ p = wrap32 (a + sizeof_arena)
    /\ st1 = unlocked mp (with_arena a (mk_arena None true n) (zeroed a (wrap32 (n * PG_SIZE)) s1)).
Proof.
  intros H Hp n. unfold sys_malloc_large in H. fold n in H.
  apply bind_Ret in H as (a & s1 & Hm & H).
  exists a, s1. split; [exact Hm|].
  destruct (a =? NULL) eqn:E; cbn [negb] in H.
  - unfold bind, lock_release, modify, ret in H. injection H as <- _. congruence.
  - apply Z.eqb_neq in E. split; [exact E|].
    unfold bind, memset0, write_arena, lock_release, modify, ret in H.
    injection H as <- <-. split; reflexivity.
Qed.

(** Modelled from the spec: the ceiling of a quotient, in the spec's
    words [⌈x / y⌉]. *)
Definition ceil_div (x y : Z) : Z := - ((- x) / y).

Lemma DIV_ROUND_UP_ceil x :
  0 <= x -> x + PG_SIZE <= 2 ^ 32 -> DIV_ROUND_UP (wrap32 x) PG_SIZE = ceil_div x PG_SIZE.
Proof.
  intros H0 H1. unfold DIV_ROUND_UP, ceil_div, PG_SIZE in *.
  rewrite !wrap32_small by (rewrite ?wrap32_small; lia).
  pose proof (Z.div_mod (- x) 4096 ltac:(lia)) as Hdm.
  pose proof (Z.mod_pos_bound (- x) 4096 ltac:(lia)) as Hm.
  symmetry. apply Z.div_unique with (r := 4095 - (- x) mod 4096); lia.
Qed.

Lemma sys_malloc_large_spec pf size st p st1 :
  Z.of_nat (length (vbits pf st)) <= 2 ^ 20 ->
  0 < size -> size + sizeof_arena + PG_SIZE <= 2 ^ 32 ->
  sys_malloc_large pf (pool_of pf) size (locked (pool_of pf) st) = Ret p st1 -> p <> NULL ->
  let n := ceil_div (size + sizeof_arena) PG_SIZE in
  exists (idx : nat) (a : Z),
    a = wrap32 (vaddr_start (get_vaddr pf st) + Z.of_nat idx * PG_SIZE)
    /\ (forall k : nat, (k < Z.to_nat n)%nat -> vbits pf st !! (idx + k)%nat = Some false)
    /\ vbits pf st1 = set_all (seq idx (Z.to_nat n)) true (vbits pf st)
    /\ (forall x, a <= x < a + sizeof_arena -> vmem st1 x = HeaderByte (x - a))
    /\ (forall x, a + sizeof_arena <= x < a + n * PG_SIZE -> vmem st1 x = 0)
    /\ arenas st1 a = mk_arena None true n
    /\ p = wrap32 (a + sizeof_arena).
Proof.
  intros Hbits Hsize Htop Hm Hp n.
  apply sys_malloc_large_Ret in Hm as (a & s1 & Hmp & Ha & Hpa & ->); [|exact Hp].
  assert (DIV_ROUND_UP (wrap32 (size + sizeof_arena)) PG_SIZE = n) as En.
  { apply DIV_ROUND_UP_ceil; unfold sizeof_arena, PG_SIZE in *; lia. }
  cbv zeta in Hmp. rewrite En in *.
  pose proof (malloc_page_returns _ _ _ _ _ Hmp) as Hn.
  unfold malloc_page in Hmp.
  apply bind_Ret in Hmp as (u & s & Hassert & Hmp). apply ASSERT_Ret in Hassert as [_ ->].
  apply bind_Ret in Hmp as (v & s0 & Hget & Hmp).
  destruct (v =? NULL) eqn:Ev; [injection Hmp as <- _; congruence|].
  apply Z.eqb_neq in Ev.
  apply bind_Ret in Hmp as (ok & s2 & Hloop & Hmp).
  assert (a = v /\ s1 = s2) as [-> ->].
  { destruct ok; injection Hmp as <- <-; [split; reflexivity | congruence]. }
  apply malloc_page_loop_phys_rel in Hloop.
  assert (vbits pf (locked (pool_of pf) st) = vbits pf st) as Evb by (destruct pf; reflexivity).
  apply vaddr_get_Ret in Hget as (idx & Hfit & Hclr & Hv & ->); [|lia|rewrite Evb; lia|exact Ev].
  rewrite Evb in *.
  exists idx, v. split; [rewrite Hv; destruct pf; reflexivity|].
  split; [exact Hclr|].
  split.
  { transitivity (vbits pf s2); [destruct pf; reflexivity|].
    unfold vbits. rewrite (phys_rel_vaddr _ _ pf Hloop). destruct pf; reflexivity. }
  assert (forall x,
            vmem (unlocked (pool_of pf)
                    (with_arena v (mk_arena None true n)
                       (zeroed v (wrap32 (n * PG_SIZE)) s2))) x
            = if (v <=? x) && (x <? v + sizeof_arena) then HeaderByte (x - v)
              else if (v <=? x) && (x <? v + wrap32 (n * PG_SIZE)) then Byte 0
                   else vmem s2 x) as Evm by (intros x; destruct pf; reflexivity).
  split.
  { intros x Hx. rewrite Evm.
    rewrite (proj2 (Z.leb_le _ _)), (proj2 (Z.ltb_lt _ _)) by lia. reflexivity. }
  split.
  { intros x Hx. rewrite Evm. rewrite wrap32_small by (unfold PG_SIZE; lia).
    rewrite (proj2 (Z.ltb_ge x (v + sizeof_arena))) by lia. rewrite andb_false_r.
    rewrite (proj2 (Z.leb_le _ _)), (proj2 (Z.ltb_lt _ _)) by (unfold sizeof_arena in *; lia).
    reflexivity. }
  split; [|exact Hpa].
  replace (arenas (unlocked _ _)) with
    (fun y => if y =? v then mk_arena None true n
              else arenas (zeroed v (wrap32 (n * PG_SIZE)) s2) y)
    by (destruct pf; reflexivity).
  cbv beta. rewrite Z.eqb_refl. reflexivity.
Qed.

(** C6: a sys_malloc of more than 1024 bytes that succeeds has taken the
    ceiling of (size + sizeof(struct arena)) / 4096 contiguous virtual
    pages, which were free and are now reserved, zeroed them, written the
    header (no descriptor, large, that page count) at their base, and
    returned the address right after the header: when it returns, the
    first sizeof(struct arena) bytes of the pages hold that header and
    every byte behind them is zero; for 2000 bytes that is one page. *)
Theorem sys_malloc_large_pages (size : Z) (st : state) (p : Z)
    (Hbits : Z.of_nat (length (vbits (caller_pf st) st)) <= 2 ^ 20)
    (Hpsize : caller_pool_size st <= 0xffff * PG_SIZE)
    (Hbig : 1024 < size)
    (Hret : returned (sys_malloc size st) = Some p) (Hp : p <> NULL) :
  let pf := caller_pf st in
  let n := ceil_div (size + sizeof_arena) PG_SIZE in
  exists (st1 : state) (idx : nat) (a : Z),
    sys_malloc size st = Ret p st1
    /\ a = wrap32 (vaddr_start (get_vaddr pf st) + Z.of_nat idx * PG_SIZE)
    /\ (forall k : nat, (k < Z.to_nat n)%nat -> vbits pf st !! (idx + k)%nat = Some false)
    /\ vbits pf st1 = set_all (seq idx (Z.to_nat n)) true (vbits pf st)
    /\ arenas st1 a = mk_arena None true n
    /\ (forall x, a <= x < a + sizeof_arena -> vmem st1 x = HeaderByte (x - a))
    /\ (forall x, a + sizeof_arena <= x < a + n * PG_SIZE -> vmem st1 x = 0)
    /\ p = wrap32 (a + sizeof_arena)
    /\ ceil_div (2000 + sizeof_arena) PG_SIZE = 1.
Proof.
  intros pf n.
  destruct (sys_malloc size st) as [p' st1|] eqn:Hm; [|discriminate].
  injection Hret as ->. exists st1.
  rewrite sys_malloc_eq in Hm.
  apply sys_malloc_in_Ret in Hm as [Hsize Hm]; [|exact Hp].
  rewrite (proj2 (Z.ltb_lt _ _) Hbig) in Hm.
  assert (size + sizeof_arena + PG_SIZE <= 2 ^ 32) as Htop
    by (unfold sizeof_arena, PG_SIZE in *; lia).
  assert (0 < size) as Hpos by lia.
  destruct (sys_malloc_large_spec _ _ _ _ _ Hbits Hpos Htop Hm Hp)
    as (idx & a & H1 & H2 & H3 & H4 & H5 & H6 & H7).
  exists idx, a. split; [reflexivity|]. split; [exact H1|]. split; [exact H2|].
  split; [exact H3|]. split; [exact H6|]. split; [exact H4|]. split; [exact H5|].
  split; [exact H7 | reflexivity].
Qed.

Lemma sys_malloc_large_pages_2000 :
  Z.of_nat (length (vbits (caller_pf state_32M) state_32M)) <= 2 ^ 20
  /\ caller_pool_size state_32M <= 0xffff * PG_SIZE
  /\ exists st1, sys_malloc 2000 state_32M = Ret (0xc0100000 + sizeof_arena) st1
                 /\ arenas st1 0xc0100000 = mk_arena None true 1
                 /\ vmem st1 0xc0100008 = HeaderByte 8
                 /\ vmem st1 0xc010000c = 0 /\ vmem st1 0xc0100fff = 0.
Proof.
  assert (Z.of_nat (length (vbits (caller_pf state_32M) state_32M)) <= 2 ^ 20) as H1
    by (vm_compute; congruence).
  assert (caller_pool_size state_32M <= 0xffff * PG_SIZE) as H2 by (vm_compute; congruence).
  assert (returned (sys_malloc 2000 state_32M) = Some (0xc0100000 + sizeof_arena)) as H3
    by (vm_compute; reflexivity).
  split; [exact H1|]. split; [exact H2|].
  destruct (sys_malloc_large_pages 2000 state_32M _ H1 H2 ltac:(lia) H3 ltac:(vm_compute; congruence))
    as (st1 & idx & a & Hm & Ha & _ & _ & Har & Hhdr & Hzero & Hp & Hone).
  exists st1. split; [exact Hm|].
  assert (a = 0xc0100000) as ->.
  { assert (0 <= a < 2 ^ 32) as Hr by (rewrite Ha; apply wrap32_range).
    unfold sizeof_arena in Hp.
    destruct (Z_lt_le_dec (a + 12) (2 ^ 32)) as [Hlt|Hge].
    - rewrite wrap32_small in Hp by lia. lia.
    - unfold wrap32 in Hp.
      replace ((a + 12) mod 2 ^ 32) with (a + 12 - 2 ^ 32) in Hp; [lia|].
      apply Z.mod_unique with (q := 1); lia. }
  rewrite Hone in Hzero. unfold sizeof_arena, PG_SIZE in *.
  split; [exact Har|].
  split; [exact (Hhdr 0xc0100008 ltac:(lia))|].
  split; apply Hzero; lia.
Defined.

(** The state sys_malloc_take leaves: the block [b] popped from the
    free list of descriptor [i], cleared, and counted out of its arena. *)
Definition taken (da : desc_array) (i : nat) (mp : pool_id) (d : mem_block_desc)
    (b : Z) (rest : list Z) (st : state) : state :=
  let sz := zeroed b (block_size d) (set_desc da i (set_free_list rest d) st) in
  unlocked mp
    (with_arena (block2arena b)
       (set_cnt (wrap32 (cnt (arenas sz (block2arena b)) - 1)) (arenas sz (block2arena b))) sz).

Lemma sys_malloc_take_Ret da i mp st p st1 :
  sys_malloc_take (da, i) mp st = Ret p st1 ->
  exists d b rest,
    get_descs da st !! i = Some d /\ free_list d = b :: rest
    /\ p = b /\ st1 = taken da i mp d b rest st.
Proof.
  unfold sys_malloc_take. intros H.
  apply bind_Ret in H as (d & s & Hd & H). apply read_desc_Ret in Hd as [Hd ->].
  cbn [fst snd] in Hd.
  destruct (free_list d) as [|b rest] eqn:Hfl; [discriminate|].
  exists d, b, rest. split; [exact Hd|]. split; [exact Hfl|].
  unfold bind, write_desc, memset0, write_arena, lock_release, get, modify, ret in H.
  cbn [fst snd] in H. injection H as <- <-. split; reflexivity.
Qed.

(** The state sys_malloc leaves before it takes a block from a new
    arena at [a]: the page cleared, the header written, the blocks
    linked. *)
Definition new_arena (da : desc_array) (i : nat) (d : mem_block_desc) (a : Z)
    (blocks : list Z) (st : state) : state :=
  set_intr (intr st)
    (set_desc da i (set_free_list (free_list d ++ blocks) d)
       (set_intr false
          (with_arena a (mk_arena (Some (da, i)) false (blocks_per_arena d))
             (zeroed a PG_SIZE st)))).

Lemma sys_malloc_small_Ret pf mp da size st p st1 :
  sys_malloc_small pf mp da size st = Ret p st1 -> p <> NULL ->
  let i := find_desc (get_descs da st) size 0 (Z.to_nat DESC_CNT) in
  exists d,
    get_descs da st !! i = Some d
    /\ ((free_list d <> [] /\ exists d' b rest,
           get_descs da st !! i = Some d' /\ free_list d' = b :: rest
           /\ p = b /\ st1 = taken da i mp d' b rest st)
        \/ (free_list d = [] /\ exists a s1 d' b rest,
              malloc_page pf 1 st = Ret a s1 /\ a <> NULL
              /\ let s2 := new_arena da i d a
                             (arena_blocks a (block_size d) 0 (Z.to_nat (blocks_per_arena d))) s1 in
                 get_descs da s2 !! i = Some d' /\ free_list d' = b :: rest
                 /\ p = b /\ st1 = taken da i mp d' b rest s2)).
Proof.
  intros H Hp i. unfold sys_malloc_small in H.
  apply bind_Ret in H as (s0 & s & Hget & H). apply get_Ret in Hget as [-> ->].
  fold i in H.
  apply bind_Ret in H as (d & s & Hd & H). apply read_desc_Ret in Hd as [Hd ->].
  cbn [fst snd] in Hd. exists d. split; [exact Hd|].
  destruct (free_list d) as [|b0 rest0] eqn:Hfl; cbn [list_empty] in H.
  - right. split; [reflexivity|].
    apply bind_Ret in H as (a & s1 & Hm & H).
    destruct (a =? NULL) eqn:Ea.
    { unfold bind, lock_release, modify, ret in H. injection H as <- _. congruence. }
    apply Z.eqb_neq in Ea.
    apply bind_Ret in H as (u1 & s & Hz & H). apply modify_Ret in Hz. subst s.
    apply bind_Ret in H as (u2 & s & Hw & H). apply modify_Ret in Hw. subst s.
    apply bind_Ret in H as (old & s & Hi & H). unfold intr_disable in Hi.
    injection Hi as <- <-.
    apply bind_Ret in H as (u3 & s3 & Hfill & H). destruct u3.
    apply arena_fill_spec with (da := da) (i := i) (d := d) in Hfill.
    2:{ cbn. rewrite Z.eqb_refl. reflexivity. }
    2:{ rewrite <- Hd. f_equal.
        transitivity (get_descs da s1); [destruct da; reflexivity|].
        apply page_rel_descs. eapply malloc_page_page_rel. exact Hm. }
    subst s3.
    apply bind_Ret in H as (u4 & s & Hs & H). apply modify_Ret in Hs. subst s.
    apply sys_malloc_take_Ret in H as (d' & b & rest & Hd' & Hfl' & -> & ->).
    exists a, s1, d', b, rest. split; [exact Hm|]. split; [exact Ea|].
    unfold new_arena.
    split; [exact Hd'|]. split; [exact Hfl'|]. split; reflexivity.
  - left. split; [discriminate|].
    apply sys_malloc_take_Ret in H as (d' & b & rest & Hd' & Hfl' & -> & ->).
    exists d', b, rest. repeat split; assumption.
Qed.

(** * The size classes *)

Definition size_classes : list Z := [16; 32; 64; 128; 256; 512; 1024].

Lemma block_desc_init_sizes (arr : list mem_block_desc) :
  length arr = 7%nat -> map block_size (block_desc_init arr) = size_classes.
Proof.
  intros H.
  destruct arr as [|d0 [|d1 [|d2 [|d3 [|d4 [|d5 [|d6 [|d7 arr]]]]]]]]; try discriminate.
  reflexivity.
Qed.

Lemma find_desc_smallest (descs : list mem_block_desc) size :
  map block_size descs = size_classes -> 0 < size <= 1024 ->
  exists d, descs !! find_desc descs size 0 (Z.to_nat DESC_CNT) = Some d
    /\ size <= block_size d
    /\ forall c, c ∈ size_classes -> size <= c -> block_size d <= c.
Proof.
  intros H Hsize.
  destruct descs as [|d0 [|d1 [|d2 [|d3 [|d4 [|d5 [|d6 [|d7 descs]]]]]]]]; try discriminate.
  injection H as H0 H1 H2 H3 H4 H5 H6.
  assert (forall c, c ∈ size_classes ->
            c = 16 \/ c = 32 \/ c = 64 \/ c = 128 \/ c = 256 \/ c = 512 \/ c = 1024) as Hc.
  { intros c Hin. unfold size_classes in Hin.
    repeat (apply elem_of_cons in Hin as [-> | Hin]; [tauto|]). inversion Hin. }
  change (Z.to_nat DESC_CNT) with 7%nat. cbn [find_desc lookup list_lookup].
  rewrite H0, H1, H2, H3, H4, H5, H6.
  repeat match goal with
         | |- context [size <=? ?c] =>
             destruct (Z.leb_spec size c);
             [eexists; split; [reflexivity|]; split; [lia|];
              intros c' Hin Hle; apply Hc in Hin; lia|]
         end.
  lia.
Qed.

Lemma get_descs_taken da da' i mp d b rest st :
  get_descs da' (taken da i mp d b rest st)
  = get_descs da' (set_desc da i (set_free_list rest d) st).
Proof. destruct da, da', mp; reflexivity. Qed.

Lemma get_descs_new_arena da da' i d a blocks st :
  get_descs da' (new_arena da i d a blocks st)
  = get_descs da' (set_desc da i (set_free_list (free_list d ++ blocks) d) st).
Proof. destruct da, da'; reflexivity. Qed.

Lemma get_descs_locked da mp st : get_descs da (locked mp st) = get_descs da st.
Proof. destruct da, mp; reflexivity. Qed.

Lemma get_descs_set_desc_other da da' i d st :
  da' <> da -> get_descs da' (set_desc da i d st) = get_descs da' st.
Proof. destruct da, da'; congruence || reflexivity. Qed.

(** * sys_free after sys_malloc *)

#[global] Instance desc_array_eq_dec : EqDecision desc_array.
Proof. solve_decision. Defined.

(** The heap-level writes are related by [heap_rel]. *)
Lemma heap_rel_locked mp st s : heap_rel st s -> heap_rel st (locked mp s).
Proof.
  intros H. etransitivity; [exact H|]. clear. state_cases s.
  destruct mp; eexists _, _, _, _, _, _, _; reflexivity.
Qed.

Lemma heap_rel_unlocked mp st s : heap_rel st s -> heap_rel st (unlocked mp s).
Proof.
  intros H. etransitivity; [exact H|]. clear. state_cases s.
  destruct mp; eexists _, _, _, _, _, _, _; reflexivity.
Qed.

Lemma heap_rel_zeroed dst size st s : heap_rel st s -> heap_rel st (zeroed dst size s).
Proof.
  intros H. etransitivity; [exact H|]. clear. state_cases s.
  eexists _, _, _, _, _, _, _; reflexivity.
Qed.

Lemma heap_rel_with_arena a h st s : heap_rel st s -> heap_rel st (with_arena a h s).
Proof.
  intros H. etransitivity; [exact H|]. clear. state_cases s.
  eexists _, _, _, _, _, _, _; reflexivity.
Qed.

Lemma heap_rel_set_desc da i d st s : heap_rel st s -> heap_rel st (set_desc da i d s).
Proof.
  intros H. etransitivity; [exact H|]. clear. state_cases s.
  destruct da; eexists _, _, _, _, _, _, _; reflexivity.
Qed.

Lemma heap_rel_set_intr b st s : heap_rel st s -> heap_rel st (set_intr b s).
Proof.
  intros H. etransitivity; [exact H|]. clear. state_cases s.
  eexists _, _, _, _, _, _, _; reflexivity.
Qed.

Lemma heap_rel_refl st : heap_rel st st.
Proof. reflexivity. Qed.

Create HintDb heap discriminated.
#[global] Hint Resolve heap_rel_refl heap_rel_locked heap_rel_unlocked heap_rel_zeroed
  heap_rel_with_arena heap_rel_set_desc heap_rel_set_intr : heap.

Lemma heap_rel_taken da i mp d b rest st s :
  heap_rel st s -> heap_rel st (taken da i mp d b rest s).
Proof. intros H. unfold taken. auto 10 with heap. Qed.

Lemma heap_rel_new_arena da i d a blocks st s :
  heap_rel st s -> heap_rel st (new_arena da i d a blocks s).
Proof. intros H. unfold new_arena. auto 10 with heap. Qed.

#[global] Hint Resolve heap_rel_taken heap_rel_new_arena : heap.

(** What [heap_rel] leaves alone besides the bitmaps. *)
Lemma heap_rel_static st st' pf :
  heap_rel st st' ->
  vaddr_start (get_vaddr pf st') = vaddr_start (get_vaddr pf st)
  /\ vbits pf st' = vbits pf st.
Proof. intros (kl & ul & kd & ud & ar & vm & it & ->). destruct pf; split; reflexivity. Qed.

(** A page of the caller's virtual pool that is not reserved. *)
Definition page_free (pf : pool_flags) (st : state) (x : Z) : Prop :=
  exists i : nat,
    x = vaddr_start (get_vaddr pf st) + Z.of_nat i * PG_SIZE
    /\ vbits pf st !! i = Some false.

(** The free list after a block went from its head to its tail, or
    unchanged. *)
Definition requeued (l l' : list Z) : Prop :=
  l' = l \/ exists b rest, l = b :: rest /\ l' = rest ++ [b].

(** What sys_free after sys_malloc restores. *)
Record restored (pf : pool_flags) (st st2 : state) : Prop := {
  r_bitmaps : bitmaps st2 = bitmaps st;
  r_arenas : forall x, x mod PG_SIZE = 0 -> ~ page_free pf st x -> arenas st2 x = arenas st x;
  r_descs : forall da i d, get_descs da st !! i = Some d ->
            exists d2, get_descs da st2 !! i = Some d2
              /\ block_size d2 = block_size d
              /\ blocks_per_arena d2 = blocks_per_arena d
              /\ requeued (free_list d) (free_list d2);
  r_locks : lock (kernel_pool st2) = lock (kernel_pool st)
            /\ lock (user_pool st2) = lock (user_pool st)
}.

Lemma bind_modify_eq {B} f (k : unit -> M B) st : bind (modify f) k st = k tt (f st).
Proof. reflexivity. Qed.

Lemma bind_get_eq {B} (k : state -> M B) st : bind get k st = k st st.
Proof. reflexivity. Qed.

(** Where malloc_page puts the pages it returns. *)
Lemma malloc_page_addr pf pg_cnt st a st' :
  vaddr_ok pf st -> malloc_page pf pg_cnt st = Ret a st' -> a <> NULL ->
  0 < pg_cnt < 3840
  /\ PG_SIZE <= a /\ heap_lo pf <= a /\ a mod PG_SIZE = 0
  /\ a + pg_cnt * PG_SIZE <= 0xffc00000
  /\ forall x, x mod PG_SIZE = 0 -> a <= x < a + pg_cnt * PG_SIZE -> page_free pf st x.
Proof.
  intros Hok Hm Ha.
  destruct (malloc_page_spec _ _ _ _ _ Hok Hm Ha)
    as (idx & js & pt & Hcnt & Hfit & Hclr & Haddr & _).
  destruct Hok as [Hlo Hal Htop _].
  assert (0 <= vaddr_start (get_vaddr pf st)) as Hlo0.
  { destruct pf; cbn [heap_lo] in Hlo; unfold K_HEAP_START in Hlo; lia. }
  unfold PG_SIZE in *.
  assert (a mod 4096 = 0) as Haal by (rewrite Haddr, Z.mod_add by lia; exact Hal).
  split; [exact Hcnt|].
  split. { pose proof (Z.div_mod a 4096 ltac:(lia)) as Hdm.
           assert (0 <= a / 4096) by (apply Z.div_pos; lia). unfold NULL in Ha. lia. }
  split; [lia|]. split; [exact Haal|]. split; [lia|].
  intros x Hx Hr.
  pose proof (Z.div_mod x 4096 ltac:(lia)) as Hdx. rewrite Hx in Hdx.
  pose proof (Z.div_mod (vaddr_start (get_vaddr pf st)) 4096 ltac:(lia)) as Hdv.
  rewrite Hal in Hdv.
  exists (Z.to_nat (x / 4096 - vaddr_start (get_vaddr pf st) / 4096)). unfold PG_SIZE.
  assert (Z.of_nat idx <= x / 4096 - vaddr_start (get_vaddr pf st) / 4096
          < Z.of_nat idx + pg_cnt) as Hk by lia.
  split; [lia|].
  replace (Z.to_nat (x / 4096 - vaddr_start (get_vaddr pf st) / 4096))
    with (idx + Z.to_nat (x / 4096 - vaddr_start (get_vaddr pf st) / 4096 - Z.of_nat idx))%nat
    by lia.
  apply Hclr. lia.
Qed.

Lemma block2arena_offset a off :
  0 <= a -> a mod PG_SIZE = 0 -> 0 <= off < PG_SIZE -> a + off < 2 ^ 32 ->
  block2arena (a + off) = a.
Proof.
  intros Ha Hal Hoff Htop. unfold block2arena. rewrite land_page_mask by lia.
  unfold PG_SIZE in *.
  pose proof (Z.div_mod a 4096 ltac:(lia)) as Hdm. rewrite Hal in Hdm.
  replace ((a + off) / 4096) with (a / 4096); [lia|].
  apply Z.div_unique with (r := off); lia.
Qed.

Lemma requeued_refl l : requeued l l.
Proof. left. reflexivity. Qed.

(** The large path. *)
Lemma roundtrip_large pf size st p st1 :
  pools_ok st -> vaddr_ok pf st ->
  sys_malloc_large pf (pool_of pf) size (locked (pool_of pf) st) = Ret p st1 -> p <> NULL ->
  heap_lo pf <= p
  /\ pgdir (cur st1) = pgdir (cur st)
  /\ exists st2, sys_free_in pf (pool_of pf) p st1 = Ret tt st2 /\ restored pf st st2.
Proof.
  intros Hpools Hvaddr Hm Hp.
  apply sys_malloc_large_Ret in Hm as (a & s1 & Hmp & Ha & Hpa & ->); [|exact Hp].
  set (n := DIV_ROUND_UP (wrap32 (size + sizeof_arena)) PG_SIZE) in *.
  set (mp := pool_of pf) in *.
  set (sa := locked mp st) in *.
  assert (heap_rel st sa) as Hsa by (subst sa; auto with heap).
  assert (pools_ok sa) as Hpools' by (eapply heap_rel_pools_ok; eassumption).
  assert (vaddr_ok pf sa) as Hvaddr' by (eapply heap_rel_vaddr_ok; eassumption).
  destruct (malloc_page_addr _ _ _ _ _ Hvaddr' Hmp Ha) as (Hn & Ha4 & Hlo & Hal & Htop & Hfree).
  pose proof (malloc_page_page_rel _ _ _ _ _ Hmp) as Hpage.
  destruct (page_rel_frame _ _ Hpage) as (Ekd & Eud & Ear & _ & _ & Epg & Elk & Elu & _).
  unfold PG_SIZE in *.
  assert (p = a + sizeof_arena) as Hpa'.
  { rewrite Hpa. apply wrap32_small. unfold sizeof_arena. lia. }
  assert (block2arena p = a) as Hblock.
  { rewrite Hpa'. apply block2arena_offset; unfold PG_SIZE, sizeof_arena; lia. }
  set (hdr := mk_arena None true n) in *.
  set (st1 := unlocked mp (with_arena a hdr (zeroed a (wrap32 (n * 4096)) s1))).
  set (sx := locked mp st1).
  assert (heap_rel s1 sx) as Hsx by (subst sx st1; auto 10 with heap).
  destruct (page_roundtrip pf n sa a s1 sx Hpools' Hvaddr' Hmp Ha Hsx) as (pt & Hfreed).
  split; [unfold sizeof_arena in Hpa'; lia|].
  split. { transitivity (pgdir (cur s1)); [subst st1 mp; destruct pf; reflexivity|].
           rewrite Epg. subst sa mp. destruct pf; reflexivity. }
  exists (unlocked mp (restore_bitmaps sa pt sx)). split.
  - unfold sys_free_in, lock_acquire. rewrite bind_modify_eq. fold sx.
    cbv zeta. rewrite bind_get_eq, Hblock.
    replace (arenas sx a) with hdr
      by (subst sx st1 mp; destruct pf; cbn; rewrite Z.eqb_refl; reflexivity).
    cbn [desc large cnt hdr].
    rewrite (bind_eq _ _ _ _ _ Hfreed). reflexivity.
  - split.
    + transitivity (bitmaps (restore_bitmaps sa pt sx)); [subst mp; destruct pf; reflexivity|].
      rewrite (restore_bitmaps_bitmaps sa pt s1 sx Hpage Hsx).
      apply heap_rel_bitmaps. exact Hsa.
    + intros x Hx Hnf.
      assert (~ (a <= x < a + n * 4096)) as Hout.
      { intros Hr. apply Hnf.
        destruct (Hfree x Hx Hr) as (i & Hi1 & Hi2).
        destruct (heap_rel_static _ _ pf Hsa) as [E1 E2].
        exists i. rewrite <- E1, <- E2. split; assumption. }
      transitivity (arenas st1 x); [subst sx st1 mp; destruct pf; reflexivity|].
      transitivity (if x =? a then hdr
                    else if (a <=? x) && (x <? a + wrap32 (n * 4096)) then zero_arena
                         else arenas s1 x);
        [subst st1 mp; destruct pf; reflexivity|].
      rewrite wrap32_small by lia.
      rewrite (proj2 (Z.eqb_neq x a)) by lia.
      replace ((a <=? x) && (x <? a + n * 4096)) with false.
      2:{ symmetry. apply andb_false_iff.
          destruct (Z_lt_le_dec x a); [left; apply Z.leb_gt | right; apply Z.ltb_ge]; lia. }
      rewrite Ear. subst sa mp. destruct pf; reflexivity.
    + intros da i d Hd. exists d.
      split; [|split; [reflexivity | split; [reflexivity | apply requeued_refl]]].
      rewrite <- Hd. f_equal.
      transitivity (get_descs da s1); [subst sx st1 mp; destruct pf, da; reflexivity|].
      rewrite (page_rel_descs _ _ da Hpage). apply get_descs_locked.
    + split.
      * transitivity (match pf with
                      | PF_KERNEL => Nat.pred (S (Nat.pred (lock (kernel_pool s1))))
                      | PF_USER => lock (kernel_pool s1)
                      end); [subst sx st1 mp; destruct pf; reflexivity|].
        rewrite Elk. subst sa mp. destruct pf; reflexivity.
      * transitivity (match pf with
                      | PF_KERNEL => lock (user_pool s1)
                      | PF_USER => Nat.pred (S (Nat.pred (lock (user_pool s1))))
                      end); [subst sx st1 mp; destruct pf; reflexivity|].
        rewrite Elu. subst sa mp. destruct pf; reflexivity.
Qed.

(** ** The invariant of the small-block heap *)

(** A descriptor whose blocks fit in the page of an arena. *)
Definition desc_ok (d : mem_block_desc) : Prop :=
  0 < block_size d /\ 0 < blocks_per_arena d
  /\ sizeof_arena + blocks_per_arena d * block_size d <= PG_SIZE.

(** A block on the free list of descriptor [i]: inside the heap, inside
    its page after the header, in an arena of that descriptor that is
    not free as a whole. *)
Definition block_ok (pf : pool_flags) (st : state) (i : nat) (d : mem_block_desc) (b : Z) : Prop :=
  heap_lo pf <= b < 2 ^ 32
  /\ sizeof_arena <= b mod PG_SIZE
  /\ b mod PG_SIZE + block_size d <= PG_SIZE
  /\ desc (arenas st (block2arena b)) = Some (descs_of pf, i)
  /\ large (arenas st (block2arena b)) = false
  /\ 0 <= cnt (arenas st (block2arena b)) < blocks_per_arena d.

Definition heap_ok (pf : pool_flags) (st : state) : Prop :=
  forall i d, get_descs (descs_of pf) st !! i = Some d ->
    desc_ok d /\ forall b, b ∈ free_list d -> block_ok pf st i d b.

Lemma set_cnt_cnt h c : c = cnt h -> set_cnt c h = h.
Proof. intros ->. destruct h; reflexivity. Qed.

Lemma set_cnt_set_cnt h c c' : set_cnt c (set_cnt c' h) = set_cnt c h.
Proof. reflexivity. Qed.

Lemma wrap32_pred_succ c : 0 <= c < 2 ^ 32 -> wrap32 (wrap32 (c - 1) + 1) = c.
Proof.
  intros H. unfold wrap32. rewrite Zplus_mod_idemp_l.
  replace (c - 1 + 1) with c by lia. apply Z.mod_small. exact H.
Qed.

(** [st_cbn] computes the fields of a state built by the functions
    above, and nothing else. *)
Ltac st_cbn :=
  cbn [kernel_pool user_pool kernel_vaddr k_block_descs cur ptmem arenas vmem intr
       pool_bitmap phy_addr_start pool_size lock vaddr_bitmap vaddr_start
       pgdir userprog_vaddr u_blcok_desc
       set_kernel_pool set_user_pool set_kernel_vaddr set_k_block_descs set_cur
       set_ptmem set_arenas set_vmem set_intr set_pool_bitmap set_lock
       set_vaddr_bitmap set_userprog_vaddr set_u_blcok_desc
       get_pool set_pool get_vaddr set_vaddr get_descs set_descs pool_of descs_of
       locked unlocked zeroed with_arena set_desc taken new_arena
       page_upd heap_upd restore_bitmaps set_pbits set_vbits set_pt pbits vbits
       fst snd].

Lemma arenas_taken_other da i mp d b rest s x :
  x <> block2arena b ->
  arenas (taken da i mp d b rest s) x
  = if (b <=? x) && (x <? b + block_size d) then zero_arena else arenas s x.
Proof.
  intros H. apply Z.eqb_neq in H.
  destruct da, mp; st_cbn; rewrite H; reflexivity.
Qed.

Lemma arenas_locked mp s : arenas (locked mp s) = arenas s.
Proof. destruct mp; reflexivity. Qed.

Lemma arenas_unlocked mp s : arenas (unlocked mp s) = arenas s.
Proof. destruct mp; reflexivity. Qed.

(** The small path, a block taken from a free list that was not empty. *)
Lemma roundtrip_small_taken pf (i : nat) st d b rest :
  let da := descs_of pf in
  let mp := pool_of pf in
  get_descs da st !! i = Some d ->
  free_list d = b :: rest ->
  desc_ok d -> block_ok pf st i d b ->
  heap_lo pf <= b
  /\ pgdir (cur (taken da i mp d b rest (locked mp st))) = pgdir (cur st)
  /\ exists st2, sys_free_in pf mp b (taken da i mp d b rest (locked mp st)) = Ret tt st2
                 /\ restored pf st st2.
Proof.
  intros da mp Hd Hfl (Hbs & Hbpa & Hfit) (Hb & Hoff1 & Hoff2 & Hdesc & Hlarge & Hcnt).
  set (a := block2arena b) in *.
  set (h := arenas st a) in *.
  assert (a = PG_SIZE * (b / PG_SIZE)) as Ea.
  { subst a. unfold block2arena. apply land_page_mask.
    destruct pf; cbn [heap_lo] in Hb; unfold K_HEAP_START in Hb; lia. }
  unfold PG_SIZE, sizeof_arena in *.
  pose proof (Z.div_mod b 4096 ltac:(lia)) as Hdm.
  assert (blocks_per_arena d <= blocks_per_arena d * block_size d) as Hnl by nia.
  set (sa := locked mp st).
  set (st1 := taken da i mp d b rest sa).
  set (h1 := set_cnt (wrap32 (cnt h - 1)) h).
  assert (arenas st1 a = h1) as Har1.
  { transitivity (if a =? a then
                    set_cnt (wrap32 (cnt (if (b <=? a) && (a <? b + block_size d)
                                          then zero_arena else h) - 1))
                            (if (b <=? a) && (a <? b + block_size d) then zero_arena else h)
                  else zero_arena); [subst st1 sa da mp h; destruct pf; cbn; fold a;
                                     rewrite Z.eqb_refl; reflexivity|].
    rewrite Z.eqb_refl, (proj2 (Z.leb_gt b a)) by lia. reflexivity. }
  set (sx := locked mp st1).
  set (d1 := set_free_list rest d).
  set (d2 := set_free_list (list_append (free_list d1) b) d1).
  assert (get_descs da sx !! i = Some d1) as Hd1.
  { transitivity (<[i := d1]> (get_descs da st) !! i);
      [subst sx st1 sa da mp; destruct pf; reflexivity|].
    apply list_lookup_insert_eq. apply lookup_lt_is_Some. eauto. }
  set (s6 := with_arena a (set_cnt (wrap32 (cnt h1 + 1)) h1) (set_desc da i d2 sx)).
  assert (wrap32 (cnt h1 + 1) = cnt h) as Ecnt.
  { subst h1. cbn [cnt set_cnt]. apply wrap32_pred_succ. lia. }
  split; [lia|].
  split; [subst st1 sa da mp; destruct pf; reflexivity|].
  exists (unlocked mp s6). split.
  - unfold sys_free_in, lock_acquire. rewrite bind_modify_eq. fold sx.
    cbv zeta. rewrite bind_get_eq. fold a.
    replace (arenas sx a) with h1 by (rewrite <- Har1; subst sx mp; destruct pf; reflexivity).
    assert (desc h1 = Some (da, i)) as Hdesc1 by exact Hdesc.
    assert (large h1 = false) as Hlarge1 by exact Hlarge.
    rewrite Hdesc1. cbv iota.
    assert (arena_desc a sx = Ret (da, i) sx) as Had.
    { apply arena_desc_eq.
      replace (arenas sx a) with h1 by (rewrite <- Har1; subst sx mp; destruct pf; reflexivity).
      exact Hdesc1. }
    unfold bind at 1. unfold bind at 1. rewrite Had.
    unfold bind at 1. rewrite (read_desc_eq _ _ _ _ Hd1).
    unfold write_desc, write_arena. cbn [fst snd].
    rewrite bind_modify_eq. rewrite bind_modify_eq.
    fold d2. rewrite Ecnt.
    replace (cnt h =? blocks_per_arena d1) with false
      by (symmetry; apply Z.eqb_neq; subst d1; cbn; lia).
    unfold ret, lock_release, modify. subst s6. rewrite Ecnt. reflexivity.
  - assert (heap_rel st (unlocked mp s6)) as Hrel
      by (subst s6 sx st1 sa; auto 12 with heap).
    split.
    + apply heap_rel_bitmaps. exact Hrel.
    + intros x Hx _. unfold PG_SIZE in Hx.
      transitivity (if x =? a then set_cnt (wrap32 (cnt h1 + 1)) h1 else arenas st1 x).
      { subst s6 sx. rewrite arenas_unlocked. unfold with_arena. st_cbn.
        destruct (x =? a); [reflexivity|]. rewrite arenas_set_desc, arenas_locked.
        reflexivity. }
      destruct (x =? a) eqn:Ex.
      * apply Z.eqb_eq in Ex. subst x. rewrite Ecnt. subst h1.
        rewrite set_cnt_set_cnt. apply set_cnt_cnt. reflexivity.
      * apply Z.eqb_neq in Ex. subst st1. rewrite arenas_taken_other by exact Ex.
        subst sa. rewrite arenas_locked.
        replace ((b <=? x) && (x <? b + block_size d)) with false; [reflexivity|].
        symmetry. apply andb_false_iff.
        pose proof (Z.div_mod x 4096 ltac:(lia)) as Hdx. rewrite Hx in Hdx.
        destruct (Z_lt_le_dec x b); [left; apply Z.leb_gt; lia|right; apply Z.ltb_ge].
        assert (b / 4096 < x / 4096) by lia. lia.
    + intros da' j dj Hj.
      destruct (decide (da' = da /\ j = i)) as [[-> ->]|Hne].
      * exists d2. rewrite Hd in Hj. injection Hj as <-.
        split; [|split; [reflexivity | split; [reflexivity|]]].
        -- transitivity (<[i := d2]> (<[i := d1]> (get_descs da st)) !! i);
             [subst s6 sx st1 sa da mp; destruct pf; reflexivity|].
           apply list_lookup_insert_eq. rewrite length_insert.
           apply lookup_lt_is_Some. eauto.
        -- right. exists b, rest. split; [exact Hfl | reflexivity].
      * exists dj. split; [|split; [reflexivity | split; [reflexivity | apply requeued_refl]]].
        rewrite <- Hj.
        destruct (decide (da' = da)) as [->|Hda].
        -- transitivity (<[i := d2]> (<[i := d1]> (get_descs da st)) !! j);
             [subst s6 sx st1 sa da mp; destruct pf; reflexivity|].
           rewrite !list_lookup_insert_ne by (intros ->; apply Hne; split; reflexivity).
           reflexivity.
        -- f_equal. subst s6 sx st1 sa da mp.
           destruct pf, da'; cbn [descs_of] in Hda; first [congruence | reflexivity].
    + split.
      * subst s6 sx st1 sa da mp. destruct pf; reflexivity.
      * subst s6 sx st1 sa da mp. destruct pf; reflexivity.
Qed.

Lemma arena_blocks_elem a bsize n : forall k x,
  0 <= a -> 0 < bsize -> 0 <= k ->
  a + sizeof_arena + (k + Z.of_nat n) * bsize <= 2 ^ 32 ->
  x ∈ arena_blocks a bsize k n ->
  exists j, k <= j < k + Z.of_nat n /\ x = a + sizeof_arena + j * bsize.
Proof.
  unfold sizeof_arena.
  induction n as [|n IH]; intros k x Ha Hbs Hk Htop Hx; [inversion Hx|].
  cbn [arena_blocks] in Hx. apply elem_of_cons in Hx as [-> | Hx].
  - exists k. split; [lia|]. apply wrap32_small. unfold sizeof_arena. nia.
  - rewrite wrap32_small in Hx by nia.
    apply IH in Hx as (j & Hj & ->); [|lia|lia|lia|nia].
    exists j. split; [lia | reflexivity].
Qed.

Lemma arena_blocks_NoDup a bsize n : forall k,
  0 <= a -> 0 < bsize -> 0 <= k ->
  a + sizeof_arena + (k + Z.of_nat n) * bsize <= 2 ^ 32 ->
  NoDup (arena_blocks a bsize k n).
Proof.
  induction n as [|n IH]; intros k Ha Hbs Hk Htop; [constructor|].
  cbn [arena_blocks]. unfold sizeof_arena in *.
  rewrite (wrap32_small (k + 1)) by nia.
  constructor.
  - intros Hin. apply arena_blocks_elem in Hin as (j & Hj & Hx);
      unfold sizeof_arena; [|lia|lia|lia|nia].
    rewrite wrap32_small in Hx by nia. unfold sizeof_arena in Hx. nia.
  - apply IH; [lia|lia|lia|nia].
Qed.

Lemma arenas_new_arena da i d a blocks s x :
  arenas (new_arena da i d a blocks s) x
  = if x =? a then mk_arena (Some (da, i)) false (blocks_per_arena d)
    else if (a <=? x) && (x <? a + PG_SIZE) then zero_arena else arenas s x.
Proof. destruct da; reflexivity. Qed.

Lemma arenas_taken_arena da i mp d b rest s :
  block2arena b < b ->
  arenas (taken da i mp d b rest s) (block2arena b)
  = set_cnt (wrap32 (cnt (arenas s (block2arena b)) - 1)) (arenas s (block2arena b)).
Proof.
  intros H. apply Z.leb_gt in H.
  destruct da, mp; st_cbn; rewrite Z.eqb_refl, H; reflexivity.
Qed.

Lemma get_descs_unlocked da mp st : get_descs da (unlocked mp st) = get_descs da st.
Proof. destruct da, mp; reflexivity. Qed.

Lemma get_descs_restore_bitmaps da st0 pt st :
  get_descs da (restore_bitmaps st0 pt st) = get_descs da st.
Proof. destruct da; reflexivity. Qed.

Lemma get_descs_with_arena da a h st : get_descs da (with_arena a h st) = get_descs da st.
Proof. destruct da; reflexivity. Qed.


Lemma bitmaps_unlocked mp st : bitmaps (unlocked mp st) = bitmaps st.
Proof. destruct mp; reflexivity. Qed.

Lemma arenas_restore_bitmaps st0 pt st : arenas (restore_bitmaps st0 pt st) = arenas st.
Proof. reflexivity. Qed.

Lemma arenas_with_arena a h st x :
  arenas (with_arena a h st) x = if x =? a then h else arenas st x.
Proof. reflexivity. Qed.

(** The small path, a block taken from a new arena. *)
Lemma roundtrip_small_new pf (i : nat) st d a s1 d' b rest :
  let da := descs_of pf in
  let mp := pool_of pf in
  let s2 := new_arena da i d a
              (arena_blocks a (block_size d) 0 (Z.to_nat (blocks_per_arena d))) s1 in
  pools_ok st -> vaddr_ok pf st ->
  get_descs da st !! i = Some d -> free_list d = [] -> desc_ok d ->
  malloc_page pf 1 (locked mp st) = Ret a s1 -> a <> NULL ->
  get_descs da s2 !! i = Some d' -> free_list d' = b :: rest ->
  heap_lo pf <= b
  /\ pgdir (cur (taken da i mp d' b rest s2)) = pgdir (cur st)
  /\ exists st2, sys_free_in pf mp b (taken da i mp d' b rest s2) = Ret tt st2
                 /\ restored pf st st2.
Proof.
  intros da mp s2 Hpools Hvaddr Hd Hfl (Hbs & Hbpa & Hfit) Hmp Ha Hd' Hfl'.
  set (sa := locked mp st) in *.
  assert (heap_rel st sa) as Hsa by (subst sa; auto with heap).
  assert (pools_ok sa) as Hpools' by (eapply heap_rel_pools_ok; eassumption).
  assert (vaddr_ok pf sa) as Hvaddr' by (eapply heap_rel_vaddr_ok; eassumption).
  destruct (malloc_page_addr _ _ _ _ _ Hvaddr' Hmp Ha) as (_ & Ha4 & Hlo & Hal & Htop & Hfree).
  pose proof (malloc_page_page_rel _ _ _ _ _ Hmp) as Hpage.
  destruct (page_rel_frame _ _ Hpage) as (_ & _ & Ear & _ & _ & Epg & Elk & Elu & _).
  unfold PG_SIZE, sizeof_arena in *.
  assert (blocks_per_arena d <= blocks_per_arena d * block_size d) as Hnl by nia.
  set (bs := block_size d) in *. set (bpa := blocks_per_arena d) in *.
  set (blocks := arena_blocks a bs 0 (Z.to_nat bpa)) in *.
  assert (get_descs da s1 !! i = Some d) as Hd1.
  { rewrite (page_rel_descs _ _ da Hpage). subst sa. rewrite get_descs_locked. exact Hd. }
  assert (d' = set_free_list blocks d) as Ed'.
  { subst s2. rewrite get_descs_new_arena, get_descs_set_desc, Hfl in Hd'.
    rewrite list_lookup_insert_eq in Hd' by (apply lookup_lt_is_Some; eauto).
    injection Hd' as <-. reflexivity. }
  assert (blocks = b :: rest) as Eblocks by (rewrite <- Hfl', Ed'; reflexivity).
  clear Hfl'. subst d'. set (d0 := set_free_list blocks d) in *.
  assert (NoDup blocks) as Hnd.
  { subst blocks. apply arena_blocks_NoDup; unfold sizeof_arena; first [lia | nia]. }
  assert (b = a + 12) as Eb.
  { subst blocks. destruct (Z.to_nat bpa) as [|n] eqn:En; [lia|].
    cbn [arena_blocks] in Eblocks. injection Eblocks as <- _.
    unfold sizeof_arena. rewrite Z.mul_0_l, Z.add_0_r. apply wrap32_small. lia. }
  assert (block2arena b = a) as Hblock.
  { rewrite Eb. apply block2arena_offset; unfold PG_SIZE; lia. }
  set (hdr0 := mk_arena (Some (da, i)) false bpa).
  set (st1 := taken da i mp d0 b rest s2).
  set (h1 := set_cnt (wrap32 (bpa - 1)) hdr0).
  assert (arenas st1 a = h1) as Har1.
  { subst st1. rewrite <- Hblock at 1. rewrite arenas_taken_arena by lia.
    rewrite Hblock. subst s2. rewrite arenas_new_arena, Z.eqb_refl. reflexivity. }
  set (sx := locked mp st1).
  set (d1 := set_free_list rest d0).
  set (d2 := set_free_list (list_append (free_list d1) b) d1).
  assert (get_descs da sx !! i = Some d1) as Hdx.
  { subst sx st1. rewrite get_descs_locked, get_descs_taken, get_descs_set_desc.
    apply list_lookup_insert_eq. apply lookup_lt_is_Some. eauto. }
  set (h2 := set_cnt (wrap32 (cnt h1 + 1)) h1).
  set (s6 := with_arena a h2 (set_desc da i d2 sx)).
  set (s7 := set_desc da i (set_free_list [] d2) s6).
  assert (wrap32 (cnt h1 + 1) = bpa) as Ecnt.
  { subst h1 hdr0. cbn [cnt set_cnt]. apply wrap32_pred_succ. lia. }
  assert (arenas sx a = h1) as Harx by (subst sx; rewrite arenas_locked; exact Har1).
  assert (arena_unlink a 0 (Z.to_nat bpa) s6 = Ret tt s7) as Hunlink.
  { subst s7. apply arena_unlink_spec.
    - subst s6. unfold with_arena. st_cbn. rewrite Z.eqb_refl. reflexivity.
    - subst s6. transitivity (<[i := d2]> (get_descs da sx) !! i).
      + destruct pf; reflexivity.
      + apply list_lookup_insert_eq. apply lookup_lt_is_Some. eauto.
    - exact Hnd.
    - intros x. change (arena_blocks a (block_size d2) 0 (Z.to_nat bpa)) with blocks.
      rewrite Eblocks. change (free_list d2) with (rest ++ [b]).
      rewrite elem_of_app, !elem_of_cons, elem_of_nil. tauto. }
  assert (heap_rel s1 s7) as Hs7.
  { subst s7 s6 sx st1 s2. auto 20 with heap. }
  destruct (page_roundtrip pf 1 sa a s1 s7 Hpools' Hvaddr' Hmp Ha Hs7) as (pt & Hfreed).
  split; [lia|].
  split. { transitivity (pgdir (cur s1)); [subst st1 s2 da mp; destruct pf; reflexivity|].
           rewrite Epg. subst sa mp. destruct pf; reflexivity. }
  exists (unlocked mp (restore_bitmaps sa pt s7)). split.
  - unfold sys_free_in, lock_acquire. rewrite bind_modify_eq. fold sx.
    cbv zeta. rewrite bind_get_eq, Hblock, Harx.
    change (desc h1) with (Some (da, i)). cbv iota.
    assert (arena_desc a sx = Ret (da, i) sx) as Had
      by (apply arena_desc_eq; rewrite Harx; reflexivity).
    unfold bind at 1. unfold bind at 1. rewrite Had.
    unfold bind at 1. rewrite (read_desc_eq _ _ _ _ Hdx).
    unfold write_desc, write_arena. cbn [fst snd].
    rewrite bind_modify_eq. rewrite bind_modify_eq.
    fold d2 h2 s6. rewrite Ecnt.
    change (blocks_per_arena d1) with bpa. rewrite Z.eqb_refl.
    rewrite (bind_eq _ _ _ _ _ Hunlink). rewrite Hfreed. reflexivity.
  - split.
    + rewrite bitmaps_unlocked.
      rewrite (restore_bitmaps_bitmaps sa pt s1 s7 Hpage Hs7).
      apply heap_rel_bitmaps. exact Hsa.
    + intros x Hx Hnf. unfold PG_SIZE in Hx.
      assert (x <> a) as Hxa.
      { intros ->. apply Hnf.
        destruct (Hfree a Hal ltac:(lia)) as (j & Hj1 & Hj2).
        destruct (heap_rel_static _ _ pf Hsa) as [E1 E2].
        exists j. rewrite <- E1, <- E2. split; assumption. }
      pose proof (Z.div_mod x 4096 ltac:(lia)) as Hdx'. rewrite Hx in Hdx'.
      pose proof (Z.div_mod a 4096 ltac:(lia)) as Hda'. rewrite Hal in Hda'.
      assert (~ (a <= x < a + 4096)) as Hout by lia.
      transitivity (arenas st1 x).
      { subst s7 s6 sx.
        rewrite arenas_unlocked, arenas_restore_bitmaps, arenas_set_desc, arenas_with_arena.
        rewrite (proj2 (Z.eqb_neq x a) Hxa).
        rewrite arenas_set_desc, arenas_locked. reflexivity. }
      subst st1. rewrite arenas_taken_other by (rewrite Hblock; exact Hxa).
      change (block_size d0) with bs.
      replace ((b <=? x) && (x <? b + bs)) with false.
      2:{ symmetry. apply andb_false_iff.
          destruct (Z_lt_le_dec x b); [left; apply Z.leb_gt | right; apply Z.ltb_ge]; nia. }
      subst s2. rewrite arenas_new_arena, (proj2 (Z.eqb_neq x a) Hxa).
      replace ((a <=? x) && (x <? a + PG_SIZE)) with false.
      2:{ symmetry. apply andb_false_iff. unfold PG_SIZE.
          destruct (Z_lt_le_dec x a); [left; apply Z.leb_gt | right; apply Z.ltb_ge]; lia. }
      rewrite Ear. subst sa.  rewrite arenas_locked. reflexivity.
    + intros da' j dj Hj.
      set (d3 := set_free_list [] d2) in *.
      assert (get_descs da' s1 = get_descs da' st) as Es1.
      { rewrite (page_rel_descs _ _ da' Hpage). subst sa. apply get_descs_locked. }
      rewrite get_descs_unlocked, get_descs_restore_bitmaps. subst s7 s6 sx st1 s2.
      destruct (decide (da' = da)) as [->|Hda].
      * rewrite get_descs_set_desc, get_descs_with_arena, get_descs_set_desc,
          get_descs_locked, get_descs_taken, get_descs_set_desc, get_descs_new_arena,
          get_descs_set_desc, Es1.
        destruct (decide (j = i)) as [->|Hji].
        -- exists d3. rewrite Hd in Hj. injection Hj as <-.
           split; [apply list_lookup_insert_eq; rewrite !length_insert;
                   apply lookup_lt_is_Some; eauto|].
           split; [reflexivity|]. split; [reflexivity|].
           left. rewrite Hfl. reflexivity.
        -- exists dj. rewrite !list_lookup_insert_ne by congruence.
           split; [exact Hj|]. split; [reflexivity|]. split; [reflexivity|].
           apply requeued_refl.
      * exists dj.
        rewrite get_descs_set_desc_other, get_descs_with_arena, get_descs_set_desc_other,
          get_descs_locked, get_descs_taken, get_descs_set_desc_other, get_descs_new_arena,
          get_descs_set_desc_other, Es1 by exact Hda.
        split; [exact Hj|]. split; [reflexivity|]. split; [reflexivity|].
        apply requeued_refl.
    + split.
      * transitivity (match pf with
                      | PF_KERNEL => Nat.pred (S (Nat.pred (lock (kernel_pool s1))))
                      | PF_USER => lock (kernel_pool s1)
                      end); [subst s7 s6 sx st1 s2 da mp; destruct pf; reflexivity|].
        rewrite Elk. subst sa mp. destruct pf; reflexivity.
      * transitivity (match pf with
                      | PF_KERNEL => lock (user_pool s1)
                      | PF_USER => Nat.pred (S (Nat.pred (lock (user_pool s1))))
                      end); [subst s7 s6 sx st1 s2 da mp; destruct pf; reflexivity|].
        rewrite Elu. subst sa mp. destruct pf; reflexivity.
Qed.

Lemma sys_free_eq pf ptr st :
  ptr <> NULL -> caller_pf st = pf -> heap_lo pf <= ptr ->
  sys_free ptr st = sys_free_in pf (pool_of pf) ptr st.
Proof.
  intros Hp <- Hlo. unfold sys_free, caller_pf, bind, ASSERT, get in *.
  rewrite (proj2 (Z.eqb_neq _ _) Hp). cbn [negb].
  destruct (pgdir (cur st) =? NULL); [|reflexivity].
  cbn [heap_lo] in Hlo. rewrite (proj2 (Z.leb_le _ _) Hlo). reflexivity.
Qed.

(** X1: sys_free after sys_malloc.  When sys_malloc hands out a pointer
    (under page tables that exist, in a heap whose free lists are in
    order), sys_free of that pointer returns, and leaves every bitmap,
    every lock and the header of every arena that existed as they were;
    every free list holds the blocks it held, the list of the chosen size
    class with the block that was handed out moved from its head to its
    tail. *)
Theorem sys_free_after_sys_malloc (size : Z) (st : state) (p : Z)
    (Hpools : pools_ok st)
    (Hvaddr : vaddr_ok (caller_pf st) st)
    (Hheap : heap_ok (caller_pf st) st)
    (Hret : returned (sys_malloc size st) = Some p) (Hp : p <> NULL) :
  exists st2,
    (ptr <~ sys_malloc size ;; sys_free ptr) st = Ret tt st2
    /\ restored (caller_pf st) st st2.
Proof.
  destruct (sys_malloc size st) as [p' st1|] eqn:Hm; [|discriminate].
  injection Hret as ->.
  rewrite (bind_eq _ _ _ _ _ Hm).
  rewrite sys_malloc_eq in Hm.
  set (pf := caller_pf st) in *.
  apply sys_malloc_in_Ret in Hm as [Hsize Hm]; [|exact Hp].
  assert (heap_lo pf <= p /\ pgdir (cur st1) = pgdir (cur st)
          /\ exists st2, sys_free_in pf (pool_of pf) p st1 = Ret tt st2 /\ restored pf st st2)
    as (Hlo & Hpg & st2 & Hfree & Hres).
  { destruct (1024 <? size).
    - eapply roundtrip_large; eassumption.
    - apply sys_malloc_small_Ret in Hm; [|exact Hp].
      rewrite get_descs_locked in Hm.
      destruct Hm as (d & Hd & [(_ & d' & b & rest & Hd' & Hfl & -> & ->)
                                | (Hfl & a & s1 & d' & b & rest & Hmp & Ha & Hd' & Hfl' & -> & ->)]).
      + destruct (Hheap _ _ Hd') as [Hok Hblocks].
        apply roundtrip_small_taken; try assumption.
        apply Hblocks. rewrite Hfl. left.
      + destruct (Hheap _ _ Hd) as [Hok _].
        eapply roundtrip_small_new; eassumption. }
  exists st2. split; [|exact Hres].
  rewrite (sys_free_eq pf); try assumption.
  unfold caller_pf. rewrite Hpg. reflexivity.
Qed.

(** * What mem_init establishes *)

Section MemInitInv.

Variable all_mem : Z.
Variable st : state.

Let n : Z := all_free_pages16 all_mem.

Lemma all_free_pages16_range : 0 <= all_free_pages16 all_mem < 2 ^ 16.
Proof. apply wrap16_range. Qed.

Lemma mem_init_kbits :
  pbits KERNEL_POOL (mem_init all_mem st) = replicate (Z.to_nat (n / 2 / 8 * 8)) false.
Proof.
  pose proof all_free_pages16_range as Hn. fold n in Hn.
  change (pbits KERNEL_POOL (mem_init all_mem st))
    with (replicate (Z.to_nat (wrap16 (n / 2) / 8 * 8)) false).
  rewrite wrap16_small; [reflexivity|].
  split; [apply Z.div_pos; lia | apply Z.div_lt_upper_bound; lia].
Qed.

Lemma mem_init_ubits :
  pbits USER_POOL (mem_init all_mem st) = replicate (Z.to_nat ((n - n / 2) / 8 * 8)) false.
Proof.
  pose proof all_free_pages16_range as Hn. fold n in Hn.
  assert (0 <= n / 2 <= n) as Hk.
  { split; [apply Z.div_pos; lia | apply Z.div_le_upper_bound; lia]. }
  change (pbits USER_POOL (mem_init all_mem st))
    with (replicate (Z.to_nat (wrap16 (n - wrap16 (n / 2)) / 8 * 8)) false).
  rewrite (wrap16_small (n / 2)) by lia.
  rewrite wrap16_small by lia. reflexivity.
Qed.

Lemma mem_init_vbits :
  vbits PF_KERNEL (mem_init all_mem st) = replicate (Z.to_nat (n / 2 / 8 * 8)) false.
Proof. exact mem_init_kbits. Qed.

Lemma mem_init_kstart : phy_addr_start (kernel_pool (mem_init all_mem st)) = 0x200000.
Proof. reflexivity. Qed.

Lemma mem_init_ustart :
  phy_addr_start (user_pool (mem_init all_mem st)) = 0x200000 + n / 2 * PG_SIZE.
Proof. exact (mem_pool_init_user_start all_mem st). Qed.

Lemma pools_ok_mem_init : pools_ok (mem_init all_mem st).
Proof.
  pose proof all_free_pages16_range as Hn. fold n in Hn.
  assert (0 <= n / 2 <= n) as Hk.
  { split; [apply Z.div_pos; lia | apply Z.div_le_upper_bound; lia]. }
  assert (0 <= n / 2 / 8 * 8 <= n / 2) as Hkb.
  { pose proof (Z.div_mod (n / 2) 8 ltac:(lia)).
    pose proof (Z.mod_pos_bound (n / 2) 8 ltac:(lia)). lia. }
  assert (0 <= (n - n / 2) / 8 * 8 <= n - n / 2) as Hub.
  { pose proof (Z.div_mod (n - n / 2) 8 ltac:(lia)).
    pose proof (Z.mod_pos_bound (n - n / 2) 8 ltac:(lia)). lia. }
  split.
  - rewrite mem_init_kstart. lia.
  - rewrite mem_init_kstart. reflexivity.
  - rewrite mem_init_kstart, mem_init_ustart, mem_init_kbits, length_replicate.
    unfold PG_SIZE. lia.
  - rewrite mem_init_ustart. unfold PG_SIZE.
    rewrite Z.mod_add by lia. reflexivity.
  - rewrite mem_init_ustart, mem_init_ubits, length_replicate. unfold PG_SIZE. lia.
Qed.

(** The page directory entries of the kernel's gigabyte but the last,
    which the loader fills before mem_init runs. *)
Definition kernel_pdes_present (s : state) : Prop :=
  forall q, 768 <= q < 1023 -> present (ptmem s (0xfffff000 + 4 * q)) = true.

Lemma vaddr_ok_mem_init : kernel_pdes_present st -> vaddr_ok PF_KERNEL (mem_init all_mem st).
Proof.
  intros Hpd.
  pose proof all_free_pages16_range as Hn. fold n in Hn.
  assert (0 <= n / 2 < 2 ^ 15) as Hk.
  { split; [apply Z.div_pos; lia | apply Z.div_lt_upper_bound; lia]. }
  assert (0 <= n / 2 / 8 * 8 <= n / 2) as Hkb.
  { pose proof (Z.div_mod (n / 2) 8 ltac:(lia)).
    pose proof (Z.mod_pos_bound (n / 2) 8 ltac:(lia)). lia. }
  split.
  - cbn [heap_lo]. change (vaddr_start (get_vaddr PF_KERNEL (mem_init all_mem st)))
      with K_HEAP_START. lia.
  - reflexivity.
  - rewrite mem_init_vbits, length_replicate.
    change (vaddr_start (get_vaddr PF_KERNEL (mem_init all_mem st))) with K_HEAP_START.
    unfold K_HEAP_START, PG_SIZE. lia.
  - intros i Hi. rewrite mem_init_vbits, length_replicate in Hi.
    change (vaddr_start (get_vaddr PF_KERNEL (mem_init all_mem st))) with K_HEAP_START.
    change (ptmem (mem_init all_mem st)) with (ptmem st).
    unfold K_HEAP_START, PG_SIZE.
    rewrite pde_ptr_eq by lia.
    apply Hpd.
    split; [apply Z.div_le_lower_bound; lia | apply Z.div_lt_upper_bound; lia].
Qed.

Lemma desc_ok_block_desc_init (arr : list mem_block_desc) i d :
  length arr = 7%nat -> block_desc_init arr !! i = Some d ->
  desc_ok d /\ free_list d = [].
Proof.
  intros Hlen Hd.
  destruct arr as [|d0 [|d1 [|d2 [|d3 [|d4 [|d5 [|d6 [|d7 arr]]]]]]]]; try discriminate.
  do 7 (destruct i as [|i];
        [injection Hd as <-; split; [vm_compute; repeat split; congruence | reflexivity]|]).
  discriminate.
Qed.

Lemma heap_ok_mem_init : length (k_block_descs st) = 7%nat -> heap_ok PF_KERNEL (mem_init all_mem st).
Proof.
  intros Hlen i d Hd.
  change (get_descs (descs_of PF_KERNEL) (mem_init all_mem st))
    with (block_desc_init (k_block_descs st)) in Hd.
  destruct (desc_ok_block_desc_init _ _ _ Hlen Hd) as [Hok Hfl].
  split; [exact Hok|]. intros b Hb. rewrite Hfl in Hb. inversion Hb.
Qed.

End MemInitInv.

Lemma kernel_pdes_present_boot : kernel_pdes_present boot_state.
Proof.
  intros q Hq. change (ptmem boot_state) with boot_ptmem. unfold boot_ptmem.
  replace ((0xfffffc00 <=? 0xfffff000 + 4 * q) && (0xfffff000 + 4 * q <? 0xfffffffc)
           && ((0xfffff000 + 4 * q) mod 4 =? 0)) with true.
  - rewrite present_spec.
    replace ((0xfffff000 + 4 * q - 0xfffffc00) / 4) with (q - 768).
    + unfold PG_SIZE.
      replace (0x101007 + (q - 768) * 4096) with (1 + 2 * (0x80803 + (q - 768) * 2048)) by lia.
      apply Z.odd_add_mul_2.
    + apply Z.div_unique_exact; lia.
  - symmetry. rewrite !andb_true_iff, Z.leb_le, Z.ltb_lt, Z.eqb_eq.
    repeat split; try lia.
    rewrite (Z.mul_comm 4 q), Z.mod_add by lia. reflexivity.
Qed.

Lemma pools_ok_state_32M : pools_ok state_32M.
Proof. apply pools_ok_mem_init. Qed.

Lemma vaddr_ok_state_32M : vaddr_ok PF_KERNEL state_32M.
Proof. apply vaddr_ok_mem_init. exact kernel_pdes_present_boot. Qed.

Lemma heap_ok_state_32M : heap_ok PF_KERNEL state_32M.
Proof. apply heap_ok_mem_init. reflexivity. Qed.

(** X2: what mem_init establishes.  Whatever the memory size, after
    mem_init (run on the loader's page directory, with the seven
    descriptors of k_block_descs in place) the two physical pools are laid
    out in order above the reserved low memory, the kernel's virtual pool
    lies in the kernel heap under page tables that exist, every size class
    has blocks that fit in a page and an empty free list, both locks are
    free and every bit of every bitmap is clear. *)
Theorem mem_init_ready (all_mem : Z) (st : state)
    (Hpd : kernel_pdes_present st) (Hlen : length (k_block_descs st) = 7%nat) :
  let s := mem_init all_mem st in
  pools_ok s /\ vaddr_ok PF_KERNEL s /\ heap_ok PF_KERNEL s
  /\ (forall i d, k_block_descs s !! i = Some d -> free_list d = [])
  /\ lock (kernel_pool s) = 0%nat /\ lock (user_pool s) = 0%nat
  /\ (forall mp j b, pbits mp s !! j = Some b -> b = false)
  /\ (forall j b, vbits PF_KERNEL s !! j = Some b -> b = false).
Proof.
  intros s. subst s.
  split; [apply pools_ok_mem_init|].
  split; [apply vaddr_ok_mem_init; exact Hpd|].
  split; [apply heap_ok_mem_init; exact Hlen|].
  split.
  { intros i d Hd. eapply desc_ok_block_desc_init; [exact Hlen | exact Hd]. }
  split; [reflexivity|]. split; [reflexivity|].
  split.
  - intros mp j b Hb. destruct mp.
    + rewrite mem_init_kbits in Hb. apply lookup_replicate in Hb as [-> _]. reflexivity.
    + rewrite mem_init_ubits in Hb. apply lookup_replicate in Hb as [-> _]. reflexivity.
  - intros j b Hb. rewrite mem_init_vbits in Hb.
    apply lookup_replicate in Hb as [-> _]. reflexivity.
Qed.

Lemma mem_init_ready_32M :
  kernel_pdes_present boot_state
  /\ length (k_block_descs boot_state) = 7%nat
  /\ pools_ok state_32M /\ vaddr_ok PF_KERNEL state_32M /\ heap_ok PF_KERNEL state_32M.
Proof.
  split; [exact kernel_pdes_present_boot|]. split; [reflexivity|].
  destruct (mem_init_ready 0x02000000 boot_state kernel_pdes_present_boot eq_refl)
    as (H1 & H2 & H3 & _).
  split; [exact H1|]. split; [exact H2 | exact H3].
Defined.

(** X3: mem_pool_init sizes every bitmap in whole bytes, rounding down.
    A pool of p frames gets a bitmap of 8 * (p / 8) bits, so when p is not
    a multiple of 8 its last p mod 8 frames can never be handed out; the
    kernel's virtual pool has as many pages as the kernel pool's bitmap
    has bits. *)
Theorem mem_init_bitmap_rounding (all_mem : Z) (st : state) :
  let s := mem_init all_mem st in
  let kpages := pool_size (kernel_pool s) / PG_SIZE in
  let upages := pool_size (user_pool s) / PG_SIZE in
  btmp_bytes_len (pool_bitmap (kernel_pool s)) = kpages / 8
  /\ btmp_bytes_len (pool_bitmap (user_pool s)) = upages / 8
  /\ Z.of_nat (length (pbits KERNEL_POOL s)) = 8 * (kpages / 8)
  /\ Z.of_nat (length (pbits USER_POOL s)) = 8 * (upages / 8)
  /\ vbits PF_KERNEL s = pbits KERNEL_POOL s
  /\ (kpages mod 8 <> 0 -> Z.of_nat (length (pbits KERNEL_POOL s)) < kpages)
  /\ (upages mod 8 <> 0 -> Z.of_nat (length (pbits USER_POOL s)) < upages).
Proof.
  intros s kpages upages.
  pose proof (all_free_pages16_range all_mem) as Hn.
  set (n := all_free_pages16 all_mem) in *.
  assert (0 <= n / 2 <= n) as Hk.
  { split; [apply Z.div_pos; lia | apply Z.div_le_upper_bound; lia]. }
  assert (kpages = n / 2) as Ek.
  { subst kpages s. destruct (mem_init_pools all_mem st) as [-> _].
    rewrite mem_pool_init_kernel_size. fold n. apply Z.div_mul. unfold PG_SIZE. lia. }
  assert (upages = n - n / 2) as Eu.
  { subst upages s. destruct (mem_init_pools all_mem st) as [_ ->].
    rewrite mem_pool_init_user_size. fold n. apply Z.div_mul. unfold PG_SIZE. lia. }
  assert (btmp_bytes_len (pool_bitmap (kernel_pool s)) = n / 2 / 8) as Ekl.
  { change (btmp_bytes_len (pool_bitmap (kernel_pool s))) with (wrap16 (n / 2) / 8).
    rewrite wrap16_small by lia. reflexivity. }
  assert (btmp_bytes_len (pool_bitmap (user_pool s)) = (n - n / 2) / 8) as Eul.
  { change (btmp_bytes_len (pool_bitmap (user_pool s)))
      with (wrap16 (n - wrap16 (n / 2)) / 8).
    rewrite (wrap16_small (n / 2)) by lia. rewrite wrap16_small by lia. reflexivity. }
  assert (0 <= n / 2 / 8) as Hk8 by (apply Z.div_pos; lia).
  assert (0 <= (n - n / 2) / 8) as Hu8 by (apply Z.div_pos; lia).
  subst s. rewrite Ek, Eu, Ekl, Eul, mem_init_vbits, mem_init_kbits, mem_init_ubits.
  fold n. rewrite !length_replicate.
  pose proof (Z.div_mod (n / 2) 8 ltac:(lia)).
  pose proof (Z.mod_pos_bound (n / 2) 8 ltac:(lia)).
  pose proof (Z.div_mod (n - n / 2) 8 ltac:(lia)).
  pose proof (Z.mod_pos_bound (n - n / 2) 8 ltac:(lia)).
  repeat split; try reflexivity; lia.
Qed.

Lemma sys_free_after_sys_malloc_50 :
  pools_ok state_32M
  /\ vaddr_ok (caller_pf state_32M) state_32M
  /\ heap_ok (caller_pf state_32M) state_32M
  /\ returned (sys_malloc 50 state_32M) = Some 0xc010000c
  /\ exists st2, (ptr <~ sys_malloc 50 ;; sys_free ptr) state_32M = Ret tt st2
                 /\ restored (caller_pf state_32M) state_32M st2.
Proof.
  assert (returned (sys_malloc 50 state_32M) = Some 0xc010000c) as Hret
    by (vm_compute; reflexivity).
  split; [exact pools_ok_state_32M|].
  split; [exact vaddr_ok_state_32M|].
  split; [exact heap_ok_state_32M|].
  split; [exact Hret|].
  apply (sys_free_after_sys_malloc 50 state_32M 0xc010000c
           pools_ok_state_32M vaddr_ok_state_32M heap_ok_state_32M Hret).
  discriminate.
Defined.

(** * Page-table addressing *)

Lemma present_pte_of_any p : present (pte_of p) = true.
Proof.
  rewrite present_spec, <- Z.bit0_odd. unfold pte_of, PG_P_1.
  rewrite Z.lor_spec. apply orb_true_r.
Qed.

Lemma ptmem_set_ptmem f st : ptmem (set_ptmem f st) = f.
Proof. reflexivity. Qed.

Lemma ptmem_set_pt f st : ptmem (set_pt f st) = f.
Proof. reflexivity. Qed.

Lemma store_pt_Ret p w st u st' :
  store_pt p w st = Ret u st' ->
  st' = set_ptmem (fun x => if x =? p then w else ptmem st x) st.
Proof. unfold store_pt. intros H. apply modify_Ret in H. exact H. Qed.

Lemma memset0_pt_Ret dst size st u st' :
  memset0_pt dst size st = Ret u st' ->
  st' = set_ptmem (fun x => if (dst <=? x) && (x <? dst + size) then 0 else ptmem st x) st.
Proof. unfold memset0_pt. intros H. apply modify_Ret in H. exact H. Qed.

Lemma palloc_ptmem m_pool st p st' : palloc m_pool st = Ret p st' -> ptmem st' = ptmem st.
Proof.
  intros H. apply palloc_Ret in H as [[_ ->]|(j & _ & _ & ->)]; [reflexivity|].
  destruct m_pool; reflexivity.
Qed.

(** What page_table_add leaves in the page tables: the entry of [v]
    holds the frame and the flags; the directory entry of [v] is present;
    under a page table that existed no other word has changed. *)
Lemma page_table_add_ptmem v p st u st' :
  0 <= v < 0xffc00000 ->
  page_table_add v p st = Ret u st' ->
  ptmem st' (pte_ptr v) = pte_of p
  /\ present (ptmem st' (pde_ptr v)) = true
  /\ (present (ptmem st (pde_ptr v)) = true ->
      present (ptmem st (pte_ptr v)) = false
      /\ forall x, x <> pte_ptr v -> ptmem st' x = ptmem st x).
Proof.
  intros Hv H.
  pose proof (pte_ptr_range v Hv) as Hpte.
  pose proof (pde_ptr_range v ltac:(lia)) as Hpde.
  destruct (present (ptmem st (pde_ptr v))) eqn:Epde.
  - apply page_table_add_Ret in H as [Hnp ->]; [|exact Epde].
    rewrite ptmem_set_pt, Z.eqb_refl.
    rewrite (proj2 (Z.eqb_neq (pde_ptr v) (pte_ptr v))) by lia.
    split; [reflexivity|]. split; [exact Epde|].
    intros _. split; [exact Hnp|].
    intros x Hx. rewrite (proj2 (Z.eqb_neq x (pte_ptr v)) Hx). reflexivity.
  - unfold page_table_add in H. cbv zeta in H.
    apply bind_Ret in H as (s0 & s0' & Hg & H). apply get_Ret in Hg as [-> ->].
    rewrite Epde in H.
    apply bind_Ret in H as (pa & s1 & Hpa & H).
    apply bind_Ret in H as (u1 & s2 & Hs2 & H). apply store_pt_Ret in Hs2.
    apply bind_Ret in H as (u2 & s3 & Hs3 & H). apply memset0_pt_Ret in Hs3.
    apply bind_Ret in H as (s4 & s4' & Hg & H). apply get_Ret in Hg as [-> ->].
    apply bind_Ret in H as (u3 & s5 & Ha & H). apply ASSERT_Ret in Ha as [_ ->].
    apply store_pt_Ret in H. subst st'.
    rewrite ptmem_set_ptmem, Z.eqb_refl.
    split; [reflexivity|]. split; [|discriminate].
    rewrite (proj2 (Z.eqb_neq (pde_ptr v) (pte_ptr v))) by lia.
    subst s3. rewrite ptmem_set_ptmem.
    assert (Z.land (pte_ptr v) 0xfffff000 + PG_SIZE <= 0xfffff000) as Hlo.
    { rewrite land_page_mask by lia. unfold PG_SIZE.
      assert (pte_ptr v / 4096 < 0xfffff) by (apply Z.div_lt_upper_bound; lia). lia. }
    replace ((Z.land (pte_ptr v) 0xfffff000 <=? pde_ptr v)
             && (pde_ptr v <? Z.land (pte_ptr v) 0xfffff000 + PG_SIZE)) with false.
    2:{ symmetry. apply andb_false_iff. right. apply Z.ltb_ge. lia. }
    subst s2. rewrite ptmem_set_ptmem, Z.eqb_refl. apply present_pte_of_any.
Qed.

Lemma land_low_mask v : Z.land v 0x00000fff = v mod PG_SIZE.
Proof. change 0x00000fff with (Z.ones 12). apply Z.land_ones. lia. Qed.

Lemma frame_of_eq w : frame_of w = PG_SIZE * ((w / PG_SIZE) mod 2 ^ 20).
Proof.
  unfold frame_of. change 0xfffff000 with (Z.shiftl (Z.ones 20) 12).
  rewrite land_shifted_ones by lia. reflexivity.
Qed.

Lemma frame_of_range w : 0 <= frame_of w <= 0xfffff000 /\ frame_of w mod PG_SIZE = 0.
Proof.
  rewrite frame_of_eq.
  pose proof (Z.mod_pos_bound (w / PG_SIZE) (2 ^ 20) ltac:(lia)) as Hm.
  unfold PG_SIZE in *. split; [lia|].
  rewrite Z.mul_comm. apply Z.mod_mul. lia.
Qed.

Lemma addr_v2p_eq st v : addr_v2p st v = frame_of (ptmem st (pte_ptr v)) + v mod PG_SIZE.
Proof.
  unfold addr_v2p. rewrite land_low_mask. fold (frame_of (ptmem st (pte_ptr v))).
  pose proof (frame_of_range (ptmem st (pte_ptr v))) as [Hf _].
  pose proof (Z.mod_pos_bound v PG_SIZE ltac:(unfold PG_SIZE; lia)) as Hm.
  apply wrap32_small. unfold PG_SIZE in *. lia.
Qed.

Lemma PDE_IDX_eq v : 0 <= v < 2 ^ 32 -> PDE_IDX v = v / 2 ^ 22.
Proof.
  intros Hv. unfold PDE_IDX.
  change 0xffc00000 with (Z.shiftl (Z.ones 10) 22).
  rewrite land_shifted_ones, Z.shiftr_div_pow2 by lia.
  change (2 ^ 22) with 4194304. change (2 ^ 10) with 1024.
  assert (0 <= v / 4194304 < 1024) as Hd
    by (split; [apply Z.div_pos; lia | apply Z.div_lt_upper_bound; lia]).
  rewrite (Z.mod_small (v / 4194304)) by exact Hd.
  symmetry. apply Z.div_unique_exact; lia.
Qed.

(** X4: pte_ptr.  Through the recursive mapping at 0xffc00000 the entry
    of a 32-bit address is the word numbered by its 20-bit page number:
    word-aligned, inside the last 4 MiB, the same for two addresses
    exactly when they lie on the same page, and on the page of the page
    table that PDE_IDX selects. *)
Theorem pte_ptr_page_number (v v' : Z) (Hv : 0 <= v < 2 ^ 32) (Hv' : 0 <= v' < 2 ^ 32) :
  pte_ptr v = 0xffc00000 + 4 * (v / PG_SIZE)
  /\ 0xffc00000 <= pte_ptr v < 2 ^ 32
  /\ pte_ptr v mod 4 = 0
  /\ (pte_ptr v = pte_ptr v' <-> v / PG_SIZE = v' / PG_SIZE)
  /\ Z.land (pte_ptr v) 0xfffff000 = 0xffc00000 + PG_SIZE * PDE_IDX v.
Proof.
  rewrite !pte_ptr_eq by assumption. unfold PG_SIZE.
  assert (0 <= v / 4096 < 1048576) as Hq
    by (split; [apply Z.div_pos; lia | apply Z.div_lt_upper_bound; lia]).
  split; [reflexivity|]. split; [lia|]. split.
  { replace (0xffc00000 + 4 * (v / 4096)) with ((0x3ff00000 + v / 4096) * 4) by lia.
    apply Z.mod_mul. lia. }
  split; [lia|].
  rewrite land_page_mask, PDE_IDX_eq by lia. unfold PG_SIZE.
  change (2 ^ 22) with 4194304.
  assert (v / 4194304 = v / 4096 / 1024) as Hdd by (rewrite Z.div_div; [reflexivity | lia | lia]).
  replace ((0xffc00000 + 4 * (v / 4096)) / 4096) with (0xffc00 + v / 4096 / 1024); [lia|].
  pose proof (Z.div_mod (v / 4096) 1024 ltac:(lia)) as Hdm.
  pose proof (Z.mod_pos_bound (v / 4096) 1024 ltac:(lia)) as Hm.
  apply Z.div_unique with (r := 4 * ((v / 4096) mod 1024)); lia.
Qed.

Lemma pte_ptr_page_number_heap :
  pte_ptr 0xc0100000 = 0xfff00400 /\ pte_ptr 0xc0100000 = pte_ptr 0xc0100fff.
Proof.
  destruct (pte_ptr_page_number 0xc0100000 0xc0100fff ltac:(lia) ltac:(lia))
    as (H1 & _ & _ & H2 & _).
  split; [rewrite H1; reflexivity | apply H2; reflexivity].
Defined.

(** X5: pde_ptr.  The directory entry of a 32-bit address is the word of
    the last page numbered by the ten high bits of the address: the same
    for two addresses exactly when they lie in the same 4 MiB, and never
    the word pte_ptr gives for an address below 0xffc00000. *)
Theorem pde_ptr_region (v v' : Z) (Hv : 0 <= v < 2 ^ 32) (Hv' : 0 <= v' < 2 ^ 32) :
  pde_ptr v = 0xfffff000 + 4 * (v / 2 ^ 22)
  /\ 0xfffff000 <= pde_ptr v < 2 ^ 32
  /\ (pde_ptr v = pde_ptr v' <-> v / 2 ^ 22 = v' / 2 ^ 22)
  /\ (v' < 0xffc00000 -> pte_ptr v' < pde_ptr v)
  /\ (0xffc00000 <= v' -> pte_ptr v' = pde_ptr (v' * 1024 mod 2 ^ 32)).
Proof.
  rewrite !pde_ptr_eq by assumption.
  assert (0 <= v / 2 ^ 22 < 1024) as Hq
    by (split; [apply Z.div_pos; lia | apply Z.div_lt_upper_bound; lia]).
  split; [reflexivity|]. split; [lia|]. split; [lia|]. split.
  - intros Hlt. pose proof (pte_ptr_range v' ltac:(lia)). lia.
  - intros Hhi. rewrite pte_ptr_eq by lia.
    pose proof (Z.mod_pos_bound (v' * 1024) (2 ^ 32) ltac:(lia)) as Hm.
    rewrite pde_ptr_eq by exact Hm. unfold PG_SIZE.
    pose proof (Z.div_mod v' 4096 ltac:(lia)) as Hdm.
    pose proof (Z.mod_pos_bound v' 4096 ltac:(lia)) as Hr.
    assert (0xffc00 <= v' / 4096 < 0x100000) as Hp
      by (split; [apply Z.div_le_lower_bound; lia | apply Z.div_lt_upper_bound; lia]).
    assert (v' * 1024 mod 2 ^ 32 = v' * 1024 - 1023 * 2 ^ 32) as ->.
    { symmetry. apply Z.mod_unique with (q := 1023); lia. }
    replace ((v' * 1024 - 1023 * 2 ^ 32) / 2 ^ 22) with (v' / 4096 - 0xffc00); [lia|].
    apply Z.div_unique with (r := 1024 * (v' mod 4096)); lia.
Qed.

Lemma pde_ptr_region_heap :
  pde_ptr 0xc0100000 = 0xfffffc00 /\ pde_ptr 0xc0100000 = pde_ptr 0xc03fffff.
Proof.
  destruct (pde_ptr_region 0xc0100000 0xc03fffff ltac:(lia) ltac:(lia)) as (H1 & _ & H2 & _).
  split; [rewrite H1; reflexivity | apply H2; reflexivity].
Defined.

(** X6: addr_v2p keeps the offset in the page and takes the frame from
    bits 12 to 31 of the entry, whatever the entry's flags are (present
    or not); the sum never wraps. *)
Theorem addr_v2p_offset (st : state) (v : Z) :
  addr_v2p st v
  = PG_SIZE * ((ptmem st (pte_ptr v) / PG_SIZE) mod 2 ^ 20) + v mod PG_SIZE
  /\ addr_v2p st v mod PG_SIZE = v mod PG_SIZE
  /\ 0 <= addr_v2p st v < 2 ^ 32.
Proof.
  rewrite addr_v2p_eq.
  pose proof (frame_of_range (ptmem st (pte_ptr v))) as [Hf Hal].
  pose proof (Z.mod_pos_bound v PG_SIZE ltac:(unfold PG_SIZE; lia)) as Hm.
  pose proof (frame_of_eq (ptmem st (pte_ptr v))) as E.
  split; [rewrite E; reflexivity|]. split.
  - unfold PG_SIZE in *.
    pose proof (Z.div_mod (frame_of (ptmem st (pte_ptr v))) 4096 ltac:(lia)) as Hdm.
    rewrite Hal in Hdm. rewrite Hdm, Z.add_0_r, Z.add_comm, Z.mul_comm, Z.mod_add by lia.
    apply Z.mod_mod. lia.
  - unfold PG_SIZE in *. lia.
Qed.

(** X7: page_table_add, then addr_v2p.  Once page_table_add has mapped
    the page of [vaddr] to the frame [p], addr_v2p translates every
    address of that page to the same offset in [p], and the entry is
    present; this holds whether the page table existed or was created. *)
Theorem page_table_add_then_addr_v2p (vaddr p x : Z) (st st' : state) (u : unit)
    (Hv : 0 <= vaddr < 0xffc00000) (Hp : 0 <= p < 2 ^ 32) (Hal : p mod PG_SIZE = 0)
    (Hx : 0 <= x < 2 ^ 32) (Hpage : x / PG_SIZE = vaddr / PG_SIZE)
    (Hadd : page_table_add vaddr p st = Ret u st') :
  addr_v2p st' x = p + x mod PG_SIZE
  /\ present (ptmem st' (pte_ptr x)) = true
  /\ present (ptmem st' (pde_ptr x)) = true.
Proof.
  destruct (page_table_add_ptmem _ _ _ _ _ Hv Hadd) as (Hpte & Hpde & _).
  assert (pte_ptr x = pte_ptr vaddr) as Ex
    by (rewrite !pte_ptr_eq by lia; rewrite Hpage; reflexivity).
  assert (pde_ptr x = pde_ptr vaddr) as Ed.
  { rewrite !pde_ptr_eq by lia. change (2 ^ 22) with (4096 * 1024).
    rewrite <- !Z.div_div by lia. unfold PG_SIZE in Hpage. rewrite Hpage. reflexivity. }
  rewrite addr_v2p_eq, Ex, Ed, Hpte, frame_of_pte_of by assumption.
  split; [reflexivity|]. split; [apply present_pte_of_any | exact Hpde].
Qed.

Lemma page_table_add_then_addr_v2p_heap :
  exists st', page_table_add 0xc0100000 0x200000 state_32M = Ret tt st'
              /\ addr_v2p st' 0xc0100123 = 0x200123.
Proof.
  assert (returned (page_table_add 0xc0100000 0x200000 state_32M) = Some tt) as Hr
    by (vm_compute; reflexivity).
  destruct (page_table_add 0xc0100000 0x200000 state_32M) as [[] st'|] eqn:E;
    [|discriminate Hr].
  exists st'. split; [reflexivity|].
  destruct (page_table_add_then_addr_v2p 0xc0100000 0x200000 0xc0100123 state_32M st' tt
              ltac:(lia) ltac:(lia) eq_refl ltac:(lia) eq_refl E) as [H _].
  exact H.
Defined.

(** X8: mapping a page twice is fatal.  After page_table_add has mapped
    the page of [vaddr], a second page_table_add for the same page halts
    the kernel, whatever frame it is given. *)
Theorem page_table_add_twice_halts (vaddr p p' : Z) (st st' : state) (u : unit)
    (Hv : 0 <= vaddr < 0xffc00000)
    (Hadd : page_table_add vaddr p st = Ret u st') :
  page_table_add vaddr p' st' = Halt.
Proof.
  destruct (page_table_add_ptmem _ _ _ _ _ Hv Hadd) as (Hpte & Hpde & _).
  unfold page_table_add, bind, get. rewrite Hpde, Hpte, present_pte_of_any.
  reflexivity.
Qed.

Lemma page_table_add_twice_halts_heap :
  exists st', page_table_add 0xc0100000 0x200000 state_32M = Ret tt st'
              /\ page_table_add 0xc0100000 0x201000 st' = Halt.
Proof.
  assert (returned (page_table_add 0xc0100000 0x200000 state_32M) = Some tt) as Hr
    by (vm_compute; reflexivity).
  destruct (page_table_add 0xc0100000 0x200000 state_32M) as [[] st'|] eqn:E;
    [|discriminate Hr].
  exists st'. split; [reflexivity|].
  exact (page_table_add_twice_halts 0xc0100000 0x200000 0x201000 state_32M st' tt
           ltac:(lia) E).
Defined.

Lemma page_table_pte_remove_eq v st :
  page_table_pte_remove v st
  = Ret tt (set_ptmem (fun x => if x =? pte_ptr v
                                then Z.land (ptmem st (pte_ptr v)) 0xfffffffe
                                else ptmem st x) st).
Proof. reflexivity. Qed.

Lemma present_clear w : present (Z.land w 0xfffffffe) = false.
Proof.
  rewrite present_spec, <- Z.bit0_odd, Z.land_spec. apply andb_false_r.
Qed.

(** X9: page_table_pte_remove clears the present bit and nothing else.
    It always returns; afterwards the entry of [vaddr] is not present, no
    other word of the page tables has changed, and since the frame bits
    of the entry stay, addr_v2p still gives every address the translation
    it had. *)
Theorem page_table_pte_remove_keeps_frame (vaddr : Z) (st : state) :
  exists st',
    page_table_pte_remove vaddr st = Ret tt st'
    /\ present (ptmem st' (pte_ptr vaddr)) = false
    /\ (forall x, x <> pte_ptr vaddr -> ptmem st' x = ptmem st x)
    /\ (forall x, addr_v2p st' x = addr_v2p st x)
    /\ bitmaps st' = bitmaps st.
Proof.
  eexists. split; [apply page_table_pte_remove_eq|].
  rewrite ptmem_set_ptmem, Z.eqb_refl.
  split; [apply present_clear|]. split.
  - intros x Hx. rewrite (proj2 (Z.eqb_neq _ _) Hx). reflexivity.
  - split; [|reflexivity].
    intros x. rewrite !addr_v2p_eq, ptmem_set_ptmem.
    destruct (pte_ptr x =? pte_ptr vaddr) eqn:E; [|reflexivity].
    apply Z.eqb_eq in E. rewrite frame_of_clear_present, E. reflexivity.
Qed.

(** X10: a page that was unmapped can be mapped again.  Under a page
    table that exists, page_table_pte_remove followed by page_table_add
    for the same page returns, whatever the entry held, and leaves the
    entry pointing to the new frame. *)
Theorem page_table_remap (vaddr p : Z) (st : state)
    (Hv : 0 <= vaddr < 0xffc00000)
    (Hpde : present (ptmem st (pde_ptr vaddr)) = true) :
  exists st',
    (page_table_pte_remove vaddr ;;; page_table_add vaddr p) st = Ret tt st'
    /\ ptmem st' (pte_ptr vaddr) = pte_of p
    /\ forall x, x <> pte_ptr vaddr -> ptmem st' x = ptmem st x.
Proof.
  pose proof (pte_ptr_range vaddr Hv) as Hpte.
  pose proof (pde_ptr_range vaddr ltac:(lia)) as Hpd.
  unfold bind at 1. rewrite page_table_pte_remove_eq.
  set (s1 := set_ptmem _ st).
  assert (present (ptmem s1 (pde_ptr vaddr)) = true) as Hpde1.
  { subst s1. rewrite ptmem_set_ptmem.
    rewrite (proj2 (Z.eqb_neq (pde_ptr vaddr) (pte_ptr vaddr))) by lia. exact Hpde. }
  assert (present (ptmem s1 (pte_ptr vaddr)) = false) as Hpte1.
  { subst s1. rewrite ptmem_set_ptmem, Z.eqb_refl. apply present_clear. }
  exists (set_ptmem (fun x => if x =? pte_ptr vaddr then pte_of p else ptmem s1 x) s1).
  split.
  { unfold page_table_add, bind, get. rewrite Hpde1. unfold ASSERT. rewrite Hpte1.
    reflexivity. }
  rewrite ptmem_set_ptmem, Z.eqb_refl. split; [reflexivity|].
  intros x Hx. rewrite (proj2 (Z.eqb_neq _ _) Hx).
  subst s1. rewrite ptmem_set_ptmem, (proj2 (Z.eqb_neq _ _) Hx). reflexivity.
Qed.

Lemma page_table_remap_heap :
  exists st',
    (page_table_pte_remove 0xc0100000 ;;; page_table_add 0xc0100000 0x200000) state_32M
    = Ret tt st'
    /\ ptmem st' (pte_ptr 0xc0100000) = pte_of 0x200000.
Proof.
  destruct (page_table_remap 0xc0100000 0x200000 state_32M ltac:(lia)
              ltac:(vm_compute; reflexivity)) as (st' & H1 & H2 & _).
  exists st'. split; assumption.
Defined.

(** * The physical pools *)

Lemma scan_from_full l idx :
  (forall j b, l !! j = Some b -> b = true) -> scan_from l 1 idx = -1.
Proof.
  revert idx. induction l as [|b l IH]; intros idx H; [reflexivity|].
  cbn [scan_from run_clear].
  rewrite (H 0%nat b eq_refl).
  apply IH. intros j b' Hj. exact (H (S j) b' Hj).
Qed.

Lemma scan_from_free l idx (j : nat) :
  l !! j = Some false -> scan_from l 1 idx <> -1 \/ idx < 0.
Proof.
  revert idx j. induction l as [|b l IH]; intros idx j Hj; [discriminate|].
  cbn [scan_from run_clear].
  destruct b.
  - destruct j as [|j]; [discriminate|].
    destruct (IH (idx + 1) j Hj); [left; assumption | right; lia].
  - replace (run_clear l 0) with true by (destruct l; reflexivity).
    destruct (Z_lt_le_dec idx 0); [right; assumption | left; lia].
Qed.

Lemma pbits_set_pbits m_pool l st : pbits m_pool (set_pbits m_pool l st) = l.
Proof. destruct m_pool; reflexivity. Qed.

Lemma set_pbits_set_pbits m_pool l l' st :
  set_pbits m_pool l (set_pbits m_pool l' st) = set_pbits m_pool l st.
Proof. destruct m_pool; reflexivity. Qed.

Lemma set_pbits_id m_pool st : set_pbits m_pool (pbits m_pool st) st = st.
Proof. state_cases st. destruct m_pool; reflexivity. Qed.

Lemma get_pool_set_pbits_start m_pool m_pool' l st :
  phy_addr_start (get_pool m_pool' (set_pbits m_pool l st)) = phy_addr_start (get_pool m_pool' st).
Proof. destruct m_pool, m_pool'; reflexivity. Qed.

Lemma pools_ok_set_pbits m_pool l st :
  pools_ok st -> length l = length (pbits m_pool st) -> pools_ok (set_pbits m_pool l st).
Proof.
  intros [H1 H2 H3 H4 H5] Hl.
  destruct m_pool; split; cbn; try assumption; unfold pbits in *; cbn in *;
    rewrite ?Hl; assumption.
Qed.

(** The frame of bit [j] of a pool, inside the pool and its side of the
    boundary between the two pools. *)
Lemma frame_in_pool m_pool (j : nat) st :
  pools_ok st -> (j < length (pbits m_pool st))%nat ->
  let p := phy_addr_start (get_pool m_pool st) + Z.of_nat j * PG_SIZE in
  wrap32 (Z.of_nat j * PG_SIZE + phy_addr_start (get_pool m_pool st)) = p
  /\ 0x102000 <= p < 2 ^ 32
  /\ p mod PG_SIZE = 0
  /\ match m_pool with
     | KERNEL_POOL => p < phy_addr_start (user_pool st)
     | USER_POOL => phy_addr_start (user_pool st) <= p
     end.
Proof.
  intros [H1 H2 H3 H4 H5] Hj p. subst p. unfold PG_SIZE in *.
  assert (forall s, s mod 4096 = 0 -> (s + Z.of_nat j * 4096) mod 4096 = 0) as Hal.
  { intros s Hs. rewrite Z.mod_add by lia. exact Hs. }
  destruct m_pool; cbn [get_pool] in *.
  - split; [rewrite wrap32_small by lia; lia|].
    split; [lia|]. split; [apply Hal; assumption | lia].
  - split; [rewrite wrap32_small by lia; lia|].
    split; [lia|]. split; [apply Hal; assumption | lia].
Qed.

Lemma palloc_full m_pool st :
  (forall j b, pbits m_pool st !! j = Some b -> b = true) -> palloc m_pool st = Ret NULL st.
Proof.
  intros H. unfold palloc, bind, get, bitmap_scan.
  change (bits (pool_bitmap (get_pool m_pool st))) with (pbits m_pool st).
  change (Z.to_nat 1) with 1%nat.
  rewrite (scan_from_full _ 0 H). reflexivity.
Qed.

Lemma palloc_Ret_frame m_pool st st' p :
  pools_ok st -> palloc m_pool st = Ret p st' -> p <> NULL ->
  exists j : nat,
    pbits m_pool st !! j = Some false
    /\ p = phy_addr_start (get_pool m_pool st) + Z.of_nat j * PG_SIZE
    /\ st' = set_pbits m_pool (<[j := true]> (pbits m_pool st)) st
    /\ p mod PG_SIZE = 0
    /\ 0x102000 <= p < 2 ^ 32
    /\ match m_pool with
       | KERNEL_POOL => p < phy_addr_start (user_pool st)
       | USER_POOL => phy_addr_start (user_pool st) <= p
       end
    /\ pools_ok st'.
Proof.
  intros Hpools Hpalloc Hp.
  apply palloc_Ret in Hpalloc as [[-> _]|(j & Hj & -> & ->)]; [congruence|].
  pose proof (lookup_lt_Some _ _ _ Hj) as Hlt.
  destruct (frame_in_pool m_pool j st Hpools Hlt) as (-> & Hr & Hal & Hside).
  exists j. split; [exact Hj|]. split; [reflexivity|]. split; [reflexivity|].
  split; [exact Hal|]. split; [exact Hr|]. split; [exact Hside|].
  apply pools_ok_set_pbits; [exact Hpools | apply length_insert].
Qed.

(** X11: what palloc hands out.  Under the pool layout of mem_init, a
    palloc that does not return NULL returns the frame of a bit that was
    clear: page-aligned, at or above 0x102000, inside its pool and on its
    pool's side of the boundary between the kernel and the user pool; it
    sets that bit, leaves every other bit of the bitmap and everything
    else as it was, and the layout still holds. *)
Theorem palloc_frame (m_pool : pool_id) (st st' : state) (p : Z)
    (Hpools : pools_ok st)
    (Hpalloc : palloc m_pool st = Ret p st') (Hp : p <> NULL) :
  exists j : nat,
    pbits m_pool st !! j = Some false
    /\ pbits m_pool st' !! j = Some true
    /\ (forall i, i <> j -> pbits m_pool st' !! i = pbits m_pool st !! i)
    /\ p = phy_addr_start (get_pool m_pool st) + Z.of_nat j * PG_SIZE
    /\ st' = set_pbits m_pool (<[j := true]> (pbits m_pool st)) st
    /\ p mod PG_SIZE = 0
    /\ 0x102000 <= p < 2 ^ 32
    /\ p < phy_addr_start (get_pool m_pool st)
            + PG_SIZE * Z.of_nat (length (pbits m_pool st))
    /\ match m_pool with
       | KERNEL_POOL => p < phy_addr_start (user_pool st)
       | USER_POOL => phy_addr_start (user_pool st) <= p
       end
    /\ pools_ok st'.
Proof.
  destruct (palloc_Ret_frame m_pool st st' p Hpools Hpalloc Hp)
    as (j & Hj & Ep & Est & Hal & Hr & Hside & Hok).
  pose proof (lookup_lt_Some _ _ _ Hj) as Hlt.
  exists j. split; [exact Hj|]. split.
  { rewrite Est, pbits_set_pbits. apply list_lookup_insert_eq. exact Hlt. }
  split.
  { intros i Hi. rewrite Est, pbits_set_pbits. apply list_lookup_insert_ne. congruence. }
  split; [exact Ep|]. split; [exact Est|]. split; [exact Hal|]. split; [exact Hr|].
  split; [rewrite Ep; unfold PG_SIZE; lia|].
  split; [exact Hside | exact Hok].
Qed.

Lemma palloc_frame_32M :
  pools_ok state_32M
  /\ returned (palloc KERNEL_POOL state_32M) = Some 0x200000
  /\ exists st', palloc KERNEL_POOL state_32M = Ret 0x200000 st' /\ pools_ok st'.
Proof.
  assert (returned (palloc KERNEL_POOL state_32M) = Some 0x200000) as Hr
    by (vm_compute; reflexivity).
  split; [exact pools_ok_state_32M|]. split; [exact Hr|].
  destruct (palloc KERNEL_POOL state_32M) as [p st'|] eqn:E; [|discriminate Hr].
  injection Hr as ->. exists st'. split; [reflexivity|].
  destruct (palloc_frame KERNEL_POOL state_32M st' 0x200000 pools_ok_state_32M E
              ltac:(discriminate)) as (j & _ & _ & _ & _ & _ & _ & _ & _ & _ & H).
  exact H.
Defined.

Lemma palloc_NULL_exhausted m_pool st :
  pools_ok st -> returned (palloc m_pool st) = Some NULL ->
  forall j b, pbits m_pool st !! j = Some b -> b = true.
Proof.
  intros Hpools Hr j b Hj. destruct b; [reflexivity|]. exfalso.
  destruct (palloc m_pool st) as [p st'|] eqn:E; [|discriminate Hr].
  injection Hr as ->.
  unfold palloc, bind, get, bitmap_scan in E.
  change (bits (pool_bitmap (get_pool m_pool st))) with (pbits m_pool st) in E.
  change (Z.to_nat 1) with 1%nat in E.
  destruct (scan_from_free _ 0 j Hj) as [Hne|]; [|lia].
  rewrite (proj2 (Z.eqb_neq _ _) Hne) in E.
  destruct (scan_from_sound _ _ 0 Hne ltac:(lia)) as (i & Hi & Hclr).
  specialize (Hclr 0%nat ltac:(lia)). rewrite Nat.add_0_r in Hclr.
  apply lookup_lt_Some in Hclr.
  destruct (frame_in_pool m_pool i st Hpools Hclr) as (Hw & Hr & _).
  unfold modify, ret in E. injection E as E _.
  rewrite Hi, Z.add_0_l, Hw in E. unfold NULL in E. lia.
Qed.

(** X12: palloc fails exactly when the pool is exhausted.  Under the
    pool layout of mem_init, palloc returns NULL if and only if every bit
    of the pool's bitmap is set, and then it leaves the state as it was. *)
Theorem palloc_null_iff_exhausted (m_pool : pool_id) (st : state)
    (Hpools : pools_ok st) :
  (returned (palloc m_pool st) = Some NULL
   <-> forall j b, pbits m_pool st !! j = Some b -> b = true)
  /\ (returned (palloc m_pool st) = Some NULL -> palloc m_pool st = Ret NULL st).
Proof.
  pose proof (palloc_NULL_exhausted m_pool st Hpools) as Hfwd.
  split; [split; [exact Hfwd|]|].
  - intros H. rewrite (palloc_full _ _ H). reflexivity.
  - intros Hr. apply palloc_full. apply Hfwd. exact Hr.
Qed.

Lemma palloc_null_iff_exhausted_full :
  pools_ok state_full /\ palloc KERNEL_POOL state_full = Ret NULL state_full.
Proof.
  assert (pools_ok state_full) as Hok.
  { split; vm_compute; congruence. }
  split; [exact Hok|].
  destruct (palloc_null_iff_exhausted KERNEL_POOL state_full Hok) as [_ H].
  apply H. vm_compute. reflexivity.
Defined.

(** X13: palloc never hands out a frame twice.  Two successive palloc
    calls on one pool that both succeed return different frames, and a
    frame of the kernel pool is never a frame of the user pool. *)
Theorem palloc_distinct (m_pool m_pool' : pool_id) (st st1 st2 : state) (p1 p2 : Z)
    (Hpools : pools_ok st)
    (H1 : palloc m_pool st = Ret p1 st1) (Hp1 : p1 <> NULL)
    (H2 : palloc m_pool' st1 = Ret p2 st2) (Hp2 : p2 <> NULL) :
  p1 <> p2.
Proof.
  destruct (palloc_Ret_frame _ _ _ _ Hpools H1 Hp1)
    as (j1 & Hj1 & E1 & Est1 & _ & _ & Hside1 & Hok1).
  destruct (palloc_Ret_frame _ _ _ _ Hok1 H2 Hp2)
    as (j2 & Hj2 & E2 & _ & _ & _ & Hside2 & _).
  subst st1. rewrite get_pool_set_pbits_start in E2.
  change (user_pool (set_pbits m_pool (<[j1:=true]> (pbits m_pool st)) st))
    with (get_pool USER_POOL (set_pbits m_pool (<[j1:=true]> (pbits m_pool st)) st)) in Hside2.
  rewrite get_pool_set_pbits_start in Hside2. cbn [get_pool] in Hside2.
  destruct m_pool, m_pool'; try lia.
  - rewrite pbits_set_pbits in Hj2.
    assert (j2 <> j1) as Hne.
    { intros ->. rewrite list_lookup_insert_eq in Hj2 by (eapply lookup_lt_Some; eauto).
      discriminate. }
    unfold PG_SIZE in *. lia.
  - rewrite pbits_set_pbits in Hj2.
    assert (j2 <> j1) as Hne.
    { intros ->. rewrite list_lookup_insert_eq in Hj2 by (eapply lookup_lt_Some; eauto).
      discriminate. }
    unfold PG_SIZE in *. lia.
Qed.

Lemma palloc_distinct_32M :
  exists st1 st2,
    palloc KERNEL_POOL state_32M = Ret 0x200000 st1
    /\ palloc KERNEL_POOL st1 = Ret 0x201000 st2
    /\ 0x200000 <> 0x201000.
Proof.
  assert (returned (palloc KERNEL_POOL state_32M) = Some 0x200000) as Hr1
    by (vm_compute; reflexivity).
  destruct (palloc KERNEL_POOL state_32M) as [p1 st1|] eqn:E1; [|discriminate Hr1].
  injection Hr1 as ->.
  assert (returned ((x <~ palloc KERNEL_POOL ;; palloc KERNEL_POOL) state_32M) = Some 0x201000)
    as Hr2 by (vm_compute; reflexivity).
  rewrite (bind_eq _ _ _ _ _ E1) in Hr2.
  destruct (palloc KERNEL_POOL st1) as [p2 st2|] eqn:E2; [|discriminate Hr2].
  injection Hr2 as ->.
  exists st1, st2. split; [reflexivity|]. split; [exact E2|].
  exact (palloc_distinct KERNEL_POOL KERNEL_POOL state_32M st1 st2 0x200000 0x201000
           pools_ok_state_32M E1 ltac:(discriminate) E2 ltac:(discriminate)).
Defined.

Lemma free_a_phy_page_pfree p st : free_a_phy_page p st = pfree p st.
Proof. reflexivity. Qed.

(** X14: a frame given back right after palloc.  Under the pool layout
    of mem_init, pfree (and free_a_phy_page, which runs the same code) of
    the frame palloc has just returned finds the pool the frame came from
    by comparing it with the start of the user pool, clears its bit, and
    leaves the state exactly as it was before the palloc. *)
Theorem palloc_pfree_roundtrip (m_pool : pool_id) (st st1 : state) (p : Z)
    (Hpools : pools_ok st)
    (Hpalloc : palloc m_pool st = Ret p st1) (Hp : p <> NULL) :
  pfree p st1 = Ret tt st /\ free_a_phy_page p st1 = Ret tt st.
Proof.
  assert (pfree p st1 = Ret tt st) as H; [|split; exact H].
  apply palloc_Ret in Hpalloc as [[-> _]|(j & Hj & -> & ->)]; [congruence|].
  pose proof (lookup_lt_Some _ _ _ Hj) as Hlt.
  destruct (frame_in_pool m_pool j st Hpools Hlt) as (-> & _).
  set (st1 := set_pbits m_pool (<[j := true]> (pbits m_pool st)) st).
  assert (pools_ok st1) as Hok1
    by (apply pools_ok_set_pbits; [exact Hpools | apply length_insert]).
  assert (m_pool = pool_of_branch (match m_pool with KERNEL_POOL => false | USER_POOL => true end))
    as Em by (destruct m_pool; reflexivity).
  rewrite <- (get_pool_set_pbits_start m_pool m_pool (<[j := true]> (pbits m_pool st)) st).
  fold st1. rewrite Em at 1. rewrite pfree_spec.
  - rewrite <- Em. subst st1.
    rewrite pbits_set_pbits, set_pbits_set_pbits, list_insert_insert_eq.
    rewrite list_insert_id by exact Hj. rewrite set_pbits_id. reflexivity.
  - exact Hok1.
  - rewrite <- Em. subst st1. rewrite pbits_set_pbits, length_insert. exact Hlt.
Qed.

Lemma palloc_pfree_roundtrip_32M :
  pools_ok state_32M
  /\ (p <~ palloc USER_POOL ;; pfree p) state_32M = Ret tt state_32M.
Proof.
  split; [exact pools_ok_state_32M|].
  assert (returned (palloc USER_POOL state_32M) = Some 0x1100000) as Hr
    by (vm_compute; reflexivity).
  destruct (palloc USER_POOL state_32M) as [p st1|] eqn:E; [|discriminate Hr].
  injection Hr as ->.
  rewrite (bind_eq _ _ _ _ _ E).
  exact (proj1 (palloc_pfree_roundtrip USER_POOL state_32M st1 0x1100000
                  pools_ok_state_32M E ltac:(discriminate))).
Defined.

Lemma ustart_set_pbits m_pool l st :
  phy_addr_start (user_pool (set_pbits m_pool l st)) = phy_addr_start (user_pool st).
Proof. destruct m_pool; reflexivity. Qed.

Lemma kstart_set_pbits m_pool l st :
  phy_addr_start (kernel_pool (set_pbits m_pool l st)) = phy_addr_start (kernel_pool st).
Proof. destruct m_pool; reflexivity. Qed.

(** pfree, as a function of the state: the pool is the user pool when
    the frame is at or above its start, and the bit is the frame's
    distance from the start of the pool, in pages. *)
Definition pfreed (p : Z) (st : state) : state :=
  if phy_addr_start (user_pool st) <=? p
  then set_pbits USER_POOL
         (<[Z.to_nat (wrap32 (p - phy_addr_start (user_pool st)) / PG_SIZE) := false]>
            (pbits USER_POOL st)) st
  else set_pbits KERNEL_POOL
         (<[Z.to_nat (wrap32 (p - phy_addr_start (kernel_pool st)) / PG_SIZE) := false]>
            (pbits KERNEL_POOL st)) st.

Lemma pfree_eq p st : pfree p st = Ret tt (pfreed p st).
Proof.
  unfold pfree, pfreed, bind, get, modify.
  destruct (phy_addr_start (user_pool st) <=? p); f_equal.
  - exact (set_pool_bitmap_set USER_POOL st _ false).
  - exact (set_pool_bitmap_set KERNEL_POOL st _ false).
Qed.

Lemma pfreed_pfreed p st : pfreed p (pfreed p st) = pfreed p st.
Proof.
  unfold pfreed. destruct (phy_addr_start (user_pool st) <=? p) eqn:E; cbv iota.
  - rewrite ustart_set_pbits, E, pbits_set_pbits, set_pbits_set_pbits,
      list_insert_insert_eq. reflexivity.
  - rewrite ustart_set_pbits, E, kstart_set_pbits, pbits_set_pbits, set_pbits_set_pbits,
      list_insert_insert_eq. reflexivity.
Qed.

(** X15: pfree does not detect a double free.  pfree and free_a_phy_page
    always return, touching only the bitmap of one physical pool, and
    freeing the same frame a second time leaves the state the first free
    produced: the bit is cleared again and nothing is reported. *)
Theorem pfree_twice (p : Z) (st : state) :
  (pfree p ;;; pfree p) st = pfree p st
  /\ (free_a_phy_page p ;;; free_a_phy_page p) st = free_a_phy_page p st
  /\ exists st', pfree p st = Ret tt st'
       /\ ptmem st' = ptmem st
       /\ vbits PF_KERNEL st' = vbits PF_KERNEL st /\ vbits PF_USER st' = vbits PF_USER st.
Proof.
  assert ((pfree p ;;; pfree p) st = pfree p st) as H.
  { unfold bind. rewrite pfree_eq, pfree_eq, pfreed_pfreed. reflexivity. }
  split; [exact H|]. split; [exact H|].
  exists (pfreed p st). split; [apply pfree_eq|].
  unfold pfreed. destruct (phy_addr_start (user_pool st) <=? p); repeat split; reflexivity.
Qed.

(** * Pages: the virtual pools and malloc_page *)

Lemma vbits_set_vbits pf l st : vbits pf (set_vbits pf l st) = l.
Proof. destruct pf; reflexivity. Qed.

Lemma set_vbits_set_vbits pf l l' st :
  set_vbits pf l (set_vbits pf l' st) = set_vbits pf l st.
Proof. destruct pf; reflexivity. Qed.

Lemma set_vbits_id pf st : set_vbits pf (vbits pf st) st = st.
Proof. state_cases st. destruct pf; reflexivity. Qed.

Lemma vstart_set_vbits pf pf' l st :
  vaddr_start (get_vaddr pf (set_vbits pf' l st)) = vaddr_start (get_vaddr pf st).
Proof. destruct pf, pf'; reflexivity. Qed.

Lemma pbits_set_vbits m_pool pf l st : pbits m_pool (set_vbits pf l st) = pbits m_pool st.
Proof. destruct m_pool, pf; reflexivity. Qed.

Lemma vaddr_ok_range pf st :
  vaddr_ok pf st ->
  0 <= vaddr_start (get_vaddr pf st) /\ Z.of_nat (length (vbits pf st)) < 2 ^ 20.
Proof.
  intros [Hlo Hal Htop _].
  assert (0 <= vaddr_start (get_vaddr pf st)) as Hlo0.
  { destruct pf; cbn [heap_lo] in Hlo; unfold K_HEAP_START in Hlo; lia. }
  unfold PG_SIZE in *. lia.
Qed.

(** X16: virtual pages given back right after vaddr_get.  When vaddr_get
    has reserved a run of pages in a virtual pool that lies below
    0xffc00000, vaddr_remove of the address it returned, for the same
    number of pages, leaves the state exactly as it was before. *)
Theorem vaddr_get_remove_roundtrip (pf : pool_flags) (pg_cnt a : Z) (st st1 : state)
    (Hvaddr : vaddr_ok pf st) (Hcnt : 0 < pg_cnt)
    (Hget : vaddr_get pf pg_cnt st = Ret a st1) (Ha : a <> NULL) :
  vaddr_remove pf a pg_cnt st1 = Ret tt st.
Proof.
  destruct (vaddr_ok_range pf st Hvaddr) as [Hlo Hlen].
  destruct Hvaddr as [_ Hal Htop _].
  apply vaddr_get_Ret in Hget as (idx & Hfit & Hclr & -> & ->); [|lia|lia|exact Ha].
  unfold PG_SIZE in *.
  rewrite wrap32_small by lia.
  rewrite <- (vstart_set_vbits pf pf (set_all (seq idx (Z.to_nat pg_cnt)) true (vbits pf st)) st).
  change 4096 with PG_SIZE.
  rewrite vaddr_remove_spec by lia.
  rewrite vbits_set_vbits, set_vbits_set_vbits, set_all_undo, set_vbits_id; [reflexivity|].
  intros j Hj. apply list_elem_of_In, in_seq in Hj.
  replace j with (idx + (j - idx))%nat by lia. apply Hclr. lia.
Qed.

Lemma vaddr_get_remove_roundtrip_32M :
  vaddr_ok PF_KERNEL state_32M
  /\ (a <~ vaddr_get PF_KERNEL 3 ;; vaddr_remove PF_KERNEL a 3) state_32M = Ret tt state_32M.
Proof.
  split; [exact vaddr_ok_state_32M|].
  assert (returned (vaddr_get PF_KERNEL 3 state_32M) = Some 0xc0100000) as Hr
    by (vm_compute; reflexivity).
  destruct (vaddr_get PF_KERNEL 3 state_32M) as [a st1|] eqn:E; [|discriminate Hr].
  injection Hr as ->.
  rewrite (bind_eq _ _ _ _ _ E).
  exact (vaddr_get_remove_roundtrip PF_KERNEL 3 0xc0100000 state_32M st1
           vaddr_ok_state_32M ltac:(lia) E ltac:(discriminate)).
Defined.

(** malloc_page, when it returns pages: as [malloc_page_spec], with the
    words of the page tables it has not written. *)
Lemma malloc_page_spec_full pf pg_cnt st a st' :
  vaddr_ok pf st ->
  malloc_page pf pg_cnt st = Ret a st' -> a <> NULL ->
  exists (idx : nat) (js : list nat) (pt : Z -> Z),
    0 < pg_cnt < 3840
    /\ (idx + Z.to_nat pg_cnt <= length (vbits pf st))%nat
    /\ (forall k, (k < Z.to_nat pg_cnt)%nat -> vbits pf st !! (idx + k)%nat = Some false)
    /\ a = vaddr_start (get_vaddr pf st) + Z.of_nat idx * PG_SIZE
    /\ length js = Z.to_nat pg_cnt /\ NoDup js
    /\ (forall j, j ∈ js -> pbits (pool_of pf) st !! j = Some false)
    /\ st' = set_pt pt
               (set_pbits (pool_of pf) (set_all js true (pbits (pool_of pf) st))
                  (set_vbits pf (set_all (seq idx (Z.to_nat pg_cnt)) true (vbits pf st)) st))
    /\ (forall k j : nat, js !! k = Some j ->
          pt (pte_ptr (a + Z.of_nat k * PG_SIZE))
          = pte_of (wrap32 (Z.of_nat j * PG_SIZE + phy_addr_start (get_pool (pool_of pf) st))))
    /\ (forall x, (forall k : nat, (k < Z.to_nat pg_cnt)%nat ->
                     x <> pte_ptr (a + Z.of_nat k * PG_SIZE)) ->
          pt x = ptmem st x).
Proof.
  intros Hok H Ha.
  pose proof (malloc_page_returns _ _ _ _ _ H) as Hcnt.
  assert (Hok' := Hok). destruct Hok' as [Hlo Hal Htop Hpde].
  assert (0 <= vaddr_start (get_vaddr pf st)) as Hlo0.
  { destruct pf; cbn [heap_lo] in Hlo; unfold K_HEAP_START in Hlo; lia. }
  unfold malloc_page in H.
  apply bind_Ret in H as (u & st0 & Hassert & H).
  apply ASSERT_Ret in Hassert as [_ ->].
  apply bind_Ret in H as (v & st1 & Hget & H).
  destruct (v =? NULL) eqn:Ev; [injection H as <- _; congruence|].
  apply Z.eqb_neq in Ev.
  unfold PG_SIZE in *.
  apply vaddr_get_Ret in Hget as (idx & Hfit & Hclr & Hv & ->); [|lia|lia|exact Ev].
  rewrite wrap32_small in Hv by (unfold PG_SIZE; lia).
  apply bind_Ret in H as (ok & st2 & Hloop & H).
  destruct ok; [|injection H as <- _; congruence]. injection H as <- <-.
  apply malloc_page_loop_spec in Hloop as (js & pt & Hlen & Hnd & Hjs & -> & Hpt & Hrest).
  - exists idx, js, pt.
    split; [exact Hcnt|]. split; [exact Hfit|]. split; [exact Hclr|].
    split; [exact Hv|]. split; [exact Hlen|]. split; [exact Hnd|].
    split; [intros j Hj; specialize (Hjs j Hj); destruct pf; exact Hjs|].
    split; [destruct pf; reflexivity|].
    split.
    + intros k j Hk. specialize (Hpt k j Hk). unfold PG_SIZE in *.
      rewrite Hpt. destruct pf; reflexivity.
    + intros x Hx. unfold PG_SIZE in *. rewrite (Hrest x Hx). destruct pf; reflexivity.
  - unfold PG_SIZE in Hv. lia.
  - unfold PG_SIZE in *. lia.
  - intros k Hk. specialize (Hpde (idx + k)%nat ltac:(lia)).
    rewrite Hv. unfold PG_SIZE in *.
    replace (vaddr_start (get_vaddr pf st) + Z.of_nat idx * 4096 + Z.of_nat k * 4096)
      with (vaddr_start (get_vaddr pf st) + Z.of_nat (idx + k) * 4096) by lia.
    destruct pf; exact Hpde.
Qed.

(** ** What malloc_page maps *)

Lemma pools_ok_set_vbits pf l st : pools_ok st -> pools_ok (set_vbits pf l st).
Proof. intros [H1 H2 H3 H4 H5]. destruct pf; split; assumption. Qed.

Lemma same_page_pte_ptr a (k : nat) x :
  0 <= a -> a mod PG_SIZE = 0 -> a + (Z.of_nat k + 1) * PG_SIZE <= 2 ^ 32 ->
  a + Z.of_nat k * PG_SIZE <= x < a + (Z.of_nat k + 1) * PG_SIZE ->
  pte_ptr x = pte_ptr (a + Z.of_nat k * PG_SIZE)
  /\ x mod PG_SIZE = x - (a + Z.of_nat k * PG_SIZE).
Proof.
  intros Ha Hal Htop Hx. unfold PG_SIZE in *.
  pose proof (Z.div_mod a 4096 ltac:(lia)) as Hdm. rewrite Hal in Hdm.
  assert (x / 4096 = a / 4096 + Z.of_nat k) as Hq.
  { symmetry. apply Z.div_unique with (r := x - (a + Z.of_nat k * 4096)); lia. }
  assert ((a + Z.of_nat k * 4096) / 4096 = a / 4096 + Z.of_nat k) as Hq'.
  { rewrite Z.div_add by lia. reflexivity. }
  split.
  - rewrite !pte_ptr_eq by lia. unfold PG_SIZE. rewrite Hq, Hq'. reflexivity.
  - pose proof (Z.div_mod x 4096 ltac:(lia)) as Hdx. lia.
Qed.

(** The pages malloc_page returns and the frames behind them. *)
Lemma malloc_page_frames pf pg_cnt st a st' :
  pools_ok st -> vaddr_ok pf st ->
  malloc_page pf pg_cnt st = Ret a st' -> a <> NULL ->
  pools_ok st' /\ vaddr_ok pf st'
  /\ exists (idx : nat) (js : list nat),
       a = vaddr_start (get_vaddr pf st) + Z.of_nat idx * PG_SIZE
       /\ (forall k, (k < Z.to_nat pg_cnt)%nat -> vbits pf st !! (idx + k)%nat = Some false)
       /\ vbits pf st' = set_all (seq idx (Z.to_nat pg_cnt)) true (vbits pf st)
       /\ vaddr_start (get_vaddr pf st') = vaddr_start (get_vaddr pf st)
       /\ length js = Z.to_nat pg_cnt /\ NoDup js
       /\ (forall j, j ∈ js -> pbits (pool_of pf) st !! j = Some false)
       /\ pbits (pool_of pf) st' = set_all js true (pbits (pool_of pf) st)
       /\ phy_addr_start (get_pool (pool_of pf) st') = phy_addr_start (get_pool (pool_of pf) st)
       /\ (forall (k j : nat) x, js !! k = Some j ->
             a + Z.of_nat k * PG_SIZE <= x < a + (Z.of_nat k + 1) * PG_SIZE ->
             addr_v2p st' x
             = phy_addr_start (get_pool (pool_of pf) st) + Z.of_nat j * PG_SIZE
               + (x - (a + Z.of_nat k * PG_SIZE)))
       /\ (forall x, 0 <= x < 2 ^ 32 -> ~ (a <= x < a + pg_cnt * PG_SIZE) ->
             ptmem st' (pte_ptr x) = ptmem st (pte_ptr x)).
Proof.
  intros Hpools Hvaddr Hm Ha.
  destruct (malloc_page_addr _ _ _ _ _ Hvaddr Hm Ha) as (Hcnt & Ha4 & Hlo & Hal & Htop & _).
  destruct (malloc_page_spec_full _ _ _ _ _ Hvaddr Hm Ha)
    as (idx & js & pt & _ & Hfit & Hclr & Haddr & Hlen & Hnd & Hjs & -> & Hpt & Hrest).
  set (l' := set_all (seq idx (Z.to_nat pg_cnt)) true (vbits pf st)) in *.
  set (l := set_all js true (pbits (pool_of pf) st)) in *.
  assert (forall x, 0xfffff000 <= x -> pt x = ptmem st x) as Hpd.
  { intros x Hx. apply Hrest. intros k Hk.
    pose proof (pte_ptr_range (a + Z.of_nat k * PG_SIZE)) as Hr. unfold PG_SIZE in *. lia. }
  split; [|split].
  - apply pools_ok_set.
    + apply pools_ok_set_vbits. exact Hpools.
    + subst l. rewrite set_all_length, pbits_set_vbits. reflexivity.
  - destruct Hvaddr as [V1 V2 V3 V4].
    assert (vaddr_start (get_vaddr pf (set_pt pt (set_pbits (pool_of pf) l (set_vbits pf l' st))))
            = vaddr_start (get_vaddr pf st)) as Evs by (destruct pf; reflexivity).
    assert (vbits pf (set_pt pt (set_pbits (pool_of pf) l (set_vbits pf l' st))) = l') as Evb
      by (destruct pf; reflexivity).
    split; rewrite ?Evs, ?Evb; subst l'; rewrite ?set_all_length; try assumption.
    intros i Hi. rewrite ptmem_set_pt, Hpd; [apply V4; exact Hi|].
    apply pde_ptr_range. unfold PG_SIZE in *.
    assert (0 <= vaddr_start (get_vaddr pf st)) by
      (destruct pf; cbn [heap_lo] in V1; unfold K_HEAP_START in V1; lia).
    lia.
  - exists idx, js.
    split; [exact Haddr|]. split; [exact Hclr|].
    split; [destruct pf; reflexivity|]. split; [destruct pf; reflexivity|].
    split; [exact Hlen|]. split; [exact Hnd|]. split; [exact Hjs|].
    split; [destruct pf; reflexivity|]. split; [destruct pf; reflexivity|].
    split.
    + intros k j x Hk Hx.
      assert (k < Z.to_nat pg_cnt)%nat as Hklt
        by (rewrite <- Hlen; eapply lookup_lt_Some; exact Hk).
      assert (j ∈ js) as Hj by (eapply list_elem_of_lookup_2; exact Hk).
      pose proof (lookup_lt_Some _ _ _ (Hjs j Hj)) as Hjlt.
      destruct (frame_in_pool (pool_of pf) j st Hpools Hjlt) as (Hw & Hr & Hfal & _).
      destruct (same_page_pte_ptr a k x) as [Epte Emod];
        [unfold PG_SIZE in *; lia | exact Hal | unfold PG_SIZE in *; lia | exact Hx |].
      rewrite addr_v2p_eq, ptmem_set_pt, Epte, (Hpt k j Hk), Hw, Emod.
      rewrite frame_of_pte_of; [reflexivity | lia | exact Hfal].
    + intros x Hx Hout. rewrite ptmem_set_pt. apply Hrest.
      intros k Hk E. apply Hout.
      assert (0 <= a + Z.of_nat k * PG_SIZE < 2 ^ 32) as Hr by (unfold PG_SIZE in *; lia).
      rewrite !pte_ptr_eq in E by assumption.
      unfold PG_SIZE in *.
      assert (x / 4096 = (a + Z.of_nat k * 4096) / 4096) as Eq by lia.
      rewrite Z.div_add in Eq by lia.
      pose proof (Z.div_mod a 4096 ltac:(lia)) as Hda. rewrite Hal in Hda.
      pose proof (Z.div_mod x 4096 ltac:(lia)) as Hdx.
      pose proof (Z.mod_pos_bound x 4096 ltac:(lia)) as Hmx.
      lia.
Qed.

(** X17: what malloc_page maps.  Under the layout of mem_init and page
    tables that exist, a malloc_page that succeeds returns a page-aligned
    run of pages inside the virtual pool; the pages were free in the
    virtual bitmap; each page is mapped to a frame of the pool of [pf]
    that was free, no two pages to the same frame, and addr_v2p sends
    every address of a page to the same offset in its frame; the layout
    and the page tables are still in order afterwards. *)
Theorem malloc_page_maps (pf : pool_flags) (pg_cnt a : Z) (st st' : state)
    (Hpools : pools_ok st) (Hvaddr : vaddr_ok pf st)
    (Hmalloc : malloc_page pf pg_cnt st = Ret a st') (Ha : a <> NULL) :
  0 < pg_cnt < 3840
  /\ heap_lo pf <= a /\ a mod PG_SIZE = 0 /\ a + pg_cnt * PG_SIZE <= 0xffc00000
  /\ pools_ok st' /\ vaddr_ok pf st'
  /\ (forall x, x mod PG_SIZE = 0 -> a <= x < a + pg_cnt * PG_SIZE -> page_free pf st x)
  /\ exists js : list nat,
       length js = Z.to_nat pg_cnt /\ NoDup js
       /\ forall (k j : nat), js !! k = Some j ->
            pbits (pool_of pf) st !! j = Some false
            /\ pbits (pool_of pf) st' !! j = Some true
            /\ forall x, a + Z.of_nat k * PG_SIZE <= x < a + (Z.of_nat k + 1) * PG_SIZE ->
                 addr_v2p st' x
                 = phy_addr_start (get_pool (pool_of pf) st) + Z.of_nat j * PG_SIZE
                   + (x - (a + Z.of_nat k * PG_SIZE)).
Proof.
  destruct (malloc_page_addr _ _ _ _ _ Hvaddr Hmalloc Ha) as (Hcnt & _ & Hlo & Hal & Htop & Hfree).
  destruct (malloc_page_frames _ _ _ _ _ Hpools Hvaddr Hmalloc Ha)
    as (Hp' & Hv' & idx & js & _ & _ & _ & _ & Hlen & Hnd & Hjs & Epb & _ & Hmap & _).
  repeat (split; [assumption|]).
  exists js. split; [exact Hlen|]. split; [exact Hnd|].
  intros k j Hk.
  assert (j ∈ js) as Hj by (eapply list_elem_of_lookup_2; exact Hk).
  split; [apply Hjs; exact Hj|]. split.
  - rewrite Epb. apply set_all_lookup_in; [exact Hj|].
    eapply lookup_lt_Some. apply Hjs. exact Hj.
  - intros x Hx. apply (Hmap k j x Hk Hx).
Qed.

Lemma malloc_page_maps_32M :
  pools_ok state_32M /\ vaddr_ok PF_KERNEL state_32M
  /\ exists st', malloc_page PF_KERNEL 2 state_32M = Ret 0xc0100000 st'
                 /\ pools_ok st' /\ vaddr_ok PF_KERNEL st'.
Proof.
  split; [exact pools_ok_state_32M|]. split; [exact vaddr_ok_state_32M|].
  assert (returned (malloc_page PF_KERNEL 2 state_32M) = Some 0xc0100000) as Hr
    by (vm_compute; reflexivity).
  destruct (malloc_page PF_KERNEL 2 state_32M) as [a st'|] eqn:E; [|discriminate Hr].
  injection Hr as ->. exists st'. split; [reflexivity|].
  destruct (malloc_page_maps PF_KERNEL 2 0xc0100000 state_32M st'
              pools_ok_state_32M vaddr_ok_state_32M E ltac:(discriminate))
    as (_ & _ & _ & _ & H1 & H2 & _).
  split; assumption.
Defined.

(** X18: two allocations never overlap.  Two successive malloc_page
    calls for the same pool that both succeed return runs of pages that do
    not overlap, and the second call leaves the translation of every
    address of the first run as it was. *)
Theorem malloc_page_disjoint (pf : pool_flags) (n1 n2 a1 a2 : Z) (st st1 st2 : state)
    (Hpools : pools_ok st) (Hvaddr : vaddr_ok pf st)
    (H1 : malloc_page pf n1 st = Ret a1 st1) (Ha1 : a1 <> NULL)
    (H2 : malloc_page pf n2 st1 = Ret a2 st2) (Ha2 : a2 <> NULL) :
  (a1 + n1 * PG_SIZE <= a2 \/ a2 + n2 * PG_SIZE <= a1)
  /\ (forall x, a1 <= x < a1 + n1 * PG_SIZE -> addr_v2p st2 x = addr_v2p st1 x)
  /\ (forall x1 x2, a1 <= x1 < a1 + n1 * PG_SIZE -> a2 <= x2 < a2 + n2 * PG_SIZE ->
        addr_v2p st2 x1 / PG_SIZE <> addr_v2p st2 x2 / PG_SIZE).
Proof.
  destruct (malloc_page_addr _ _ _ _ _ Hvaddr H1 Ha1) as (Hc1 & _ & Hlo1 & Hal1 & Htop1 & _).
  destruct (malloc_page_frames _ _ _ _ _ Hpools Hvaddr H1 Ha1)
    as (Hp1 & Hv1 & idx1 & js1 & E1 & Hclr1 & Evb1 & Evs1 & Hlen1 & Hnd1 & Hjs1 & Epb1 & Eps1
        & Hmap1 & _).
  destruct (malloc_page_addr _ _ _ _ _ Hv1 H2 Ha2) as (Hc2 & _ & Hlo2 & Hal2 & Htop2 & _).
  destruct (malloc_page_frames _ _ _ _ _ Hp1 Hv1 H2 Ha2)
    as (_ & _ & idx2 & js2 & E2 & Hclr2 & _ & _ & Hlen2 & Hnd2 & Hjs2 & _ & _ & Hmap2 & Hrest2).
  destruct (vaddr_ok_range pf st Hvaddr) as [Hlo0 Hlenv].
  rewrite Evs1 in E2. rewrite Eps1 in Hmap2.
  assert (forall k, (k < Z.to_nat n2)%nat ->
            ~ (idx1 <= idx2 + k < idx1 + Z.to_nat n1)%nat) as Hout.
  { intros k Hk Hin. specialize (Hclr2 k Hk). rewrite Evb1 in Hclr2.
    rewrite set_all_lookup_in in Hclr2; [discriminate| |].
    - apply list_elem_of_In, in_seq. lia.
    - apply lookup_lt_Some in Hclr2. rewrite set_all_length in Hclr2. exact Hclr2. }
  assert ((idx1 + Z.to_nat n1 <= idx2)%nat \/ (idx2 + Z.to_nat n2 <= idx1)%nat) as Hidx.
  { destruct (Nat.le_gt_cases (idx1 + Z.to_nat n1) idx2) as [|Hlt]; [left; assumption|].
    right. destruct (Nat.le_gt_cases (idx2 + Z.to_nat n2) idx1) as [|Hgt]; [assumption|].
    exfalso. destruct (Nat.le_gt_cases idx1 idx2) as [Hle|Hlt2].
    - apply (Hout 0%nat); lia.
    - apply (Hout (idx1 - idx2)%nat); lia. }
  assert (a1 + n1 * PG_SIZE <= a2 \/ a2 + n2 * PG_SIZE <= a1) as Hdisj.
  { unfold PG_SIZE in *. destruct Hidx; [left | right]; lia. }
  split; [exact Hdisj|].
  assert (forall x, a1 <= x < a1 + n1 * PG_SIZE -> addr_v2p st2 x = addr_v2p st1 x) as Hkeep.
  { intros x Hx. rewrite !addr_v2p_eq. rewrite Hrest2; [reflexivity| |].
    - unfold PG_SIZE in *. lia.
    - unfold PG_SIZE in *. lia. }
  split; [exact Hkeep|].
  intros x1 x2 Hx1 Hx2. rewrite (Hkeep x1 Hx1).
  unfold PG_SIZE in *.
  pose proof (Z.div_mod a1 4096 ltac:(lia)) as Hd1. rewrite Hal1 in Hd1.
  pose proof (Z.div_mod a2 4096 ltac:(lia)) as Hd2. rewrite Hal2 in Hd2.
  pose proof (Z.div_mod x1 4096 ltac:(lia)) as Hdx1.
  pose proof (Z.mod_pos_bound x1 4096 ltac:(lia)) as Hmx1.
  pose proof (Z.div_mod x2 4096 ltac:(lia)) as Hdx2.
  pose proof (Z.mod_pos_bound x2 4096 ltac:(lia)) as Hmx2.
  set (k1 := Z.to_nat (x1 / 4096 - a1 / 4096)).
  set (k2 := Z.to_nat (x2 / 4096 - a2 / 4096)).
  assert (k1 < length js1)%nat as Hk1 by (subst k1; lia).
  assert (k2 < length js2)%nat as Hk2 by (subst k2; lia).
  destruct (lookup_lt_is_Some_2 js1 k1 Hk1) as [j1 Hj1].
  destruct (lookup_lt_is_Some_2 js2 k2 Hk2) as [j2 Hj2].
  rewrite (Hmap1 k1 j1 x1 Hj1) by (unfold PG_SIZE; subst k1; lia).
  rewrite (Hmap2 k2 j2 x2 Hj2) by (unfold PG_SIZE; subst k2; lia).
  assert (j1 ∈ js1) as Hin1 by (eapply list_elem_of_lookup_2; exact Hj1).
  assert (j2 ∈ js2) as Hin2 by (eapply list_elem_of_lookup_2; exact Hj2).
  assert (j1 <> j2) as Hne.
  { intros ->. specialize (Hjs2 j2 Hin2). rewrite Epb1 in Hjs2.
    rewrite set_all_lookup_in in Hjs2; [discriminate | exact Hin1 |].
    eapply lookup_lt_Some. apply Hjs1. exact Hin1. }
  pose proof (lookup_lt_Some _ _ _ (Hjs1 j1 Hin1)) as Hj1lt.
  destruct (frame_in_pool (pool_of pf) j1 st Hpools Hj1lt) as (_ & _ & Hf1 & _).
  unfold PG_SIZE in *.
  set (s := phy_addr_start (get_pool (pool_of pf) st)) in *.
  assert (s mod 4096 = 0) as Hs.
  { rewrite Z.mod_add in Hf1 by lia. exact Hf1. }
  pose proof (Z.div_mod s 4096 ltac:(lia)) as Hds. rewrite Hs in Hds.
  replace ((s + Z.of_nat j1 * 4096 + (x1 - (a1 + Z.of_nat k1 * 4096))) / 4096)
    with (s / 4096 + Z.of_nat j1).
  2:{ apply Z.div_unique with (r := x1 mod 4096); subst k1; lia. }
  replace ((s + Z.of_nat j2 * 4096 + (x2 - (a2 + Z.of_nat k2 * 4096))) / 4096)
    with (s / 4096 + Z.of_nat j2).
  2:{ apply Z.div_unique with (r := x2 mod 4096); subst k2; lia. }
  lia.
Qed.

Lemma malloc_page_disjoint_32M :
  exists st1 st2,
    malloc_page PF_KERNEL 2 state_32M = Ret 0xc0100000 st1
    /\ malloc_page PF_KERNEL 3 st1 = Ret 0xc0102000 st2
    /\ 0xc0100000 + 2 * PG_SIZE <= 0xc0102000.
Proof.
  assert (returned (malloc_page PF_KERNEL 2 state_32M) = Some 0xc0100000) as Hr1
    by (vm_compute; reflexivity).
  destruct (malloc_page PF_KERNEL 2 state_32M) as [a1 st1|] eqn:E1; [|discriminate Hr1].
  injection Hr1 as ->.
  assert (returned ((x <~ malloc_page PF_KERNEL 2 ;; malloc_page PF_KERNEL 3) state_32M)
          = Some 0xc0102000) as Hr2 by (vm_compute; reflexivity).
  rewrite (bind_eq _ _ _ _ _ E1) in Hr2.
  destruct (malloc_page PF_KERNEL 3 st1) as [a2 st2|] eqn:E2; [|discriminate Hr2].
  injection Hr2 as ->.
  exists st1, st2. split; [reflexivity|]. split; [exact E2|].
  destruct (malloc_page_disjoint PF_KERNEL 2 3 0xc0100000 0xc0102000 state_32M st1 st2
              pools_ok_state_32M vaddr_ok_state_32M E1 ltac:(discriminate)
              E2 ltac:(discriminate)) as [[H|H] _]; [exact H|].
  exfalso. unfold PG_SIZE in H. lia.
Defined.

(** ** Pages given back, and pages that are not *)

Lemma restore_bitmaps_page_rel st pt st1 :
  page_rel st st1 -> restore_bitmaps st pt st1 = set_pt pt st.
Proof. intros (kb & ub & kv & uv & pt' & ->). reflexivity. Qed.

Lemma bitmaps_set_pt pt st : bitmaps (set_pt pt st) = bitmaps st.
Proof. state_cases st. reflexivity. Qed.

(** X19: mfree_page after malloc_page.  Under the layout of mem_init and
    page tables that exist, mfree_page of the pages a successful
    malloc_page has just returned, for the same count, returns; the
    physical and the virtual bitmaps are as they were before the
    malloc_page, and so is everything else but the words of the page
    tables. *)
Theorem mfree_page_after_malloc_page (pf : pool_flags) (pg_cnt a : Z) (st st1 : state)
    (Hpools : pools_ok st) (Hvaddr : vaddr_ok pf st)
    (Hmalloc : malloc_page pf pg_cnt st = Ret a st1) (Ha : a <> NULL) :
  exists pt,
    mfree_page pf a pg_cnt st1 = Ret tt (set_pt pt st)
    /\ bitmaps (set_pt pt st) = bitmaps st.
Proof.
  destruct (page_roundtrip pf pg_cnt st a st1 st1 Hpools Hvaddr Hmalloc Ha (heap_rel_refl st1))
    as (pt & Hfree).
  exists pt. rewrite Hfree.
  rewrite (restore_bitmaps_page_rel _ _ _ (malloc_page_page_rel _ _ _ _ _ Hmalloc)).
  split; [reflexivity | apply bitmaps_set_pt].
Qed.

Lemma mfree_page_after_malloc_page_32M :
  exists st2,
    (a <~ malloc_page PF_KERNEL 3 ;; mfree_page PF_KERNEL a 3) state_32M = Ret tt st2
    /\ bitmaps st2 = bitmaps state_32M.
Proof.
  assert (returned (malloc_page PF_KERNEL 3 state_32M) = Some 0xc0100000) as Hr
    by (vm_compute; reflexivity).
  destruct (malloc_page PF_KERNEL 3 state_32M) as [a st1|] eqn:E; [|discriminate Hr].
  injection Hr as ->.
  rewrite (bind_eq _ _ _ _ _ E).
  destruct (mfree_page_after_malloc_page PF_KERNEL 3 0xc0100000 state_32M st1
              pools_ok_state_32M vaddr_ok_state_32M E ltac:(discriminate)) as (pt & H1 & H2).
  exists (set_pt pt state_32M). split; assumption.
Defined.

Lemma vaddr_ok_set_pbits pf m_pool l st : vaddr_ok pf st -> vaddr_ok pf (set_pbits m_pool l st).
Proof. intros [H1 H2 H3 H4]. destruct pf, m_pool; split; assumption. Qed.

(** X20: malloc_page rolls nothing back.  When the virtual pool has a
    free run but the physical pool is exhausted, malloc_page returns NULL
    and leaves the state vaddr_get produced: the pages of the run stay
    reserved in the virtual bitmap although nothing was allocated. *)
Theorem malloc_page_no_rollback (pf : pool_flags) (pg_cnt a : Z) (st s1 : state)
    (Hvaddr : vaddr_ok pf st) (Hcnt : 0 < pg_cnt < 3840)
    (Hget : vaddr_get pf pg_cnt st = Ret a s1) (Ha : a <> NULL)
    (Hfull : forall j b, pbits (pool_of pf) st !! j = Some b -> b = true) :
  malloc_page pf pg_cnt st = Ret NULL s1
  /\ exists idx : nat,
       (forall k, (k < Z.to_nat pg_cnt)%nat ->
          vbits pf st !! (idx + k)%nat = Some false
          /\ vbits pf s1 !! (idx + k)%nat = Some true)
       /\ a = vaddr_start (get_vaddr pf st) + Z.of_nat idx * PG_SIZE.
Proof.
  destruct (vaddr_ok_range pf st Hvaddr) as [Hlo Hlen].
  assert (Hget' := Hget).
  apply vaddr_get_Ret in Hget' as (idx & Hfit & Hclr & Ea & Es1); [|lia|lia|exact Ha].
  split.
  - unfold malloc_page.
    replace ((0 <? pg_cnt) && (pg_cnt <? 3840)) with true
      by (symmetry; apply andb_true_iff; split; apply Z.ltb_lt; lia).
    unfold bind at 1. cbn [ASSERT]. rewrite (bind_eq _ _ _ _ _ Hget).
    rewrite (proj2 (Z.eqb_neq _ _) Ha).
    destruct (Z.to_nat pg_cnt) as [|m] eqn:Em; [lia|].
    cbn [malloc_page_loop]. unfold bind at 1. unfold bind at 1.
    rewrite palloc_full.
    + rewrite Z.eqb_refl. reflexivity.
    + rewrite Es1, pbits_set_vbits. exact Hfull.
  - exists idx. split.
    + intros k Hk. split; [apply Hclr; exact Hk|].
      rewrite Es1, vbits_set_vbits. apply set_all_lookup_in.
      * apply list_elem_of_In, in_seq. lia.
      * lia.
    + rewrite Ea. destruct Hvaddr as [_ _ Htop _]. unfold PG_SIZE in *.
      apply wrap32_small. lia.
Qed.

(** A machine with 64 KiB above the reserved memory whose eight kernel
    frames are all in use, while no virtual page is reserved. *)
Definition state_no_frames : state := set_pbits KERNEL_POOL (replicate 8 true) state_64K.

Lemma malloc_page_no_rollback_64K :
  vaddr_ok PF_KERNEL state_no_frames
  /\ exists s1, malloc_page PF_KERNEL 2 state_no_frames = Ret NULL s1
                 /\ vbits PF_KERNEL state_no_frames !! 0%nat = Some false
                 /\ vbits PF_KERNEL s1 !! 0%nat = Some true.
Proof.
  assert (vaddr_ok PF_KERNEL state_no_frames) as Hok.
  { apply vaddr_ok_set_pbits. apply vaddr_ok_mem_init. exact kernel_pdes_present_boot. }
  split; [exact Hok|].
  assert (returned (vaddr_get PF_KERNEL 2 state_no_frames) = Some 0xc0100000) as Hr
    by (vm_compute; reflexivity).
  destruct (vaddr_get PF_KERNEL 2 state_no_frames) as [a s1|] eqn:E; [|discriminate Hr].
  injection Hr as ->. exists s1.
  assert (forall j b, pbits (pool_of PF_KERNEL) state_no_frames !! j = Some b -> b = true)
    as Hfull.
  { intros j b Hj. change (pbits (pool_of PF_KERNEL) state_no_frames)
      with (replicate 8 true) in Hj.
    apply lookup_replicate in Hj as [-> _]. reflexivity. }
  destruct (malloc_page_no_rollback PF_KERNEL 2 0xc0100000 state_no_frames s1 Hok
              ltac:(lia) E ltac:(discriminate) Hfull) as (Hm & idx & Hbits & Ea).
  split; [exact Hm|].
  assert (idx = 0%nat) as ->.
  { change (vaddr_start (get_vaddr PF_KERNEL state_no_frames)) with 0xc0100000 in Ea.
    unfold PG_SIZE in Ea. lia. }
  exact (Hbits 0%nat ltac:(lia)).
Defined.

(** * The locks of the two pools *)

(** Both locks are as they were. *)
Definition lock_rel (st st' : state) : Prop :=
  lock (kernel_pool st') = lock (kernel_pool st)
  /\ lock (user_pool st') = lock (user_pool st).

#[global] Instance lock_rel_preorder : PreOrder lock_rel.
Proof.
  split.
  - intros st. split; reflexivity.
  - intros a b c [H1 H2] [H3 H4]. split; congruence.
Qed.

(** The lock of [m_pool] went through [f]; the other lock is as it was. *)
Definition lock_fn (m_pool : pool_id) (f : nat -> nat) (st st' : state) : Prop :=
  lock (get_pool m_pool st') = f (lock (get_pool m_pool st))
  /\ forall m_pool', m_pool' <> m_pool ->
       lock (get_pool m_pool' st') = lock (get_pool m_pool' st).

Lemma lock_rel_lock_fn m_pool st st' : lock_rel st st' <-> lock_fn m_pool (fun n => n) st st'.
Proof.
  split.
  - intros [H1 H2]. split; [destruct m_pool; assumption|].
    intros [] Hne; destruct m_pool; try congruence; assumption.
  - intros [H1 H2]. destruct m_pool; split; try exact H1.
    + apply (H2 USER_POOL). discriminate.
    + apply (H2 KERNEL_POOL). discriminate.
Qed.

Lemma lock_fn_frame {A} m_pool (m : M A) :
  respects lock_rel m -> respects (lock_fn m_pool (fun n => n)) m.
Proof. intros H st a st' Hm. apply lock_rel_lock_fn. exact (H st a st' Hm). Qed.

Lemma lock_fn_balanced {A} m_pool (m : M A) :
  respects (lock_fn m_pool (fun n => n)) m -> respects lock_rel m.
Proof. intros H st a st' Hm. apply (lock_rel_lock_fn m_pool). exact (H st a st' Hm). Qed.

Lemma lock_fn_bind {A B} m_pool (f g : nat -> nat) (m : M A) (k : A -> M B) :
  respects (lock_fn m_pool f) m -> (forall a, respects (lock_fn m_pool g) (k a)) ->
  respects (lock_fn m_pool (fun n => g (f n))) (bind m k).
Proof.
  intros Hm Hk st b st' H.
  apply bind_Ret in H as (a & s1 & H1 & H2).
  destruct (Hm _ _ _ H1) as [E1 F1]. destruct (Hk a _ _ _ H2) as [E2 F2].
  split; [rewrite E2, E1; reflexivity|].
  intros mp Hne. rewrite (F2 mp Hne), (F1 mp Hne). reflexivity.
Qed.

Lemma lock_fn_acquire m_pool : respects (lock_fn m_pool S) (lock_acquire m_pool).
Proof.
  intros st a st' H. apply modify_Ret in H. subst st'.
  split; [destruct m_pool; reflexivity|].
  intros [] Hne; destruct m_pool; try congruence; reflexivity.
Qed.

Lemma lock_fn_release m_pool : respects (lock_fn m_pool Nat.pred) (lock_release m_pool).
Proof.
  intros st a st' H. apply modify_Ret in H. subst st'.
  split; [destruct m_pool; reflexivity|].
  intros [] Hne; destruct m_pool; try congruence; reflexivity.
Qed.

Lemma lock_fn_PANIC {A} m_pool f : respects (lock_fn m_pool f) (@PANIC A).
Proof. intros st a st' H. discriminate. Qed.

Lemma page_rel_lock_rel st st' : page_rel st st' -> lock_rel st st'.
Proof.
  intros H. destruct (page_rel_frame _ _ H) as (_ & _ & _ & _ & _ & _ & H1 & H2 & _).
  split; assumption.
Qed.

Lemma heap_op_lock_rel f :
  (forall st, lock (kernel_pool (f st)) = lock (kernel_pool st)
              /\ lock (user_pool (f st)) = lock (user_pool st)) ->
  respects lock_rel (modify f).
Proof. intros H st a st' Hm. apply modify_Ret in Hm. subst st'. apply H. Qed.

Lemma malloc_page_lock_rel pf n : respects lock_rel (malloc_page pf n).
Proof. eapply respects_weaken; [exact page_rel_lock_rel | apply malloc_page_page_rel]. Qed.

Lemma mfree_page_lock_rel pf v n : respects lock_rel (mfree_page pf v n).
Proof. eapply respects_weaken; [exact page_rel_lock_rel | apply mfree_page_page_rel]. Qed.

Lemma palloc_lock_rel m_pool : respects lock_rel (palloc m_pool).
Proof.
  eapply respects_weaken; [|apply palloc_phys_rel].
  intros st st' H. apply page_rel_lock_rel, phys_rel_page_rel, H.
Qed.

Lemma page_table_add_lock_rel v p : respects lock_rel (page_table_add v p).
Proof.
  eapply respects_weaken; [|apply page_table_add_phys_rel].
  intros st st' H. apply page_rel_lock_rel, phys_rel_page_rel, H.
Qed.

Lemma memset0_lock_rel dst size : respects lock_rel (memset0 dst size).
Proof. apply heap_op_lock_rel. intros st. split; reflexivity. Qed.

Lemma write_arena_lock_rel a h : respects lock_rel (write_arena a h).
Proof. apply heap_op_lock_rel. intros st. split; reflexivity. Qed.

Lemma write_desc_lock_rel dp d : respects lock_rel (write_desc dp d).
Proof. apply heap_op_lock_rel. intros st. destruct dp as [[] i]; split; reflexivity. Qed.

Lemma intr_set_status_lock_rel b : respects lock_rel (intr_set_status b).
Proof. apply heap_op_lock_rel. intros st. split; reflexivity. Qed.

Lemma intr_disable_lock_rel : respects lock_rel intr_disable.
Proof. intros st a st' H. injection H as _ <-. split; reflexivity. Qed.

Lemma read_desc_lock_rel dp : respects lock_rel (read_desc dp).
Proof. intros st a st' H. apply read_desc_Ret in H as [_ ->]. reflexivity. Qed.

Lemma arena_desc_lock_rel a : respects lock_rel (arena_desc a).
Proof.
  intros st dp st' H. unfold arena_desc, bind, get in H.
  destruct (desc (arenas st a)); [|discriminate]. injection H as _ <-. reflexivity.
Qed.

Ltac lock_frame :=
  repeat first
    [ apply malloc_page_lock_rel | apply mfree_page_lock_rel | apply palloc_lock_rel
    | apply page_table_add_lock_rel | apply memset0_lock_rel | apply write_arena_lock_rel
    | apply write_desc_lock_rel | apply intr_set_status_lock_rel | apply intr_disable_lock_rel
    | apply read_desc_lock_rel | apply arena_desc_lock_rel
    | respects_step ].

Lemma arena2block_lock_rel a idx : respects lock_rel (arena2block a idx).
Proof. unfold arena2block. lock_frame. Qed.

Lemma arena_fill_lock_rel a n : forall idx, respects lock_rel (arena_fill a idx n).
Proof.
  induction n as [|n IH]; intros idx; cbn [arena_fill].
  - lock_frame.
  - apply respects_bind; [typeclasses eauto | apply arena2block_lock_rel | intro].
    lock_frame. apply IH.
Qed.

Lemma arena_unlink_lock_rel a n : forall idx, respects lock_rel (arena_unlink a idx n).
Proof.
  induction n as [|n IH]; intros idx; cbn [arena_unlink].
  - lock_frame.
  - apply respects_bind; [typeclasses eauto | apply arena2block_lock_rel | intro].
    lock_frame. apply IH.
Qed.

(** One step of a call that holds the lock: the first action acquires
    it, releases it, or leaves it alone. *)
Ltac lock_step :=
  lazymatch goal with
  | |- respects (lock_fn ?mp _) (bind (lock_acquire ?mp) _) =>
      refine (lock_fn_bind mp S Nat.pred _ _ (lock_fn_acquire mp) _); intro
  | |- respects (lock_fn ?mp _) (bind (lock_release ?mp) _) =>
      refine (lock_fn_bind mp Nat.pred (fun n => n) _ _ (lock_fn_release mp) _); intro
  | |- respects (lock_fn ?mp _) (lock_release ?mp) => exact (lock_fn_release mp)
  | |- respects (lock_fn ?mp ?g) (bind _ _) =>
      refine (lock_fn_bind mp (fun n => n) g _ _ _ _);
      [apply lock_fn_frame; lock_frame | intro]
  | |- respects (lock_fn _ _) PANIC => apply lock_fn_PANIC
  | |- respects (lock_fn _ _) (if ?b then _ else _) => destruct b
  | |- respects (lock_fn _ _) (match ?x with _ => _ end) => destruct x
  | |- respects (lock_fn ?mp _) _ => apply lock_fn_frame; lock_frame
  end.

Lemma sys_malloc_take_lock_fn dp m_pool :
  respects (lock_fn m_pool Nat.pred) (sys_malloc_take dp m_pool).
Proof. unfold sys_malloc_take. repeat lock_step. Qed.

Lemma sys_malloc_in_lock_rel pf psize m_pool da size :
  respects lock_rel (sys_malloc_in pf psize m_pool da size).
Proof.
  apply (lock_fn_balanced m_pool).
  unfold sys_malloc_in, sys_malloc_large, sys_malloc_small.
  repeat first [apply sys_malloc_take_lock_fn | apply arena_fill_lock_rel | lock_step].
Qed.

Lemma sys_free_in_lock_rel pf m_pool ptr : respects lock_rel (sys_free_in pf m_pool ptr).
Proof.
  apply (lock_fn_balanced m_pool).
  unfold sys_free_in. cbv zeta.
  repeat first [apply arena_unlink_lock_rel | lock_step].
Qed.

(** X21: the locks.  sys_malloc, sys_free, get_kernel_pages,
    get_user_pages and get_a_page_without_opvaddrbitmap, on every path on
    which they return, leave the locks of both pools as they found them.
    get_a_page does so when it returns the page; when palloc fails it
    returns NULL with the lock of its pool acquired once more than it was
    released. *)
Theorem lock_discipline (st : state) :
  (forall size p st', sys_malloc size st = Ret p st' -> lock_rel st st')
  /\ (forall ptr u st', sys_free ptr st = Ret u st' -> lock_rel st st')
  /\ (forall pg_cnt a st', get_kernel_pages pg_cnt st = Ret a st' -> lock_rel st st')
  /\ (forall pg_cnt a st', get_user_pages pg_cnt st = Ret a st' -> lock_rel st st')
  /\ (forall pf vaddr a st',
        get_a_page_without_opvaddrbitmap pf vaddr st = Ret a st' -> lock_rel st st')
  /\ (forall pf vaddr a st',
        get_a_page pf vaddr st = Ret a st' ->
        (a = vaddr /\ lock_rel st st')
        \/ (a = NULL /\ lock_fn (pool_of pf) S st st')).
Proof.
  split; [|split; [|split; [|split; [|split]]]].
  - intros size p st' H. revert H. apply (respects_bind lock_rel); [|intro].
    + apply respects_get. typeclasses eauto.
    + destruct (_ =? _); apply sys_malloc_in_lock_rel.
  - intros ptr u st' H. revert H. unfold sys_free.
    apply (respects_bind lock_rel); [apply respects_ASSERT; typeclasses eauto | intro].
    destruct (negb _); [|apply respects_ret; typeclasses eauto].
    apply (respects_bind lock_rel); [apply respects_get; typeclasses eauto | intro].
    destruct (_ =? _); [|apply sys_free_in_lock_rel].
    apply (respects_bind lock_rel); [apply respects_ASSERT; typeclasses eauto | intro].
    apply sys_free_in_lock_rel.
  - intros pg_cnt a st' H. revert H. apply (lock_fn_balanced KERNEL_POOL).
    unfold get_kernel_pages. repeat lock_step.
  - intros pg_cnt a st' H. revert H. apply (lock_fn_balanced USER_POOL).
    unfold get_user_pages. repeat lock_step.
  - intros pf vaddr a st' H. revert H. apply (lock_fn_balanced (pool_of pf)).
    unfold get_a_page_without_opvaddrbitmap. cbv zeta. repeat lock_step.
  - intros pf vaddr a st' H. unfold get_a_page in H. cbv zeta in H.
    apply bind_Ret in H as (u0 & s0 & Hacq & H).
    apply lock_fn_acquire in Hacq.
    apply bind_Ret in H as (s1 & s1' & Hg & H). apply get_Ret in Hg as [-> ->].
    apply bind_Ret in H as (u1 & s2 & Hbit & H).
    assert (lock_rel s0 s2) as Hbit'.
    { destruct (negb (pgdir (cur s0) =? NULL) && pool_flags_eqb pf PF_USER).
      { apply bind_Ret in Hbit as (u & s & Ha & Hm). apply ASSERT_Ret in Ha as [_ ->].
        apply modify_Ret in Hm. subst s2. split; reflexivity. }
      destruct ((pgdir (cur s0) =? NULL) && pool_flags_eqb pf PF_KERNEL); [|discriminate Hbit].
      apply bind_Ret in Hbit as (u & s & Ha & Hm). apply ASSERT_Ret in Ha as [_ ->].
      apply modify_Ret in Hm. subst s2. split; reflexivity. }
    apply bind_Ret in H as (p & s3 & Hpalloc & H).
    apply palloc_lock_rel in Hpalloc.
    apply (lock_rel_lock_fn (pool_of pf)) in Hbit', Hpalloc.
    destruct Hacq as [A1 A2], Hbit' as [B1 B2], Hpalloc as [C1 C2].
    destruct (p =? NULL) eqn:Ep.
    + right. injection H as <- <-. split; [reflexivity|].
      split; [rewrite C1, B1, A1; reflexivity|].
      intros mp Hne. rewrite (C2 mp Hne), (B2 mp Hne), (A2 mp Hne). reflexivity.
    + left.
      apply bind_Ret in H as (u2 & s4 & Hadd & H). apply page_table_add_lock_rel in Hadd.
      apply bind_Ret in H as (u3 & s5 & Hrel & H). apply lock_fn_release in Hrel.
      injection H as <- <-. split; [reflexivity|].
      apply (lock_rel_lock_fn (pool_of pf)).
      apply (lock_rel_lock_fn (pool_of pf)) in Hadd.
      destruct Hadd as [D1 D2], Hrel as [E1 E2].
      split; [rewrite E1, D1, C1, B1, A1; reflexivity|].
      intros mp Hne. rewrite (E2 mp Hne), (D2 mp Hne), (C2 mp Hne), (B2 mp Hne), (A2 mp Hne).
      reflexivity.
Qed.

(** * The page-level entry points *)

Lemma unlocked_locked m_pool st : unlocked m_pool (locked m_pool st) = st.
Proof. state_cases st. destruct m_pool; reflexivity. Qed.

(** get_kernel_pages for PF_KERNEL, get_user_pages for PF_USER. *)
Definition get_pages (pf : pool_flags) : Z -> M Z :=
  match pf with
  | PF_KERNEL => get_kernel_pages
  | PF_USER => get_user_pages
  end.

(** X22: get_kernel_pages and get_user_pages.  When one of them returns,
    it returns what malloc_page returned under the lock; pages that were
    allocated are filled with zeros, and the arena headers in them are
    cleared; bitmaps and page tables are as malloc_page left them. *)
Theorem get_pages_zeroed (pf : pool_flags) (pg_cnt a : Z) (st st' : state)
    (Hget : get_pages pf pg_cnt st = Ret a st') :
  exists s1,
    malloc_page pf pg_cnt (locked (pool_of pf) st) = Ret a s1
    /\ 0 < pg_cnt < 3840
    /\ bitmaps st' = bitmaps s1 /\ ptmem st' = ptmem s1
    /\ (a = NULL -> st' = unlocked (pool_of pf) s1)
    /\ (a <> NULL ->
        forall x, a <= x < a + pg_cnt * PG_SIZE ->
          vmem st' x = 0 /\ arenas st' x = zero_arena).
Proof.
  assert (forall mp,
            (lock_acquire mp ;;;
             vaddr <~ malloc_page pf pg_cnt ;;
             (if vaddr =? NULL then ret tt else memset0 vaddr (wrap32 (pg_cnt * PG_SIZE))) ;;;
             lock_release mp ;;; ret vaddr) st = Ret a st' ->
            exists s1,
              malloc_page pf pg_cnt (locked mp st) = Ret a s1
              /\ 0 < pg_cnt < 3840
              /\ bitmaps st' = bitmaps s1 /\ ptmem st' = ptmem s1
              /\ (a = NULL -> st' = unlocked mp s1)
              /\ (a <> NULL ->
                  forall x, a <= x < a + pg_cnt * PG_SIZE ->
                    vmem st' x = 0 /\ arenas st' x = zero_arena)) as Hgen.
  { intros mp H.
    apply bind_Ret in H as (u0 & s0 & Hacq & H). apply modify_Ret in Hacq. subst s0.
    apply bind_Ret in H as (v & s1 & Hm & H).
    pose proof (malloc_page_returns _ _ _ _ _ Hm) as Hcnt.
    apply bind_Ret in H as (u1 & s2 & Hz & H).
    apply bind_Ret in H as (u2 & s3 & Hrel & H). apply modify_Ret in Hrel. subst s3.
    injection H as <- <-. exists s1. split; [exact Hm|]. split; [exact Hcnt|].
    destruct (v =? NULL) eqn:Ev.
    - apply ret_Ret in Hz as [_ ->]. apply Z.eqb_eq in Ev.
      split; [apply bitmaps_unlocked|]. split; [destruct mp; reflexivity|].
      split; [reflexivity | congruence].
    - apply modify_Ret in Hz. subst s2. apply Z.eqb_neq in Ev.
      split; [rewrite bitmaps_unlocked; reflexivity|].
      split; [destruct mp; reflexivity|]. split; [congruence|].
      intros _ x Hx. unfold PG_SIZE in *. rewrite wrap32_small by lia.
      assert ((v <=? x) && (x <? v + pg_cnt * 4096) = true) as E
        by (apply andb_true_iff; split; [apply Z.leb_le | apply Z.ltb_lt]; lia).
      split.
      + transitivity (if (v <=? x) && (x <? v + pg_cnt * 4096) then Byte 0 else vmem s1 x);
          [destruct mp; reflexivity | rewrite E; reflexivity].
      + transitivity (if (v <=? x) && (x <? v + pg_cnt * 4096) then zero_arena
                      else arenas s1 x);
          [destruct mp; reflexivity | rewrite E; reflexivity]. }
  destruct pf; apply Hgen; exact Hget.
Qed.

Lemma get_pages_zeroed_32M :
  exists st', get_kernel_pages 2 state_32M = Ret 0xc0100000 st'
              /\ vmem st' 0xc0101fff = 0.
Proof.
  assert (returned (get_kernel_pages 2 state_32M) = Some 0xc0100000) as Hr
    by (vm_compute; reflexivity).
  destruct (get_kernel_pages 2 state_32M) as [a st'|] eqn:E; [|discriminate Hr].
  injection Hr as ->. exists st'. split; [reflexivity|].
  destruct (get_pages_zeroed PF_KERNEL 2 0xc0100000 state_32M st' E)
    as (s1 & _ & _ & _ & _ & _ & H).
  apply (H ltac:(discriminate) 0xc0101fff). unfold PG_SIZE. lia.
Defined.

Lemma same_page_ptrs x v :
  0 <= x < 2 ^ 32 -> 0 <= v < 2 ^ 32 -> x / PG_SIZE = v / PG_SIZE ->
  pte_ptr x = pte_ptr v /\ pde_ptr x = pde_ptr v.
Proof.
  intros Hx Hv E. rewrite !pte_ptr_eq, !pde_ptr_eq by assumption.
  rewrite E. split; [reflexivity|].
  change (2 ^ 22) with (4096 * 1024). rewrite <- !Z.div_div by lia.
  unfold PG_SIZE in E. rewrite E. reflexivity.
Qed.

(** A frame of a pool mapped at [vaddr]: what addr_v2p gives afterwards. *)
Lemma mapped_frame vaddr p st u st' :
  0 <= vaddr < 0xffc00000 -> 0 <= p < 2 ^ 32 -> p mod PG_SIZE = 0 ->
  page_table_add vaddr p st = Ret u st' ->
  forall x, 0 <= x < 2 ^ 32 -> x / PG_SIZE = vaddr / PG_SIZE ->
    addr_v2p st' x = p + x mod PG_SIZE.
Proof.
  intros Hv Hp Hal Hadd x Hx Hpage.
  destruct (page_table_add_ptmem _ _ _ _ _ Hv Hadd) as (Hpte & _ & _).
  destruct (same_page_ptrs x vaddr Hx ltac:(lia) Hpage) as [Ex _].
  rewrite addr_v2p_eq, Ex, Hpte, frame_of_pte_of by assumption. reflexivity.
Qed.

Lemma page_table_add_vbits vaddr p st u st' pf :
  page_table_add vaddr p st = Ret u st' -> vbits pf st' = vbits pf st.
Proof.
  intros H. apply page_table_add_phys_rel in H. destruct H as (kb & ub & pt & ->).
  destruct pf; reflexivity.
Qed.

(** X23: get_a_page_without_opvaddrbitmap.  Under the pool layout of
    mem_init, for an address below 0xffc00000: when palloc fails the call
    returns NULL and leaves the state exactly as it was; otherwise it
    returns the address, having taken a free frame of the pool of [pf]
    and mapped the page of the address to it.  In both cases no virtual
    bitmap is touched. *)
Theorem get_a_page_without_opvaddrbitmap_effect (pf : pool_flags) (vaddr a : Z)
    (st st' : state)
    (Hpools : pools_ok st) (Hv : 0 <= vaddr < 0xffc00000)
    (Hget : get_a_page_without_opvaddrbitmap pf vaddr st = Ret a st') :
  vbits PF_KERNEL st' = vbits PF_KERNEL st
  /\ vbits PF_USER st' = vbits PF_USER st
  /\ ((a = NULL /\ st' = st
       /\ forall j b, pbits (pool_of pf) st !! j = Some b -> b = true)
      \/ (a = vaddr
          /\ exists j : nat,
               pbits (pool_of pf) st !! j = Some false
               /\ forall x, 0 <= x < 2 ^ 32 -> x / PG_SIZE = vaddr / PG_SIZE ->
                    addr_v2p st' x
                    = phy_addr_start (get_pool (pool_of pf) st) + Z.of_nat j * PG_SIZE
                      + x mod PG_SIZE)).
Proof.
  unfold get_a_page_without_opvaddrbitmap in Hget. cbv zeta in Hget.
  apply bind_Ret in Hget as (u0 & s0 & Hacq & H). apply modify_Ret in Hacq. subst s0.
  set (mp := pool_of pf) in *. set (s0 := locked mp st) in *.
  assert (pools_ok s0) as Hok0.
  { eapply heap_rel_pools_ok; [|exact Hpools]. subst s0. auto with heap. }
  assert (pbits mp s0 = pbits mp st) as Epb by (subst s0; destruct mp; reflexivity).
  assert (phy_addr_start (get_pool mp s0) = phy_addr_start (get_pool mp st)) as Eps
    by (subst s0; destruct mp; reflexivity).
  apply bind_Ret in H as (p & s1 & Hpalloc & H).
  destruct (p =? NULL) eqn:Ep.
  - apply Z.eqb_eq in Ep. subst p.
    apply bind_Ret in H as (u1 & s2 & Hrel & H). apply modify_Ret in Hrel. subst s2.
    injection H as <- <-.
    assert (returned (palloc mp s0) = Some NULL) as Hr by (rewrite Hpalloc; reflexivity).
    pose proof (palloc_NULL_exhausted mp s0 Hok0 Hr) as Hfull.
    rewrite (palloc_full _ _ Hfull) in Hpalloc. injection Hpalloc as <-.
    subst s0. rewrite unlocked_locked.
    split; [reflexivity|]. split; [reflexivity|]. left.
    split; [reflexivity|]. split; [reflexivity|].
    rewrite <- Epb. exact Hfull.
  - apply Z.eqb_neq in Ep.
    destruct (palloc_Ret_frame mp s0 s1 p Hok0 Hpalloc Ep)
      as (j & Hj & Ep' & Es1 & Hal & Hr & _ & _).
    apply bind_Ret in H as (u1 & s2 & Hadd & H).
    apply bind_Ret in H as (u2 & s3 & Hrel & H). apply modify_Ret in Hrel. subst s3.
    injection H as <- <-.
    assert (forall pf', vbits pf' (unlocked mp s2) = vbits pf' st) as Hvb.
    { intros pf'. transitivity (vbits pf' s2); [destruct mp, pf'; reflexivity|].
      rewrite (page_table_add_vbits _ _ _ _ _ pf' Hadd), Es1.
      subst s0. destruct mp, pf'; reflexivity. }
    split; [apply Hvb|]. split; [apply Hvb|].
    right. split; [reflexivity|].
    exists j. rewrite Epb in Hj. split; [exact Hj|].
    intros x Hx Hpage. rewrite <- Eps, <- Ep'.
    transitivity (addr_v2p s2 x); [destruct mp; reflexivity|].
    apply (mapped_frame vaddr p s1 u1 s2 Hv ltac:(lia) Hal Hadd x Hx Hpage).
Qed.

Lemma get_a_page_without_opvaddrbitmap_effect_32M :
  exists st', get_a_page_without_opvaddrbitmap PF_KERNEL 0xc0105000 state_32M
              = Ret 0xc0105000 st'
              /\ vbits PF_KERNEL st' = vbits PF_KERNEL state_32M.
Proof.
  assert (returned (get_a_page_without_opvaddrbitmap PF_KERNEL 0xc0105000 state_32M)
          = Some 0xc0105000) as Hr by (vm_compute; reflexivity).
  destruct (get_a_page_without_opvaddrbitmap PF_KERNEL 0xc0105000 state_32M)
    as [a st'|] eqn:E; [|discriminate Hr].
  injection Hr as ->. exists st'. split; [reflexivity|].
  destruct (get_a_page_without_opvaddrbitmap_effect PF_KERNEL 0xc0105000 0xc0105000
              state_32M st' pools_ok_state_32M ltac:(lia) E) as (Hk & _).
  exact Hk.
Defined.



(** * Blocks and arenas *)

(** The state after one sys_malloc(50) on the 32 MiB machine: one arena
    of the 64-byte class, its first block handed out. *)
Definition state_one_block : state :=
  match sys_malloc 50 state_32M with
  | Ret _ st => st
  | Halt => state_32M
  end.

(** X25: arena2block and block2arena.  In an arena of a descriptor whose
    blocks fit in the page, arena2block gives for every index below
    blocks_per_arena a block that lies in the page of the arena behind
    its header; block2arena of the block is the arena; and the blocks of
    two indices do not overlap. *)
Theorem arena_blocks_layout (a idx idx' : Z) (da : desc_array) (i : nat)
    (d : mem_block_desc) (st : state)
    (Ha : 0 <= a) (Hal : a mod PG_SIZE = 0) (Htop : a + PG_SIZE <= 2 ^ 32)
    (Hdesc : desc (arenas st a) = Some (da, i))
    (Hd : get_descs da st !! i = Some d) (Hok : desc_ok d)
    (Hidx : 0 <= idx < blocks_per_arena d) (Hidx' : 0 <= idx' < blocks_per_arena d) :
  let b := a + sizeof_arena + idx * block_size d in
  let b' := a + sizeof_arena + idx' * block_size d in
  arena2block a idx st = Ret b st
  /\ arena2block a idx' st = Ret b' st
  /\ block2arena b = a
  /\ a + sizeof_arena <= b /\ b + block_size d <= a + PG_SIZE
  /\ (idx < idx' -> b + block_size d <= b')
  /\ (b = b' -> idx = idx').
Proof.
  intros b b'. destruct Hok as (Hbs & Hbpa & Hfit).
  unfold sizeof_arena, PG_SIZE in *.
  assert (forall k, 0 <= k < blocks_per_arena d ->
            0 <= k * block_size d /\ (k + 1) * block_size d <= blocks_per_arena d * block_size d)
    as Hk by (intros k Hk; nia).
  destruct (Hk idx Hidx) as [L1 U1]. destruct (Hk idx' Hidx') as [L2 U2].
  split; [|split; [|split; [|split; [|split; [|split]]]]].
  - rewrite (arena2block_eq a idx da i d st Hdesc Hd). unfold sizeof_arena.
    rewrite wrap32_small by lia. reflexivity.
  - rewrite (arena2block_eq a idx' da i d st Hdesc Hd). unfold sizeof_arena.
    rewrite wrap32_small by lia. reflexivity.
  - subst b. replace (a + 12 + idx * block_size d) with (a + (12 + idx * block_size d)) by lia.
    apply block2arena_offset; unfold PG_SIZE; lia.
  - subst b. lia.
  - subst b. lia.
  - intros Hlt. subst b b'. nia.
  - intros E. subst b b'. nia.
Qed.

Lemma arena_blocks_layout_64 :
  exists b, arena2block 0xc0100000 1 state_one_block = Ret b state_one_block
            /\ b = 0xc010004c /\ block2arena b = 0xc0100000.
Proof.
  assert (desc (arenas state_one_block 0xc0100000) = Some (K_BLOCK_DESCS, 2%nat)) as Hdesc
    by (vm_compute; reflexivity).
  assert (match get_descs K_BLOCK_DESCS state_one_block !! 2%nat with
          | Some d => block_size d = 64 /\ blocks_per_arena d = 63
          | None => False
          end) as Hd by (vm_compute; split; reflexivity).
  destruct (get_descs K_BLOCK_DESCS state_one_block !! 2%nat) as [d|] eqn:Ed; [|contradiction].
  destruct Hd as [Hbs Hbpa].
  assert (desc_ok d) as Hok by (unfold desc_ok, sizeof_arena, PG_SIZE; rewrite Hbs, Hbpa; lia).
  destruct (arena_blocks_layout 0xc0100000 1 1 K_BLOCK_DESCS 2 d state_one_block
              ltac:(lia) eq_refl ltac:(unfold PG_SIZE; lia) Hdesc Ed Hok
              ltac:(lia) ltac:(lia)) as (H1 & _ & H3 & _).
  rewrite Hbs in H1, H3.
  exists (0xc0100000 + sizeof_arena + 1 * 64). split; [exact H1|]. split; [reflexivity|].
  exact H3.
Defined.

(** * Rounding up to whole pages *)

Lemma ceil_div_ge x : 0 <= x -> x <= ceil_div x PG_SIZE * PG_SIZE.
Proof.
  intros Hx. unfold ceil_div, PG_SIZE.
  pose proof (Z.div_mod (- x) 4096 ltac:(lia)) as Hdm.
  pose proof (Z.mod_pos_bound (- x) 4096 ltac:(lia)) as Hm. lia.
Qed.

(** * The invariant of the heap *)

(** A page of the virtual pool of [pf] whose bit is set. *)
Definition reserved (pf : pool_flags) (st : state) (a : Z) : Prop :=
  exists idx : nat,
    a = vaddr_start (get_vaddr pf st) + Z.of_nat idx * PG_SIZE
    /\ vbits pf st !! idx = Some true.

(** A page whose entry holds a frame of the pool of [pf]. *)
Definition mapped (pf : pool_flags) (st : state) (a : Z) : Prop :=
  exists j : nat,
    (j < length (pbits (pool_of pf) st))%nat
    /\ frame_of (ptmem st (pte_ptr a))
       = phy_addr_start (get_pool (pool_of pf) st) + Z.of_nat j * PG_SIZE.

(** A reserved page that carries the header of an arena of blocks of
    descriptor [i]. *)
Definition small_arena (pf : pool_flags) (st : state) (i : nat) (a : Z) : Prop :=
  reserved pf st a
  /\ desc (arenas st a) = Some (descs_of pf, i)
  /\ large (arenas st a) = false.

(** A reserved page that carries the header of a run of whole pages. *)
Definition large_arena (pf : pool_flags) (st : state) (a : Z) : Prop :=
  reserved pf st a
  /\ desc (arenas st a) = None
  /\ large (arenas st a) = true.

(** Block [k] of the arena at [a]. *)
Definition slot (d : mem_block_desc) (a k : Z) : Z := a + sizeof_arena + k * block_size d.

(** The blocks of a free list that lie in the arena at [a]. *)
Definition in_arena (a : Z) (l : list Z) : list Z := filter (fun b => block2arena b = a) l.

(** The invariant of one size class: the free list holds blocks of
    arenas of the class, each once, and every arena of the class is
    mapped and counts its blocks on the list. *)
Record class_inv (pf : pool_flags) (st : state) (i : nat) (d : mem_block_desc) : Prop := {
  ci_desc : desc_ok d;
  ci_nodup : NoDup (free_list d);
  ci_blocks : forall b, b ∈ free_list d ->
              exists a k, small_arena pf st i a /\ 0 <= k < blocks_per_arena d /\ b = slot d a k;
  ci_arenas : forall a, small_arena pf st i a ->
              mapped pf st a
              /\ cnt (arenas st a) = Z.of_nat (length (in_arena a (free_list d)))
}.

(** The invariant of a run of pages: as many pages as the header says,
    all reserved and mapped, no header in the pages after the first. *)
Definition large_inv (pf : pool_flags) (st : state) (a : Z) : Prop :=
  1 <= cnt (arenas st a)
  /\ forall k, 0 <= k < cnt (arenas st a) ->
       reserved pf st (a + k * PG_SIZE)
       /\ mapped pf st (a + k * PG_SIZE)
       /\ (1 <= k -> desc (arenas st (a + k * PG_SIZE)) = None
                     /\ large (arenas st (a + k * PG_SIZE)) = false).

Record heap_inv (pf : pool_flags) (st : state) : Prop := {
  hi_pools : pools_ok st;
  hi_vaddr : vaddr_ok pf st;
  hi_lo : PG_SIZE <= vaddr_start (get_vaddr pf st);
  hi_classes : map block_size (get_descs (descs_of pf) st) = size_classes;
  hi_psize : pool_size (get_pool (pool_of pf) st) <= 0xffff * PG_SIZE;
  hi_class : forall i d, get_descs (descs_of pf) st !! i = Some d -> class_inv pf st i d;
  hi_large : forall a, large_arena pf st a -> large_inv pf st a
}.

(** A block that was handed out and not given back: a block of an arena
    that is not on the free list, or the memory behind the header of a
    run of pages. *)
Definition live_small (pf : pool_flags) (st : state) (p len : Z) : Prop :=
  exists i d a k,
    get_descs (descs_of pf) st !! i = Some d
    /\ small_arena pf st i a /\ 0 <= k < blocks_per_arena d
    /\ p = slot d a k /\ (p ∉ free_list d)
    /\ len = block_size d.

Definition live_large (pf : pool_flags) (st : state) (p len : Z) : Prop :=
  exists a, large_arena pf st a /\ p = a + sizeof_arena
            /\ len = cnt (arenas st a) * PG_SIZE - sizeof_arena.

(** [live pf st p len]: [p] is handed out, with [len] bytes behind it. *)
Definition live (pf : pool_flags) (st : state) (p len : Z) : Prop :=
  live_small pf st p len \/ live_large pf st p len.

Lemma reserved_range pf st a :
  vaddr_ok pf st -> PG_SIZE <= vaddr_start (get_vaddr pf st) -> reserved pf st a ->
  heap_lo pf <= a /\ PG_SIZE <= a /\ a mod PG_SIZE = 0 /\ a + PG_SIZE <= 0xffc00000.
Proof.
  intros [V1 V2 V3 _] Hlo (idx & -> & Hidx).
  apply lookup_lt_Some in Hidx. unfold PG_SIZE in *.
  split; [lia|]. split; [lia|]. split; [|lia].
  rewrite Z.mod_add by lia. exact V2.
Qed.

Lemma reserved_index pf st a (idx : nat) :
  a = vaddr_start (get_vaddr pf st) + Z.of_nat idx * PG_SIZE ->
  reserved pf st a <-> vbits pf st !! idx = Some true.
Proof.
  intros ->. split.
  - intros (idx' & E & H). unfold PG_SIZE in E.
    assert (idx' = idx) as -> by lia. exact H.
  - intros H. exists idx. split; [reflexivity | exact H].
Qed.

Lemma reserved_not_free pf st a : reserved pf st a -> page_free pf st a -> False.
Proof.
  intros (idx & E & H) (idx' & E' & H'). unfold PG_SIZE in *.
  assert (idx' = idx) as -> by lia. congruence.
Qed.

Lemma slot_in_page d a k :
  desc_ok d -> 0 <= a -> a mod PG_SIZE = 0 -> a + PG_SIZE <= 2 ^ 32 ->
  0 <= k < blocks_per_arena d ->
  a + sizeof_arena <= slot d a k
  /\ slot d a k + block_size d <= a + PG_SIZE
  /\ block2arena (slot d a k) = a.
Proof.
  intros (Hbs & Hbpa & Hfit) Ha Hal Htop Hk. unfold slot, sizeof_arena, PG_SIZE in *.
  assert (0 <= k * block_size d /\ (k + 1) * block_size d <= blocks_per_arena d * block_size d)
    as [L U] by nia.
  split; [lia|]. split; [lia|].
  replace (a + 12 + k * block_size d) with (a + (12 + k * block_size d)) by lia.
  apply block2arena_offset; unfold PG_SIZE; lia.
Qed.

Lemma block2arena_page a x :
  0 <= a -> a mod PG_SIZE = 0 -> a + PG_SIZE <= 2 ^ 32 -> a <= x < a + PG_SIZE ->
  block2arena x = a.
Proof.
  intros Ha Hal Htop Hx. replace x with (a + (x - a)) by lia.
  apply block2arena_offset; unfold PG_SIZE in *; lia.
Qed.

(** Two pages that are reserved are the same page or do not overlap. *)
Lemma reserved_pages pf st a a' :
  reserved pf st a -> reserved pf st a' -> a = a' \/ a + PG_SIZE <= a' \/ a' + PG_SIZE <= a.
Proof.
  intros (i & -> & _) (i' & -> & _). unfold PG_SIZE.
  destruct (Nat.lt_trichotomy i i') as [H|[->|H]]; [right; left; lia | left; reflexivity |
    right; right; lia].
Qed.

(** Blocks that are handed out do not overlap: two different live
    pointers, each with the length of its block, delimit ranges of
    memory that share no byte. *)
Lemma live_separate (pf : pool_flags) (st : state) (p q lp lq : Z) :
  heap_inv pf st -> live pf st p lp -> live pf st q lq -> p <> q ->
  p + lp <= q \/ q + lq <= p.
Proof.
  intros Hinv Hp Hq Hne.
  destruct Hinv as [Hpools Hvaddr Hlo _ _ Hclass Hlarge].
  assert (forall a, reserved pf st a ->
            0 <= a /\ a mod PG_SIZE = 0 /\ a + PG_SIZE <= 2 ^ 32) as Hres.
  { intros a Ha. destruct (reserved_range pf st a Hvaddr Hlo Ha) as (_ & H1 & H2 & H3).
    unfold PG_SIZE in *. lia. }
  (* a block of a small arena against the pages of a run *)
  assert (forall p lp q lq, live_small pf st p lp -> live_large pf st q lq ->
            p + lp <= q \/ q + lq <= p) as Hsl.
  { clear p q lp lq Hp Hq Hne.
    intros p lp q lq (i & d & a & k & Hd & Ha & Hk & -> & _ & ->) (b & Hb & -> & ->).
    destruct (Hclass i d Hd) as [Hok _ _ _].
    destruct Ha as (Har & Had & Hal). destruct Hb as (Hbr & Hbd & Hbl).
    destruct (Hres a Har) as (A1 & A2 & A3).
    destruct (slot_in_page d a k Hok A1 A2 A3 Hk) as (S1 & S2 & _).
    destruct (Hlarge b (conj Hbr (conj Hbd Hbl))) as (Hn & Hpages).
    destruct (Hres b Hbr) as (B1 & B2 & B3).
    unfold PG_SIZE, sizeof_arena in *.
    destruct (Z_lt_le_dec a b) as [Hlt|Hge].
    - left. destruct (reserved_pages pf st a b Har Hbr) as [E|[E|E]];
        unfold PG_SIZE in E; lia.
    - destruct (Z_lt_le_dec a (b + cnt (arenas st b) * 4096)) as [Hin|Hout]; [|right; lia].
      exfalso.
      pose proof (Z.div_mod a 4096 ltac:(lia)) as Da. rewrite A2 in Da.
      pose proof (Z.div_mod b 4096 ltac:(lia)) as Db. rewrite B2 in Db.
      set (k' := a / 4096 - b / 4096).
      assert (a = b + k' * 4096) as Ea by (subst k'; lia).
      assert (0 <= k' < cnt (arenas st b)) as Hk' by (subst k'; lia).
      destruct (Z.eq_dec k' 0) as [E0|N0].
      + rewrite E0 in Ea. replace (b + 0 * 4096) with b in Ea by lia. subst a. congruence.
      + destruct (Hpages k' Hk') as (_ & _ & Hint).
        destruct (Hint ltac:(lia)) as [Hnone _].
        unfold PG_SIZE in Hnone. rewrite <- Ea in Hnone. congruence. }
  destruct Hp as [Hp|Hp], Hq as [Hq|Hq].
  - destruct Hp as (i & d & a & k & Hd & Ha & Hk & Ep & Hpf & ->).
    destruct Hq as (i' & d' & a' & k' & Hd' & Ha' & Hk' & Eq & Hqf & ->).
    destruct (Hclass i d Hd) as [Hok _ _ _]. destruct (Hclass i' d' Hd') as [Hok' _ _ _].
    destruct Ha as (Har & Had & Hal). destruct Ha' as (Har' & Had' & Hal').
    destruct (Hres a Har) as (A1 & A2 & A3). destruct (Hres a' Har') as (A1' & A2' & A3').
    destruct (slot_in_page d a k Hok A1 A2 A3 Hk) as (S1 & S2 & _).
    destruct (slot_in_page d' a' k' Hok' A1' A2' A3' Hk') as (S1' & S2' & _).
    rewrite <- Ep in S1, S2. rewrite <- Eq in S1', S2'.
    destruct (reserved_pages pf st a a' Har Har') as [E|[E|E]].
    + subst a'. rewrite Had in Had'. injection Had' as <-.
      rewrite Hd in Hd'. injection Hd' as <-.
      destruct Hok as (Hbs & _). unfold slot in Ep, Eq.
      assert (k <> k') as Hkk by (intros ->; congruence).
      destruct (Z_lt_le_dec k k'); [left | right]; nia.
    + left. unfold sizeof_arena in *. lia.
    + right. unfold sizeof_arena in *. lia.
  - apply Hsl; assumption.
  - destruct (Hsl q lq p lp Hq Hp) as [H|H]; [right | left]; exact H.
  - destruct Hp as (a & Ha & -> & ->). destruct Hq as (b & Hb & -> & ->).
    assert (a <> b) as Hab by (intros ->; congruence).
    destruct (Hlarge a Ha) as (Hn & Hpa). destruct (Hlarge b Hb) as (Hm & Hpb).
    destruct Ha as (Har & Had & Hal). destruct Hb as (Hbr & Hbd & Hbl).
    destruct (Hres a Har) as (A1 & A2 & A3). destruct (Hres b Hbr) as (B1 & B2 & B3).
    unfold PG_SIZE, sizeof_arena in *.
    pose proof (Z.div_mod a 4096 ltac:(lia)) as Da. rewrite A2 in Da.
    pose proof (Z.div_mod b 4096 ltac:(lia)) as Db. rewrite B2 in Db.
    assert (forall x y, x < y -> x mod 4096 = 0 -> y mod 4096 = 0 ->
              reserved pf st x -> large (arenas st y) = true ->
              (forall k, 0 <= k < cnt (arenas st x) ->
                 reserved pf st (x + k * 4096) /\ mapped pf st (x + k * 4096)
                 /\ (1 <= k -> desc (arenas st (x + k * 4096)) = None
                               /\ large (arenas st (x + k * 4096)) = false)) ->
              x + cnt (arenas st x) * 4096 <= y) as Hord.
    { intros x y Hxy Hx Hy Hxr Hyl Hpx.
      destruct (Z_lt_le_dec y (x + cnt (arenas st x) * 4096)) as [Hin|]; [|assumption].
      exfalso.
      pose proof (Z.div_mod x 4096 ltac:(lia)) as Dx. rewrite Hx in Dx.
      pose proof (Z.div_mod y 4096 ltac:(lia)) as Dy. rewrite Hy in Dy.
      set (k := y / 4096 - x / 4096).
      assert (y = x + k * 4096) as Ey by (subst k; lia).
      assert (1 <= k < cnt (arenas st x)) as Hk by (subst k; lia).
      destruct (Hpx k ltac:(lia)) as (_ & _ & Hint).
      destruct (Hint ltac:(lia)) as [_ Hf]. rewrite <- Ey in Hf. congruence. }
    destruct (Z_lt_le_dec a b) as [Hlt|Hge].
    + left. pose proof (Hord a b Hlt A2 B2 Har Hbl Hpa). lia.
    + right. pose proof (Hord b a ltac:(lia) B2 A2 Hbr Hal Hpb). lia.
Qed.

(** ** Pages in terms of the invariant *)

Lemma heap_rel_pool st st' mp :
  heap_rel st st' ->
  pbits mp st' = pbits mp st
  /\ phy_addr_start (get_pool mp st') = phy_addr_start (get_pool mp st).
Proof. intros (kl & ul & kd & ud & ar & vm & it & ->). destruct mp; split; reflexivity. Qed.

Lemma heap_rel_psize st st' mp :
  heap_rel st st' -> pool_size (get_pool mp st') = pool_size (get_pool mp st).
Proof. intros (kl & ul & kd & ud & ar & vm & it & ->). destruct mp; reflexivity. Qed.

Lemma page_rel_psize st st' mp :
  page_rel st st' -> pool_size (get_pool mp st') = pool_size (get_pool mp st).
Proof. intros (kb & ub & kv & uv & pt & ->). destruct mp; reflexivity. Qed.

Lemma reserved_heap_rel pf st st' a : heap_rel st st' -> reserved pf st' a <-> reserved pf st a.
Proof.
  intros H. destruct (heap_rel_static st st' pf H) as [E1 E2].
  unfold reserved. rewrite E1, E2. reflexivity.
Qed.

Lemma mapped_heap_rel pf st st' a : heap_rel st st' -> mapped pf st' a <-> mapped pf st a.
Proof.
  intros H. destruct (heap_rel_pool st st' (pool_of pf) H) as [E1 E2].
  unfold mapped. rewrite E1, E2, (heap_rel_ptmem _ _ H). reflexivity.
Qed.

(** The pages of a run of [n] pages at [a]. *)
Definition in_run (a n x : Z) : Prop := exists k, 0 <= k < n /\ x = a + k * PG_SIZE.

Lemma choose_list {A} (P : nat -> A -> Prop) n :
  (forall k, (k < n)%nat -> exists x, P k x) ->
  exists l, length l = n /\ forall k x, l !! k = Some x -> P k x.
Proof.
  induction n as [|n IH]; intros H.
  - exists []. split; [reflexivity|]. intros k x Hk. discriminate Hk.
  - destruct IH as (l & Hl & HP); [intros k Hk; apply H; lia|].
    destruct (H n ltac:(lia)) as (x & Hx).
    exists (l ++ [x]). split; [rewrite length_app; cbn; lia|].
    intros k y Hk. destruct (decide (k < n)%nat) as [Hlt|Hge].
    + rewrite lookup_app_l in Hk by lia. apply HP; exact Hk.
    + pose proof (lookup_lt_Some _ _ _ Hk) as Hlt. rewrite length_app in Hlt. cbn in Hlt.
      assert (k = n) as -> by lia.
      rewrite lookup_app_r in Hk by lia. rewrite Hl, Nat.sub_diag in Hk.
      injection Hk as <-. exact Hx.
Qed.

(** malloc_page, as the invariant sees it: the pages of the run were
    free, are now reserved and mapped; nothing else moved. *)
Lemma malloc_page_heap pf pg_cnt st a st' :
  pools_ok st -> vaddr_ok pf st ->
  malloc_page pf pg_cnt st = Ret a st' -> a <> NULL ->
  pools_ok st' /\ vaddr_ok pf st'
  /\ vaddr_start (get_vaddr pf st') = vaddr_start (get_vaddr pf st)
  /\ arenas st' = arenas st
  /\ get_descs (descs_of pf) st' = get_descs (descs_of pf) st
  /\ 0 < pg_cnt /\ PG_SIZE <= a /\ a mod PG_SIZE = 0 /\ a + pg_cnt * PG_SIZE <= 0xffc00000
  /\ (forall x, in_run a pg_cnt x -> page_free pf st x)
  /\ (forall x, reserved pf st' x <-> reserved pf st x \/ in_run a pg_cnt x)
  /\ (forall x, in_run a pg_cnt x -> mapped pf st' x)
  /\ (forall x, reserved pf st x -> mapped pf st x -> mapped pf st' x).
Proof.
  intros Hpools Hvaddr Hm Ha.
  destruct (malloc_page_addr _ _ _ _ _ Hvaddr Hm Ha) as (Hcnt & Ha4 & Hlo & Hal & Htop & _).
  destruct (malloc_page_frames _ _ _ _ _ Hpools Hvaddr Hm Ha)
    as (Hpools' & Hvaddr' & idx & js & Haddr & Hclr & Hvb & Hvs & Hlen & Hnd & Hjs & Hpb & Hps
        & Hmap & Hrest).
  pose proof (malloc_page_page_rel _ _ _ _ _ Hm) as Hrel.
  destruct (page_rel_frame _ _ Hrel) as (_ & _ & Har & _).
  assert (Hv := Hvaddr). destruct Hv as [V1 V2 V3 _].
  assert (0 <= vaddr_start (get_vaddr pf st)) as V0.
  { destruct pf; cbn [heap_lo] in V1; unfold K_HEAP_START in V1; lia. }
  assert (forall x, in_run a pg_cnt x ->
            exists k : nat, (k < Z.to_nat pg_cnt)%nat
              /\ x = vaddr_start (get_vaddr pf st) + Z.of_nat (idx + k) * PG_SIZE) as Hrun.
  { intros x (k & Hk & ->). exists (Z.to_nat k). split; [lia|]. unfold PG_SIZE in *. lia. }
  split; [exact Hpools'|]. split; [exact Hvaddr'|]. split; [exact Hvs|]. split; [exact Har|].
  split; [apply page_rel_descs; exact Hrel|].
  split; [lia|]. split; [exact Ha4|]. split; [exact Hal|]. split; [exact Htop|].
  split; [|split; [|split]].
  - intros x Hx. destruct (Hrun x Hx) as (k & Hk & ->).
    exists (idx + k)%nat. split; [reflexivity | apply Hclr; exact Hk].
  - intros x. split.
    + intros (i & -> & Hi). rewrite Hvb in Hi. rewrite Hvs.
      destruct (decide (i ∈ seq idx (Z.to_nat pg_cnt))) as [Hin|Hnin].
      * right. apply list_elem_of_In, in_seq in Hin.
        exists (Z.of_nat i - Z.of_nat idx). split; [lia|]. unfold PG_SIZE in *. lia.
      * left. rewrite set_all_lookup_notin in Hi by exact Hnin.
        exists i. split; [reflexivity | exact Hi].
    + intros [(i & -> & Hi) | Hx].
      * exists i. rewrite Hvs. split; [reflexivity|]. rewrite Hvb.
        destruct (decide (i ∈ seq idx (Z.to_nat pg_cnt))) as [Hin|Hnin].
        -- apply set_all_lookup_in; [exact Hin | eapply lookup_lt_Some; exact Hi].
        -- rewrite set_all_lookup_notin by exact Hnin. exact Hi.
      * destruct (Hrun x Hx) as (k & Hk & ->).
        exists (idx + k)%nat. rewrite Hvs. split; [reflexivity|]. rewrite Hvb.
        apply set_all_lookup_in.
        -- apply list_elem_of_In, in_seq. lia.
        -- eapply lookup_lt_Some. apply Hclr. exact Hk.
  - intros x (k & Hk & ->).
    assert (Z.to_nat k < length js)%nat as Hkl by lia.
    apply lookup_lt_is_Some_2 in Hkl as (j & Hj).
    exists j. split.
    + rewrite Hpb, set_all_length. eapply lookup_lt_Some. apply Hjs.
      eapply list_elem_of_lookup_2. exact Hj.
    + rewrite Hps.
      pose proof (Hmap (Z.to_nat k) j (a + k * PG_SIZE) Hj) as H.
      rewrite Z2Nat.id in H by lia.
      specialize (H ltac:(unfold PG_SIZE; lia)).
      rewrite addr_v2p_eq in H.
      replace ((a + k * PG_SIZE) mod PG_SIZE) with 0 in H.
      2:{ symmetry. unfold PG_SIZE in *. rewrite Z.mod_add by lia. exact Hal. }
      lia.
  - intros x (i & Ex & Hi) (j & Hj & Hf).
    exists j. rewrite Hpb, set_all_length, Hps. split; [exact Hj|].
    rewrite <- Hf. f_equal. apply Hrest.
    + pose proof (lookup_lt_Some _ _ _ Hi). unfold PG_SIZE in *. lia.
    + intros Hr.
      assert (Z.of_nat idx <= Z.of_nat i < Z.of_nat idx + pg_cnt) as Hii
        by (unfold PG_SIZE in *; lia).
      specialize (Hclr (i - idx)%nat ltac:(lia)).
      replace (idx + (i - idx))%nat with i in Hclr by lia. congruence.
Qed.

(** mfree_page writes no entry of the page directory. *)
Lemma mfree_page_loop_high user n : forall v st u st',
  0 <= v -> v + (Z.of_nat n + 1) * PG_SIZE <= 0xffc00000 ->
  mfree_page_loop user v n st = Ret u st' ->
  forall x, 0xfffff000 <= x -> ptmem st' x = ptmem st x.
Proof.
  induction n as [|n IH]; intros v st u st' Hv Htop H x Hx.
  - injection H as _ <-. reflexivity.
  - cbn [mfree_page_loop] in H. cbv zeta in H. unfold PG_SIZE in *.
    rewrite (wrap32_small (v + 4096)) in H by lia.
    apply bind_Ret in H as (s0 & s & Hget & H). apply get_Ret in Hget as [-> ->].
    apply bind_Ret in H as (u1 & s & Hassert & H). apply ASSERT_Ret in Hassert as [_ ->].
    apply bind_Ret in H as (u2 & s1 & Hpf & H).
    apply bind_Ret in H as (u3 & s2 & Hrm & H).
    rewrite (IH (v + 4096) s2 u st' ltac:(lia) ltac:(lia) H x Hx).
    pose proof (pte_ptr_range (v + 4096) ltac:(lia)) as Hp.
    unfold pfree, page_table_pte_remove, store_pt, bind, get, modify in Hpf, Hrm.
    destruct (_ <=? _) in Hpf; injection Hpf as _ <-; injection Hrm as _ <-; cbn;
      (destruct (x =? pte_ptr (v + 4096)) eqn:E; [apply Z.eqb_eq in E; lia | reflexivity]).
Qed.

Lemma mfree_page_high pf a n st u st' :
  PG_SIZE <= a -> a + n * PG_SIZE <= 0xffc00000 ->
  mfree_page pf a n st = Ret u st' ->
  forall x, 0xfffff000 <= x -> ptmem st' x = ptmem st x.
Proof.
  intros Ha Htop H x Hx. unfold mfree_page in H.
  apply bind_Ret in H as (u1 & s & Hassert & H). apply ASSERT_Ret in Hassert as [Hc ->].
  apply andb_true_iff in Hc as [Hcnt _]. apply Z.leb_le in Hcnt.
  apply bind_Ret in H as (s0 & s & Hget & H). apply get_Ret in Hget as [-> ->].
  apply bind_Ret in H as (u2 & s & Hassert & H). apply ASSERT_Ret in Hassert as [_ ->].
  assert (forall user,
            (mfree_page_loop user (wrap32 (a - PG_SIZE)) (Z.to_nat n) ;;; vaddr_remove pf a n) st
            = Ret u st' -> ptmem st' x = ptmem st x) as Hb.
  { intros user Hl. apply bind_Ret in Hl as (u3 & s1 & Hloop & Hrm).
    unfold PG_SIZE in *. rewrite wrap32_small in Hloop by lia.
    rewrite <- (mfree_page_loop_high user (Z.to_nat n) (a - 4096) st u3 s1 ltac:(lia)
               ltac:(unfold PG_SIZE; lia) Hloop x Hx).
    unfold vaddr_remove, bind, get, modify in Hrm.
    destruct pf; injection Hrm as _ <-; reflexivity. }
  destruct (_ <=? _); eapply Hb; exact H.
Qed.

(** mfree_page, as the invariant sees it: on a run of pages that are
    reserved and mapped it returns; the pages are no longer reserved;
    nothing else moved. *)
Lemma mfree_page_heap pf a n st :
  pools_ok st -> vaddr_ok pf st -> PG_SIZE <= vaddr_start (get_vaddr pf st) ->
  1 <= n ->
  (forall x, in_run a n x -> reserved pf st x /\ mapped pf st x) ->
  exists st',
    mfree_page pf a n st = Ret tt st'
    /\ pools_ok st' /\ vaddr_ok pf st'
    /\ vaddr_start (get_vaddr pf st') = vaddr_start (get_vaddr pf st)
    /\ arenas st' = arenas st
    /\ get_descs (descs_of pf) st' = get_descs (descs_of pf) st
    /\ (forall x, reserved pf st' x <-> reserved pf st x /\ ~ in_run a n x)
    /\ (forall x, mapped pf st' x <-> mapped pf st x).
Proof.
  intros Hpools Hvaddr Hlo Hn Hrun.
  assert (Hv := Hvaddr). destruct Hv as [V1 V2 V3 V4].
  destruct (Hrun a) as [(idx & Ea & Hidx) _]; [exists 0; split; lia|].
  assert (forall k : nat, (k < Z.to_nat n)%nat ->
            vbits pf st !! (idx + k)%nat = Some true
            /\ mapped pf st (a + Z.of_nat k * PG_SIZE)) as Hpages.
  { intros k Hk.
    destruct (Hrun (a + Z.of_nat k * PG_SIZE)) as [Hr Hm];
      [exists (Z.of_nat k); split; [lia | reflexivity]|].
    split; [|exact Hm].
    apply (reserved_index pf st (a + Z.of_nat k * PG_SIZE)); [|exact Hr].
    rewrite Ea. unfold PG_SIZE. lia. }
  destruct (choose_list
              (fun k j => (j < length (pbits (pool_of pf) st))%nat
                 /\ frame_of (ptmem st (pte_ptr (a + Z.of_nat k * PG_SIZE)))
                    = phy_addr_start (get_pool (pool_of pf) st) + Z.of_nat j * PG_SIZE)
              (Z.to_nat n)) as (js & Hlen & Hjs).
  { intros k Hk. destruct (Hpages k Hk) as [_ (j & Hj & Hf)]. exists j. split; assumption. }
  assert (idx + Z.to_nat n <= length (vbits pf st))%nat as Hfit.
  { destruct (Hpages (Z.to_nat n - 1)%nat ltac:(lia)) as [Hb _].
    apply lookup_lt_Some in Hb. lia. }
  assert (PG_SIZE <= a /\ a + n * PG_SIZE <= 0xffc00000) as [Ha4 Htop]
    by (unfold PG_SIZE in *; lia).
  rewrite Ea in Hjs.
  destruct (mfree_page_spec pf idx js n st Hpools Hn Hlen ltac:(lia) V2
              ltac:(unfold PG_SIZE in *; lia) ltac:(unfold PG_SIZE in *; lia) Hjs)
    as (pt & Hfree & Hpt).
  rewrite <- Ea in Hfree.
  set (L := set_all (seq idx (Z.to_nat n)) false (vbits pf st)) in *.
  set (P := set_all js false (pbits (pool_of pf) st)) in *.
  set (st' := set_vbits pf L (set_pt pt (set_pbits (pool_of pf) P st))) in *.
  assert (vaddr_start (get_vaddr pf st') = vaddr_start (get_vaddr pf st)) as Evs
    by (destruct pf; reflexivity).
  assert (vbits pf st' = L) as Evb by (destruct pf; reflexivity).
  assert (pbits (pool_of pf) st' = P) as Epb by (destruct pf; reflexivity).
  assert (phy_addr_start (get_pool (pool_of pf) st')
          = phy_addr_start (get_pool (pool_of pf) st)) as Eps by (destruct pf; reflexivity).
  assert (ptmem st' = pt) as Ept by (destruct pf; reflexivity).
  assert (length L = length (vbits pf st)) as HL by apply set_all_length.
  assert (length P = length (pbits (pool_of pf) st)) as HP by apply set_all_length.
  pose proof (mfree_page_high pf a n st tt st' Ha4 Htop Hfree) as Hhigh.
  exists st'. split; [exact Hfree|].
  split.
  { apply pools_ok_set_vbits. apply pools_ok_set; [exact Hpools | exact HP]. }
  split.
  { split; rewrite ?Evs, ?Evb, ?HL; try assumption.
    intros i Hi. rewrite Hhigh; [apply V4; exact Hi|].
    apply pde_ptr_range. unfold PG_SIZE in *. lia. }
  split; [exact Evs|].
  split; [destruct pf; reflexivity|].
  split; [destruct pf; reflexivity|].
  split.
  - intros x. unfold reserved. rewrite Evs, Evb. split.
    + intros (i & -> & Hi).
      destruct (decide (i ∈ seq idx (Z.to_nat n))) as [Hin|Hnin].
      * exfalso. subst L. rewrite set_all_lookup_in in Hi; [discriminate | exact Hin|].
        apply list_elem_of_In, in_seq in Hin. lia.
      * subst L. rewrite set_all_lookup_notin in Hi by exact Hnin.
        split; [exists i; split; [reflexivity | exact Hi]|].
        intros (k & Hk & E). apply Hnin. apply list_elem_of_In, in_seq.
        unfold PG_SIZE in *. lia.
    + intros [(i & -> & Hi) Hnr]. exists i. split; [reflexivity|].
      subst L. rewrite set_all_lookup_notin; [exact Hi|].
      intros Hin. apply list_elem_of_In, in_seq in Hin. apply Hnr.
      exists (Z.of_nat i - Z.of_nat idx). split; [lia|]. unfold PG_SIZE in *. lia.
  - intros x. unfold mapped. rewrite Epb, Eps, Ept, HP.
    split; intros (j & Hj & Hf); exists j; (split; [exact Hj|]); rewrite <- Hf;
      [symmetry|]; apply Hpt.
Qed.

(** ** What the invariant gives *)

Lemma page_range pf st a :
  vaddr_ok pf st -> PG_SIZE <= vaddr_start (get_vaddr pf st) ->
  reserved pf st a \/ page_free pf st a ->
  PG_SIZE <= a /\ a mod PG_SIZE = 0 /\ a + PG_SIZE <= 0xffc00000.
Proof.
  intros [V1 V2 V3 _] Hlo [(idx & -> & Hidx) | (idx & -> & Hidx)];
    apply lookup_lt_Some in Hidx; unfold PG_SIZE in *;
    (split; [lia|]); (split; [|lia]); rewrite Z.mod_add by lia; exact V2.
Qed.

Lemma map_block_size_insert (l : list mem_block_desc) i d fl :
  l !! i = Some d -> map block_size (<[i := set_free_list fl d]> l) = map block_size l.
Proof.
  revert i. induction l as [|x l IH]; intros [|i] H; try discriminate.
  - injection H as ->. reflexivity.
  - cbn. f_equal. apply IH. exact H.
Qed.

Lemma in_arena_cons_in a b l :
  block2arena b = a -> in_arena a (b :: l) = b :: in_arena a l.
Proof. intros H. unfold in_arena. rewrite filter_cons_True by exact H. reflexivity. Qed.

Lemma in_arena_cons_out a b l :
  block2arena b <> a -> in_arena a (b :: l) = in_arena a l.
Proof. intros H. unfold in_arena. rewrite filter_cons_False by exact H. reflexivity. Qed.

Lemma in_arena_app a l l' : in_arena a (l ++ l') = in_arena a l ++ in_arena a l'.
Proof. unfold in_arena. apply filter_app. Qed.

Lemma in_arena_elem a l x : x ∈ in_arena a l <-> block2arena x = a /\ x ∈ l.
Proof. exact (list_elem_of_filter (fun b => block2arena b = a) l x). Qed.

(** The blocks of an arena, as a list. *)
Definition slots (d : mem_block_desc) (a : Z) : list Z :=
  map (fun k : nat => slot d a (Z.of_nat k)) (seq 0 (Z.to_nat (blocks_per_arena d))).

Lemma slots_elem d a x :
  x ∈ slots d a <-> exists k, 0 <= k < blocks_per_arena d /\ x = slot d a k.
Proof.
  unfold slots. rewrite list_elem_of_In, in_map_iff. split.
  - intros (k & <- & Hk). apply in_seq in Hk. exists (Z.of_nat k). split; [lia | reflexivity].
  - intros (k & Hk & ->). exists (Z.to_nat k). split.
    + rewrite Z2Nat.id by lia. reflexivity.
    + apply in_seq. lia.
Qed.

Lemma slots_length d a : length (slots d a) = Z.to_nat (blocks_per_arena d).
Proof. unfold slots. rewrite length_map, length_seq. reflexivity. Qed.

Section HeapInvFacts.
Variables (pf : pool_flags) (st : state).
Hypothesis Hinv : heap_inv pf st.

Lemma inv_page a :
  reserved pf st a \/ page_free pf st a ->
  0 <= a /\ a mod PG_SIZE = 0 /\ a + PG_SIZE <= 2 ^ 32 /\ PG_SIZE <= a.
Proof.
  intros H. destruct (page_range pf st a (hi_vaddr _ _ Hinv) (hi_lo _ _ Hinv) H)
    as (H1 & H2 & H3).
  unfold PG_SIZE in *. lia.
Qed.

(** A block of a small arena lies in the page of the arena. *)
Lemma inv_slot i d a k :
  get_descs (descs_of pf) st !! i = Some d -> small_arena pf st i a ->
  0 <= k < blocks_per_arena d ->
  a + sizeof_arena <= slot d a k
  /\ slot d a k + block_size d <= a + PG_SIZE
  /\ block2arena (slot d a k) = a.
Proof.
  intros Hd (Hr & _) Hk.
  destruct (inv_page a (or_introl Hr)) as (A1 & A2 & A3 & _).
  apply slot_in_page; try assumption.
  apply (ci_desc _ _ _ _ (hi_class _ _ Hinv i d Hd)).
Qed.

(** A block on a free list is a block of the arena of its page. *)
Lemma inv_block i d b :
  get_descs (descs_of pf) st !! i = Some d -> b ∈ free_list d ->
  small_arena pf st i (block2arena b)
  /\ exists k, 0 <= k < blocks_per_arena d /\ b = slot d (block2arena b) k.
Proof.
  intros Hd Hb.
  destruct (ci_blocks _ _ _ _ (hi_class _ _ Hinv i d Hd) b Hb) as (a & k & Ha & Hk & ->).
  destruct (inv_slot i d a k Hd Ha Hk) as (_ & _ & ->).
  split; [exact Ha|]. exists k. split; [exact Hk | reflexivity].
Qed.

(** The free list holds at most the blocks of an arena. *)
Lemma inv_count i d a :
  get_descs (descs_of pf) st !! i = Some d -> small_arena pf st i a ->
  in_arena a (free_list d) ⊆+ slots d a.
Proof.
  intros Hd Ha. apply NoDup_submseteq.
  - unfold in_arena. apply NoDup_filter. apply (ci_nodup _ _ _ _ (hi_class _ _ Hinv i d Hd)).
  - intros x Hx. apply in_arena_elem in Hx as [Ex Hx].
    destruct (inv_block i d x Hd Hx) as (_ & k & Hk & E). rewrite Ex in E.
    apply slots_elem. exists k. split; assumption.
Qed.

Lemma inv_cnt i d a :
  get_descs (descs_of pf) st !! i = Some d -> small_arena pf st i a ->
  0 <= cnt (arenas st a) <= blocks_per_arena d /\ blocks_per_arena d < PG_SIZE.
Proof.
  intros Hd Ha.
  destruct (ci_arenas _ _ _ _ (hi_class _ _ Hinv i d Hd) a Ha) as [_ ->].
  pose proof (submseteq_length _ _ (inv_count i d a Hd Ha)) as Hle.
  rewrite slots_length in Hle.
  destruct (ci_desc _ _ _ _ (hi_class _ _ Hinv i d Hd)) as (Hbs & Hbpa & Hfit).
  unfold PG_SIZE, sizeof_arena in *. split; [lia | nia].
Qed.

(** No page of a run carries the header of a small arena. *)
Lemma inv_small_not_run i a b :
  small_arena pf st i a -> large_arena pf st b -> ~ in_run b (cnt (arenas st b)) a.
Proof.
  intros (Har & Had & Hal) Hb (k & Hk & E).
  destruct (hi_large _ _ Hinv b Hb) as (_ & Hpages).
  destruct Hb as (_ & Hbd & Hbl).
  destruct (Z.eq_dec k 0) as [->|Hk0].
  - rewrite Z.mul_0_l, Z.add_0_r in E. subst a. congruence.
  - destruct (Hpages k Hk) as (_ & _ & Hint).
    destruct (Hint ltac:(lia)) as [Hn _]. rewrite <- E in Hn. congruence.
Qed.

(** No page of a run but the first carries the header of a run. *)
Lemma inv_large_not_run a b :
  large_arena pf st a -> large_arena pf st b -> a <> b -> ~ in_run b (cnt (arenas st b)) a.
Proof.
  intros (Har & Had & Hal) Hb Hne (k & Hk & E).
  destruct (hi_large _ _ Hinv b Hb) as (_ & Hpages).
  destruct (Z.eq_dec k 0) as [->|Hk0].
  - rewrite Z.mul_0_l, Z.add_0_r in E. congruence.
  - destruct (Hpages k Hk) as (_ & _ & Hint).
    destruct (Hint ltac:(lia)) as [_ Hf]. rewrite <- E in Hf. congruence.
Qed.

(** A live pointer names its arena. *)
Lemma inv_live_small p len :
  live_small pf st p len ->
  exists i d, get_descs (descs_of pf) st !! i = Some d
    /\ small_arena pf st i (block2arena p)
    /\ (exists k, 0 <= k < blocks_per_arena d /\ p = slot d (block2arena p) k)
    /\ (p ∉ free_list d) /\ len = block_size d.
Proof.
  intros (i & d & a & k & Hd & Ha & Hk & -> & Hnf & ->).
  destruct (inv_slot i d a k Hd Ha Hk) as (_ & _ & E).
  exists i, d. rewrite E. split; [exact Hd|]. split; [exact Ha|].
  split; [exists k; split; [exact Hk | reflexivity]|]. split; [exact Hnf | reflexivity].
Qed.

Lemma inv_live_large p len :
  live_large pf st p len ->
  large_arena pf st (block2arena p) /\ p = block2arena p + sizeof_arena
  /\ len = cnt (arenas st (block2arena p)) * PG_SIZE - sizeof_arena.
Proof.
  intros (a & Ha & -> & ->).
  destruct Ha as (Hr & Hd & Hl).
  destruct (inv_page a (or_introl Hr)) as (A1 & A2 & A3 & _).
  rewrite (block2arena_page a (a + sizeof_arena)) by (unfold sizeof_arena, PG_SIZE in *; lia).
  split; [split; [exact Hr | split; assumption]|]. split; reflexivity.
Qed.
End HeapInvFacts.

(** ** The steps of sys_malloc keep the invariant *)

(** A run of pages taken for a large request. *)
Lemma heap_inv_alloc_large pf st st' a n :
  heap_inv pf st ->
  pools_ok st' -> vaddr_ok pf st' ->
  vaddr_start (get_vaddr pf st') = vaddr_start (get_vaddr pf st) ->
  get_descs (descs_of pf) st' = get_descs (descs_of pf) st ->
  pool_size (get_pool (pool_of pf) st') = pool_size (get_pool (pool_of pf) st) ->
  0 < n ->
  (forall x, in_run a n x -> page_free pf st x) ->
  (forall x, reserved pf st' x <-> reserved pf st x \/ in_run a n x) ->
  (forall x, in_run a n x -> mapped pf st' x) ->
  (forall x, reserved pf st x -> mapped pf st x -> mapped pf st' x) ->
  arenas st' a = mk_arena None true n ->
  (forall x, in_run a n x -> x <> a -> arenas st' x = zero_arena) ->
  (forall x, reserved pf st x -> arenas st' x = arenas st x) ->
  heap_inv pf st'
  /\ live_large pf st' (a + sizeof_arena) (n * PG_SIZE - sizeof_arena)
  /\ (forall len, ~ live pf st (a + sizeof_arena) len)
  /\ (forall q len, live pf st q len -> live pf st' q len).
Proof.
  intros Hinv Hpools' Hvaddr' Hvs Hds Hps Hn Hfree Hres Hmapn Hmapo Hhdr Hzero Hold.
  assert (in_run a n a) as Haa by (exists 0; split; lia).
  assert (forall i x, small_arena pf st i x -> small_arena pf st' i x) as Hs1.
  { intros i x (Hr & Hd & Hl). split; [apply Hres; left; exact Hr|].
    rewrite (Hold x Hr). split; assumption. }
  assert (forall i x, small_arena pf st' i x -> small_arena pf st i x) as Hs2.
  { intros i x (Hr & Hd & Hl). apply Hres in Hr as [Hr | Hr].
    - rewrite (Hold x Hr) in Hd, Hl. split; [exact Hr | split; assumption].
    - destruct (Z.eq_dec x a) as [->|Hne].
      + rewrite Hhdr in Hd. discriminate.
      + rewrite (Hzero x Hr Hne) in Hd. discriminate. }
  assert (forall x, large_arena pf st x -> large_arena pf st' x) as Hl1.
  { intros x (Hr & Hd & Hl). split; [apply Hres; left; exact Hr|].
    rewrite (Hold x Hr). split; assumption. }
  assert (forall x, large_arena pf st' x -> x = a \/ large_arena pf st x) as Hl2.
  { intros x (Hr & Hd & Hl). apply Hres in Hr as [Hr | Hr].
    - right. rewrite (Hold x Hr) in Hd, Hl. split; [exact Hr | split; assumption].
    - destruct (Z.eq_dec x a) as [->|Hne]; [left; reflexivity|].
      rewrite (Hzero x Hr Hne) in Hl. discriminate. }
  destruct (inv_page pf st Hinv a (or_intror (Hfree a Haa))) as (A1 & A2 & A3 & A4).
  assert (block2arena (a + sizeof_arena) = a) as Eba
    by (apply block2arena_page; unfold sizeof_arena, PG_SIZE in *; lia).
  split; [|split; [|split]].
  - split.
    + exact Hpools'.
    + exact Hvaddr'.
    + rewrite Hvs. apply (hi_lo _ _ Hinv).
    + rewrite Hds. apply (hi_classes _ _ Hinv).
    + rewrite Hps. apply (hi_psize _ _ Hinv).
    + intros i d Hd. rewrite Hds in Hd.
      destruct (hi_class _ _ Hinv i d Hd) as [C1 C2 C3 C4]. split; [exact C1 | exact C2 | |].
      * intros b Hb. destruct (C3 b Hb) as (x & k & Hx & Hk & E).
        exists x, k. split; [apply Hs1; exact Hx | split; assumption].
      * intros x Hx. apply Hs2 in Hx. destruct (C4 x Hx) as [Hm Hc].
        destruct Hx as (Hr & _). rewrite (Hold x Hr).
        split; [apply Hmapo; assumption | exact Hc].
    + intros x Hx. destruct (Hl2 x Hx) as [-> | Hx'].
      * unfold large_inv. rewrite Hhdr. cbn [cnt]. split; [lia|].
        intros k Hk.
        assert (in_run a n (a + k * PG_SIZE)) as Hr by (exists k; split; [exact Hk | reflexivity]).
        split; [apply Hres; right; exact Hr|]. split; [apply Hmapn; exact Hr|].
        intros Hk1. rewrite (Hzero _ Hr) by (unfold PG_SIZE; lia). split; reflexivity.
      * destruct (hi_large _ _ Hinv x Hx') as (Hc & Hpages).
        destruct Hx' as (Hr & _). unfold large_inv. rewrite (Hold x Hr).
        split; [exact Hc|]. intros k Hk. destruct (Hpages k Hk) as (Hkr & Hkm & Hki).
        split; [apply Hres; left; exact Hkr|]. split; [apply Hmapo; assumption|].
        rewrite (Hold _ Hkr). exact Hki.
  - exists a. split; [|split; [reflexivity|]].
    + split; [apply Hres; right; exact Haa|]. rewrite Hhdr. split; reflexivity.
    + rewrite Hhdr. reflexivity.
  - intros len [Hl | Hl].
    + apply (inv_live_small pf st Hinv) in Hl as (i & d & _ & (Hr & _) & _).
      rewrite Eba in Hr. exact (reserved_not_free _ _ _ Hr (Hfree a Haa)).
    + apply (inv_live_large pf st Hinv) in Hl as ((Hr & _) & _).
      rewrite Eba in Hr. exact (reserved_not_free _ _ _ Hr (Hfree a Haa)).
  - intros q len [(i & d & x & k & Hd & Hx & Hk & Eq & Hnf & El) | (x & Hx & Eq & El)].
    + left. exists i, d, x, k. rewrite Hds.
      split; [exact Hd|]. split; [apply Hs1; exact Hx|]. split; [exact Hk|].
      split; [exact Eq|]. split; [exact Hnf | exact El].
    + right. exists x. split; [apply Hl1; exact Hx|]. split; [exact Eq|].
      destruct Hx as (Hr & _). rewrite (Hold x Hr). exact El.
Qed.

(** A block taken from the head of a free list. *)
Lemma heap_inv_take pf st st' i d b rest :
  heap_inv pf st -> heap_rel st st' ->
  get_descs (descs_of pf) st !! i = Some d -> free_list d = b :: rest ->
  get_descs (descs_of pf) st'
  = <[i := set_free_list rest d]> (get_descs (descs_of pf) st) ->
  (forall x, reserved pf st x ->
     arenas st' x = if x =? block2arena b
                    then set_cnt (wrap32 (cnt (arenas st x) - 1)) (arenas st x)
                    else arenas st x) ->
  heap_inv pf st'
  /\ live_small pf st' b (block_size d)
  /\ (forall len, ~ live pf st b len)
  /\ (forall q len, live pf st q len -> live pf st' q len).
Proof.
  intros Hinv Hrel Hd Hfl Hds Har.
  assert (b ∈ free_list d) as Hb by (rewrite Hfl; left).
  destruct (inv_block pf st Hinv i d b Hd Hb) as (Ha & k & Hk & Eb).
  set (a := block2arena b) in *.
  destruct (hi_class _ _ Hinv i d Hd) as [C1 C2 C3 C4].
  rewrite Hfl in C2. apply NoDup_cons in C2 as [Hnb Hnd].
  destruct (C4 a Ha) as [Hma Hca]. rewrite Hfl, in_arena_cons_in in Hca by reflexivity.
  cbn [length] in Hca.
  destruct (inv_cnt pf st Hinv i d a Hd Ha) as [Hc1 Hc2].
  assert (wrap32 (cnt (arenas st a) - 1) = cnt (arenas st a) - 1) as Hw
    by (apply wrap32_small; unfold PG_SIZE in *; lia).
  assert (forall x, reserved pf st x ->
            desc (arenas st' x) = desc (arenas st x)
            /\ large (arenas st' x) = large (arenas st x)
            /\ cnt (arenas st' x) = if x =? a then cnt (arenas st a) - 1 else cnt (arenas st x))
    as Hhdr.
  { intros x Hx. rewrite (Har x Hx).
    destruct (x =? a) eqn:E; [|repeat split].
    apply Z.eqb_eq in E. subst x. cbn [desc large cnt set_cnt]. rewrite Hw. repeat split. }
  assert (forall j x, small_arena pf st' j x <-> small_arena pf st j x) as Hs.
  { intros j x. unfold small_arena. rewrite (reserved_heap_rel pf st st' x Hrel).
    split; intros (Hr & H1 & H2); destruct (Hhdr x Hr) as (E1 & E2 & _);
      rewrite ?E1, ?E2 in *; (split; [exact Hr | split; assumption]). }
  assert (forall x, large_arena pf st' x <-> large_arena pf st x) as Hl.
  { intros x. unfold large_arena. rewrite (reserved_heap_rel pf st st' x Hrel).
    split; intros (Hr & H1 & H2); destruct (Hhdr x Hr) as (E1 & E2 & _);
      rewrite ?E1, ?E2 in *; (split; [exact Hr | split; assumption]). }
  split; [|split; [|split]].
  - split.
    + eapply heap_rel_pools_ok; [exact Hrel | apply (hi_pools _ _ Hinv)].
    + eapply heap_rel_vaddr_ok; [exact Hrel | apply (hi_vaddr _ _ Hinv)].
    + rewrite (proj1 (heap_rel_static st st' pf Hrel)). apply (hi_lo _ _ Hinv).
    + rewrite Hds, (map_block_size_insert _ _ _ _ Hd). apply (hi_classes _ _ Hinv).
    + rewrite (heap_rel_psize _ _ _ Hrel). apply (hi_psize _ _ Hinv).
    + intros j dj Hj. rewrite Hds in Hj.
      destruct (decide (j = i)) as [->|Hji].
      * rewrite list_lookup_insert_eq in Hj by (eapply lookup_lt_Some; exact Hd).
        injection Hj as <-. split.
        -- exact C1.
        -- exact Hnd.
        -- intros b' Hb'. cbn [free_list set_free_list] in Hb'.
           destruct (C3 b' ltac:(rewrite Hfl; right; exact Hb')) as (x & k' & Hx & Hk' & E).
           exists x, k'. split; [apply Hs; exact Hx | split; [exact Hk' | exact E]].
        -- intros x Hx. apply Hs in Hx. destruct (C4 x Hx) as [Hm Hc].
           split; [apply (mapped_heap_rel pf st st' x Hrel); exact Hm|].
           destruct Hx as (Hr & _). destruct (Hhdr x Hr) as (_ & _ & ->).
           cbn [free_list set_free_list].
           destruct (x =? a) eqn:E.
           ++ apply Z.eqb_eq in E. subst x. lia.
           ++ apply Z.eqb_neq in E. rewrite Hc, Hfl, in_arena_cons_out; [reflexivity|].
              fold a. congruence.
      * rewrite list_lookup_insert_ne in Hj by congruence.
        destruct (hi_class _ _ Hinv j dj Hj) as [D1 D2 D3 D4]. split; [exact D1 | exact D2 | |].
        -- intros b' Hb'. destruct (D3 b' Hb') as (x & k' & Hx & Hk' & E).
           exists x, k'. split; [apply Hs; exact Hx | split; assumption].
        -- intros x Hx. apply Hs in Hx. destruct (D4 x Hx) as [Hm Hc].
           split; [apply (mapped_heap_rel pf st st' x Hrel); exact Hm|].
           destruct Hx as (Hr & Hxd & _). destruct (Hhdr x Hr) as (_ & _ & ->).
           destruct (x =? a) eqn:E; [|exact Hc].
           apply Z.eqb_eq in E. subst x. destruct Ha as (_ & Had & _). congruence.
    + intros x Hx. apply Hl in Hx. destruct (hi_large _ _ Hinv x Hx) as (Hc & Hpages).
      assert (cnt (arenas st' x) = cnt (arenas st x)) as Ec.
      { destruct Hx as (Hr & _ & Hxl). destruct (Hhdr x Hr) as (_ & _ & ->).
        destruct (x =? a) eqn:E; [|reflexivity].
        apply Z.eqb_eq in E. subst x. destruct Ha as (_ & _ & Hal). congruence. }
      unfold large_inv. rewrite Ec. split; [exact Hc|].
      intros k' Hk'. destruct (Hpages k' Hk') as (Hkr & Hkm & Hki).
      split; [apply (reserved_heap_rel pf st st' _ Hrel); exact Hkr|].
      split; [apply (mapped_heap_rel pf st st' _ Hrel); exact Hkm|].
      destruct (Hhdr _ Hkr) as (-> & -> & _). exact Hki.
  - exists i, (set_free_list rest d), a, k.
    rewrite Hds, list_lookup_insert_eq by (eapply lookup_lt_Some; exact Hd).
    split; [reflexivity|]. split; [apply Hs; exact Ha|]. split; [exact Hk|].
    split; [exact Eb|]. split; [exact Hnb | reflexivity].
  - intros len [Hlv | Hlv].
    + apply (inv_live_small pf st Hinv) in Hlv as (i2 & d2 & Hd2 & Ha2 & _ & Hnf & _).
      fold a in Ha2. destruct Ha as (_ & Had & _). destruct Ha2 as (_ & Had2 & _).
      rewrite Had in Had2. injection Had2 as <-. rewrite Hd in Hd2. injection Hd2 as <-.
      contradiction.
    + apply (inv_live_large pf st Hinv) in Hlv as ((_ & _ & Hll) & _).
      fold a in Hll. destruct Ha as (_ & _ & Hal). congruence.
  - intros q len [(j & dj & x & k' & Hj & Hx & Hk' & Eq & Hnf & El) | (x & Hx & Eq & El)].
    + left. destruct (decide (j = i)) as [->|Hji].
      * rewrite Hd in Hj. injection Hj as <-.
        exists i, (set_free_list rest d), x, k'.
        rewrite Hds, list_lookup_insert_eq by (eapply lookup_lt_Some; exact Hd).
        split; [reflexivity|]. split; [apply Hs; exact Hx|]. split; [exact Hk'|].
        split; [exact Eq|]. split; [|exact El].
        cbn [free_list set_free_list]. intros Hin. apply Hnf. rewrite Hfl. right. exact Hin.
      * exists j, dj, x, k'. rewrite Hds, list_lookup_insert_ne by congruence.
        split; [exact Hj|]. split; [apply Hs; exact Hx|]. split; [exact Hk'|].
        split; [exact Eq|]. split; [exact Hnf | exact El].
    + right. exists x. split; [apply Hl; exact Hx|]. split; [exact Eq|].
      destruct Hx as (Hr & _ & Hxl). destruct (Hhdr x Hr) as (_ & _ & ->).
      destruct (x =? a) eqn:E; [|exact El].
      apply Z.eqb_eq in E. subst x. destruct Ha as (_ & _ & Hal). congruence.
Qed.

Lemma arena_blocks_slots d a :
  0 <= a -> desc_ok d -> a + PG_SIZE <= 2 ^ 32 ->
  arena_blocks a (block_size d) 0 (Z.to_nat (blocks_per_arena d)) = slots d a.
Proof.
  intros Ha (Hbs & Hbpa & Hfit) Htop. unfold slots.
  assert (forall n k : nat, Z.of_nat k + Z.of_nat n <= blocks_per_arena d ->
            arena_blocks a (block_size d) (Z.of_nat k) n
            = map (fun j : nat => slot d a (Z.of_nat j)) (seq k n)) as H.
  { induction n as [|n IH]; intros k Hk; [reflexivity|].
    cbn [arena_blocks seq map]. unfold sizeof_arena, PG_SIZE in *.
    rewrite (wrap32_small (Z.of_nat k + 1)) by nia.
    replace (Z.of_nat k + 1) with (Z.of_nat (S k)) by lia.
    rewrite IH by lia. f_equal. unfold slot, sizeof_arena. apply wrap32_small. nia. }
  apply (H (Z.to_nat (blocks_per_arena d)) 0%nat). lia.
Qed.

Lemma filter_all {A} (P : A -> Prop) `{forall x, Decision (P x)} (l : list A) :
  (forall x, x ∈ l -> P x) -> filter P l = l.
Proof.
  induction l as [|x l IH]; intros Hl; [reflexivity|].
  rewrite filter_cons_True by (apply Hl; left). f_equal. apply IH.
  intros y Hy. apply Hl. right. exact Hy.
Qed.

Lemma filter_none {A} (P : A -> Prop) `{forall x, Decision (P x)} (l : list A) :
  (forall x, x ∈ l -> ~ P x) -> filter P l = [].
Proof.
  induction l as [|x l IH]; intros Hl; [reflexivity|].
  rewrite filter_cons_False by (apply Hl; left). apply IH.
  intros y Hy. apply Hl. right. exact Hy.
Qed.

Lemma slots_NoDup d a :
  0 <= a -> desc_ok d -> a + PG_SIZE <= 2 ^ 32 -> NoDup (slots d a).
Proof.
  intros Ha Hok Htop. rewrite <- arena_blocks_slots by assumption.
  destruct Hok as (Hbs & Hbpa & Hfit).
  apply arena_blocks_NoDup; unfold sizeof_arena, PG_SIZE in *; lia.
Qed.

(** A page turned into an arena of blocks, all of them free. *)
Lemma heap_inv_new_arena pf st st' i d a :
  heap_inv pf st ->
  pools_ok st' -> vaddr_ok pf st' ->
  vaddr_start (get_vaddr pf st') = vaddr_start (get_vaddr pf st) ->
  pool_size (get_pool (pool_of pf) st') = pool_size (get_pool (pool_of pf) st) ->
  get_descs (descs_of pf) st !! i = Some d -> free_list d = [] ->
  get_descs (descs_of pf) st'
  = <[i := set_free_list (slots d a) d]> (get_descs (descs_of pf) st) ->
  page_free pf st a ->
  (forall x, reserved pf st' x <-> reserved pf st x \/ x = a) ->
  mapped pf st' a ->
  (forall x, reserved pf st x -> mapped pf st x -> mapped pf st' x) ->
  arenas st' a = mk_arena (Some (descs_of pf, i)) false (blocks_per_arena d) ->
  (forall x, reserved pf st x -> arenas st' x = arenas st x) ->
  heap_inv pf st' /\ (forall q len, live pf st q len -> live pf st' q len).
Proof.
  intros Hinv Hpools' Hvaddr' Hvs Hps Hd Hfl Hds Hfree Hres Hmapn Hmapo Hhdr Hold.
  assert (forall j x, small_arena pf st j x -> small_arena pf st' j x) as Hs1.
  { intros j x (Hr & Hxd & Hxl). split; [apply Hres; left; exact Hr|].
    rewrite (Hold x Hr). split; assumption. }
  assert (forall j x, small_arena pf st' j x -> small_arena pf st j x \/ (x = a /\ j = i)) as Hs2.
  { intros j x (Hr & Hxd & Hxl). apply Hres in Hr as [Hr | ->].
    - left. rewrite (Hold x Hr) in Hxd, Hxl. split; [exact Hr | split; assumption].
    - right. rewrite Hhdr in Hxd. cbn [desc] in Hxd. injection Hxd as ->. split; reflexivity. }
  assert (small_arena pf st' i a) as Hsa.
  { split; [apply Hres; right; reflexivity|]. rewrite Hhdr. split; reflexivity. }
  assert (forall x, large_arena pf st x -> large_arena pf st' x) as Hl1.
  { intros x (Hr & Hxd & Hxl). split; [apply Hres; left; exact Hr|].
    rewrite (Hold x Hr). split; assumption. }
  assert (forall x, large_arena pf st' x -> large_arena pf st x) as Hl2.
  { intros x (Hr & Hxd & Hxl). apply Hres in Hr as [Hr | ->].
    - rewrite (Hold x Hr) in Hxd, Hxl. split; [exact Hr | split; assumption].
    - rewrite Hhdr in Hxl. discriminate. }
  destruct (inv_page pf st Hinv a (or_intror Hfree)) as (A1 & A2 & A3 & A4).
  destruct (hi_class _ _ Hinv i d Hd) as [C1 C2 C3 C4].
  assert (forall x, x ∈ slots d a -> block2arena x = a) as Hsl.
  { intros x Hx. apply slots_elem in Hx as (k & Hk & ->).
    apply (slot_in_page d a k C1 A1 A2 A3 Hk). }
  split.
  - split.
    + exact Hpools'.
    + exact Hvaddr'.
    + rewrite Hvs. apply (hi_lo _ _ Hinv).
    + rewrite Hds, (map_block_size_insert _ _ _ _ Hd). apply (hi_classes _ _ Hinv).
    + rewrite Hps. apply (hi_psize _ _ Hinv).
    + intros j dj Hj. rewrite Hds in Hj.
      destruct (decide (j = i)) as [->|Hji].
      * rewrite list_lookup_insert_eq in Hj by (eapply lookup_lt_Some; exact Hd).
        injection Hj as <-. split.
        -- exact C1.
        -- cbn [free_list set_free_list]. apply slots_NoDup; assumption.
        -- intros b Hb. cbn [free_list set_free_list] in Hb.
           apply slots_elem in Hb as (k & Hk & ->).
           exists a, k. split; [exact Hsa | split; [exact Hk | reflexivity]].
        -- intros x Hx. cbn [free_list set_free_list].
           destruct (Hs2 i x Hx) as [Hx' | [-> _]].
           ++ destruct (C4 x Hx') as [Hm Hc]. destruct Hx' as (Hr & _).
              split; [apply Hmapo; assumption|].
              rewrite (Hold x Hr), Hc, Hfl. unfold in_arena at 2.
              rewrite filter_none; [reflexivity|].
              intros y Hy E. rewrite (Hsl y Hy) in E. subst x.
              exact (reserved_not_free _ _ _ Hr Hfree).
           ++ split; [exact Hmapn|]. rewrite Hhdr. cbn [cnt].
              unfold in_arena. rewrite filter_all by exact Hsl.
              rewrite slots_length. destruct C1 as (_ & Hbpa & _). lia.
      * rewrite list_lookup_insert_ne in Hj by congruence.
        destruct (hi_class _ _ Hinv j dj Hj) as [D1 D2 D3 D4]. split; [exact D1 | exact D2 | |].
        -- intros b Hb. destruct (D3 b Hb) as (x & k & Hx & Hk & E).
           exists x, k. split; [apply Hs1; exact Hx | split; assumption].
        -- intros x Hx. destruct (Hs2 j x Hx) as [Hx' | [_ ->]]; [|congruence].
           destruct (D4 x Hx') as [Hm Hc]. destruct Hx' as (Hr & _).
           split; [apply Hmapo; assumption|]. rewrite (Hold x Hr). exact Hc.
    + intros x Hx. apply Hl2 in Hx. destruct (hi_large _ _ Hinv x Hx) as (Hc & Hpages).
      destruct Hx as (Hr & _). unfold large_inv. rewrite (Hold x Hr).
      split; [exact Hc|]. intros k Hk. destruct (Hpages k Hk) as (Hkr & Hkm & Hki).
      split; [apply Hres; left; exact Hkr|]. split; [apply Hmapo; assumption|].
      rewrite (Hold _ Hkr). exact Hki.
  - intros q len [(j & dj & x & k & Hj & Hx & Hk & Eq & Hnf & El) | (x & Hx & Eq & El)].
    + left. destruct (decide (j = i)) as [->|Hji].
      * rewrite Hd in Hj. injection Hj as <-.
        exists i, (set_free_list (slots d a) d), x, k.
        rewrite Hds, list_lookup_insert_eq by (eapply lookup_lt_Some; exact Hd).
        split; [reflexivity|]. split; [apply Hs1; exact Hx|]. split; [exact Hk|].
        split; [exact Eq|]. split; [|exact El].
        cbn [free_list set_free_list]. intros Hin. apply Hsl in Hin.
        rewrite Eq in Hin.
        destruct (inv_slot pf st Hinv i d x k Hd Hx Hk) as (_ & _ & E).
        rewrite E in Hin. subst x. destruct Hx as (Hr & _).
        exact (reserved_not_free _ _ _ Hr Hfree).
      * exists j, dj, x, k. rewrite Hds, list_lookup_insert_ne by congruence.
        split; [exact Hj|]. split; [apply Hs1; exact Hx|]. split; [exact Hk|].
        split; [exact Eq|]. split; [exact Hnf | exact El].
    + right. exists x. split; [apply Hl1; exact Hx|]. split; [exact Eq|].
      destruct Hx as (Hr & _). rewrite (Hold x Hr). exact El.
Qed.

(** ** sys_malloc keeps the invariant *)

(** States that differ in nothing the invariant reads. *)
Lemma heap_same pf st st' :
  heap_rel st st' -> arenas st' = arenas st ->
  get_descs (descs_of pf) st' = get_descs (descs_of pf) st ->
  (heap_inv pf st -> heap_inv pf st')
  /\ (forall q len, live pf st q len <-> live pf st' q len).
Proof.
  intros Hrel Har Hds.
  assert (forall i x, small_arena pf st' i x <-> small_arena pf st i x) as Hs.
  { intros i x. unfold small_arena.
    rewrite (reserved_heap_rel pf st st' x Hrel), Har. reflexivity. }
  assert (forall x, large_arena pf st' x <-> large_arena pf st x) as Hl.
  { intros x. unfold large_arena.
    rewrite (reserved_heap_rel pf st st' x Hrel), Har. reflexivity. }
  split.
  - intros Hinv. split.
    + eapply heap_rel_pools_ok; [exact Hrel | apply (hi_pools _ _ Hinv)].
    + eapply heap_rel_vaddr_ok; [exact Hrel | apply (hi_vaddr _ _ Hinv)].
    + rewrite (proj1 (heap_rel_static st st' pf Hrel)). apply (hi_lo _ _ Hinv).
    + rewrite Hds. apply (hi_classes _ _ Hinv).
    + rewrite (heap_rel_psize _ _ _ Hrel). apply (hi_psize _ _ Hinv).
    + intros i d Hd. rewrite Hds in Hd.
      destruct (hi_class _ _ Hinv i d Hd) as [C1 C2 C3 C4]. split; [exact C1 | exact C2 | |].
      * intros b Hb. destruct (C3 b Hb) as (x & k & Hx & Hk & E).
        exists x, k. split; [apply Hs; exact Hx | split; assumption].
      * intros x Hx. apply Hs in Hx. destruct (C4 x Hx) as [Hm Hc].
        split; [apply (mapped_heap_rel pf st st' x Hrel); exact Hm|]. rewrite Har. exact Hc.
    + intros x Hx. apply Hl in Hx. destruct (hi_large _ _ Hinv x Hx) as (Hc & Hp).
      unfold large_inv. rewrite Har. split; [exact Hc|].
      intros k Hk. destruct (Hp k Hk) as (A & B & C).
      split; [apply (reserved_heap_rel pf st st' _ Hrel); exact A|].
      split; [apply (mapped_heap_rel pf st st' _ Hrel); exact B | exact C].
  - intros q len. unfold live, live_small, live_large. rewrite Hds, Har.
    split; (intros [(i & d & x & k & H1 & H2 & H3) | (x & H1 & H2)];
            [left; exists i, d, x, k; split; [exact H1|]; split; [apply Hs; exact H2 | exact H3]
            | right; exists x; split; [apply Hl; exact H1 | exact H2]]).
Qed.

Lemma arenas_zeroed dst size st x :
  arenas (zeroed dst size st) x
  = if (dst <=? x) && (x <? dst + size) then zero_arena else arenas st x.
Proof. reflexivity. Qed.

Lemma get_descs_zeroed da dst size st : get_descs da (zeroed dst size st) = get_descs da st.
Proof. destruct da; reflexivity. Qed.

Lemma in_run_range a n x :
  a mod PG_SIZE = 0 -> x mod PG_SIZE = 0 -> a <= x < a + n * PG_SIZE -> in_run a n x.
Proof.
  intros Ha Hx Hr. unfold PG_SIZE in *.
  pose proof (Z.div_mod a 4096 ltac:(lia)). pose proof (Z.div_mod x 4096 ltac:(lia)).
  exists (x / 4096 - a / 4096). unfold PG_SIZE. split; lia.
Qed.

Lemma in_run_one a x : in_run a 1 x <-> x = a.
Proof.
  split.
  - intros (k & Hk & ->). assert (k = 0) as -> by lia. lia.
  - intros ->. exists 0. split; lia.
Qed.

(** The headers after a block was taken. *)
Lemma arenas_taken_reserved pf da i mp d b rest st :
  heap_inv pf st -> get_descs (descs_of pf) st !! i = Some d -> b ∈ free_list d ->
  forall x, reserved pf st x ->
    arenas (taken da i mp d b rest st) x
    = if x =? block2arena b
      then set_cnt (wrap32 (cnt (arenas st x) - 1)) (arenas st x)
      else arenas st x.
Proof.
  intros Hinv Hd Hb x Hr.
  destruct (inv_block pf st Hinv i d b Hd Hb) as (Ha & k & Hk & Eb).
  destruct (inv_slot pf st Hinv i d _ k Hd Ha Hk) as (S1 & S2 & _). rewrite <- Eb in S1, S2.
  destruct (x =? block2arena b) eqn:E.
  - apply Z.eqb_eq in E. subst x. apply arenas_taken_arena. unfold sizeof_arena in S1. lia.
  - apply Z.eqb_neq in E. rewrite arenas_taken_other by exact E.
    destruct Ha as (Har & _).
    replace ((b <=? x) && (x <? b + block_size d)) with false; [reflexivity|].
    symmetry. apply andb_false_iff.
    destruct (reserved_pages pf st x _ Hr Har) as [H | [H | H]]; [contradiction | |];
      unfold sizeof_arena, PG_SIZE in *; [left; apply Z.leb_gt | right; apply Z.ltb_ge]; lia.
Qed.

(** The block taken from the free list of descriptor [i] is a block of
    an arena of descriptor [i], before and after. *)
Lemma take_class pf st st' i d b rest :
  heap_inv pf st -> heap_rel st st' ->
  get_descs (descs_of pf) st !! i = Some d -> free_list d = b :: rest ->
  (forall x, reserved pf st x ->
     arenas st' x = if x =? block2arena b
                    then set_cnt (wrap32 (cnt (arenas st x) - 1)) (arenas st x)
                    else arenas st x) ->
  small_arena pf st' i (block2arena b)
  /\ exists k, 0 <= k < blocks_per_arena d /\ b = slot d (block2arena b) k.
Proof.
  intros Hinv Hrel Hd Hfl Har.
  assert (b ∈ free_list d) as Hb by (rewrite Hfl; left).
  destruct (inv_block pf st Hinv i d b Hd Hb) as ((Hr & Hde & Hla) & Hk).
  split; [|exact Hk].
  split; [apply (reserved_heap_rel pf st st' _ Hrel); exact Hr|].
  rewrite (Har _ Hr), Z.eqb_refl. cbn [desc large set_cnt]. split; assumption.
Qed.

(** What a successful sys_malloc establishes: the invariant still holds,
    the pointer returned is live with at least the bytes asked for, it
    was not live before, and every pointer that was live stays live. *)
Definition malloc_post (pf : pool_flags) (st st' : state) (p size : Z) : Prop :=
  heap_inv pf st'
  /\ (exists len, size <= len /\ live pf st' p len)
  /\ (forall len, ~ live pf st p len)
  /\ (forall q len, live pf st q len -> live pf st' q len).

Lemma sys_malloc_heap_class size st p st' :
  heap_inv (caller_pf st) st -> sys_malloc size st = Ret p st' -> p <> NULL ->
  caller_pf st' = caller_pf st /\ malloc_post (caller_pf st) st st' p size
  /\ (size <= 1024 ->
      forall d,
        get_descs (descs_of (caller_pf st)) st
        !! find_desc (get_descs (descs_of (caller_pf st)) st) size 0 (Z.to_nat DESC_CNT)
        = Some d ->
        small_arena (caller_pf st) st'
          (find_desc (get_descs (descs_of (caller_pf st)) st) size 0 (Z.to_nat DESC_CNT))
          (block2arena p)
        /\ exists k, 0 <= k < blocks_per_arena d /\ p = slot d (block2arena p) k).
Proof.
  intros Hinv Hret Hp. rewrite sys_malloc_eq in Hret.
  assert (caller_pool_size st = pool_size (get_pool (pool_of (caller_pf st)) st)) as Eps.
  { unfold caller_pool_size, caller_pf. destruct (pgdir (cur st) =? NULL); reflexivity. }
  rewrite Eps in Hret.
  assert (forall s, pgdir (cur s) = pgdir (cur st) -> caller_pf s = caller_pf st) as Hcaller.
  { intros s E. unfold caller_pf. rewrite E. reflexivity. }
  set (pf := caller_pf st) in *. set (mp := pool_of pf) in *. set (da := descs_of pf) in *.
  apply sys_malloc_in_Ret in Hret as [Hsize Hm]; [|exact Hp].
  pose proof (hi_psize _ _ Hinv) as Hpsz. fold mp in Hpsz.
  set (sa := locked mp st) in *.
  assert (heap_rel st sa) as Hrela by (apply heap_rel_locked, heap_rel_refl).
  destruct (heap_same pf st sa Hrela (arenas_locked mp st) (get_descs_locked _ mp st))
    as [Hinv_a Hlive_a].
  specialize (Hinv_a Hinv).
  assert (pgdir (cur st') = pgdir (cur sa) /\ malloc_post pf sa st' p size
          /\ (size <= 1024 ->
              forall d,
                get_descs da sa !! find_desc (get_descs da sa) size 0 (Z.to_nat DESC_CNT)
                = Some d ->
                small_arena pf st' (find_desc (get_descs da sa) size 0 (Z.to_nat DESC_CNT))
                  (block2arena p)
                /\ exists k, 0 <= k < blocks_per_arena d /\ p = slot d (block2arena p) k))
    as (Hpg & Hpost & Hclass).
  2:{ split; [|split].
      - apply Hcaller. rewrite Hpg. apply (heap_rel_pgdir _ _ Hrela).
      - destruct Hpost as (H1 & H2 & H3 & H4). split; [exact H1|]. split; [exact H2|]. split.
        + intros len Hl. apply (H3 len). apply Hlive_a. exact Hl.
        + intros q len Hl. apply H4. apply Hlive_a. exact Hl.
      - unfold sa in Hclass. rewrite get_descs_locked in Hclass. exact Hclass. }
  destruct (1024 <? size) eqn:Ebig.
  - apply Z.ltb_lt in Ebig.
    apply sys_malloc_large_Ret in Hm as (a & s1 & Hmp & Ha & Hpa & ->); [|exact Hp].
    set (n := DIV_ROUND_UP (wrap32 (size + sizeof_arena)) PG_SIZE) in *.
    destruct (malloc_page_heap pf n sa a s1 (hi_pools _ _ Hinv_a) (hi_vaddr _ _ Hinv_a) Hmp Ha)
      as (Hp1 & Hv1 & Hvs1 & Har1 & Hds1 & Hn & Ha4 & Hal & Htop & Hfree & Hres & Hmapn & Hmapo).
    pose proof (malloc_page_page_rel _ _ _ _ _ Hmp) as Hprel.
    set (s2 := with_arena a (mk_arena None true n) (zeroed a (wrap32 (n * PG_SIZE)) s1)).
    assert (heap_rel s1 s2) as Hrel2 by (subst s2; auto with heap).
    assert (wrap32 (n * PG_SIZE) = n * PG_SIZE) as Hw
      by (apply wrap32_small; unfold PG_SIZE in *; lia).
    assert (forall x, reserved pf sa x -> ~ in_run a n x) as Hnr.
    { intros x Hr Hin. exact (reserved_not_free _ _ _ Hr (Hfree x Hin)). }
    destruct (heap_inv_alloc_large pf sa s2 a n Hinv_a) as (I & L & NL & K).
    + eapply heap_rel_pools_ok; eassumption.
    + eapply heap_rel_vaddr_ok; eassumption.
    + rewrite (proj1 (heap_rel_static s1 s2 pf Hrel2)). exact Hvs1.
    + subst s2. rewrite get_descs_with_arena, get_descs_zeroed. exact Hds1.
    + rewrite (heap_rel_psize _ _ _ Hrel2). apply page_rel_psize. exact Hprel.
    + exact Hn.
    + exact Hfree.
    + intros x. rewrite (reserved_heap_rel pf s1 s2 x Hrel2). apply Hres.
    + intros x Hx. apply (mapped_heap_rel pf s1 s2 x Hrel2). apply Hmapn. exact Hx.
    + intros x Hr Hm'. apply (mapped_heap_rel pf s1 s2 x Hrel2). apply Hmapo; assumption.
    + subst s2. rewrite arenas_with_arena, Z.eqb_refl. reflexivity.
    + intros x (k & Hk & ->) Hne. subst s2.
      rewrite arenas_with_arena, (proj2 (Z.eqb_neq _ _) Hne), arenas_zeroed, Hw.
      replace ((a <=? a + k * PG_SIZE) && (a + k * PG_SIZE <? a + n * PG_SIZE)) with true;
        [reflexivity|].
      symmetry. apply andb_true_iff.
      split; [apply Z.leb_le | apply Z.ltb_lt]; unfold PG_SIZE in *; lia.
    + intros x Hr. subst s2. rewrite arenas_with_arena.
      destruct (x =? a) eqn:E.
      { apply Z.eqb_eq in E. subst x. exfalso. apply (Hnr a Hr). exists 0. split; lia. }
      rewrite arenas_zeroed, Hw, Har1.
      destruct ((a <=? x) && (x <? a + n * PG_SIZE)) eqn:E2; [|reflexivity].
      exfalso. apply andb_true_iff in E2 as [E3 E4]. apply Z.leb_le in E3. apply Z.ltb_lt in E4.
      apply (Hnr x Hr). apply in_run_range; [exact Hal | | lia].
      apply (inv_page pf sa Hinv_a x (or_introl Hr)).
    + destruct (heap_same pf s2 (unlocked mp s2)) as [Hi Hlv];
        [apply heap_rel_unlocked, heap_rel_refl | apply arenas_unlocked
        | apply get_descs_unlocked |].
      split; [|split; [|intros Hle; lia]].
      * rewrite (heap_rel_pgdir s1 (unlocked mp s2)) by (apply heap_rel_unlocked; exact Hrel2).
        apply (page_rel_frame _ _ Hprel).
      * unfold sizeof_arena, PG_SIZE in *.
        rewrite wrap32_small in Hpa by lia. subst p.
        split; [apply Hi; exact I|]. split; [|split].
        -- exists (n * 4096 - 12). split.
           ++ assert (size + 12 <= n * 4096); [|lia].
              subst n. change 4096 with PG_SIZE.
              rewrite DIV_ROUND_UP_ceil by (unfold PG_SIZE; lia).
              apply ceil_div_ge. lia.
           ++ apply Hlv. right. exact L.
        -- exact NL.
        -- intros q len Hq. apply Hlv. apply K. exact Hq.
  - apply Z.ltb_ge in Ebig.
    destruct (find_desc_smallest _ size (hi_classes _ _ Hinv_a) ltac:(lia)) as (d0 & Hd0 & Hfit & _).
    fold da in Hd0.
    apply sys_malloc_small_Ret in Hm; [|exact Hp].
    set (i := find_desc (get_descs da sa) size 0 (Z.to_nat DESC_CNT)) in *.
    destruct Hm as (d & Hd & [(_ & d' & b & rest & Hd' & Hfl & -> & ->)
                              | (Hfl & a & s1 & d' & b & rest & Hmp & Ha & Hd' & Hfl' & -> & ->)]).
    + rewrite Hd0 in Hd'. injection Hd' as <-.
      assert (b ∈ free_list d0) as Hb by (rewrite Hfl; left).
      destruct (heap_inv_take pf sa (taken da i mp d0 b rest sa) i d0 b rest Hinv_a)
        as (I & L & NL & K).
      * apply heap_rel_taken, heap_rel_refl.
      * exact Hd0.
      * exact Hfl.
      * rewrite get_descs_taken, get_descs_set_desc. reflexivity.
      * apply (arenas_taken_reserved pf da i mp d0 b rest sa Hinv_a Hd0 Hb).
      * split; [|split].
        -- apply heap_rel_pgdir. apply heap_rel_taken, heap_rel_refl.
        -- split; [exact I|]. split; [|split; [exact NL | exact K]].
           exists (block_size d0). split; [exact Hfit | left; exact L].
        -- intros _ dd Hdd. fold i in Hdd. rewrite Hd0 in Hdd. injection Hdd as <-.
           apply (take_class pf sa (taken da i mp d0 b rest sa) i d0 b rest Hinv_a
                    (heap_rel_taken _ _ _ _ _ _ _ _ (heap_rel_refl sa)) Hd0 Hfl).
           apply (arenas_taken_reserved pf da i mp d0 b rest sa Hinv_a Hd0 Hb).
    + rewrite Hd0 in Hd. injection Hd as <-.
      destruct (malloc_page_heap pf 1 sa a s1 (hi_pools _ _ Hinv_a) (hi_vaddr _ _ Hinv_a) Hmp Ha)
        as (Hp1 & Hv1 & Hvs1 & Har1 & Hds1 & _ & Ha4 & Hal & Htop & Hfree & Hres & Hmapn & Hmapo).
      pose proof (malloc_page_page_rel _ _ _ _ _ Hmp) as Hprel.
      destruct (hi_class _ _ Hinv_a i d0 Hd0) as [Hok _ _ _].
      assert (arena_blocks a (block_size d0) 0 (Z.to_nat (blocks_per_arena d0)) = slots d0 a)
        as Eblocks by (apply arena_blocks_slots; unfold PG_SIZE in *; [lia | exact Hok | lia]).
      rewrite Eblocks in *.
      set (s2 := new_arena da i d0 a (slots d0 a) s1) in *.
      assert (heap_rel s1 s2) as Hrel2 by (apply heap_rel_new_arena, heap_rel_refl).
      assert (page_free pf sa a) as Hfa by (apply Hfree, in_run_one; reflexivity).
      assert (get_descs da s2 = <[i := set_free_list (slots d0 a) d0]> (get_descs da sa)) as Hds2.
      { subst s2. rewrite get_descs_new_arena, get_descs_set_desc, Hfl, app_nil_l.
        unfold da. rewrite Hds1. reflexivity. }
      destruct (heap_inv_new_arena pf sa s2 i d0 a Hinv_a) as (I2 & K2).
      * eapply heap_rel_pools_ok; eassumption.
      * eapply heap_rel_vaddr_ok; eassumption.
      * rewrite (proj1 (heap_rel_static s1 s2 pf Hrel2)). exact Hvs1.
      * rewrite (heap_rel_psize _ _ _ Hrel2). apply page_rel_psize. exact Hprel.
      * exact Hd0.
      * exact Hfl.
      * exact Hds2.
      * exact Hfa.
      * intros x. rewrite (reserved_heap_rel pf s1 s2 x Hrel2), Hres, in_run_one. reflexivity.
      * apply (mapped_heap_rel pf s1 s2 a Hrel2). apply Hmapn, in_run_one. reflexivity.
      * intros x Hr Hm'. apply (mapped_heap_rel pf s1 s2 x Hrel2). apply Hmapo; assumption.
      * subst s2. rewrite arenas_new_arena, Z.eqb_refl. reflexivity.
      * intros x Hr. subst s2. rewrite arenas_new_arena.
        destruct (x =? a) eqn:E.
        { apply Z.eqb_eq in E. subst x. exfalso. exact (reserved_not_free _ _ _ Hr Hfa). }
        rewrite Har1.
        destruct ((a <=? x) && (x <? a + PG_SIZE)) eqn:E2; [|reflexivity].
        exfalso. apply andb_true_iff in E2 as [E3 E4]. apply Z.leb_le in E3. apply Z.ltb_lt in E4.
        apply Z.eqb_neq in E. apply E. apply in_run_one.
        apply in_run_range; [exact Hal | | lia].
        apply (inv_page pf sa Hinv_a x (or_introl Hr)).
      * fold da in Hds2. rewrite Hds2 in Hd'.
        rewrite list_lookup_insert_eq in Hd' by (eapply lookup_lt_Some; exact Hd0).
        injection Hd' as <-. cbn [free_list set_free_list] in Hfl'.
        assert (get_descs (descs_of pf) s2 !! i = Some (set_free_list (slots d0 a) d0)) as Hd2.
        { fold da. rewrite Hds2. apply list_lookup_insert_eq. eapply lookup_lt_Some. exact Hd0. }
        assert (b ∈ free_list (set_free_list (slots d0 a) d0)) as Hb
          by (cbn [free_list set_free_list]; rewrite Hfl'; left).
        destruct (heap_inv_take pf s2 (taken da i mp (set_free_list (slots d0 a) d0) b rest s2)
                    i (set_free_list (slots d0 a) d0) b rest I2) as (I & L & NL & K).
        -- apply heap_rel_taken, heap_rel_refl.
        -- exact Hd2.
        -- exact Hfl'.
        -- rewrite get_descs_taken, get_descs_set_desc. reflexivity.
        -- apply (arenas_taken_reserved pf da i mp _ b rest s2 I2 Hd2 Hb).
        -- split; [|split].
           ++ rewrite (heap_rel_pgdir s1) by (apply heap_rel_taken; exact Hrel2).
              apply (page_rel_frame _ _ Hprel).
           ++ split; [exact I|]. split; [|split].
              ** exists (block_size d0). split; [exact Hfit | left; exact L].
              ** intros len Hl. apply (NL len). apply K2. exact Hl.
              ** intros q len Hq. apply K. apply K2. exact Hq.
           ++ intros _ dd Hdd. fold i in Hdd. rewrite Hd0 in Hdd. injection Hdd as <-.
              apply (take_class pf s2 (taken da i mp (set_free_list (slots d0 a) d0) b rest s2)
                       i (set_free_list (slots d0 a) d0) b rest I2
                       (heap_rel_taken _ _ _ _ _ _ _ _ (heap_rel_refl s2)) Hd2 Hfl').
              apply (arenas_taken_reserved pf da i mp _ b rest s2 I2 Hd2 Hb).
Qed.

Lemma sys_malloc_heap size st p st' :
  heap_inv (caller_pf st) st -> sys_malloc size st = Ret p st' -> p <> NULL ->
  caller_pf st' = caller_pf st /\ malloc_post (caller_pf st) st st' p size.
Proof.
  intros Hinv Hret Hp.
  destruct (sys_malloc_heap_class size st p st' Hinv Hret Hp) as (H1 & H2 & _).
  split; assumption.
Qed.

(** ** The steps of sys_free keep the invariant *)

(** Two runs share no page. *)
Lemma inv_runs_disjoint pf st a b y :
  heap_inv pf st -> large_arena pf st a -> large_arena pf st b -> a <> b ->
  in_run a (cnt (arenas st a)) y -> in_run b (cnt (arenas st b)) y -> False.
Proof.
  intros Hinv Ha Hb Hne (k & Hk & Ey) (k' & Hk' & Ey'). unfold PG_SIZE in *.
  destruct (Z_lt_le_dec k k') as [Hlt | Hge].
  - apply (inv_large_not_run pf st Hinv a b Ha Hb Hne).
    exists (k' - k). unfold PG_SIZE. split; lia.
  - apply (inv_large_not_run pf st Hinv b a Hb Ha ltac:(congruence)).
    exists (k - k'). unfold PG_SIZE. split; lia.
Qed.

(** An arena that counts all its blocks has them all on the free list. *)
Lemma inv_full pf st i d a :
  heap_inv pf st -> get_descs (descs_of pf) st !! i = Some d -> small_arena pf st i a ->
  cnt (arenas st a) = blocks_per_arena d ->
  forall x, x ∈ slots d a -> x ∈ free_list d.
Proof.
  intros Hinv Hd Ha Hc x Hx.
  destruct (ci_arenas _ _ _ _ (hi_class _ _ Hinv i d Hd) a Ha) as [_ Hcnt].
  pose proof (inv_count pf st Hinv i d a Hd Ha) as Hsub.
  assert (in_arena a (free_list d) ≡ₚ slots d a) as Hperm.
  { apply submseteq_length_Permutation; [exact Hsub|]. rewrite slots_length. lia. }
  rewrite <- Hperm in Hx. apply in_arena_elem in Hx. apply Hx.
Qed.

(** A run of pages given back. *)
Lemma heap_inv_free_large pf st st' a :
  heap_inv pf st -> large_arena pf st a ->
  pools_ok st' -> vaddr_ok pf st' ->
  vaddr_start (get_vaddr pf st') = vaddr_start (get_vaddr pf st) ->
  pool_size (get_pool (pool_of pf) st') = pool_size (get_pool (pool_of pf) st) ->
  arenas st' = arenas st ->
  get_descs (descs_of pf) st' = get_descs (descs_of pf) st ->
  (forall x, reserved pf st' x <-> reserved pf st x /\ ~ in_run a (cnt (arenas st a)) x) ->
  (forall x, mapped pf st' x <-> mapped pf st x) ->
  heap_inv pf st'
  /\ (forall len, ~ live pf st' (a + sizeof_arena) len)
  /\ (forall q len, q <> a + sizeof_arena -> live pf st q len -> live pf st' q len).
Proof.
  intros Hinv Ha Hpools' Hvaddr' Hvs Hps Har Hds Hres Hmap.
  destruct (hi_large _ _ Hinv a Ha) as (Hn & _).
  assert (in_run a (cnt (arenas st a)) a) as Haa by (exists 0; split; lia).
  assert (forall i x, small_arena pf st' i x <-> small_arena pf st i x) as Hs.
  { intros i x. unfold small_arena. rewrite Har, Hres. split.
    - intros ((Hr & _) & H1 & H2). split; [exact Hr | split; assumption].
    - intros (Hr & H1 & H2). split; [|split; assumption]. split; [exact Hr|].
      apply (inv_small_not_run pf st Hinv i x a); [|exact Ha].
      split; [exact Hr | split; assumption]. }
  assert (forall x, large_arena pf st' x <-> large_arena pf st x /\ x <> a) as Hl.
  { intros x. unfold large_arena. rewrite Har, Hres. split.
    - intros ((Hr & Hnr) & H1 & H2). split; [split; [exact Hr | split; assumption]|].
      intros ->. contradiction.
    - intros ((Hr & H1 & H2) & Hne). split; [|split; assumption]. split; [exact Hr|].
      apply (inv_large_not_run pf st Hinv x a); [|exact Ha | exact Hne].
      split; [exact Hr | split; assumption]. }
  assert (heap_inv pf st') as Hinv'.
  { split.
    - exact Hpools'.
    - exact Hvaddr'.
    - rewrite Hvs. apply (hi_lo _ _ Hinv).
    - rewrite Hds. apply (hi_classes _ _ Hinv).
    - rewrite Hps. apply (hi_psize _ _ Hinv).
    - intros i d Hd. rewrite Hds in Hd.
      destruct (hi_class _ _ Hinv i d Hd) as [C1 C2 C3 C4]. split; [exact C1 | exact C2 | |].
      + intros b Hb. destruct (C3 b Hb) as (x & k & Hx & Hk & E).
        exists x, k. split; [apply Hs; exact Hx | split; assumption].
      + intros x Hx. apply Hs in Hx. destruct (C4 x Hx) as [Hm Hc].
        split; [apply Hmap; exact Hm|]. rewrite Har. exact Hc.
    - intros x Hx. apply Hl in Hx as [Hx Hne].
      destruct (hi_large _ _ Hinv x Hx) as (Hc & Hp).
      unfold large_inv. rewrite Har. split; [exact Hc|].
      intros k Hk. destruct (Hp k Hk) as (A & B & C).
      split; [|split; [apply Hmap; exact B | exact C]].
      apply Hres. split; [exact A|]. intros Hin.
      apply (inv_runs_disjoint pf st x a (x + k * PG_SIZE) Hinv Hx Ha Hne);
        [exists k; split; [exact Hk | reflexivity] | exact Hin]. }
  split; [exact Hinv'|]. split.
  - destruct Ha as (Hr & _).
    destruct (inv_page pf st Hinv a (or_introl Hr)) as (A1 & A2 & A3 & A4).
    assert (block2arena (a + sizeof_arena) = a) as Eba
      by (apply block2arena_page; unfold sizeof_arena, PG_SIZE in *; lia).
    intros len [Hlv | Hlv].
    + apply (inv_live_small pf st' Hinv') in Hlv as (i & d & _ & (Hr' & _) & _).
      rewrite Eba in Hr'. apply Hres in Hr' as [_ Hnr]. contradiction.
    + apply (inv_live_large pf st' Hinv') in Hlv as ((Hr' & _) & _).
      rewrite Eba in Hr'. apply Hres in Hr' as [_ Hnr]. contradiction.
  - intros q len Hq [(i & d & x & k & Hd & Hx & Hk & Eq & Hnf & El) | (x & Hx & Eq & El)].
    + left. exists i, d, x, k. rewrite Hds.
      split; [exact Hd|]. split; [apply Hs; exact Hx|]. split; [exact Hk|].
      split; [exact Eq|]. split; [exact Hnf | exact El].
    + right. exists x. rewrite Har. split; [|split; [exact Eq | exact El]].
      apply Hl. split; [exact Hx|]. intros ->. contradiction.
Qed.

(** A block put back at the tail of its free list. *)
Lemma heap_inv_put_back pf st st' i d a k :
  heap_inv pf st -> heap_rel st st' ->
  get_descs (descs_of pf) st !! i = Some d -> small_arena pf st i a ->
  0 <= k < blocks_per_arena d -> slot d a k ∉ free_list d ->
  get_descs (descs_of pf) st'
  = <[i := set_free_list (free_list d ++ [slot d a k]) d]> (get_descs (descs_of pf) st) ->
  (forall x, reserved pf st x ->
     arenas st' x = if x =? a
                    then set_cnt (wrap32 (cnt (arenas st a) + 1)) (arenas st a)
                    else arenas st x) ->
  heap_inv pf st'
  /\ wrap32 (cnt (arenas st a) + 1) = cnt (arenas st a) + 1
  /\ cnt (arenas st a) + 1 <= blocks_per_arena d
  /\ (forall len, ~ live pf st' (slot d a k) len)
  /\ (forall q len, q <> slot d a k -> live pf st q len -> live pf st' q len).
Proof.
  intros Hinv Hrel Hd Ha Hk Hnf Hds Har.
  set (p := slot d a k) in *.
  destruct (hi_class _ _ Hinv i d Hd) as [C1 C2 C3 C4].
  destruct (C4 a Ha) as [Hma Hca].
  destruct (inv_slot pf st Hinv i d a k Hd Ha Hk) as (S1 & S2 & Epa). fold p in S1, S2, Epa.
  assert (Z.of_nat (length (in_arena a (free_list d))) + 1 <= blocks_per_arena d) as Hle.
  { assert (p :: in_arena a (free_list d) ⊆+ slots d a) as Hsub.
    { apply NoDup_submseteq.
      - constructor.
        + intros Hin. apply in_arena_elem in Hin as [_ Hin]. contradiction.
        + unfold in_arena. apply NoDup_filter. exact C2.
      - intros x Hx. apply elem_of_cons in Hx as [-> | Hx].
        + apply slots_elem. exists k. split; [exact Hk | reflexivity].
        + eapply elem_of_submseteq; [exact Hx|].
          apply (inv_count pf st Hinv i d a Hd Ha). }
    apply submseteq_length in Hsub. rewrite slots_length in Hsub. cbn [length] in Hsub.
    destruct C1 as (_ & Hbpa & _). lia. }
  destruct (inv_cnt pf st Hinv i d a Hd Ha) as [Hc1 Hc2].
  assert (wrap32 (cnt (arenas st a) + 1) = cnt (arenas st a) + 1) as Hw
    by (apply wrap32_small; unfold PG_SIZE in *; lia).
  assert (forall x, reserved pf st x ->
            desc (arenas st' x) = desc (arenas st x)
            /\ large (arenas st' x) = large (arenas st x)
            /\ cnt (arenas st' x) = if x =? a then cnt (arenas st a) + 1 else cnt (arenas st x))
    as Hhdr.
  { intros x Hx. rewrite (Har x Hx).
    destruct (x =? a) eqn:E; [|repeat split].
    apply Z.eqb_eq in E. subst x. cbn [desc large cnt set_cnt]. rewrite Hw. repeat split. }
  assert (forall j x, small_arena pf st' j x <-> small_arena pf st j x) as Hs.
  { intros j x. unfold small_arena. rewrite (reserved_heap_rel pf st st' x Hrel).
    split; intros (Hr & H1 & H2); destruct (Hhdr x Hr) as (E1 & E2 & _);
      rewrite ?E1, ?E2 in *; (split; [exact Hr | split; assumption]). }
  assert (forall x, large_arena pf st' x <-> large_arena pf st x) as Hl.
  { intros x. unfold large_arena. rewrite (reserved_heap_rel pf st st' x Hrel).
    split; intros (Hr & H1 & H2); destruct (Hhdr x Hr) as (E1 & E2 & _);
      rewrite ?E1, ?E2 in *; (split; [exact Hr | split; assumption]). }
  assert (get_descs (descs_of pf) st' !! i = Some (set_free_list (free_list d ++ [p]) d)) as Hd'.
  { rewrite Hds. apply list_lookup_insert_eq. eapply lookup_lt_Some. exact Hd. }
  assert (heap_inv pf st') as Hinv'.
  { split.
    - eapply heap_rel_pools_ok; [exact Hrel | apply (hi_pools _ _ Hinv)].
    - eapply heap_rel_vaddr_ok; [exact Hrel | apply (hi_vaddr _ _ Hinv)].
    - rewrite (proj1 (heap_rel_static st st' pf Hrel)). apply (hi_lo _ _ Hinv).
    - rewrite Hds, (map_block_size_insert _ _ _ _ Hd). apply (hi_classes _ _ Hinv).
    - rewrite (heap_rel_psize _ _ _ Hrel). apply (hi_psize _ _ Hinv).
    - intros j dj Hj.
      destruct (decide (j = i)) as [->|Hji].
      + rewrite Hd' in Hj. injection Hj as <-. split.
        * exact C1.
        * cbn [free_list set_free_list]. apply NoDup_app. split; [exact C2|].
          split; [|apply NoDup_singleton].
          intros x Hx Hx'. apply list_elem_of_singleton in Hx'. subst x. contradiction.
        * intros b Hb. cbn [free_list set_free_list] in Hb.
          apply elem_of_app in Hb as [Hb | Hb].
          -- destruct (C3 b Hb) as (x & k' & Hx & Hk' & E).
             exists x, k'. split; [apply Hs; exact Hx | split; [exact Hk' | exact E]].
          -- apply list_elem_of_singleton in Hb. subst b.
             exists a, k. split; [apply Hs; exact Ha | split; [exact Hk | reflexivity]].
        * intros x Hx. apply Hs in Hx. destruct (C4 x Hx) as [Hm Hc].
          split; [apply (mapped_heap_rel pf st st' x Hrel); exact Hm|].
          destruct Hx as (Hr & _). destruct (Hhdr x Hr) as (_ & _ & ->).
          cbn [free_list set_free_list]. rewrite in_arena_app, length_app.
          destruct (x =? a) eqn:E.
          -- apply Z.eqb_eq in E. subst x. rewrite in_arena_cons_in by exact Epa.
             cbn [in_arena filter length]. rewrite Hca. unfold in_arena. cbn. lia.
          -- apply Z.eqb_neq in E. rewrite in_arena_cons_out by congruence.
             rewrite Hc. unfold in_arena. cbn. lia.
      + rewrite Hds, list_lookup_insert_ne in Hj by congruence.
        destruct (hi_class _ _ Hinv j dj Hj) as [D1 D2 D3 D4]. split; [exact D1 | exact D2 | |].
        * intros b Hb. destruct (D3 b Hb) as (x & k' & Hx & Hk' & E).
          exists x, k'. split; [apply Hs; exact Hx | split; assumption].
        * intros x Hx. apply Hs in Hx. destruct (D4 x Hx) as [Hm Hc].
          split; [apply (mapped_heap_rel pf st st' x Hrel); exact Hm|].
          destruct Hx as (Hr & Hxd & _). destruct (Hhdr x Hr) as (_ & _ & ->).
          destruct (x =? a) eqn:E; [|exact Hc].
          apply Z.eqb_eq in E. subst x. destruct Ha as (_ & Had & _). congruence.
    - intros x Hx. apply Hl in Hx. destruct (hi_large _ _ Hinv x Hx) as (Hc & Hpages).
      assert (cnt (arenas st' x) = cnt (arenas st x)) as Ec.
      { destruct Hx as (Hr & _ & Hxl). destruct (Hhdr x Hr) as (_ & _ & ->).
        destruct (x =? a) eqn:E; [|reflexivity].
        apply Z.eqb_eq in E. subst x. destruct Ha as (_ & _ & Hal). congruence. }
      unfold large_inv. rewrite Ec. split; [exact Hc|].
      intros k' Hk'. destruct (Hpages k' Hk') as (Hkr & Hkm & Hki).
      split; [apply (reserved_heap_rel pf st st' _ Hrel); exact Hkr|].
      split; [apply (mapped_heap_rel pf st st' _ Hrel); exact Hkm|].
      destruct (Hhdr _ Hkr) as (-> & -> & _). exact Hki. }
  split; [exact Hinv'|]. split; [exact Hw|]. split; [lia|]. split.
  - intros len [Hlv | Hlv].
    + apply (inv_live_small pf st' Hinv') in Hlv as (i2 & d2 & Hd2 & Ha2 & _ & Hnf2 & _).
      rewrite Epa in Ha2. apply Hs in Ha2.
      destruct Ha as (_ & Had & _). destruct Ha2 as (_ & Had2 & _).
      rewrite Had in Had2. injection Had2 as <-. rewrite Hd' in Hd2. injection Hd2 as <-.
      apply Hnf2. cbn [free_list set_free_list]. apply elem_of_app. right. left.
    + apply (inv_live_large pf st' Hinv') in Hlv as (Hll & _).
      rewrite Epa in Hll. apply Hl in Hll. destruct Hll as (_ & _ & Hll).
      destruct Ha as (_ & _ & Hal). congruence.
  - intros q len Hq [(j & dj & x & k' & Hj & Hx & Hk' & Eq & Hnf' & El) | (x & Hx & Eq & El)].
    + left. destruct (decide (j = i)) as [->|Hji].
      * rewrite Hd in Hj. injection Hj as <-.
        exists i, (set_free_list (free_list d ++ [p]) d), x, k'.
        split; [exact Hd'|]. split; [apply Hs; exact Hx|]. split; [exact Hk'|].
        split; [exact Eq|]. split; [|exact El].
        cbn [free_list set_free_list]. intros Hin. apply elem_of_app in Hin as [Hin | Hin].
        -- contradiction.
        -- apply list_elem_of_singleton in Hin. contradiction.
      * exists j, dj, x, k'. rewrite Hds, list_lookup_insert_ne by congruence.
        split; [exact Hj|]. split; [apply Hs; exact Hx|]. split; [exact Hk'|].
        split; [exact Eq|]. split; [exact Hnf' | exact El].
    + right. exists x. split; [apply Hl; exact Hx|]. split; [exact Eq|].
      destruct Hx as (Hr & _ & Hxl). destruct (Hhdr x Hr) as (_ & _ & ->).
      destruct (x =? a) eqn:E; [|exact El].
      apply Z.eqb_eq in E. subst x. destruct Ha as (_ & _ & Hal). congruence.
Qed.

(** An arena whose blocks are all free, given back as a page. *)
Lemma heap_inv_release pf st st' i d a :
  heap_inv pf st ->
  get_descs (descs_of pf) st !! i = Some d -> small_arena pf st i a ->
  cnt (arenas st a) = blocks_per_arena d ->
  pools_ok st' -> vaddr_ok pf st' ->
  vaddr_start (get_vaddr pf st') = vaddr_start (get_vaddr pf st) ->
  pool_size (get_pool (pool_of pf) st') = pool_size (get_pool (pool_of pf) st) ->
  get_descs (descs_of pf) st'
  = <[i := set_free_list (filter (fun x => x ∉ slots d a) (free_list d)) d]>
      (get_descs (descs_of pf) st) ->
  (forall x, reserved pf st' x <-> reserved pf st x /\ x <> a) ->
  (forall x, mapped pf st' x <-> mapped pf st x) ->
  arenas st' = arenas st ->
  heap_inv pf st'
  /\ (forall q len, block2arena q = a -> ~ live pf st' q len)
  /\ (forall q len, live pf st q len -> live pf st' q len).
Proof.
  intros Hinv Hd Ha Hfull Hpools' Hvaddr' Hvs Hps Hds Hres Hmap Har.
  destruct (hi_class _ _ Hinv i d Hd) as [C1 C2 C3 C4].
  pose proof (inv_full pf st i d a Hinv Hd Ha Hfull) as Hall.
  assert (Ha' := Ha). destruct Ha' as (Hra & Hda & Hla).
  destruct (inv_page pf st Hinv a (or_introl Hra)) as (A1 & A2 & A3 & A4).
  assert (forall x, x ∈ slots d a -> block2arena x = a) as Hsl.
  { intros x Hx. apply slots_elem in Hx as (k & Hk & ->).
    apply (slot_in_page d a k C1 A1 A2 A3 Hk). }
  set (L := filter (fun x => x ∉ slots d a) (free_list d)) in *.
  assert (forall x, x ∈ L <-> x ∈ free_list d /\ x ∉ slots d a) as HL.
  { intros x. subst L. rewrite list_elem_of_filter. tauto. }
  assert (forall j x, small_arena pf st' j x <-> small_arena pf st j x /\ x <> a) as Hs.
  { intros j x. unfold small_arena. rewrite Har, Hres. tauto. }
  assert (forall x, large_arena pf st' x <-> large_arena pf st x) as Hl.
  { intros x. unfold large_arena. rewrite Har, Hres. split.
    - intros ((Hr & _) & H1 & H2). split; [exact Hr | split; assumption].
    - intros (Hr & H1 & H2). split; [|split; assumption]. split; [exact Hr|].
      intros ->. congruence. }
  assert (get_descs (descs_of pf) st' !! i = Some (set_free_list L d)) as Hd'.
  { rewrite Hds. apply list_lookup_insert_eq. eapply lookup_lt_Some. exact Hd. }
  assert (heap_inv pf st') as Hinv'.
  { split.
    - exact Hpools'.
    - exact Hvaddr'.
    - rewrite Hvs. apply (hi_lo _ _ Hinv).
    - rewrite Hds, (map_block_size_insert _ _ _ _ Hd). apply (hi_classes _ _ Hinv).
    - rewrite Hps. apply (hi_psize _ _ Hinv).
    - intros j dj Hj.
      destruct (decide (j = i)) as [->|Hji].
      + rewrite Hd' in Hj. injection Hj as <-. split.
        * exact C1.
        * cbn [free_list set_free_list]. subst L. apply NoDup_filter. exact C2.
        * intros b Hb. cbn [free_list set_free_list] in Hb. apply HL in Hb as [Hb Hnb].
          destruct (C3 b Hb) as (x & k & Hx & Hk & E).
          exists x, k. split; [|split; [exact Hk | exact E]].
          apply Hs. split; [exact Hx|]. intros ->. apply Hnb.
          apply slots_elem. exists k. split; [exact Hk | exact E].
        * intros x Hx. apply Hs in Hx as [Hx Hne]. destruct (C4 x Hx) as [Hm Hc].
          split; [apply Hmap; exact Hm|]. rewrite Har, Hc.
          cbn [free_list set_free_list]. f_equal. f_equal.
          subst L. unfold in_arena. rewrite list_filter_filter.
          apply list_filter_iff. intros y. split; [|tauto].
          intros Hy. split; [exact Hy|]. intros Hin. apply Hsl in Hin. congruence.
      + rewrite Hds, list_lookup_insert_ne in Hj by congruence.
        destruct (hi_class _ _ Hinv j dj Hj) as [D1 D2 D3 D4]. split; [exact D1 | exact D2 | |].
        * intros b Hb. destruct (D3 b Hb) as (x & k & Hx & Hk & E).
          exists x, k. split; [|split; assumption].
          apply Hs. split; [exact Hx|]. intros ->. destruct Hx as (_ & Hxd & _). congruence.
        * intros x Hx. apply Hs in Hx as [Hx Hne]. destruct (D4 x Hx) as [Hm Hc].
          split; [apply Hmap; exact Hm|]. rewrite Har. exact Hc.
    - intros x Hx. apply Hl in Hx. destruct (hi_large _ _ Hinv x Hx) as (Hc & Hp).
      unfold large_inv. rewrite Har. split; [exact Hc|].
      intros k Hk. destruct (Hp k Hk) as (A & B & C).
      split; [|split; [apply Hmap; exact B | exact C]].
      apply Hres. split; [exact A|]. intros E.
      apply (inv_small_not_run pf st Hinv i a x Ha Hx). exists k. split; [exact Hk|]. congruence. }
  split; [exact Hinv'|]. split.
  - intros q len Eq [Hlv | Hlv].
    + apply (inv_live_small pf st' Hinv') in Hlv as (i2 & d2 & _ & (Hr' & _) & _).
      rewrite Eq in Hr'. apply Hres in Hr' as [_ Hne]. congruence.
    + apply (inv_live_large pf st' Hinv') in Hlv as ((Hr' & _) & _).
      rewrite Eq in Hr'. apply Hres in Hr' as [_ Hne]. congruence.
  - intros q len [(j & dj & x & k & Hj & Hx & Hk & Eq & Hnf & El) | (x & Hx & Eq & El)].
    + left.
      assert (x <> a) as Hne.
      { intros ->. destruct Hx as (_ & Hxd & _). rewrite Hda in Hxd. injection Hxd as <-.
        rewrite Hd in Hj. injection Hj as <-. apply Hnf. apply Hall.
        apply slots_elem. exists k. split; [exact Hk | exact Eq]. }
      destruct (decide (j = i)) as [->|Hji].
      * rewrite Hd in Hj. injection Hj as <-.
        exists i, (set_free_list L d), x, k.
        split; [exact Hd'|]. split; [apply Hs; split; assumption|]. split; [exact Hk|].
        split; [exact Eq|]. split; [|exact El].
        cbn [free_list set_free_list]. intros Hin. apply HL in Hin as [Hin _]. contradiction.
      * exists j, dj, x, k. rewrite Hds, list_lookup_insert_ne by congruence.
        split; [exact Hj|]. split; [apply Hs; split; assumption|]. split; [exact Hk|].
        split; [exact Eq|]. split; [exact Hnf | exact El].
    + right. exists x. rewrite Har. split; [apply Hl; exact Hx|]. split; [exact Eq | exact El].
Qed.

(** arena_unlink on a free list that holds every block of the arena:
    every assertion passes, and the blocks of the arena are gone from
    the list. *)
Lemma arena_unlink_filter a da i n : forall block_idx d st,
  desc (arenas st a) = Some (da, i) ->
  get_descs da st !! i = Some d ->
  NoDup (arena_blocks a (block_size d) block_idx n) ->
  (forall x, x ∈ arena_blocks a (block_size d) block_idx n -> x ∈ free_list d) ->
  arena_unlink a block_idx n st
  = Ret tt (set_desc da i
              (set_free_list
                 (filter (fun x => x ∉ arena_blocks a (block_size d) block_idx n) (free_list d))
                 d) st).
Proof.
  induction n as [|n IH]; intros block_idx d st Ha Hd Hnd Hmem.
  - cbn [arena_blocks arena_unlink].
    rewrite filter_all by (intros x _; apply not_elem_of_nil).
    rewrite set_free_list_id, set_desc_id by exact Hd. reflexivity.
  - cbn [arena_unlink arena_blocks] in *.
    set (b := wrap32 (a + sizeof_arena + block_idx * block_size d)) in *.
    rewrite (bind_eq _ _ _ _ _ (arena2block_eq _ block_idx _ _ _ _ Ha Hd)).
    rewrite (bind_eq _ _ _ _ _ (arena_desc_eq _ _ _ Ha)).
    rewrite (bind_eq _ _ _ _ _ (read_desc_eq _ _ _ _ Hd)).
    fold b. rewrite elem_find_true by (apply Hmem; left).
    unfold bind at 1. cbn [ASSERT]. unfold bind at 1, write_desc, modify. cbn [fst snd].
    apply NoDup_cons in Hnd as [Hb Hnd].
    rewrite (IH _ (set_free_list (list_remove (free_list d) b) d)).
    + rewrite set_desc_set_desc. cbn [free_list block_size set_free_list].
      f_equal. f_equal. unfold set_free_list. cbn [block_size blocks_per_arena]. f_equal.
      unfold list_remove. rewrite list_filter_filter.
      apply list_filter_iff. intros x. rewrite not_elem_of_cons. tauto.
    + rewrite arenas_set_desc. exact Ha.
    + rewrite get_descs_set_desc. apply list_lookup_insert_eq.
      apply lookup_lt_is_Some. eauto.
    + exact Hnd.
    + intros x Hx. cbn [free_list block_size set_free_list] in *.
      apply list_remove_elem. split; [apply Hmem; right; exact Hx|].
      intros ->. contradiction.
Qed.

(** ** sys_free keeps the invariant *)

(** What sys_free of a live pointer establishes: the invariant still
    holds, the pointer is no longer live, and every other pointer that
    was live stays live. *)
Definition free_post (pf : pool_flags) (st st' : state) (p : Z) : Prop :=
  heap_inv pf st'
  /\ (forall len, ~ live pf st' p len)
  /\ (forall q len, q <> p -> live pf st q len -> live pf st' q len).

Lemma bind_assoc {A B C} (m : M A) (f : A -> M B) (k : B -> M C) st :
  bind (bind m f) k st = bind m (fun x => bind (f x) k) st.
Proof. unfold bind. destruct (m st); reflexivity. Qed.

Lemma free_post_locks pf mp st s1 p :
  free_post pf (locked mp st) s1 p -> free_post pf st (unlocked mp s1) p.
Proof.
  intros (I & NL & K).
  destruct (heap_same pf st (locked mp st)) as [_ Hlv];
    [apply heap_rel_locked, heap_rel_refl | apply arenas_locked | apply get_descs_locked|].
  destruct (heap_same pf s1 (unlocked mp s1)) as [Hi Hlv'];
    [apply heap_rel_unlocked, heap_rel_refl | apply arenas_unlocked | apply get_descs_unlocked|].
  split; [apply Hi; exact I|]. split.
  - intros len Hl. apply (NL len). apply Hlv'. exact Hl.
  - intros q len Hq Hl. apply Hlv'. apply K; [exact Hq|]. apply Hlv. exact Hl.
Qed.

Lemma sys_free_in_heap pf p len st :
  heap_inv pf st -> live pf st p len ->
  exists st', sys_free_in pf (pool_of pf) p st = Ret tt st'
    /\ pgdir (cur st') = pgdir (cur st) /\ free_post pf st st' p.
Proof.
  intros Hinv0 Hlive0.
  set (mp := pool_of pf). set (da := descs_of pf).
  set (sa := locked mp st).
  assert (heap_rel st sa) as Hrela by (apply heap_rel_locked, heap_rel_refl).
  destruct (heap_same pf st sa Hrela (arenas_locked mp st) (get_descs_locked _ mp st))
    as [Hinv Hlv].
  specialize (Hinv Hinv0). apply Hlv in Hlive0 as Hlive.
  assert (exists s1, (forall B (k : unit -> M B),
                        bind (sys_free_in pf mp p) k st = k tt (unlocked mp s1))
                     /\ pgdir (cur s1) = pgdir (cur sa) /\ free_post pf sa s1 p)
    as (s1 & Hrun & Hpg & Hpost).
  2:{ exists (unlocked mp s1). split.
      - specialize (Hrun unit ret). unfold bind in Hrun.
        destruct (sys_free_in pf mp p st) as [[] s|]; [|discriminate Hrun].
        exact Hrun.
      - split; [|apply free_post_locks; exact Hpost].
        rewrite (heap_rel_pgdir s1) by (apply heap_rel_unlocked, heap_rel_refl).
        rewrite Hpg. apply (heap_rel_pgdir _ _ Hrela). }
  set (a := block2arena p) in *.
  destruct Hlive as [Hl | Hl].
  - (* a block of an arena *)
    apply (inv_live_small pf sa Hinv) in Hl as (i & d & Hd & Ha & (k & Hk & Ep) & Hnf & _).
    fold a in Ha, Ep. rewrite Ep in Hnf.
    assert (Ha' := Ha). destruct Ha' as (Hra & Hda & Hla).
    set (c := cnt (arenas sa a)) in *.
    set (s1 := with_arena a (set_cnt (wrap32 (c + 1)) (arenas sa a))
                 (set_desc da i (set_free_list (list_append (free_list d) p) d) sa)).
    assert (heap_rel sa s1) as Hrel1 by (subst s1; auto with heap).
    destruct (heap_inv_put_back pf sa s1 i d a k Hinv Hrel1 Hd Ha Hk Hnf)
      as (I1 & Hw & Hle & NL1 & K1).
    { subst s1. rewrite get_descs_with_arena. fold da. rewrite get_descs_set_desc.
      unfold list_append. rewrite Ep. reflexivity. }
    { intros x _. subst s1. rewrite arenas_with_arena, arenas_set_desc. reflexivity. }
    rewrite <- Ep in NL1, K1.
    assert (forall B (k : unit -> M B),
              bind (sys_free_in pf mp p) k st
              = bind (if wrap32 (c + 1) =? blocks_per_arena d
                      then arena_unlink a 0 (Z.to_nat (blocks_per_arena d)) ;;; mfree_page pf a 1
                      else ret tt)
                     (fun _ => bind (lock_release mp) k) s1) as Hstep.
    { intros B k0. unfold sys_free_in. cbv zeta.
      rewrite bind_assoc. unfold lock_acquire. rewrite bind_modify_eq.
      rewrite bind_assoc, bind_get_eq. change (locked mp st) with sa. fold a.
      rewrite bind_assoc, Hda.
      rewrite bind_assoc, (bind_eq _ _ _ _ _ (arena_desc_eq _ _ _ Hda)).
      rewrite bind_assoc, (bind_eq _ _ _ _ _ (read_desc_eq _ _ _ _ Hd)).
      rewrite bind_assoc. unfold write_desc. rewrite bind_modify_eq.
      rewrite bind_assoc. unfold write_arena. rewrite bind_modify_eq.
      cbn [fst snd]. reflexivity. }
    fold c in Hw, Hle. rewrite Hw in Hstep.
    destruct (c + 1 =? blocks_per_arena d) eqn:Efull.
    + (* the arena is free as a whole *)
      apply Z.eqb_eq in Efull.
      set (d1 := set_free_list (list_append (free_list d) p) d) in *.
      assert (get_descs (descs_of pf) s1 !! i = Some d1) as Hd1.
      { subst s1. rewrite get_descs_with_arena. fold da. rewrite get_descs_set_desc.
        apply list_lookup_insert_eq. eapply lookup_lt_Some. exact Hd. }
      assert (arenas s1 a = set_cnt (c + 1) (arenas sa a)) as Hhdr1.
      { subst s1. rewrite arenas_with_arena, Z.eqb_refl, Hw. reflexivity. }
      assert (small_arena pf s1 i a) as Ha1.
      { split; [apply (reserved_heap_rel pf sa s1 a Hrel1); exact Hra|].
        rewrite Hhdr1. cbn [desc large set_cnt]. split; assumption. }
      assert (cnt (arenas s1 a) = blocks_per_arena d1) as Hfull
        by (rewrite Hhdr1; cbn [cnt set_cnt]; exact Efull).
      destruct (hi_class _ _ I1 i d1 Hd1) as [Hok1 _ _ Hc4].
      destruct (inv_page pf sa Hinv a (or_introl Hra)) as (A1 & A2 & A3 & A4).
      assert (arena_blocks a (block_size d1) 0 (Z.to_nat (blocks_per_arena d1)) = slots d1 a)
        as Eblocks by (apply arena_blocks_slots; assumption).
      set (s2 := set_desc da i
                   (set_free_list (filter (fun x => x ∉ slots d1 a) (free_list d1)) d1) s1).
      assert (arena_unlink a 0 (Z.to_nat (blocks_per_arena d)) s1 = Ret tt s2) as Hunlink.
      { change (blocks_per_arena d) with (blocks_per_arena d1).
        rewrite (arena_unlink_filter a da i _ 0 d1 s1).
        - rewrite Eblocks. reflexivity.
        - rewrite Hhdr1. exact Hda.
        - exact Hd1.
        - rewrite Eblocks. apply slots_NoDup; assumption.
        - rewrite Eblocks. apply (inv_full pf s1 i d1 a I1 Hd1 Ha1 Hfull). }
      assert (heap_rel s1 s2) as Hrel2 by (subst s2; auto with heap).
      destruct (mfree_page_heap pf a 1 s2) as (s3 & Hfree & Hp3 & Hv3 & Hvs3 & Har3 & Hds3
                                               & Hres3 & Hmap3).
      { eapply heap_rel_pools_ok; [exact Hrel2 | apply (hi_pools _ _ I1)]. }
      { eapply heap_rel_vaddr_ok; [exact Hrel2 | apply (hi_vaddr _ _ I1)]. }
      { rewrite (proj1 (heap_rel_static s1 s2 pf Hrel2)). apply (hi_lo _ _ I1). }
      { lia. }
      { intros x Hx. apply in_run_one in Hx. subst x.
        split; [apply (reserved_heap_rel pf s1 s2 a Hrel2); apply Ha1|].
        apply (mapped_heap_rel pf s1 s2 a Hrel2). apply (Hc4 a Ha1). }
      pose proof (mfree_page_page_rel _ _ _ _ _ _ Hfree) as Hprel.
      destruct (heap_inv_release pf s1 s3 i d1 a I1 Hd1 Ha1 Hfull Hp3 Hv3) as (I3 & NL3 & K3).
      { rewrite Hvs3. apply (heap_rel_static s1 s2 pf Hrel2). }
      { rewrite (page_rel_psize _ _ _ Hprel). apply (heap_rel_psize _ _ _ Hrel2). }
      { rewrite Hds3. subst s2. fold da. rewrite get_descs_set_desc. reflexivity. }
      { intros x. rewrite Hres3, (reserved_heap_rel pf s1 s2 x Hrel2), in_run_one. reflexivity. }
      { intros x. rewrite Hmap3. apply (mapped_heap_rel pf s1 s2 x Hrel2). }
      { rewrite Har3. subst s2. apply arenas_set_desc. }
      exists s3. split; [|split].
      * intros B k0. rewrite Hstep.
        assert ((arena_unlink a 0 (Z.to_nat (blocks_per_arena d)) ;;; mfree_page pf a 1) s1
                = Ret tt s3) as Hinner by (rewrite (bind_eq _ _ _ _ _ Hunlink); exact Hfree).
        rewrite (bind_eq _ _ _ _ _ Hinner). reflexivity.
      * rewrite (proj1 (proj2 (proj2 (proj2 (proj2 (proj2
                  (page_rel_frame _ _ Hprel))))))).
        apply heap_rel_pgdir. etransitivity; eassumption.
      * split; [exact I3|]. split.
        -- intros len0. apply NL3. reflexivity.
        -- intros q len0 Hq Hl. apply K3. apply K1; assumption.
    + (* blocks of the arena are still in use *)
      exists s1. split; [|split].
      * intros B k0. rewrite Hstep. reflexivity.
      * apply (heap_rel_pgdir _ _ Hrel1).
      * split; [exact I1|]. split; [exact NL1 | exact K1].
  - (* a run of pages *)
    apply (inv_live_large pf sa Hinv) in Hl as (Ha & Ep & _).
    fold a in Ha, Ep.
    assert (Ha' := Ha). destruct Ha' as (Hra & Hda & Hla).
    destruct (hi_large _ _ Hinv a Ha) as (Hn & Hpages).
    destruct (mfree_page_heap pf a (cnt (arenas sa a)) sa (hi_pools _ _ Hinv)
                (hi_vaddr _ _ Hinv) (hi_lo _ _ Hinv) Hn)
      as (s1 & Hfree & Hp1 & Hv1 & Hvs1 & Har1 & Hds1 & Hres1 & Hmap1).
    { intros x (k & Hk & ->). destruct (Hpages k Hk) as (A & B & _). split; assumption. }
    pose proof (mfree_page_page_rel _ _ _ _ _ _ Hfree) as Hprel.
    destruct (heap_inv_free_large pf sa s1 a Hinv Ha Hp1 Hv1 Hvs1
                (page_rel_psize _ _ _ Hprel) Har1 Hds1 Hres1 Hmap1) as (I1 & NL1 & K1).
    rewrite <- Ep in NL1, K1.
    exists s1. split; [|split].
    + intros B k0. unfold sys_free_in. cbv zeta.
      rewrite bind_assoc. unfold lock_acquire. rewrite bind_modify_eq.
      rewrite bind_assoc, bind_get_eq. change (locked mp st) with sa. fold a.
      rewrite bind_assoc, Hda, Hla.
      rewrite (bind_eq _ _ _ _ _ Hfree). reflexivity.
    + apply (page_rel_frame _ _ Hprel).
    + split; [exact I1|]. split; [exact NL1 | exact K1].
Qed.

(** ** The invariant, from mem_init on *)

(** A heap in which nothing was handed out. *)
Lemma heap_inv_empty pf st :
  pools_ok st -> vaddr_ok pf st -> PG_SIZE <= vaddr_start (get_vaddr pf st) ->
  map block_size (get_descs (descs_of pf) st) = size_classes ->
  pool_size (get_pool (pool_of pf) st) <= 0xffff * PG_SIZE ->
  (forall i d, get_descs (descs_of pf) st !! i = Some d -> desc_ok d /\ free_list d = []) ->
  (forall j b, vbits pf st !! j = Some b -> b = false) ->
  heap_inv pf st /\ forall p len, ~ live pf st p len.
Proof.
  intros Hpools Hvaddr Hlo Hcl Hps Hdescs Hbits.
  assert (forall x, ~ reserved pf st x) as Hnr.
  { intros x (idx & _ & Hb). apply Hbits in Hb. discriminate. }
  split.
  - split; try assumption.
    + intros i d Hd. destruct (Hdescs i d Hd) as [Hok Hfl]. split.
      * exact Hok.
      * rewrite Hfl. constructor.
      * rewrite Hfl. intros b Hb. inversion Hb.
      * intros a (Hr & _). destruct (Hnr a Hr).
    + intros a (Hr & _). destruct (Hnr a Hr).
  - intros p len [(i & d & a & k & _ & (Hr & _) & _) | (a & (Hr & _) & _)];
      exact (Hnr _ Hr).
Qed.

Lemma heap_inv_state_32M :
  heap_inv PF_KERNEL state_32M /\ forall p len, ~ live PF_KERNEL state_32M p len.
Proof.
  apply heap_inv_empty.
  - exact pools_ok_state_32M.
  - exact vaddr_ok_state_32M.
  - vm_compute. discriminate.
  - reflexivity.
  - vm_compute. discriminate.
  - intros i d Hd. eapply (desc_ok_block_desc_init (k_block_descs boot_state)); [reflexivity|].
    exact Hd.
  - intros j b Hb. unfold state_32M in Hb. rewrite mem_init_vbits in Hb.
    apply lookup_replicate in Hb as [-> _]. reflexivity.
Qed.

(** X30: mem_init leaves a heap in order.  Whatever the memory size,
    after mem_init (run on the loader's page directory, with the seven
    descriptors of k_block_descs in place) the kernel heap satisfies the
    invariant that sys_malloc and sys_free keep, and no block is handed
    out. *)
Theorem mem_init_heap_inv (all_mem : Z) (st : state)
    (Hpd : kernel_pdes_present st) (Hlen : length (k_block_descs st) = 7%nat) :
  heap_inv PF_KERNEL (mem_init all_mem st)
  /\ forall p len, ~ live PF_KERNEL (mem_init all_mem st) p len.
Proof.
  apply heap_inv_empty.
  - apply pools_ok_mem_init.
  - apply vaddr_ok_mem_init. exact Hpd.
  - change (vaddr_start (get_vaddr PF_KERNEL (mem_init all_mem st))) with K_HEAP_START.
    unfold K_HEAP_START, PG_SIZE. lia.
  - change (get_descs (descs_of PF_KERNEL) (mem_init all_mem st))
      with (block_desc_init (k_block_descs st)).
    apply block_desc_init_sizes. exact Hlen.
  - change (pool_size (get_pool (pool_of PF_KERNEL) (mem_init all_mem st)))
      with (pool_size (kernel_pool (mem_pool_init all_mem st))).
    rewrite mem_pool_init_kernel_size.
    pose proof (all_free_pages16_range all_mem) as Hn.
    assert (0 <= all_free_pages16 all_mem / 2 < 2 ^ 15)
      by (split; [apply Z.div_pos; lia | apply Z.div_lt_upper_bound; lia]).
    unfold PG_SIZE. lia.
  - intros i d Hd.
    change (get_descs (descs_of PF_KERNEL) (mem_init all_mem st))
      with (block_desc_init (k_block_descs st)) in Hd.
    eapply desc_ok_block_desc_init; eassumption.
  - intros j b Hb. rewrite mem_init_vbits in Hb.
    apply lookup_replicate in Hb as [-> _]. reflexivity.
Qed.

Lemma mem_init_heap_inv_32M :
  kernel_pdes_present boot_state /\ length (k_block_descs boot_state) = 7%nat
  /\ heap_inv PF_KERNEL state_32M.
Proof.
  split; [exact kernel_pdes_present_boot|]. split; [reflexivity|].
  exact (proj1 (mem_init_heap_inv 0x02000000 boot_state kernel_pdes_present_boot eq_refl)).
Defined.

(** X27: sys_malloc keeps the heap in order and hands out fresh memory.
    In a heap that satisfies the invariant, a sys_malloc that returns a
    pointer leaves a heap that satisfies it again, for the same caller;
    the pointer is now live with at least the bytes asked for behind it,
    it was not live before, every pointer that was live is still live
    with the same length, and the bytes asked for overlap no block that
    was live. *)
Theorem sys_malloc_keeps_heap (size p : Z) (st st' : state)
    (Hinv : heap_inv (caller_pf st) st)
    (Hret : sys_malloc size st = Ret p st') (Hp : p <> NULL) :
  caller_pf st' = caller_pf st
  /\ heap_inv (caller_pf st') st'
  /\ (exists len, size <= len /\ live (caller_pf st') st' p len)
  /\ (forall len, ~ live (caller_pf st) st p len)
  /\ (forall q len, live (caller_pf st) st q len -> live (caller_pf st') st' q len)
  /\ (forall q len, live (caller_pf st) st q len -> p + size <= q \/ q + len <= p).
Proof.
  destruct (sys_malloc_heap size st p st' Hinv Hret Hp) as (Hc & I & L & NL & K).
  rewrite Hc. split; [reflexivity|]. split; [exact I|]. split; [exact L|].
  split; [exact NL|]. split; [exact K|].
  intros q lq Hq. destruct L as (len & Hlen & L).
  assert (p <> q) as Hne by (intros ->; exact (NL _ Hq)).
  destruct (live_separate _ st' p q len lq I L (K _ _ Hq) Hne) as [H | H];
    [left; lia | right; exact H].
Qed.

Lemma sys_malloc_keeps_heap_50 :
  exists st', sys_malloc 50 state_32M = Ret 0xc010000c st'
    /\ heap_inv PF_KERNEL st'
    /\ exists len, 50 <= len /\ live PF_KERNEL st' 0xc010000c len.
Proof.
  assert (returned (sys_malloc 50 state_32M) = Some 0xc010000c) as Hr
    by (vm_compute; reflexivity).
  destruct (sys_malloc 50 state_32M) as [p st'|] eqn:E; [|discriminate Hr].
  injection Hr as ->. exists st'. split; [reflexivity|].
  destruct (sys_malloc_keeps_heap 50 0xc010000c state_32M st' (proj1 heap_inv_state_32M) E
              ltac:(discriminate)) as (Hc & I & L & _).
  rewrite Hc in I, L. split; [exact I | exact L].
Defined.

(** X28: sys_free of a live pointer.  In a heap that satisfies the
    invariant, sys_free of a pointer that is live returns, whichever
    kind of block it is and whether or not its arena becomes free as a
    whole; the heap satisfies the invariant again, for the same caller;
    the pointer is no longer live, and every other pointer that was live
    is still live with the same length. *)
Theorem sys_free_keeps_heap (p len : Z) (st : state)
    (Hinv : heap_inv (caller_pf st) st) (Hlive : live (caller_pf st) st p len) :
  exists st',
    sys_free p st = Ret tt st'
    /\ caller_pf st' = caller_pf st
    /\ heap_inv (caller_pf st') st'
    /\ (forall len', ~ live (caller_pf st') st' p len')
    /\ (forall q lq, q <> p -> live (caller_pf st) st q lq -> live (caller_pf st') st' q lq).
Proof.
  set (pf := caller_pf st) in *.
  assert (heap_lo pf <= p /\ p <> NULL) as [Hlo Hp].
  { assert (forall a, reserved pf st a -> a + sizeof_arena <= p -> heap_lo pf <= p /\ p <> NULL)
      as Hin.
    { intros a Hr Hle.
      destruct (reserved_range pf st a (hi_vaddr _ _ Hinv) (hi_lo _ _ Hinv) Hr) as (R1 & R2 & _).
      unfold sizeof_arena, PG_SIZE, NULL in *. lia. }
    destruct Hlive as [Hl | Hl].
    - apply (inv_live_small pf st Hinv) in Hl as (i & d & Hd & Ha & (k & Hk & Ep) & _).
      destruct (inv_slot pf st Hinv i d _ k Hd Ha Hk) as (S1 & _). rewrite <- Ep in S1.
      destruct Ha as (Hr & _). exact (Hin _ Hr S1).
    - destruct Hl as (a & (Hr & _) & -> & _). apply (Hin a Hr). lia. }
  destruct (sys_free_in_heap pf p len st Hinv Hlive) as (st' & Hrun & Hpg & I & NL & K).
  assert (caller_pf st' = pf) as Hc by (unfold pf, caller_pf; rewrite Hpg; reflexivity).
  exists st'. rewrite Hc.
  split; [rewrite (sys_free_eq pf p st Hp eq_refl Hlo); exact Hrun|].
  split; [reflexivity|]. split; [exact I|]. split; [exact NL | exact K].
Qed.

Lemma sys_free_keeps_heap_50 :
  exists st1 st2,
    sys_malloc 50 state_32M = Ret 0xc010000c st1
    /\ sys_free 0xc010000c st1 = Ret tt st2
    /\ heap_inv PF_KERNEL st2
    /\ forall len, ~ live PF_KERNEL st2 0xc010000c len.
Proof.
  assert (returned (sys_malloc 50 state_32M) = Some 0xc010000c) as Hr
    by (vm_compute; reflexivity).
  destruct (sys_malloc 50 state_32M) as [p st1|] eqn:E; [|discriminate Hr].
  injection Hr as ->.
  destruct (sys_malloc_heap 50 state_32M 0xc010000c st1 (proj1 heap_inv_state_32M) E
              ltac:(discriminate)) as (Hc & I & (len & _ & L) & _).
  change (caller_pf state_32M) with PF_KERNEL in *.
  rewrite <- Hc in I, L.
  destruct (sys_free_keeps_heap 0xc010000c len st1 I L) as (st2 & Hfree & Hc2 & I2 & NL2 & _).
  rewrite Hc2, Hc in I2, NL2.
  exists st1, st2. split; [reflexivity|]. split; [exact Hfree|]. split; [exact I2 | exact NL2].
Defined.

(** X29: where live blocks lie.  In a heap that satisfies the invariant,
    a live block is not empty, lies inside the virtual pool behind the
    header of its arena, and shares no byte with any other live block. *)
Theorem live_disjoint (pf : pool_flags) (st : state) (p q lp lq : Z)
    (Hinv : heap_inv pf st)
    (Hp : live pf st p lp) (Hq : live pf st q lq) :
  0 < lp
  /\ vaddr_start (get_vaddr pf st) + sizeof_arena <= p
  /\ p + lp <= vaddr_start (get_vaddr pf st) + PG_SIZE * Z.of_nat (length (vbits pf st))
  /\ (p <> q -> p + lp <= q \/ q + lq <= p).
Proof.
  assert (0 < lp
          /\ vaddr_start (get_vaddr pf st) + sizeof_arena <= p
          /\ p + lp <= vaddr_start (get_vaddr pf st)
                       + PG_SIZE * Z.of_nat (length (vbits pf st))) as (H1 & H2 & H3).
  { destruct Hp as [Hl | Hl].
    - apply (inv_live_small pf st Hinv) in Hl as (i & d & Hd & Ha & (k & Hk & Ep) & _ & ->).
      destruct (inv_slot pf st Hinv i d _ k Hd Ha Hk) as (S1 & S2 & _). rewrite <- Ep in S1, S2.
      destruct (ci_desc _ _ _ _ (hi_class _ _ Hinv i d Hd)) as (Hbs & _).
      destruct Ha as ((idx & Ea & Hidx) & _). apply lookup_lt_Some in Hidx.
      unfold PG_SIZE in *. split; [exact Hbs|]. split; lia.
    - destruct Hl as (a & Ha & -> & ->).
      destruct (hi_large _ _ Hinv a Ha) as (Hn & Hpages).
      destruct (Hpages (cnt (arenas st a) - 1) ltac:(lia)) as ((idx & Ea & Hidx) & _).
      apply lookup_lt_Some in Hidx.
      destruct Ha as ((idx0 & Ea0 & _) & _).
      unfold PG_SIZE, sizeof_arena in *. split; [lia|]. split; lia. }
  split; [exact H1|]. split; [exact H2|]. split; [exact H3|].
  intros Hne. exact (live_separate pf st p q lp lq Hinv Hp Hq Hne).
Qed.

Lemma live_disjoint_two :
  exists st2 lp lq,
    (p <~ sys_malloc 50 ;; sys_malloc 2000) state_32M = Ret 0xc010100c st2
    /\ live PF_KERNEL st2 0xc010000c lp /\ live PF_KERNEL st2 0xc010100c lq
    /\ 50 <= lp /\ 2000 <= lq
    /\ (0xc010000c + lp <= 0xc010100c \/ 0xc010100c + lq <= 0xc010000c).
Proof.
  assert (returned (sys_malloc 50 state_32M) = Some 0xc010000c) as Hr
    by (vm_compute; reflexivity).
  assert (returned ((p <~ sys_malloc 50 ;; sys_malloc 2000) state_32M) = Some 0xc010100c) as Hr2
    by (vm_compute; reflexivity).
  destruct (sys_malloc 50 state_32M) as [p st1|] eqn:E; [|discriminate Hr].
  injection Hr as ->. rewrite (bind_eq _ _ _ _ _ E) in Hr2 |- *.
  destruct (sys_malloc 2000 st1) as [q st2|] eqn:E2; [|discriminate Hr2].
  injection Hr2 as ->.
  destruct (sys_malloc_heap 50 state_32M 0xc010000c st1 (proj1 heap_inv_state_32M) E
              ltac:(discriminate)) as (Hc & I & (lp & Hlp & L) & _).
  change (caller_pf state_32M) with PF_KERNEL in *.
  rewrite <- Hc in I.
  destruct (sys_malloc_heap 2000 st1 0xc010100c st2 I E2 ltac:(discriminate))
    as (Hc2 & I2 & (lq & Hlq & L2) & _ & K2).
  rewrite Hc in I2, L2, K2.
  exists st2, lp, lq. split; [reflexivity|].
  split; [apply K2; exact L|]. split; [exact L2|]. split; [exact Hlp|]. split; [exact Hlq|].
  destruct (live_disjoint PF_KERNEL st2 0xc010000c 0xc010100c lp lq I2 (K2 _ _ L) L2)
    as (_ & _ & _ & H).
  apply H. discriminate.
Defined.


(** * The size class of a block *)

(** C5: with the seven classes block_desc_init sets up, a sys_malloc of
    at most 1024 bytes that hands out a block has selected the descriptor
    of the smallest class that holds the request (128 for 100 bytes, 1024
    for 1024 bytes) and has taken the block from the free list of that
    descriptor: the block was the head of that list, or, when the list
    was empty, the first of the blocks of that class cut from a new page;
    the list keeps the rest, the lists of the other classes are not
    touched, and in a heap in order the block is a block of an arena
    whose header names that descriptor.  A request of more than 1024
    bytes touches no free list and returns the address after the header
    of a large arena. *)
Theorem sys_malloc_size_class (size p : Z) (st st' : state)
    (Hclasses : map block_size (get_descs (descs_of (caller_pf st)) st) = size_classes)
    (Hret : sys_malloc size st = Ret p st') (Hp : p <> NULL) :
  let pf := caller_pf st in
  let da := descs_of pf in
  let i := find_desc (get_descs da st) size 0 (Z.to_nat DESC_CNT) in
  (size <= 1024 ->
     exists d rest,
       get_descs da st !! i = Some d
       /\ size <= block_size d
       /\ (forall c, c ∈ size_classes -> size <= c -> block_size d <= c)
       /\ (free_list d = p :: rest
           \/ (free_list d = []
               /\ exists a, a <> NULL
                    /\ arena_blocks a (block_size d) 0 (Z.to_nat (blocks_per_arena d))
                       = p :: rest))
       /\ get_descs da st' !! i = Some (set_free_list rest d)
       /\ (forall j, j <> i -> get_descs da st' !! j = get_descs da st !! j)
       /\ (heap_inv pf st ->
           small_arena pf st' i (block2arena p)
           /\ exists k, 0 <= k < blocks_per_arena d /\ p = slot d (block2arena p) k))
  /\ (1024 < size ->
      get_descs da st' = get_descs da st
      /\ exists a, p = wrap32 (a + sizeof_arena)
           /\ arenas st' a
              = mk_arena None true (DIV_ROUND_UP (wrap32 (size + sizeof_arena)) PG_SIZE)).
Proof.
  intros pf da i.
  assert (Hm := Hret). rewrite sys_malloc_eq in Hm. fold pf da in Hm.
  apply sys_malloc_in_Ret in Hm as [Hsize Hm]; [|exact Hp].
  split.
  - intros Hle.
    destruct (find_desc_smallest _ size Hclasses ltac:(lia)) as (d & Hd & Hfit & Hmin).
    fold pf da i in Hd.
    rewrite (proj2 (Z.ltb_ge _ _)) in Hm by lia.
    apply sys_malloc_small_Ret in Hm; [|exact Hp].
    rewrite get_descs_locked in Hm. fold i in Hm.
    assert (i < length (get_descs da st))%nat as Hi by (eapply lookup_lt_Some; exact Hd).
    destruct Hm as (d0 & Hd0 & [(_ & d' & b & rest & Hd' & Hfl & -> & ->)
                               | (Hfl & a & s1 & d' & b & rest & Hmp & Ha & Hd' & Hfl' & -> & ->)]).
    + rewrite Hd in Hd'. injection Hd' as <-.
      exists d, rest. split; [exact Hd|]. split; [exact Hfit|]. split; [exact Hmin|].
      split; [left; exact Hfl|].
      split.
      { rewrite get_descs_taken, get_descs_set_desc, get_descs_locked.
        apply list_lookup_insert_eq. exact Hi. }
      split.
      { intros j Hj. rewrite get_descs_taken, get_descs_set_desc, get_descs_locked.
        apply list_lookup_insert_ne. congruence. }
      intros Hinv.
      destruct (sys_malloc_heap_class size st b _ Hinv Hret Hp) as (_ & _ & Hc).
      exact (Hc Hle d Hd).
    + rewrite Hd in Hd0. injection Hd0 as <-.
      assert (get_descs da s1 = get_descs da st) as Hds1.
      { rewrite (page_rel_descs _ _ da (malloc_page_page_rel _ _ _ _ _ Hmp)).
        apply get_descs_locked. }
      rewrite get_descs_new_arena, get_descs_set_desc, Hds1 in Hd'.
      rewrite list_lookup_insert_eq in Hd' by exact Hi.
      injection Hd' as <-. cbn [free_list set_free_list] in Hfl'.
      rewrite Hfl, app_nil_l in Hfl'.
      exists d, rest. split; [exact Hd|]. split; [exact Hfit|]. split; [exact Hmin|].
      split; [right; split; [exact Hfl|]; exists a; split; [exact Ha | exact Hfl']|].
      split.
      { rewrite get_descs_taken, get_descs_set_desc, get_descs_new_arena, get_descs_set_desc.
        rewrite list_insert_insert_eq, Hds1. apply list_lookup_insert_eq. exact Hi. }
      split.
      { intros j Hj.
        rewrite get_descs_taken, get_descs_set_desc, get_descs_new_arena, get_descs_set_desc.
        rewrite !list_lookup_insert_ne by congruence. rewrite Hds1. reflexivity. }
      intros Hinv.
      destruct (sys_malloc_heap_class size st b _ Hinv Hret Hp) as (_ & _ & Hc).
      exact (Hc Hle d Hd).
  - intros Hbig.
    rewrite (proj2 (Z.ltb_lt _ _) Hbig) in Hm.
    apply sys_malloc_large_Ret in Hm as (a & s1 & Hmp & Ha & Hpa & ->); [|exact Hp].
    split.
    + rewrite get_descs_unlocked, get_descs_with_arena, get_descs_zeroed.
      rewrite (page_rel_descs _ _ da (malloc_page_page_rel _ _ _ _ _ Hmp)).
      apply get_descs_locked.
    + exists a. split; [exact Hpa|].
      rewrite arenas_unlocked, arenas_with_arena, Z.eqb_refl. reflexivity.
Qed.

Lemma sys_malloc_size_class_100 :
  map block_size (get_descs (descs_of (caller_pf state_32M)) state_32M) = size_classes
  /\ (exists st' d rest,
        sys_malloc 100 state_32M = Ret 0xc010000c st'
        /\ k_block_descs state_32M !! 3%nat = Some d /\ block_size d = 128
        /\ k_block_descs st' !! 3%nat = Some (set_free_list rest d)
        /\ small_arena PF_KERNEL st' 3 0xc0100000)
  /\ (exists st' d rest,
        sys_malloc 1024 state_32M = Ret 0xc010000c st'
        /\ k_block_descs state_32M !! 6%nat = Some d /\ block_size d = 1024
        /\ k_block_descs st' !! 6%nat = Some (set_free_list rest d)
        /\ small_arena PF_KERNEL st' 6 0xc0100000)
  /\ (exists st' a,
        sys_malloc 1025 state_32M = Ret 0xc010000c st'
        /\ k_block_descs st' = k_block_descs state_32M
        /\ 0xc010000c = wrap32 (a + sizeof_arena)
        /\ arenas st' a = mk_arena None true 1).
Proof.
  assert (map block_size (get_descs (descs_of (caller_pf state_32M)) state_32M) = size_classes)
    as H by reflexivity.
  split; [exact H|].
  assert (forall size (i : nat) bs,
            returned (sys_malloc size state_32M) = Some 0xc010000c ->
            size <= 1024 ->
            find_desc (k_block_descs state_32M) size 0 (Z.to_nat DESC_CNT) = i ->
            (forall d, k_block_descs state_32M !! i = Some d -> block_size d = bs) ->
            exists st' d rest,
              sys_malloc size state_32M = Ret 0xc010000c st'
              /\ k_block_descs state_32M !! i = Some d /\ block_size d = bs
              /\ k_block_descs st' !! i = Some (set_free_list rest d)
              /\ small_arena PF_KERNEL st' i 0xc0100000) as Hgen.
  { intros size i bs Hr Hle Hi Hbs.
    destruct (sys_malloc size state_32M) as [p st'|] eqn:E; [|discriminate Hr].
    injection Hr as ->.
    destruct (sys_malloc_size_class size 0xc010000c state_32M st' H E ltac:(discriminate))
      as [Hs _].
    change (caller_pf state_32M) with PF_KERNEL in Hs.
    change (get_descs (descs_of PF_KERNEL) state_32M) with (k_block_descs state_32M) in Hs.
    rewrite Hi in Hs.
    destruct (Hs Hle) as (d & rest & Hd & _ & _ & _ & Hd' & _ & Hin).
    destruct (Hin (proj1 heap_inv_state_32M)) as [Hsa _].
    exists st', d, rest. split; [reflexivity|]. split; [exact Hd|].
    split; [exact (Hbs d Hd)|]. split; [exact Hd' | exact Hsa]. }
  split; [|split].
  - apply (Hgen 100 3%nat 128); [vm_compute; reflexivity | lia | vm_compute; reflexivity |].
    intros d Hd. vm_compute in Hd. injection Hd as <-. reflexivity.
  - apply (Hgen 1024 6%nat 1024); [vm_compute; reflexivity | lia | vm_compute; reflexivity |].
    intros d Hd. vm_compute in Hd. injection Hd as <-. reflexivity.
  - assert (returned (sys_malloc 1025 state_32M) = Some 0xc010000c) as Hr
      by (vm_compute; reflexivity).
    destruct (sys_malloc 1025 state_32M) as [p st'|] eqn:E; [|discriminate Hr].
    injection Hr as ->.
    destruct (sys_malloc_size_class 1025 0xc010000c state_32M st' H E ltac:(discriminate))
      as [_ Hl].
    destruct (Hl ltac:(lia)) as (Hds & a & Ha & Har).
    exists st', a. split; [reflexivity|]. split; [exact Hds|]. split; [exact Ha | exact Har].
Defined.

(** * What sys_malloc returns *)

Lemma vmem_taken da i mp d b rest st x :
  vmem (taken da i mp d b rest st) x
  = if (block2arena b <=? x) && (x <? block2arena b + sizeof_arena)
    then HeaderByte (x - block2arena b)
    else if (b <=? x) && (x <? b + block_size d) then Byte 0 else vmem st x.
Proof. destruct da, mp; reflexivity. Qed.

(** X26: sys_malloc returns cleared memory.  In a heap that satisfies
    the invariant, the [size] bytes at the pointer a successful
    sys_malloc returns are all zero, on the small and on the large path:
    the header that is written after the memset lies before the pointer. *)
Theorem sys_malloc_zeroed (size p : Z) (st st' : state)
    (Hinv : heap_inv (caller_pf st) st)
    (Hret : sys_malloc size st = Ret p st') (Hp : p <> NULL) :
  forall x, p <= x < p + size -> vmem st' x = 0.
Proof.
  intros x Hx.
  destruct (sys_malloc_heap_class size st p st' Hinv Hret Hp) as (_ & (I & _) & Hclass).
  assert (caller_pool_size st = pool_size (get_pool (pool_of (caller_pf st)) st)) as Eps.
  { unfold caller_pool_size, caller_pf. destruct (pgdir (cur st) =? NULL); reflexivity. }
  pose proof (hi_psize _ _ Hinv) as Hpsz.
  rewrite sys_malloc_eq, Eps in Hret.
  set (pf := caller_pf st) in *. set (mp := pool_of pf) in *. set (da := descs_of pf) in *.
  apply sys_malloc_in_Ret in Hret as [Hsize Hm]; [|exact Hp].
  destruct (1024 <? size) eqn:Ebig.
  - apply Z.ltb_lt in Ebig.
    apply sys_malloc_large_Ret in Hm as (a & s1 & Hmp & Ha & Hpa & ->); [|exact Hp].
    assert (vaddr_ok pf (locked mp st)) as Hv'
      by (eapply heap_rel_vaddr_ok; [|exact (hi_vaddr _ _ Hinv)]; auto with heap).
    destruct (malloc_page_addr _ _ _ _ _ Hv' Hmp Ha) as (Hcnt & Ha4 & _ & _ & Htop & _).
    set (n := DIV_ROUND_UP (wrap32 (size + sizeof_arena)) PG_SIZE) in *.
    unfold PG_SIZE, sizeof_arena in *.
    assert (size + 12 <= n * 4096) as Hn.
    { subst n. change 4096 with PG_SIZE. rewrite DIV_ROUND_UP_ceil by (unfold PG_SIZE; lia).
      apply ceil_div_ge. lia. }
    rewrite wrap32_small in Hpa by lia. subst p.
    transitivity (vmem (with_arena a (mk_arena None true n) (zeroed a (wrap32 (n * 4096)) s1)) x);
      [destruct mp; reflexivity|].
    rewrite wrap32_small by lia. cbn [with_arena zeroed vmem set_vmem set_arenas].
    unfold sizeof_arena.
    rewrite (proj2 (Z.ltb_ge x (a + 12))) by lia. rewrite andb_false_r.
    rewrite (proj2 (Z.leb_le a x)), (proj2 (Z.ltb_lt x (a + n * 4096))) by lia. reflexivity.
  - apply Z.ltb_ge in Ebig.
    destruct (find_desc_smallest _ size (hi_classes _ _ Hinv) ltac:(lia)) as (d0 & Hd0 & Hfit & _).
    fold pf da in Hd0.
    destruct (Hclass Ebig d0 Hd0) as ((Hr & _) & k & Hk & Ep).
    destruct (inv_page pf st' I _ (or_introl Hr)) as (A1 & A2 & A3 & _).
    destruct (slot_in_page d0 _ k (ci_desc _ _ _ _ (hi_class _ _ Hinv _ d0 Hd0)) A1 A2 A3 Hk)
      as (S1 & S2 & _).
    rewrite <- Ep in S1, S2.
    apply sys_malloc_small_Ret in Hm; [|exact Hp].
    rewrite get_descs_locked in Hm.
    assert (forall d' rest s, block_size d' = block_size d0 ->
              vmem (taken da (find_desc (get_descs da st) size 0 (Z.to_nat DESC_CNT)) mp
                      d' p rest s) x = 0) as Hz.
    { intros d' rest s Ebs. rewrite vmem_taken, Ebs. unfold sizeof_arena in *.
      rewrite (proj2 (Z.ltb_ge x (block2arena p + 12))) by lia. rewrite andb_false_r.
      rewrite (proj2 (Z.leb_le p x)), (proj2 (Z.ltb_lt x (p + block_size d0))) by lia.
      reflexivity. }
    destruct Hm as (d & Hd & [(_ & d' & b & rest & Hd' & _ & <- & ->)
                              | (Hfl & a & s1 & d' & b & rest & Hmp & Ha & Hd' & _ & <- & ->)]).
    + rewrite Hd0 in Hd'. injection Hd' as <-. apply Hz. reflexivity.
    + rewrite Hd0 in Hd. injection Hd as <-. apply Hz.
      rewrite get_descs_new_arena, get_descs_set_desc in Hd'.
      rewrite list_lookup_insert_eq in Hd'.
      * injection Hd' as <-. reflexivity.
      * rewrite (page_rel_descs _ _ da (malloc_page_page_rel _ _ _ _ _ Hmp)).
        rewrite get_descs_locked. eapply lookup_lt_Some. exact Hd0.
Qed.

Lemma sys_malloc_zeroed_50 :
  exists st', sys_malloc 50 state_32M = Ret 0xc010000c st'
              /\ vmem st' 0xc010000c = 0 /\ vmem st' (0xc010000c + 49) = 0.
Proof.
  assert (returned (sys_malloc 50 state_32M) = Some 0xc010000c) as Hr
    by (vm_compute; reflexivity).
  destruct (sys_malloc 50 state_32M) as [p st'|] eqn:E; [|discriminate Hr].
  injection Hr as ->. exists st'. split; [reflexivity|].
  pose proof (sys_malloc_zeroed 50 0xc010000c state_32M st' (proj1 heap_inv_state_32M) E
                ltac:(discriminate)) as H.
  split; apply H; lia.
Defined.


(** * The round trip of sys_malloc and sys_free *)




